(** * Catalog traversal and selection (meltano.core.plugin.singer.catalog)

    A shallow embedding of [catalog.py]: the select-pattern parser, the glob
    matcher, the traversal [visit] with its four-kind classification of
    nodes by path, the executor interface with its [KeyError]-swallowing
    dispatch, and the three executors: [SelectExecutor], [ListExecutor] and
    [ListSelectedExecutor] with its selection test and its report.

    Modelling choices.
    - Text is a Rocq [string], one [ascii] per character (code points below
      256 read as Latin-1); the classes [\d] and [\w] are given on that
      range.
    - A catalog document is a tree of Python values as [json.load] gives
      them: [None], booleans, integers, strings, lists and dicts with string
      keys in insertion order.  Non-integral numbers are left out: the
      engine never inspects a number.
    - The program mutates the document in place and keeps one alias into it,
      [SelectExecutor._stream].  Since the document is a tree, an object is
      named by its location (the keys and indices leading to it from the
      root); the state threaded through the handlers is the whole document
      together with the executor's own fields.  The only insertion that
      shifts indices is the one [stream_node] makes at the front of the
      metadata sequence of the node it is called on, before anything below
      that node is visited: no location in use points into that sequence.
    - Python exceptions are values of [exn]; a computation returns the state
      it has reached together with either a result or what stopped it, so
      that writes made before a raise stay visible.
    - [visit] is not structurally recursive on the document, which grows
      under it; it takes fuel, and keeps the state it has reached when the
      fuel runs out.
    - The collections of the listing executors are keyed by values of
      the document: an [OrderedDict] is an association list in insertion
      order, looked up by Python equality after the key has been hashed; a
      set is listed in the order its members were added, and nothing
      stated about a set depends on that order.
    - [fnmatch] and the regular expressions are those of the Python
      standard library (POSIX); they are modelled by what they accept. *)

From Stdlib Require Import List String Ascii Bool Arith NArith ZArith Lia.
From Stdlib Require Import DecimalString Permutation.
Import ListNotations.

Local Open Scope string_scope.
Local Open Scope nat_scope.
Local Open Scope list_scope.

(* ================================================================== *)
(** ** Text primitives *)

Module Text.

Definition chars (s : string) : list ascii := list_ascii_of_string s.
Definition text (cs : list ascii) : string := string_of_list_ascii cs.

Definition code (c : ascii) : N := N_of_ascii c.

Definition between (lo hi : N) (c : ascii) : bool :=
  (lo <=? code c)%N && (code c <=? hi)%N.

Definition is_newline (c : ascii) : bool := (code c =? 10)%N.

(** [\d] on a [str] pattern: the decimal digits; below U+0100 these are
    [0-9] only. *)
Definition is_digit (c : ascii) : bool := between 48 57 c.

(** [\w] on a [str] pattern: [_] and every character for which
    [str.isalnum] holds.  Below U+0100 that is [0-9A-Za-z], the letters
    of the Latin-1 supplement and its superscript digits and fractions. *)
Definition is_word (c : ascii) : bool :=
  between 48 57 c || between 65 90 c || between 97 122 c
  || (code c =? 95)%N
  || (code c =? 170)%N || (code c =? 178)%N || (code c =? 179)%N
  || (code c =? 181)%N || (code c =? 185)%N || (code c =? 186)%N
  || between 188 190 c
  || between 192 214 c || between 216 246 c || between 248 255 c.

(** [s.startswith(p)], on character lists: the rest after [p], if any. *)
Fixpoint strip_prefix (p s : list ascii) : option (list ascii) :=
  match p, s with
  | [], _ => Some s
  | _ :: _, [] => None
  | a :: p', b :: s' => if Ascii.eqb a b then strip_prefix p' s' else None
  end.

Definition startswith (p s : string) : bool :=
  match strip_prefix (chars p) (chars s) with Some _ => true | None => false end.

(** [s[1:]] *)
Definition drop_first (s : string) : string :=
  match s with EmptyString => EmptyString | String _ s' => s' end.

(** The first element of [s.split(".")]: the text before the first dot,
    all of [s] when it has none. *)
Fixpoint before_dot (s : string) : string :=
  match s with
  | EmptyString => EmptyString
  | String c s' => if Ascii.eqb c "."%char then EmptyString
                   else String c (before_dot s')
  end.

(** [sep.join(parts)] *)
Fixpoint join (sep : string) (parts : list string) : string :=
  match parts with
  | [] => EmptyString
  | [p] => p
  | p :: rest => (p ++ sep ++ join sep rest)%string
  end.

Fixpoint take_while (f : ascii -> bool) (s : list ascii) : list ascii :=
  match s with
  | c :: s' => if f c then c :: take_while f s' else []
  | [] => []
  end.

Fixpoint drop_while (f : ascii -> bool) (s : list ascii) : list ascii :=
  match s with
  | c :: s' => if f c then drop_while f s' else s
  | [] => []
  end.

(** The decimal rendering of an index, as [f"{index}"] gives it. *)
Definition decimal (i : nat) : string := NilZero.string_of_uint (Nat.to_uint i).

(** *** The three regular expressions of [visit] and the one of
    [property_node] *)

(** [re.search(name + r"\[\d+\]$", path)].  [$] holds at the end of the
    text and just before a newline that ends it; the expression ends in
    [\]], so a final newline is set aside and the rest must end in
    [name[digits]]. *)
Definition search_indexed (name path : string) : bool :=
  let r := rev (chars path) in
  let r := match r with
           | c :: r' => if is_newline c then r' else r
           | [] => r
           end in
  match r with
  | c :: r1 =>
      if Ascii.eqb c "]"%char then
        let r2 := drop_while is_digit r1 in
        (List.length r2 <? List.length r1)
        && match strip_prefix ("["%char :: rev (chars name)) r2 with
           | Some _ => true
           | None => false
           end
      else false
  | [] => false
  end.

(** What [.*$] accepts (without DOTALL or MULTILINE): characters other
    than newline up to the end, or up to one newline that ends the text. *)
Fixpoint line_end (s : list ascii) : bool :=
  match s with
  | [] => true
  | c :: s' => if is_newline c then match s' with [] => true | _ => false end
               else line_end s'
  end.

Definition schema_properties : list ascii := chars "schema.properties.".

(** [re.search(r"schema\.properties\..*$", path)]: some occurrence of
    [schema.properties.] is followed by a [line_end]. *)
Fixpoint search_from (s : list ascii) : bool :=
  match strip_prefix schema_properties s with
  | Some rest => line_end rest
  | None => false
  end
  || match s with
     | [] => false
     | _ :: s' => search_from s'
     end.

Definition search_schema_properties (path : string) : bool :=
  search_from (chars path).

(** [re.findall(r"properties\.(\w+)+", path)]: the matches are scanned
    from left to right without overlap; a match is [properties.] followed
    by the longest non-empty run of word characters, and the group holds
    that run.  [skip] counts the characters of the last match that are
    still to be passed. *)
Fixpoint findall_from (skip : nat) (s : list ascii) : list string :=
  match s with
  | [] => []
  | _ :: s' =>
      match skip with
      | S k => findall_from k s'
      | O =>
          match strip_prefix (chars "properties.") s with
          | Some rest =>
              match take_while is_word rest with
              | [] => findall_from 0 s'
              | w => text w :: findall_from (10 + List.length w) s'
              end
          | None => findall_from 0 s'
          end
      end
  end.

Definition findall_properties (path : string) : list string :=
  findall_from 0 (chars path).

(** [s.split(".")]: the pieces between the dots, one more than there are
    dots. *)
Fixpoint split_dot (s : string) : list string :=
  match s with
  | EmptyString => [EmptyString]
  | String c s' =>
      if Ascii.eqb c "."%char then EmptyString :: split_dot s'
      else match split_dot s' with
           | piece :: rest => String c piece :: rest
           | [] => [String c EmptyString]
           end
  end.

End Text.

(* ================================================================== *)
(** ** [fnmatch.fnmatch] (standard library, POSIX)

    [fnmatch(name, pat)] translates [pat] to a regular expression that must
    match all of [name]: [*] any text, [?] any one character, [[seq]] one
    character of [seq], [[!seq]] one character not in [seq], anything else
    itself.  On POSIX [os.path.normcase] changes nothing, so the match is
    case-sensitive. *)

Module Fnmatch.

Inductive token : Type :=
| TStar
| TAny
| TSet (negated : bool) (items : list ascii)
| TLit (c : ascii).

Fixpoint until_rbracket (s : list ascii) : option (list ascii * list ascii) :=
  match s with
  | [] => None
  | c :: s' =>
      if Ascii.eqb c "]"%char then Some ([], s')
      else match until_rbracket s' with
           | Some (a, r) => Some (c :: a, r)
           | None => None
           end
  end.

Definition prepend (p : list ascii) (r : option (list ascii * list ascii)) :=
  match r with
  | Some (a, rest) => Some (p ++ a, rest)
  | None => None
  end.

(** The text between [[] and its closing []]: a leading [!] and then a
    leading []] belong to the set. *)
Definition bracket (s : list ascii) : option (list ascii * list ascii) :=
  match s with
  | "!"%char :: "]"%char :: s' => prepend ["!"%char; "]"%char] (until_rbracket s')
  | "!"%char :: s' => prepend ["!"%char] (until_rbracket s')
  | "]"%char :: s' => prepend ["]"%char] (until_rbracket s')
  | _ => until_rbracket s
  end.

(** [fnmatch.translate]; an unclosed [[] is a literal. *)
Fixpoint translate_from (skip : nat) (s : list ascii) : list token :=
  match s with
  | [] => []
  | c :: s' =>
      match skip with
      | S k => translate_from k s'
      | O =>
          if Ascii.eqb c "*"%char then TStar :: translate_from 0 s'
          else if Ascii.eqb c "?"%char then TAny :: translate_from 0 s'
          else if Ascii.eqb c "["%char then
            match bracket s' with
            | Some (stuff, _) =>
                match stuff with
                | "!"%char :: items =>
                    TSet true items :: translate_from (S (List.length stuff)) s'
                | _ => TSet false stuff :: translate_from (S (List.length stuff)) s'
                end
            | None => TLit c :: translate_from 0 s'
            end
          else TLit c :: translate_from 0 s'
      end
  end.

Definition translate (pat : string) : list token :=
  translate_from 0 (Text.chars pat).

(** Membership in a set: [lo-hi] is a range of code points (empty when
    [hi < lo]), every other character stands for itself. *)
Fixpoint in_set (c : ascii) (items : list ascii) : bool :=
  match items with
  | [] => false
  | lo :: rest =>
      match rest with
      | dash :: hi :: rest' =>
          if Ascii.eqb dash "-"%char
          then Text.between (Text.code lo) (Text.code hi) c || in_set c rest'
          else Ascii.eqb c lo || in_set c rest
      | _ => Ascii.eqb c lo || in_set c rest
      end
  end.

Definition token_accepts (t : token) (c : ascii) : bool :=
  match t with
  | TStar => true
  | TAny => true
  | TSet negated items => xorb negated (in_set c items)
  | TLit a => Ascii.eqb a c
  end.

Fixpoint match_tokens (ts : list token) (s : list ascii) : bool :=
  match ts with
  | [] => match s with [] => true | _ => false end
  | TStar :: ts' =>
      (fix star (s : list ascii) : bool :=
         match_tokens ts' s
         || match s with
            | [] => false
            | _ :: s' => star s'
            end) s
  | t :: ts' =>
      match s with
      | [] => false
      | c :: s' => token_accepts t c && match_tokens ts' s'
      end
  end.

Definition fnmatch (name pat : string) : bool :=
  match_tokens (translate pat) (Text.chars name).

End Fnmatch.

(* ================================================================== *)
(** ** Python values, exceptions and computations *)

Unset Elimination Schemes.
Inductive value : Type :=
| VNone
| VBool (b : bool)
| VInt (z : Z)
| VStr (s : string)
| VList (xs : list value)
| VDict (kvs : list (string * value)).
Set Elimination Schemes.

(** Induction over a document reaches every element of a list and every
    field of a dict. *)
Fixpoint value_ind (P : value -> Prop)
  (HNone : P VNone)
  (HBool : forall b, P (VBool b))
  (HInt : forall z, P (VInt z))
  (HStr : forall s, P (VStr s))
  (HList : forall xs, Forall P xs -> P (VList xs))
  (HDict : forall kvs, Forall (fun kv => P (snd kv)) kvs -> P (VDict kvs))
  (v : value) {struct v} : P v :=
  match v with
  | VNone => HNone
  | VBool b => HBool b
  | VInt z => HInt z
  | VStr s => HStr s
  | VList xs =>
      HList xs
        ((fix go (xs : list value) : Forall P xs :=
            match xs with
            | [] => Forall_nil P
            | x :: rest =>
                Forall_cons x
                  (value_ind P HNone HBool HInt HStr HList HDict x) (go rest)
            end) xs)
  | VDict kvs =>
      HDict kvs
        ((fix go (kvs : list (string * value))
            : Forall (fun kv => P (snd kv)) kvs :=
            match kvs with
            | [] => Forall_nil _
            | kv :: rest =>
                Forall_cons kv
                  (value_ind P HNone HBool HInt HStr HList HDict (snd kv))
                  (go rest)
            end) kvs)
  end.

(** The exceptions the engine can meet. *)
Inductive exn : Type := KeyError | TypeError | AttributeError | StopIteration.

(** Why a computation stopped without a result: a Python exception, or a
    limit of the model (the traversal ran out of fuel; a location no longer
    names an object, which does not happen on a tree). *)
Inductive stop : Type := Exn (e : exn) | OutOfFuel | Dangling.

Inductive res (A : Type) : Type :=
| Done (a : A)
| Stop (why : stop).
Arguments Done {A} a.
Arguments Stop {A} why.

Definition raise {A : Type} (e : exn) : res A := Stop (Exn e).

Definition res_bind {A B : Type} (c : res A) (k : A -> res B) : res B :=
  match c with
  | Done a => k a
  | Stop why => Stop why
  end.

Notation "'let*' x ':=' c 'in' k" := (res_bind c (fun x => k))
  (at level 61, x name, c at next level, right associativity).

(** *** Dicts as association lists in insertion order (keys are unique) *)

Fixpoint lookup {A : Type} (k : string) (kvs : list (string * A)) : option A :=
  match kvs with
  | [] => None
  | (k', v) :: rest => if String.eqb k' k then Some v else lookup k rest
  end.

Definition has_key {A : Type} (k : string) (kvs : list (string * A)) : bool :=
  match lookup k kvs with Some _ => true | None => false end.

(** [d[k] = v]: an existing key keeps its place, a new one goes last. *)
Fixpoint assign {A : Type} (k : string) (v : A) (kvs : list (string * A))
  : list (string * A) :=
  match kvs with
  | [] => [(k, v)]
  | (k', v') :: rest =>
      if String.eqb k' k then (k, v) :: rest else (k', v') :: assign k v rest
  end.

Definition keys {A : Type} (kvs : list (string * A)) : list string := map fst kvs.

(** *** Operations of the Python object model, as far as the engine uses them *)

(** [v[k]] for a string [k] *)
Definition py_getitem (v : value) (k : string) : res value :=
  match v with
  | VDict kvs => match lookup k kvs with
                 | Some x => Done x
                 | None => raise KeyError
                 end
  | _ => raise TypeError
  end.

(** [len(v)] *)
Definition py_len (v : value) : res nat :=
  match v with
  | VList xs => Done (List.length xs)
  | VDict kvs => Done (List.length kvs)
  | VStr s => Done (String.length s)
  | _ => raise TypeError
  end.

(** The elements [for x in v] goes through: those of a list, the keys of a
    dict, the characters of a string. *)
Definition py_iter (v : value) : res (list value) :=
  match v with
  | VList xs => Done xs
  | VDict kvs => Done (map VStr (keys kvs))
  | VStr s => Done (map (fun c => VStr (String c EmptyString)) (Text.chars s))
  | _ => raise TypeError
  end.

(** [a == b] *)
Fixpoint py_eqb (a b : value) {struct a} : bool :=
  match a, b with
  | VNone, VNone => true
  | VBool x, VBool y => Bool.eqb x y
  | VBool x, VInt y => Z.eqb (if x then 1 else 0) y
  | VInt x, VBool y => Z.eqb x (if y then 1 else 0)
  | VInt x, VInt y => Z.eqb x y
  | VStr x, VStr y => String.eqb x y
  | VList xs, VList ys =>
      (fix all2 (xs ys : list value) : bool :=
         match xs, ys with
         | [], [] => true
         | x :: xs', y :: ys' => py_eqb x y && all2 xs' ys'
         | _, _ => false
         end) xs ys
  | VDict kvs, VDict kvs' =>
      (List.length kvs =? List.length kvs')
      && (fix all (kvs : list (string * value)) : bool :=
            match kvs with
            | [] => true
            | (k, v) :: rest =>
                match lookup k kvs' with
                | Some v' => py_eqb v v'
                | None => false
                end && all rest
            end) kvs
  | _, _ => false
  end.

(** [bool(v)] *)
Definition py_truthy (v : value) : bool :=
  match v with
  | VNone => false
  | VBool b => b
  | VInt z => negb (Z.eqb z 0)
  | VStr s => negb (String.eqb s EmptyString)
  | VList xs => match xs with [] => false | _ => true end
  | VDict kvs => match kvs with [] => false | _ => true end
  end.

(** [sep.join(v)]: every element must be a string. *)
Fixpoint all_str (xs : list value) : res (list string) :=
  match xs with
  | [] => Done []
  | VStr s :: rest => let* r := all_str rest in Done (s :: r)
  | _ :: _ => raise TypeError
  end.

Definition py_join (sep : string) (v : value) : res string :=
  let* xs := py_iter v in
  let* parts := all_str xs in
  Done (Text.join sep parts).

(** [any(f(x) for x in xs)], which stops at the first true. *)
Fixpoint py_any {A : Type} (f : A -> res bool) (xs : list A) : res bool :=
  match xs with
  | [] => Done false
  | x :: rest => let* b := f x in if b then Done true else py_any f rest
  end.

(** The position of the first element satisfying [cond], as
    [next(x for x in xs if cond(x))] finds it; [StopIteration] when there
    is none. *)
Fixpoint next_from (cond : value -> res bool) (i : nat) (xs : list value) : res nat :=
  match xs with
  | [] => raise StopIteration
  | x :: rest => let* b := cond x in if b then Done i else next_from cond (S i) rest
  end.

Definition next_index (cond : value -> res bool) (seq : value) : res nat :=
  let* xs := py_iter seq in next_from cond 0 xs.

(** [fnmatch(value, pat)]: only text can be matched. *)
Definition py_fnmatch (v : value) (pat : string) : res bool :=
  match v with
  | VStr s => Done (Fnmatch.fnmatch s pat)
  | _ => raise TypeError
  end.

(** [v[1:]]: a list or a text without its first element.  Nothing else
    the engine meets can be sliced (a dict answers [TypeError] as long as
    slices are unhashable, which they are before Python 3.12). *)
Definition py_from1 (v : value) : res value :=
  match v with
  | VList xs => Done (VList (tl xs))
  | VStr s => Done (VStr (Text.drop_first s))
  | _ => raise TypeError
  end.

(** *** Dicts keyed by values, and sets

    A dict or a set first takes the hash of a key, which a list and a dict
    do not have, and then looks for an entry whose key equals it.  An
    [OrderedDict] is listed in insertion order; a set is listed in some
    order, here the one its members were added in. *)

Definition py_hash (v : value) : res unit :=
  match v with
  | VList _ | VDict _ => raise TypeError
  | _ => Done tt
  end.

Fixpoint dict_get {A : Type} (k : value) (d : list (value * A)) : option A :=
  match d with
  | [] => None
  | (k', v) :: rest => if py_eqb k' k then Some v else dict_get k rest
  end.

(** An entry that is there keeps its place and its key, a new one goes
    last. *)
Fixpoint dict_set {A : Type} (k : value) (v : A) (d : list (value * A))
  : list (value * A) :=
  match d with
  | [] => [(k, v)]
  | (k', v') :: rest =>
      if py_eqb k' k then (k', v) :: rest else (k', v') :: dict_set k v rest
  end.

(** [k in d] *)
Definition py_contains {A : Type} (k : value) (d : list (value * A)) : res bool :=
  let* _ := py_hash k in
  Done (match dict_get k d with Some _ => true | None => false end).

(** [d[k]] *)
Definition py_lookup {A : Type} (k : value) (d : list (value * A)) : res A :=
  let* _ := py_hash k in
  match dict_get k d with
  | Some v => Done v
  | None => raise KeyError
  end.

(** [d[k] = v] *)
Definition py_store {A : Type} (k : value) (v : A) (d : list (value * A))
  : res (list (value * A)) :=
  let* _ := py_hash k in Done (dict_set k v d).

(** [next(reversed(d))]: the key inserted last. *)
Definition py_last_key {A : Type} (d : list (value * A)) : res value :=
  match rev d with
  | (k, _) :: _ => Done k
  | [] => raise StopIteration
  end.

(** [s.add(x)], for a set whose members are compared by [eqb]. *)
Definition set_add {A : Type} (eqb : A -> A -> bool) (x : A) (s : list A) : list A :=
  if existsb (fun y => eqb y x) s then s else s ++ [x].

(* ================================================================== *)
(** ** Locations in the document *)

Inductive step : Type := Key (k : string) | Idx (i : nat).
Definition loc : Type := list step.

Definition child (s : step) (v : value) : option value :=
  match s, v with
  | Key k, VDict kvs => lookup k kvs
  | Idx i, VList xs => nth_error xs i
  | _, _ => None
  end.

Fixpoint get_at (l : loc) (v : value) : option value :=
  match l with
  | [] => Some v
  | s :: l' => match child s v with
               | Some c => get_at l' c
               | None => None
               end
  end.

Fixpoint set_nth {A : Type} (i : nat) (x : A) (xs : list A) : list A :=
  match xs, i with
  | [], _ => []
  | _ :: rest, O => x :: rest
  | y :: rest, S j => y :: set_nth j x rest
  end.

Definition put_child (s : step) (c v : value) : value :=
  match s, v with
  | Key k, VDict kvs => VDict (assign k c kvs)
  | Idx i, VList xs => VList (set_nth i c xs)
  | _, _ => v
  end.

(** The document with the object at [l] replaced by [new]. *)
Fixpoint set_at (l : loc) (new v : value) : value :=
  match l with
  | [] => new
  | s :: l' => match child s v with
               | Some c => put_child s (set_at l' new c) v
               | None => v
               end
  end.

(* ================================================================== *)
(** ** Stateful computations over the document *)

Record world (S : Type) : Type := World { doc : value; self : S }.
Arguments World {S} doc self.
Arguments doc {S} w.
Arguments self {S} w.

Definition M (S A : Type) : Type := world S -> world S * res A.

Definition ret {S A : Type} (a : A) : M S A := fun w => (w, Done a).

Definition bind {S A B : Type} (c : M S A) (k : A -> M S B) : M S B :=
  fun w => match c w with
           | (w', Done a) => k a w'
           | (w', Stop why) => (w', Stop why)
           end.

Notation "x <- c ;; k" := (bind c (fun x => k))
  (at level 61, c at next level, right associativity).
Notation "c ;; k" := (bind c (fun _ => k))
  (at level 61, right associativity).

Definition lift {S A : Type} (r : res A) : M S A := fun w => (w, r).

Definition halt {S A : Type} (why : stop) : M S A := fun w => (w, Stop why).

(** [try: body except ...:] the handler names the exceptions it takes. *)
Definition catch {S A : Type} (body : M S A) (handler : exn -> option (M S A))
  : M S A :=
  fun w => match body w with
           | (w', Stop (Exn e)) =>
               match handler e with
               | Some h => h w'
               | None => (w', Stop (Exn e))
               end
           | r => r
           end.

Definition get_self {S : Type} : M S S := fun w => (w, Done (self w)).
Definition put_self {S : Type} (s : S) : M S unit :=
  fun w => (World (doc w) s, Done tt).

(** The object at a location. *)
Definition read {S : Type} (l : loc) : M S value :=
  fun w => match get_at l (doc w) with
           | Some v => (w, Done v)
           | None => (w, Stop Dangling)
           end.

Definition write {S : Type} (l : loc) (v : value) : M S unit :=
  fun w => (World (set_at l v (doc w)) (self w), Done tt).

(** [obj[k]] as a value, and as a reference to the object it yields *)
Definition getitem {S : Type} (obj : loc) (k : string) : M S value :=
  v <- read obj ;; lift (py_getitem v k).

Definition ref_item {S : Type} (obj : loc) (k : string) : M S loc :=
  _ <- getitem obj k ;; ret (obj ++ [Key k]).

(** [obj[k] = v] *)
Definition setitem {S : Type} (obj : loc) (k : string) (v : value) : M S unit :=
  o <- read obj ;;
  match o with
  | VDict kvs => write obj (VDict (assign k v kvs))
  | _ => lift (raise TypeError)
  end.

(** [obj.insert(0, v)] and [obj.append(v)] *)
Definition list_insert0 {S : Type} (obj : loc) (v : value) : M S unit :=
  o <- read obj ;;
  match o with
  | VList xs => write obj (VList (v :: xs))
  | _ => lift (raise AttributeError)
  end.

Definition list_append {S : Type} (obj : loc) (v : value) : M S unit :=
  o <- read obj ;;
  match o with
  | VList xs => write obj (VList (xs ++ [v]))
  | _ => lift (raise AttributeError)
  end.

Fixpoint for_each {S A : Type} (xs : list A) (f : A -> M S unit) : M S unit :=
  match xs with
  | [] => ret tt
  | x :: rest => f x ;; for_each rest f
  end.

(* ================================================================== *)
(** ** Select patterns *)

Record SelectPattern : Type := {
  stream_pattern : string;
  property_pattern : string;
  negated : bool
}.

Definition parse_select_pattern (pattern : string) : SelectPattern :=
  let negated := Text.startswith "!" pattern in
  let pattern := if negated then Text.drop_first pattern else pattern in
  let stream := Text.before_dot pattern in
  {| stream_pattern := stream; property_pattern := pattern; negated := negated |}.

(* ================================================================== *)
(** ** Node kinds and the executor interface *)

Inductive CatalogNode : Type :=
| STREAM
| STREAM_METADATA
| STREAM_PROPERTY
| STREAM_PROPERTY_METADATA.

(** A handler receives the node (by reference) and its path. *)
Definition handler (S : Type) : Type := loc -> string -> M S unit.

Module CatalogExecutor.

(** An executor is its four handlers; a subclass overrides some. *)
Record t (S : Type) : Type := {
  stream_node : handler S;
  property_node : handler S;
  stream_metadata_node : handler S;
  property_metadata_node : handler S
}.
Arguments stream_node {S} _.
Arguments property_node {S} _.
Arguments stream_metadata_node {S} _.
Arguments property_metadata_node {S} _.

(** The handlers of the base class do nothing. *)
Definition pass {S : Type} : handler S := fun _ _ => ret tt.

Definition base (S : Type) : t S :=
  {| stream_node := pass;
     property_node := pass;
     stream_metadata_node := pass;
     property_metadata_node := pass |}.

(** The dispatch table of [execute]. *)
Definition dispatch {S : Type} (ex : t S) (node_type : CatalogNode) : handler S :=
  match node_type with
  | STREAM => stream_node ex
  | STREAM_METADATA => stream_metadata_node ex
  | STREAM_PROPERTY_METADATA => property_metadata_node ex
  | STREAM_PROPERTY => property_node ex
  end.

(** [node_type] is [None] for a value that is not a member of
    [CatalogNode]: the table lookup then raises [KeyError] inside the
    [try]. *)
Definition execute {S : Type} (ex : t S)
  (node_type : option CatalogNode) (node : loc) (path : string) : M S unit :=
  catch
    match node_type with
    | Some kind => dispatch ex kind node path
    | None => lift (raise KeyError)
    end
    (fun e => match e with
              | KeyError => Some (ret tt)
              | _ => None
              end).

End CatalogExecutor.

(* ================================================================== *)
(** ** SelectExecutor *)

Module SelectExecutor.

(** The executor's own mutable field is [_stream]: [None], or a reference
    to the stream node last visited.  [_patterns] never changes. *)
Abbreviation state := (option loc) (only parsing).

Definition init (patterns : list string) : list SelectPattern * state :=
  (map parse_select_pattern patterns, None).

(** [self._stream], about to be subscripted: [None] cannot be. *)
Definition the_stream : M state loc :=
  s <- get_self ;;
  match s with
  | Some stream => ret stream
  | None => lift (raise TypeError)
  end.

Definition current_stream : M state value :=
  stream <- the_stream ;; getitem stream "stream".

Definition _match_patterns (v : value) (include exclude : list string) : res bool :=
  let* included := py_any (py_fnmatch v) include in
  let* excluded := py_any (py_fnmatch v) exclude in
  Done (included && negb excluded).

Definition update_node_selection (node : loc) (path : string) (selected : bool)
  : M state unit :=
  setitem node "selected" (VBool selected).

Definition stream_match_patterns (patterns : list SelectPattern) (stream : value)
  : res bool :=
  _match_patterns stream
    (map stream_pattern (filter (fun p => negb (negated p)) patterns))
    [].

Definition property_match_patterns (patterns : list SelectPattern) (prop : value)
  : res bool :=
  _match_patterns prop
    (map property_pattern (filter (fun p => negb (negated p)) patterns))
    (map property_pattern (filter (fun p => negated p) patterns)).

(** The entry [stream_node] creates for a stream that has none. *)
Definition stream_metadata : value :=
  VDict [("breadcrumb", VList []);
         ("metadata", VDict [("inclusion", VStr "automatic")])].

(** [len(metadata["breadcrumb"]) == 0] *)
Definition empty_breadcrumb (metadata : value) : res bool :=
  let* b := py_getitem metadata "breadcrumb" in
  let* n := py_len b in
  Done (n =? 0).

Definition stream_node (patterns : list SelectPattern) : handler state :=
  fun node path =>
    put_self (Some node) ;;
    stream <- current_stream ;;
    selected <- lift (stream_match_patterns patterns stream) ;;
    catch
      (entries <- getitem node "metadata" ;;
       i <- lift (next_index empty_breadcrumb entries) ;;
       target <- ref_item (node ++ [Key "metadata"; Idx i]) "metadata" ;;
       update_node_selection target path selected)
      (fun e =>
         match e with
         | KeyError => Some (setitem node "metadata" (VList [stream_metadata]))
         | StopIteration =>
             Some (entries <- ref_item node "metadata" ;;
                   list_insert0 entries stream_metadata)
         | _ => None
         end) ;;
    update_node_selection node path selected.

Definition stream_metadata_node (patterns : list SelectPattern) : handler state :=
  fun node path =>
    metadata <- ref_item node "metadata" ;;
    stream <- current_stream ;;
    selected <- lift (stream_match_patterns patterns stream) ;;
    update_node_selection metadata path selected.

(** [metadata["breadcrumb"] == breadcrumb] *)
Definition has_breadcrumb (breadcrumb metadata : value) : res bool :=
  let* b := py_getitem metadata "breadcrumb" in
  Done (py_eqb b breadcrumb).

Definition property_node (patterns : list SelectPattern) : handler state :=
  fun node path =>
    let components := Text.findall_properties path in
    stream <- current_stream ;;
    let breadcrumb := VList (stream :: map VStr components) in
    _stream <- the_stream ;;
    catch
      (entries <- getitem _stream "metadata" ;;
       _ <- lift (next_index (has_breadcrumb breadcrumb) entries) ;;
       ret tt)
      (fun e =>
         match e with
         | StopIteration =>
             Some (entries <- ref_item _stream "metadata" ;;
                   list_append entries
                     (VDict [("breadcrumb", breadcrumb);
                             ("metadata",
                              VDict [("inclusion", VStr "automatic")])]))
         | _ => None
         end).

Definition property_metadata_node (patterns : list SelectPattern) : handler state :=
  fun node path =>
    breadcrumb <- getitem node "breadcrumb" ;;
    prop <- lift (py_join "." breadcrumb) ;;
    selected <- lift (property_match_patterns patterns (VStr prop)) ;;
    metadata <- ref_item node "metadata" ;;
    update_node_selection metadata path selected.

Definition make (patterns : list string) : CatalogExecutor.t state :=
  let patterns := fst (init patterns) in
  {| CatalogExecutor.stream_node := stream_node patterns;
     CatalogExecutor.property_node := property_node patterns;
     CatalogExecutor.stream_metadata_node := stream_metadata_node patterns;
     CatalogExecutor.property_metadata_node := property_metadata_node patterns |}.

End SelectExecutor.

(* ================================================================== *)
(** ** The traversal *)

Definition when {S : Type} (b : bool) (c : M S unit) : M S unit :=
  if b then c else ret tt.

(** [visit(node, executor, path)].  The node is read where it stands in the
    document, so a child is seen as earlier handlers left it; the items of
    a dict are those it has once its own handlers have run, and a list is
    walked by index against its current length, as Python's list iterator
    does.  [fuel] bounds the number of nested calls. *)
Fixpoint visit {T : Type} (fuel : nat) (executor : CatalogExecutor.t T)
  (node : loc) (path : string) {struct fuel} : M T unit :=
  match fuel with
  | O => halt OutOfFuel
  | S fuel' =>
      v <- read node ;;
      match v with
      | VDict _ =>
          when (Text.search_indexed "streams" path)
            (CatalogExecutor.execute executor (Some STREAM) node path) ;;
          when (Text.search_schema_properties path)
            (CatalogExecutor.execute executor (Some STREAM_PROPERTY) node path) ;;
          v <- read node ;;
          match v with
          | VDict kvs =>
              when (Text.search_indexed "metadata" path && has_key "breadcrumb" kvs)
                (breadcrumb <- getitem node "breadcrumb" ;;
                 n <- lift (py_len breadcrumb) ;;
                 if n =? 0
                 then CatalogExecutor.execute executor (Some STREAM_METADATA) node path
                 else CatalogExecutor.execute executor
                        (Some STREAM_PROPERTY_METADATA) node path)
          | _ => halt Dangling
          end ;;
          v <- read node ;;
          match v with
          | VDict kvs =>
              for_each (keys kvs)
                (fun child_path =>
                   visit fuel' executor (node ++ [Key child_path])
                     (path ++ "." ++ child_path)%string)
          | _ => halt Dangling
          end
      | VList _ => visit_list fuel' executor node path 0
      | _ => ret tt
      end
  end

with visit_list {T : Type} (fuel : nat) (executor : CatalogExecutor.t T)
  (node : loc) (path : string) (index : nat) {struct fuel} : M T unit :=
  match fuel with
  | O => halt OutOfFuel
  | S fuel' =>
      v <- read node ;;
      match v with
      | VList xs =>
          if index <? List.length xs then
            visit fuel' executor (node ++ [Idx index])
              (path ++ "[" ++ Text.decimal index ++ "]")%string ;;
            visit_list fuel' executor node path (S index)
          else ret tt
      | _ => halt Dangling
      end
  end.

(** A whole selection pass: a fresh [SelectExecutor] over the document,
    from the root and the empty path. *)
Definition select (fuel : nat) (patterns : list string) (catalog : value)
  : value * res unit :=
  let '(w, r) := visit fuel (SelectExecutor.make patterns) [] ""
                   (World catalog (snd (SelectExecutor.init patterns))) in
  (doc w, r).

(* ================================================================== *)
(** ** ListExecutor *)

Module ListExecutor.

(** The executor's field [properties]: an [OrderedDict] from stream names
    to sets of property names. *)
Abbreviation state := (list (value * list string)) (only parsing).

Definition init : state := [].

Definition stream_node : handler state :=
  fun node path =>
    stream <- getitem node "stream" ;;
    properties <- get_self ;;
    present <- lift (py_contains stream properties) ;;
    if present then ret tt
    else
      properties <- lift (py_store stream [] properties) ;;
      put_self properties.

(** [*_, name = path.split(".")] takes the last piece.  The set the name
    is added to is the one [properties] holds for the key inserted last. *)
Definition property_node : handler state :=
  fun node path =>
    let name := last (Text.split_dot path) EmptyString in
    properties <- get_self ;;
    stream <- lift (py_last_key properties) ;;
    names <- lift (py_lookup stream properties) ;;
    put_self (dict_set stream (set_add String.eqb name names) properties).

Definition make : CatalogExecutor.t state :=
  {| CatalogExecutor.stream_node := stream_node;
     CatalogExecutor.property_node := property_node;
     CatalogExecutor.stream_metadata_node := CatalogExecutor.pass;
     CatalogExecutor.property_metadata_node := CatalogExecutor.pass |}.

End ListExecutor.

(* ================================================================== *)
(** ** ListSelectedExecutor: selection test and report *)

Module ListSelectedExecutor.

(** [streams] is a set of [SelectedNode(key, selected)] pairs whose keys
    are stream names, and each value of [properties] is such a set whose
    keys are the dotted names [".".join] builds; a set is listed here in
    the order a loop happens to go through it.  [properties] is an
    [OrderedDict] keyed by the stream names. *)
Record state : Type := {
  streams : list (value * value);
  properties : list (value * list (string * value))
}.

(** [d.get(k, default)] *)
Definition py_get (d : value) (k : string) (default : value) : res value :=
  match d with
  | VDict kvs => match lookup k kvs with
                 | Some v => Done v
                 | None => Done default
                 end
  | _ => raise AttributeError
  end.

Definition is_node_selected (node : value) : res value :=
  match
    (let* metadata := py_getitem node "metadata" in
     let* inclusion := py_get metadata "inclusion" VNone in
     if py_eqb inclusion (VStr "automatic") then Done (VBool true)
     else py_get metadata "selected" (VBool false))
  with
  | Stop (Exn KeyError) => Done (VBool false)
  | r => r
  end.

(** [del d[k]] on a dict keyed by values *)
Fixpoint py_del {A : Type} (k : value) (d : list (value * A))
  : res (list (value * A)) :=
  match d with
  | [] => raise KeyError
  | (k', v) :: rest =>
      if py_eqb k' k then Done rest
      else let* rest' := py_del k rest in Done ((k', v) :: rest')
  end.

Fixpoint del_each {A : Type} (ks : list value) (d : list (value * A))
  : res (list (value * A)) :=
  match ks with
  | [] => Done d
  | k :: rest => let* d' := py_del k d in del_each rest d'
  end.

(** A set of names, built by adding them one after the other. *)
Fixpoint set_of (names : list string) : list string :=
  match names with
  | [] => []
  | n :: rest =>
      let s := set_of rest in
      if existsb (String.eqb n) s then s else n :: s
  end.

Definition selected_properties (self : state) : res (list (value * list string)) :=
  let selected := properties self in
  let* selected :=
    del_each
      (map fst (filter (fun node => negb (py_truthy (snd node))) (streams self)))
      selected in
  Done (map (fun entry : value * list (string * value) =>
               let (stream, props) := entry in
               (stream,
                set_of (map fst (filter (fun node => py_truthy (snd node)) props))))
            selected).

(** The executor object: the two collections, and [_stream], an attribute
    the object has only once [stream_node] has set it. *)
Record object : Type := {
  _stream : option value;
  collected : state
}.

Definition init : object :=
  {| _stream := None; collected := {| streams := []; properties := [] |} |}.

(** [self._stream] *)
Definition current : M object value :=
  o <- get_self ;;
  match _stream o with
  | Some stream => ret stream
  | None => lift (raise AttributeError)
  end.

(** Two [SelectedNode] tuples are equal when their fields are. *)
Definition same_node {K : Type} (eqb : K -> K -> bool) (a b : K * value) : bool :=
  eqb (fst a) (fst b) && py_eqb (snd a) (snd b).

Definition stream_node : handler object :=
  fun node path =>
    stream <- getitem node "stream" ;;
    o <- get_self ;;
    put_self {| _stream := Some stream; collected := collected o |} ;;
    properties' <- lift (py_store stream [] (properties (collected o))) ;;
    put_self {| _stream := Some stream;
                collected := {| streams := streams (collected o);
                                properties := properties' |} |}.

Definition stream_metadata_node : handler object :=
  fun node path =>
    stream <- current ;;
    n <- read node ;;
    selected <- lift (is_node_selected n) ;;
    lift (py_hash stream) ;;
    lift (py_hash selected) ;;
    o <- get_self ;;
    put_self {| _stream := _stream o;
                collected :=
                  {| streams := set_add (same_node py_eqb) (stream, selected)
                                  (streams (collected o));
                     properties := properties (collected o) |} |}.

Definition property_metadata_node : handler object :=
  fun node path =>
    breadcrumb <- getitem node "breadcrumb" ;;
    rest <- lift (py_from1 breadcrumb) ;;
    name <- lift (py_join "." rest) ;;
    n <- read node ;;
    selected <- lift (is_node_selected n) ;;
    stream <- current ;;
    o <- get_self ;;
    props <- lift (py_lookup stream (properties (collected o))) ;;
    lift (py_hash selected) ;;
    put_self {| _stream := _stream o;
                collected :=
                  {| streams := streams (collected o);
                     properties :=
                       dict_set stream
                         (set_add (same_node String.eqb) (name, selected) props)
                         (properties (collected o)) |} |}.

Definition make : CatalogExecutor.t object :=
  {| CatalogExecutor.stream_node := stream_node;
     CatalogExecutor.property_node := CatalogExecutor.pass;
     CatalogExecutor.stream_metadata_node := stream_metadata_node;
     CatalogExecutor.property_metadata_node := property_metadata_node |}.

End ListSelectedExecutor.

(* ================================================================== *)
(** * The vocabulary of the statements

    What the properties below are stated with: the decisions of the
    selection visitor named, the shapes of paths and documents, the writes
    a selection pass may make, and the small catalogs the statements are
    tried on. *)

(** The patterns a rule list includes and excludes at property level. *)
Definition property_includes (patterns : list SelectPattern) : list string :=
  map property_pattern (filter (fun p => negb (negated p)) patterns).

Definition property_excludes (patterns : list SelectPattern) : list string :=
  map property_pattern (filter (fun p => negated p) patterns).

(** The property path as the specification words it: the breadcrumb
    without its first element, joined by dots. *)
Definition spec_property_path (breadcrumb : list string) : string :=
  Text.join "." (tl breadcrumb).

(** The entry of property [id] of [stream1], and the one rule [stream1.*]. *)
Definition c2_patterns : list SelectPattern := map parse_select_pattern ["stream1.*"].

Definition c2_fields : list (string * value) :=
  [("breadcrumb", VList [VStr "stream1"; VStr "id"]);
   ("metadata", VDict [("inclusion", VStr "available")])].

Definition c2_node : value := VDict c2_fields.

(** The stream patterns of the rules that are not negated. *)
Definition stream_includes (patterns : list SelectPattern) : list string :=
  map stream_pattern (filter (fun p => negb (negated p)) patterns).

(** The stream-level decision on a stream called [name]. *)
Definition stream_selected (patterns : list SelectPattern) (name : string) : bool :=
  existsb (Fnmatch.fnmatch name) (stream_includes patterns).
Arguments stream_selected : simpl never.

(** Three stream nodes called [s] under the rule [s]: without metadata,
    with a metadata sequence that has no entry of empty breadcrumb, and with
    one that has such an entry in second place. *)
Definition c1_patterns : list SelectPattern := map parse_select_pattern ["s"].

Definition c1_bare : list (string * value) := [("stream", VStr "s")].

Definition c1_entry : list (string * value) :=
  [("breadcrumb", VList [VStr "s"; VStr "id"]); ("metadata", VDict [])].

Definition c1_legacy : list (string * value) :=
  [("stream", VStr "s"); ("metadata", VList [VDict c1_entry])].

Definition c1_found : list (string * value) :=
  [("stream", VStr "s");
   ("metadata", VList [VDict c1_entry;
                       VDict [("breadcrumb", VList []); ("metadata", VDict [])]])].

(** A catalog with stream [stream1] and properties [id] and [secret], each
    with its metadata entry; the same catalog in the legacy form, without
    metadata. *)
Definition c6_rules : list string := ["stream1.*"; "!stream1.secret"].

Definition c6_entry (breadcrumb : list value) : value :=
  VDict [("breadcrumb", VList breadcrumb);
         ("metadata", VDict [("inclusion", VStr "available")])].

Definition c6_catalog : value :=
  VDict
    [("streams",
      VList
        [VDict
           [("tap_stream_id", VStr "stream1");
            ("stream", VStr "stream1");
            ("schema",
             VDict
               [("type", VStr "object");
                ("properties",
                 VDict [("id", VDict [("type", VStr "integer")]);
                        ("secret", VDict [("type", VStr "string")])])]);
            ("metadata",
             VList [c6_entry [];
                    c6_entry [VStr "stream1"; VStr "id"];
                    c6_entry [VStr "stream1"; VStr "secret"]])]])].

Definition c6_legacy : value :=
  VDict
    [("streams",
      VList
        [VDict
           [("tap_stream_id", VStr "stream1");
            ("stream", VStr "stream1");
            ("schema",
             VDict
               [("type", VStr "object");
                ("properties",
                 VDict [("id", VDict [("type", VStr "integer")]);
                        ("secret", VDict [("type", VStr "string")])])])]])].

Definition c6_entry_selected (d : value) (i : nat) : option value :=
  get_at [Key "streams"; Idx 0; Key "metadata"; Idx i; Key "metadata"; Key "selected"] d.

(** Keys of a dict and members of a set are hashable: no list, no dict. *)
Definition hashable (v : value) : bool :=
  match v with
  | VList _ | VDict _ => false
  | _ => true
  end.

(** The invariant of a Python dict keyed by values: hashable keys, no two
    of them equal. *)
Inductive dict_ok {A : Type} : list (value * A) -> Prop :=
| dict_ok_nil : dict_ok []
| dict_ok_cons k v rest :
    hashable k = true ->
    Forall (fun e => py_eqb k (fst e) = false) rest ->
    dict_ok rest ->
    dict_ok ((k, v) :: rest).

(** The names [selected_properties] deletes: those of the stream-level
    pairs whose flag is not true. *)
Definition dropped_names (self : ListSelectedExecutor.state) : list value :=
  map fst (filter (fun node => negb (py_truthy (snd node)))
             (ListSelectedExecutor.streams self)).

(** The names of the pairs whose flag is true. *)
Definition selected_names (props : list (string * value)) : list string :=
  ListSelectedExecutor.set_of
    (map fst (filter (fun node => py_truthy (snd node)) props)).

(** What a traversal records on two streams, [users] not selected and
    [orders] selected, each with a selected [id]. *)
Definition c9_state : ListSelectedExecutor.state :=
  {| ListSelectedExecutor.streams :=
       [(VStr "users", VBool false); (VStr "orders", VBool true)];
     ListSelectedExecutor.properties :=
       [(VStr "users", [("id", VBool true); ("name", VBool false)]);
        (VStr "orders", [("id", VBool true); ("total", VBool false)])] |}.

(** When [visit] hands a node of some kind to the executor: the shape of
    the path, and for the two metadata kinds a node with a breadcrumb that
    is empty or not. *)
Definition dispatchable {T : Type} (kind : CatalogNode) (node : loc) (path : string)
  (w : world T) : Prop :=
  match kind with
  | STREAM =>
      Text.search_indexed "streams" path = true
      /\ exists kvs, get_at node (doc w) = Some (VDict kvs)
  | STREAM_PROPERTY => Text.search_schema_properties path = true
  | STREAM_METADATA =>
      Text.search_indexed "metadata" path = true
      /\ exists kvs b, get_at node (doc w) = Some (VDict kvs)
                       /\ lookup "breadcrumb" kvs = Some b /\ py_len b = Done 0
  | STREAM_PROPERTY_METADATA =>
      Text.search_indexed "metadata" path = true
      /\ exists kvs b n, get_at node (doc w) = Some (VDict kvs)
                         /\ lookup "breadcrumb" kvs = Some b /\ py_len b = Done (S n)
  end.

(** A property name, read as one path segment: some characters, none of
    them a dot or a newline. *)
Definition name_char (c : ascii) : bool :=
  negb (Ascii.eqb c "."%char) && negb (Text.is_newline c).

Definition is_name (name : string) : Prop :=
  name <> EmptyString /\ forallb name_char (Text.chars name) = true.

(** The suffix shape as the specification words it:
    [schema.properties.<name>], then any number of [.properties.<name>]. *)
Inductive property_suffix : string -> Prop :=
| suffix_property name :
    is_name name -> property_suffix ("schema.properties." ++ name)%string
| suffix_nested s name :
    property_suffix s -> is_name name ->
    property_suffix (s ++ ".properties." ++ name)%string.

Definition ends_in_property_suffix (path : string) : Prop :=
  exists pre s, path = (pre ++ s)%string /\ property_suffix s.

(** An executor that only notes what it is called with, in order. *)
Module Recorder.

Definition note (kind : CatalogNode) : handler (list (CatalogNode * string)) :=
  fun _ path => calls <- get_self ;; put_self (calls ++ [(kind, path)]).

Definition make : CatalogExecutor.t (list (CatalogNode * string)) :=
  {| CatalogExecutor.stream_node := note STREAM;
     CatalogExecutor.property_node := note STREAM_PROPERTY;
     CatalogExecutor.stream_metadata_node := note STREAM_METADATA;
     CatalogExecutor.property_metadata_node := note STREAM_PROPERTY_METADATA |}.

(** The dispatches of a traversal of [catalog]. *)
Definition calls (fuel : nat) (catalog : value) : list (CatalogNode * string) :=
  self (fst (visit fuel make [] "" (World catalog []))).

End Recorder.

(** A test every path of the suffix shape passes: what stands before its
    last dot-free segment ends in [.properties.] *)
Definition last_segment_is_property (path : string) : bool :=
  match Text.strip_prefix (rev (Text.chars ".properties."))
          (Text.drop_while (fun c => negb (Ascii.eqb c "."%char))
             (rev (Text.chars path))) with
  | Some _ => true
  | None => false
  end.

(** A stream with an array property [tags]. *)
Definition c5_catalog : value :=
  VDict
    [("streams",
      VList
        [VDict
           [("stream", VStr "posts");
            ("schema",
             VDict
               [("properties",
                 VDict
                   [("tags",
                     VDict [("type", VStr "array");
                            ("items", VDict [("type", VStr "string")])])])])]])].

(** An element of a metadata sequence that is a mapping has the two
    fields of a metadata entry. *)
Definition entry_like (v : value) : bool :=
  match v with
  | VDict e => has_key "breadcrumb" e && has_key "metadata" e
  | _ => true
  end.

(** A well-formed document: wherever a key [metadata] holds a sequence,
    the mappings in that sequence are metadata entries, and wherever there
    is a key [stream], its value is no list and no mapping (so that the
    breadcrumbs [property_node] builds share nothing with the document).
    [under_metadata] tells whether the value is the one of a [metadata]
    key. *)
Fixpoint well_formed (under_metadata : bool) (v : value) {struct v} : bool :=
  match v with
  | VList xs =>
      (if under_metadata then forallb entry_like xs else true)
      && (fix all (xs : list value) : bool :=
            match xs with
            | [] => true
            | x :: rest => well_formed false x && all rest
            end) xs
  | VDict kvs =>
      (fix all (kvs : list (string * value)) : bool :=
         match kvs with
         | [] => true
         | (k, x) :: rest =>
             well_formed (String.eqb k "metadata") x
             && (if String.eqb k "stream" then hashable x else true)
             && all rest
         end) kvs
  | _ => true
  end.

(** The entry the selection visitor makes up for a breadcrumb. *)
Definition synthetic (breadcrumb : value) : value :=
  VDict [("breadcrumb", breadcrumb);
         ("metadata", VDict [("inclusion", VStr "automatic")])].

(** One write of the selection visitor: the [selected] field at the top
    level of a mapping that has a [stream] field, or in the metadata of a
    mapping that has a [breadcrumb] field; a new metadata sequence with the
    synthetic entry of the stream, for a mapping that has a [stream] field
    and no [metadata] field; the synthetic entry of the stream put in front
    of the entries of the metadata sequence of such a mapping, when the
    search for an entry of empty breadcrumb has gone through them all; a
    synthetic entry whose breadcrumb starts with the value of the [stream]
    field put after them, when the search for an entry of that breadcrumb
    has gone through them all. *)
Inductive write_step : value -> value -> Prop :=
| write_stream_selected d node kvs b :
    get_at node d = Some (VDict kvs) ->
    has_key "stream" kvs = true ->
    write_step d (set_at node (VDict (assign "selected" (VBool b) kvs)) d)
| write_entry_selected d node e m b :
    get_at node d = Some (VDict e) ->
    has_key "breadcrumb" e = true ->
    lookup "metadata" e = Some (VDict m) ->
    write_step d
      (set_at (node ++ [Key "metadata"]) (VDict (assign "selected" (VBool b) m)) d)
| write_new_metadata d node kvs :
    get_at node d = Some (VDict kvs) ->
    has_key "stream" kvs = true ->
    lookup "metadata" kvs = None ->
    write_step d
      (set_at node (VDict (assign "metadata" (VList [synthetic (VList [])]) kvs)) d)
| write_entry_in_front d node kvs entries :
    get_at node d = Some (VDict kvs) ->
    has_key "stream" kvs = true ->
    lookup "metadata" kvs = Some (VList entries) ->
    next_index SelectExecutor.empty_breadcrumb (VList entries)
    = raise StopIteration ->
    write_step d
      (set_at (node ++ [Key "metadata"])
         (VList (synthetic (VList []) :: entries)) d)
| write_entry_at_end d node kvs entries name components :
    get_at node d = Some (VDict kvs) ->
    lookup "stream" kvs = Some name ->
    lookup "metadata" kvs = Some (VList entries) ->
    next_index
      (SelectExecutor.has_breadcrumb (VList (name :: map VStr components)))
      (VList entries)
    = raise StopIteration ->
    write_step d
      (set_at (node ++ [Key "metadata"])
         (VList (entries ++ [synthetic (VList (name :: map VStr components))])) d).

(** Reached by such writes alone. *)
Inductive only_selection_writes : value -> value -> Prop :=
| writes_none d : only_selection_writes d d
| writes_more d d' d'' :
    only_selection_writes d d' -> write_step d' d'' ->
    only_selection_writes d d''.

(** What well-formedness asks of one field. *)
Definition field_ok (kv : string * value) : bool :=
  well_formed (String.eqb (fst kv) "metadata") (snd kv)
  && (if String.eqb (fst kv) "stream" then hashable (snd kv) else true).

(** The document is what selection writes made of [origin], and is
    well-formed. *)
Definition framed (origin : value) (w : world SelectExecutor.state) : Prop :=
  only_selection_writes origin (doc w) /\ well_formed false (doc w) = true.

Definition reads_only {T A : Type} (c : M T A) : Prop := forall w, fst (c w) = w.

(** [extends d d']: [d'] has everything [d] has, where [d] has it.  A list
    keeps its elements in their order, each extended, among new ones; a
    mapping keeps its fields in their order, each with a value extended,
    except that a [selected] field may hold another boolean, and new
    fields, [selected] and [metadata] only, come last. *)
Inductive extends : value -> value -> Prop :=
| extends_same v : extends v v
| extends_list xs ys : extends_seq xs ys -> extends (VList xs) (VList ys)
| extends_dict kvs kvs' : extends_fields kvs kvs' -> extends (VDict kvs) (VDict kvs')
with extends_seq : list value -> list value -> Prop :=
| seq_nil : extends_seq [] []
| seq_keep x y xs ys :
    extends x y -> extends_seq xs ys -> extends_seq (x :: xs) (y :: ys)
| seq_new y xs ys : extends_seq xs ys -> extends_seq xs (y :: ys)
with extends_fields : list (string * value) -> list (string * value) -> Prop :=
| fields_nil : extends_fields [] []
| fields_keep k v v' kvs kvs' :
    extends v v' -> extends_fields kvs kvs' ->
    extends_fields ((k, v) :: kvs) ((k, v') :: kvs')
| fields_selected v b kvs kvs' :
    extends_fields kvs kvs' ->
    extends_fields (("selected", v) :: kvs) (("selected", VBool b) :: kvs')
| fields_new k v kvs' :
    k = "selected" \/ k = "metadata" ->
    extends_fields [] kvs' -> extends_fields [] ((k, v) :: kvs').

Scheme extends_mut := Induction for extends Sort Prop
  with extends_seq_mut := Induction for extends_seq Sort Prop
  with extends_fields_mut := Induction for extends_fields Sort Prop.

Combined Scheme extends_mutual
  from extends_mut, extends_seq_mut, extends_fields_mut.

Definition breadcrumb_of (v : value) : option value :=
  match v with
  | VDict e => lookup "breadcrumb" e
  | _ => None
  end.

(** A breadcrumb that holds no list and no mapping. *)
Definition flat (o : option value) : bool :=
  match o with
  | Some (VList xs) => forallb hashable xs
  | Some (VDict _) => false
  | _ => true
  end.

Definition differs (b : value) (o : option value) : bool :=
  match o with
  | Some b' => negb (py_eqb b b')
  | None => true
  end.

Fixpoint distinct (breadcrumbs : list (option value)) : bool :=
  match breadcrumbs with
  | [] => true
  | o :: rest =>
      match o with
      | Some b => forallb (differs b) rest
      | None => true
      end && distinct rest
  end.

(** The breadcrumbs of the entries of a metadata sequence are flat and no
    two of them are equal. *)
Definition distinct_breadcrumbs (entries : list value) : bool :=
  distinct (map breadcrumb_of entries) && forallb flat (map breadcrumb_of entries).

(** No metadata sequence of the document holds two entries with equal
    breadcrumbs. *)
Fixpoint no_duplicates (under_metadata : bool) (v : value) {struct v} : bool :=
  match v with
  | VList xs =>
      (if under_metadata then distinct_breadcrumbs xs else true)
      && (fix all (xs : list value) : bool :=
            match xs with
            | [] => true
            | x :: rest => no_duplicates false x && all rest
            end) xs
  | VDict kvs =>
      (fix all (kvs : list (string * value)) : bool :=
         match kvs with
         | [] => true
         | (k, x) :: rest => no_duplicates (String.eqb k "metadata") x && all rest
         end) kvs
  | _ => true
  end.

(** Where a list may be written: under a [metadata] key. *)
Fixpoint ends_in_metadata (l : loc) : bool :=
  match l with
  | [] => false
  | s :: rest =>
      match rest with
      | [] => match s with Key k => String.eqb k "metadata" | Idx _ => false end
      | _ => ends_in_metadata rest
      end
  end.

Definition writable (l : loc) (n : value) : bool :=
  match n with
  | VDict _ => true
  | VList _ => ends_in_metadata l
  | _ => false
  end.

(** A stream that lists [metadata] before [schema] and has no entry for
    its property [id]. *)
Definition c7_rules : list string := ["stream1.*"].

Definition c7_catalog : value :=
  VDict
    [("streams",
      VList
        [VDict
           [("stream", VStr "stream1");
            ("metadata",
             VList [VDict [("breadcrumb", VList []);
                           ("metadata", VDict [("inclusion", VStr "available")])]]);
            ("schema",
             VDict [("properties",
                     VDict [("id", VDict [("type", VStr "integer")])])])]])].

Definition c7_once : value := fst (select 16 c7_rules c7_catalog).
Definition c7_twice : value := fst (select 16 c7_rules c7_once).

Definition c7_id_selected : loc :=
  [Key "streams"; Idx 0; Key "metadata"; Idx 1; Key "metadata"; Key "selected"].

(** ** Rules and what they select *)

(** The text a rule was parsed from. *)
Definition rule_text (p : SelectPattern) : string :=
  if negated p then String "!"%char (property_pattern p) else property_pattern p.

Definition has_dot (s : string) : bool :=
  existsb (Ascii.eqb "."%char) (Text.chars s).

(** A character that stands for itself in a glob pattern. *)
Definition plain_char (c : ascii) : bool :=
  negb (Ascii.eqb c "*"%char || Ascii.eqb c "?"%char || Ascii.eqb c "["%char).

(** A text without the glob characters [*], [?] and [[]. *)
Definition plain (s : string) : bool := forallb plain_char (Text.chars s).

(** ** Property paths and breadcrumbs *)

(** A text in which no match of [properties\.] can start: it has no [p]. *)
Definition no_p (s : string) : bool :=
  negb (existsb (Ascii.eqb "p"%char) (Text.chars s)).

(** A name made of word characters, at least one. *)
Definition word (s : string) : bool :=
  negb (String.eqb s EmptyString) && forallb Text.is_word (Text.chars s).

(** The path below a schema to a property nested under the properties
    [names]: [.properties.<name>] for each. *)
Fixpoint nested (names : list string) : string :=
  match names with
  | [] => EmptyString
  | name :: rest => (".properties." ++ name ++ nested rest)%string
  end.

(** The word characters a name starts with, and what follows them. *)
Definition word_prefix (name : string) : string :=
  Text.text (Text.take_while Text.is_word (Text.chars name)).

Definition after_word_prefix (name : string) : string :=
  Text.text (Text.drop_while Text.is_word (Text.chars name)).

(** ** The traversal as a walk *)

(** The address of a node: what the traversal has appended to the empty
    path on the way to it. *)
Definition segment (s : step) : string :=
  match s with
  | Key k => ("." ++ k)%string
  | Idx i => ("[" ++ Text.decimal i ++ "]")%string
  end.

Fixpoint address (l : loc) : string :=
  match l with
  | [] => EmptyString
  | s :: rest => (segment s ++ address rest)%string
  end.

(** How deep the calls of [visit] nest on a document: one for the node
    itself, and for a list one more for each element gone through. *)
Fixpoint depth (v : value) : nat :=
  match v with
  | VList xs =>
      S ((fix elements (xs : list value) : nat :=
            match xs with
            | [] => 1
            | x :: rest => S (Nat.max (depth x) (elements rest))
            end) xs)
  | VDict kvs =>
      S ((fix fields (kvs : list (string * value)) : nat :=
            match kvs with
            | [] => 0
            | (_, x) :: rest => Nat.max (depth x) (fields rest)
            end) kvs)
  | _ => 1
  end.

(** No mapping of the document has a key twice, as in a Python dict. *)
Fixpoint unique_keys (v : value) : bool :=
  match v with
  | VList xs =>
      (fix all (xs : list value) : bool :=
         match xs with
         | [] => true
         | x :: rest => unique_keys x && all rest
         end) xs
  | VDict kvs =>
      (fix all (kvs : list (string * value)) : bool :=
         match kvs with
         | [] => true
         | (k, x) :: rest => negb (has_key k rest) && unique_keys x && all rest
         end) kvs
  | _ => true
  end.

(** A depth-first walk in pre-order.  [f kind node path] is what the
    handler of [kind] makes of the executor's state.  A mapping first gets
    its own dispatches: as a stream, as a property, and as a metadata
    entry of empty or other breadcrumb, each when its path has the shape
    for it; then its values are walked in the order of its keys, under the
    path extended by a dot and the key.  The elements of a list are walked
    in order, under the path extended by the index in brackets.  Anything
    else is passed over.  The walk stops where [len] refuses the
    breadcrumb of a metadata entry. *)
Section Walk.

Context {T : Type}.
Variable f : CatalogNode -> loc -> string -> T -> T.

Definition walk_node (kvs : list (string * value)) (node : loc) (path : string)
  (s : T) : T * res unit :=
  let s := if Text.search_indexed "streams" path then f STREAM node path s else s in
  let s := if Text.search_schema_properties path
           then f STREAM_PROPERTY node path s else s in
  if Text.search_indexed "metadata" path then
    match lookup "breadcrumb" kvs with
    | Some breadcrumb =>
        match py_len breadcrumb with
        | Done 0 => (f STREAM_METADATA node path s, Done tt)
        | Done (S _) => (f STREAM_PROPERTY_METADATA node path s, Done tt)
        | Stop why => (s, Stop why)
        end
    | None => (s, Done tt)
    end
  else (s, Done tt).

(** One part of the walk after the other, as long as none stops. *)
Definition and_then (r : T * res unit) (k : T -> T * res unit) : T * res unit :=
  match r with
  | (s, Done _) => k s
  | stopped => stopped
  end.

Fixpoint walk_fields (walk : value -> loc -> string -> T -> T * res unit)
  (node : loc) (path : string) (kvs : list (string * value)) (s : T)
  : T * res unit :=
  match kvs with
  | [] => (s, Done tt)
  | (k, x) :: rest =>
      and_then (walk x (node ++ [Key k]) (path ++ "." ++ k)%string s)
        (walk_fields walk node path rest)
  end.

Fixpoint walk_elements (walk : value -> loc -> string -> T -> T * res unit)
  (node : loc) (path : string) (xs : list value) (index : nat) (s : T)
  : T * res unit :=
  match xs with
  | [] => (s, Done tt)
  | x :: rest =>
      and_then
        (walk x (node ++ [Idx index])
           (path ++ "[" ++ Text.decimal index ++ "]")%string s)
        (walk_elements walk node path rest (S index))
  end.

Fixpoint walk (v : value) (node : loc) (path : string) (s : T) {struct v}
  : T * res unit :=
  match v with
  | VDict kvs =>
      and_then (walk_node kvs node path s) (walk_fields walk node path kvs)
  | VList xs => walk_elements walk node path xs 0 s
  | _ => (s, Done tt)
  end.

End Walk.

(** An executor that notes each call: the kind, the node and the path. *)
Module Tracer.

Definition note (kind : CatalogNode) : handler (list (CatalogNode * loc * string)) :=
  fun node path => calls <- get_self ;; put_self (calls ++ [(kind, node, path)]).

Definition make : CatalogExecutor.t (list (CatalogNode * loc * string)) :=
  {| CatalogExecutor.stream_node := note STREAM;
     CatalogExecutor.property_node := note STREAM_PROPERTY;
     CatalogExecutor.stream_metadata_node := note STREAM_METADATA;
     CatalogExecutor.property_metadata_node := note STREAM_PROPERTY_METADATA |}.

(** What a call adds to the notes. *)
Definition noted (kind : CatalogNode) (node : loc) (path : string)
  (calls : list (CatalogNode * loc * string)) : list (CatalogNode * loc * string) :=
  calls ++ [(kind, node, path)].

(** The calls of a traversal of [catalog], in order. *)
Definition calls (fuel : nat) (catalog : value) : list (CatalogNode * loc * string) :=
  self (fst (visit fuel make [] "" (World catalog []))).

End Tracer.

(** ** The listing visitors *)

(** A computation that leaves the document as it is. *)
Definition keeps_doc {T A : Type} (c : M T A) : Prop :=
  forall w, doc (fst (c w)) = doc w.

(** What [ListSelectedExecutor] keeps true of its collections:
    [properties] is a dict, and it has a key for every stream name noted
    in [streams], and for [_stream] once that is set to something a dict
    can have as a key. *)
Definition consistent (o : ListSelectedExecutor.object) : Prop :=
  dict_ok (ListSelectedExecutor.properties (ListSelectedExecutor.collected o))
  /\ (forall name flag,
        In (name, flag)
          (ListSelectedExecutor.streams (ListSelectedExecutor.collected o)) ->
        exists props,
          dict_get name
            (ListSelectedExecutor.properties (ListSelectedExecutor.collected o))
          = Some props)
  /\ (forall stream,
        ListSelectedExecutor._stream o = Some stream ->
        hashable stream = true ->
        exists props,
          dict_get stream
            (ListSelectedExecutor.properties (ListSelectedExecutor.collected o))
          = Some props).

(** The state of a [ListSelectedExecutor] after a traversal of [catalog]. *)
Definition listed (fuel : nat) (catalog : value) : ListSelectedExecutor.object :=
  self (fst (visit fuel ListSelectedExecutor.make [] ""
               (World catalog ListSelectedExecutor.init))).

(** A catalog with two streams of one name, neither of them selected: the
    one says [false], the other [null]. *)
Definition twice_unselected : value :=
  VDict
    [("streams",
      VList
        [VDict [("stream", VStr "users");
                ("metadata",
                 VList [VDict [("breadcrumb", VList []);
                               ("metadata", VDict [("selected", VBool false)])]])];
         VDict [("stream", VStr "users");
                ("metadata",
                 VList [VDict [("breadcrumb", VList []);
                               ("metadata", VDict [("selected", VNone)])]])]])].

(** The metadata says [inclusion: automatic]. *)
Definition automatic (m : list (string * value)) : bool :=
  match lookup "inclusion" m with
  | Some v => py_eqb v (VStr "automatic")
  | None => false
  end.

(** ** Paths that end in an index *)

(** A decimal numeral: digits, at least one. *)
Definition numeral (s : string) : bool :=
  negb (String.eqb s EmptyString) && forallb Text.is_digit (Text.chars s).

(** The text of one newline. *)
Definition newline : string := String (ascii_of_nat 10) EmptyString.

(** The path handed over with a kind has the shape for it. *)
Definition shaped (kind : CatalogNode) (path : string) : bool :=
  match kind with
  | STREAM => Text.search_indexed "streams" path
  | STREAM_PROPERTY => Text.search_schema_properties path
  | STREAM_METADATA | STREAM_PROPERTY_METADATA => Text.search_indexed "metadata" path
  end.

(** ** Catalogs, and what a selection pass makes of them *)

(** A catalog as taps write it and as the selection visitor is run on
    it: streams under [streams], each with its name, its schema and,
    unless the catalog is a legacy one, its metadata entries.  The shape is
    given by what the traversal does on the document: which mappings it
    takes for a stream, a property or a metadata entry is decided by the
    three expressions of [visit] on the very paths it builds. *)

(** A value with no mapping in it. *)
Fixpoint no_dict (v : value) : bool :=
  match v with
  | VDict _ => false
  | VList xs => forallb no_dict xs
  | _ => true
  end.

Definition is_text (v : value) : bool :=
  match v with VStr _ => true | _ => false end.

Fixpoint calm_fields (calm : string -> value -> bool) (path : string)
  (kvs : list (string * value)) : bool :=
  match kvs with
  | [] => true
  | (k, x) :: rest => calm (path ++ "." ++ k)%string x && calm_fields calm path rest
  end.

Fixpoint calm_elements (calm : string -> value -> bool) (path : string)
  (xs : list value) (index : nat) : bool :=
  match xs with
  | [] => true
  | x :: rest =>
      calm (path ++ "[" ++ Text.decimal index ++ "]")%string x
      && calm_elements calm path rest (S index)
  end.

(** [calm properties path v]: below [v], which stands at [path], the
    traversal takes no mapping for a stream or for a metadata entry, and,
    unless [properties] is set, none for a property. *)
Fixpoint calm (properties : bool) (path : string) (v : value) {struct v} : bool :=
  match v with
  | VDict kvs =>
      negb (Text.search_indexed "streams" path)
      && (properties || negb (Text.search_schema_properties path))
      && negb (Text.search_indexed "metadata" path && has_key "breadcrumb" kvs)
      && calm_fields (calm properties) path kvs
  | VList xs => calm_elements (calm properties) path xs 0
  | _ => true
  end.

Fixpoint needed_fields (needed : string -> value -> list (list string))
  (path : string) (kvs : list (string * value)) : list (list string) :=
  match kvs with
  | [] => []
  | (k, x) :: rest => needed (path ++ "." ++ k)%string x ++ needed_fields needed path rest
  end.

Fixpoint needed_elements (needed : string -> value -> list (list string))
  (path : string) (xs : list value) (index : nat) : list (list string) :=
  match xs with
  | [] => []
  | x :: rest =>
      needed (path ++ "[" ++ Text.decimal index ++ "]")%string x
      ++ needed_elements needed path rest (S index)
  end.

(** The property names [property_node] reads off the paths of the
    mappings below [v] that the traversal takes for properties, in the
    order it comes to them. *)
Fixpoint needed (path : string) (v : value) {struct v} : list (list string) :=
  match v with
  | VDict kvs =>
      (if Text.search_schema_properties path
       then [Text.findall_properties path] else [])
      ++ needed_fields needed path kvs
  | VList xs => needed_elements needed path xs 0
  | _ => []
  end.

(** A metadata entry: a mapping with a [breadcrumb], a list of texts, and
    a [metadata], a mapping whose values hold no mapping; whatever else it
    has holds no mapping either. *)
Definition entry_field_ok (kv : string * value) : bool :=
  if String.eqb (fst kv) "metadata" then
    match snd kv with
    | VDict m => forallb (fun f => no_dict (snd f)) m
    | _ => false
    end
  else if String.eqb (fst kv) "breadcrumb" then
    match snd kv with
    | VList parts => forallb is_text parts
    | _ => false
    end
  else no_dict (snd kv).

Definition entry_ok (v : value) : bool :=
  match v with
  | VDict e => has_key "breadcrumb" e && has_key "metadata" e
               && forallb entry_field_ok e
  | _ => false
  end.

(** A stream, standing at [path]: a mapping with a [stream], a text; its
    [metadata], if it has one, is a list of metadata entries; below its
    other fields the traversal finds properties only. *)
Definition stream_field_ok (path : string) (kv : string * value) : bool :=
  if String.eqb (fst kv) "metadata" then
    match snd kv with
    | VList entries => forallb entry_ok entries
    | _ => false
    end
  else if String.eqb (fst kv) "stream" then is_text (snd kv)
  else calm true (path ++ "." ++ fst kv)%string (snd kv).

Definition stream_ok (path : string) (v : value) : bool :=
  match v with
  | VDict kvs => has_key "stream" kvs && forallb (stream_field_ok path) kvs
  | _ => false
  end.

Fixpoint streams_ok (path : string) (xs : list value) (index : nat) : bool :=
  match xs with
  | [] => true
  | x :: rest =>
      stream_ok (path ++ "[" ++ Text.decimal index ++ "]")%string x
      && streams_ok path rest (S index)
  end.

(** A catalog: a mapping, no mapping in it with a key twice, whose
    [streams], if it has the key, is a list of streams, and below whose
    other fields the traversal calls no handler. *)
Definition top_field_ok (kv : string * value) : bool :=
  if String.eqb (fst kv) "streams" then
    match snd kv with
    | VList xs => streams_ok ("" ++ "." ++ fst kv)%string xs 0
    | _ => false
    end
  else calm false ("" ++ "." ++ fst kv)%string (snd kv).

Definition catalog_shaped (catalog : value) : bool :=
  unique_keys catalog
  && match catalog with
     | VDict kvs => forallb top_field_ok kvs
     | _ => false
     end.

(** *** The document a pass leaves, computed without the traversal

    [entered], [outcome_fields], [outcome_stream] and [outcome] describe
    what [stream_node], the traversal of the fields of a stream and the
    whole pass leave of a catalog.  That [select] does leave [outcome] is
    Lemma [select_is_outcome]; the functions serve to compare one, two and
    three passes, and nothing is stated about the program in their terms. *)

(** The texts of a list. *)
Fixpoint texts (vs : list value) : list string :=
  match vs with
  | [] => []
  | VStr s :: rest => s :: texts rest
  | _ :: rest => texts rest
  end.

(** What the rules say of a property. *)
Definition property_selected (patterns : list SelectPattern) (parts : list string)
  : bool :=
  existsb (Fnmatch.fnmatch (Text.join "." parts)) (property_includes patterns)
  && negb (existsb (Fnmatch.fnmatch (Text.join "." parts))
             (property_excludes patterns)).

(** An entry with its [selected] written: what the rules say of the
    stream [name] when the breadcrumb is empty, of the property the
    breadcrumb names otherwise. *)
Definition mark (patterns : list SelectPattern) (name : string) (entry : value)
  : value :=
  match entry with
  | VDict e =>
      match lookup "breadcrumb" e, lookup "metadata" e with
      | Some (VList parts), Some (VDict m) =>
          VDict
            (assign "metadata"
               (VDict
                  (assign "selected"
                     (VBool match parts with
                            | [] => stream_selected patterns name
                            | _ => property_selected patterns (texts parts)
                            end) m)) e)
      | _, _ => entry
      end
  | _ => entry
  end.

(** The breadcrumb of a property of stream [name]. *)
Definition crumb (name : string) (components : list string) : value :=
  VList (VStr name :: map VStr components).

(** [holds breadcrumb entry]: the entry has that breadcrumb. *)
Definition holds (breadcrumb entry : value) : bool :=
  match entry with
  | VDict e =>
      match lookup "breadcrumb" e with
      | Some b => py_eqb b breadcrumb
      | None => false
      end
  | _ => false
  end.

(** The entries with one more for a property, unless they have one. *)
Definition backfill_one (name : string) (entries : list value)
  (components : list string) : list value :=
  if existsb (holds (crumb name components)) entries then entries
  else entries ++ [synthetic (crumb name components)].

Definition backfill (name : string) (entries : list value)
  (properties : list (list string)) : list value :=
  fold_left (backfill_one name) properties entries.

(** The fields of a stream once [stream_node] has run: the first entry of
    empty breadcrumb has its [selected] written, and is made up when
    there is none; the stream has its own [selected]. *)
Definition entered (patterns : list SelectPattern) (name : string)
  (kvs : list (string * value)) : list (string * value) :=
  assign "selected" (VBool (stream_selected patterns name))
    match lookup "metadata" kvs with
    | None => assign "metadata" (VList [SelectExecutor.stream_metadata]) kvs
    | Some (VList entries) =>
        match next_index SelectExecutor.empty_breadcrumb (VList entries) with
        | Done i =>
            match nth_error entries i with
            | Some entry =>
                assign "metadata"
                  (VList (set_nth i (mark patterns name entry) entries)) kvs
            | None => kvs
            end
        | Stop _ =>
            assign "metadata" (VList (SelectExecutor.stream_metadata :: entries)) kvs
        end
    | Some _ => kvs
    end.

(** The entries of a stream once the traversal has gone through the
    given fields of it: at [metadata] every entry there is by then has
    its [selected] written, at another field the properties below it get
    the entries they lack. *)
Fixpoint outcome_fields (patterns : list SelectPattern) (name path : string)
  (fields : list (string * value)) (entries : list value) : list value :=
  match fields with
  | [] => entries
  | (k, x) :: rest =>
      outcome_fields patterns name path rest
        (if String.eqb k "metadata" then map (mark patterns name) entries
         else backfill name entries (needed (path ++ "." ++ k)%string x))
  end.

Definition outcome_stream (patterns : list SelectPattern) (path : string)
  (stream : value) : value :=
  match stream with
  | VDict kvs =>
      match lookup "stream" kvs with
      | Some (VStr name) =>
          let kvs' := entered patterns name kvs in
          match lookup "metadata" kvs' with
          | Some (VList entries) =>
              VDict (assign "metadata"
                       (VList (outcome_fields patterns name path kvs' entries)) kvs')
          | _ => stream
          end
      | _ => stream
      end
  | _ => stream
  end.

(** [each g xs index]: every element of [xs] changed by [g], which is
    told the index of the element; the first has [index]. *)
Fixpoint each (g : nat -> value -> value) (xs : list value) (index : nat)
  : list value :=
  match xs with
  | [] => []
  | x :: rest => g index x :: each g rest (S index)
  end.

Definition outcome_streams (patterns : list SelectPattern) (path : string)
  (xs : list value) : list value :=
  each (fun index =>
          outcome_stream patterns (path ++ "[" ++ Text.decimal index ++ "]")%string)
    xs 0.

(** The catalog after one selection pass. *)
Definition outcome (rules : list string) (catalog : value) : value :=
  match catalog with
  | VDict kvs =>
      match lookup "streams" kvs with
      | Some (VList xs) =>
          VDict (assign "streams"
                   (VList (outcome_streams (map parse_select_pattern rules)
                             ("" ++ "." ++ "streams")%string xs)) kvs)
      | _ => catalog
      end
  | _ => catalog
  end.

(** The traversal is below the stream at [stream], whose fields are those
    of [base] with [entries] for its metadata. *)
Definition standing (stream : loc) (base : list (string * value))
  (entries : list value) (w : world (option loc)) : Prop :=
  self w = Some stream
  /\ get_at stream (doc w) = Some (VDict (assign "metadata" (VList entries) base)).

Definition staged (stream : loc) (base : list (string * value))
  (entries : list value) (w : world (option loc)) : world (option loc) :=
  World (set_at stream (VDict (assign "metadata" (VList entries) base)) (doc w))
    (Some stream).

(** The breadcrumb of the entry is the empty list. *)
Definition empty_crumb (entry : value) : bool :=
  match entry with
  | VDict e =>
      match lookup "breadcrumb" e with
      | Some (VList []) => true
      | _ => false
      end
  | _ => false
  end.

(** The metadata of the entry has no [selected] field. *)
Definition unmarked (entry : value) : bool :=
  match entry with
  | VDict e =>
      match lookup "metadata" e with
      | Some (VDict m) => negb (has_key "selected" m)
      | _ => false
      end
  | _ => false
  end.

(** A stream that a pass has been over: it has its [selected], an entry
    of empty breadcrumb, and an entry for every property the traversal
    finds below its fields; each of its entries either is as [mark] leaves
    it, or is the entry of a property and has no [selected] yet. *)
Definition settled (patterns : list SelectPattern) (path name : string)
  (kvs : list (string * value)) (entries : list value) : Prop :=
  lookup "stream" kvs = Some (VStr name)
  /\ lookup "selected" kvs = Some (VBool (stream_selected patterns name))
  /\ lookup "metadata" kvs = Some (VList entries)
  /\ forallb entry_ok entries = true
  /\ existsb empty_crumb entries = true
  /\ Forall (fun entry =>
               mark patterns name entry = entry
               \/ (unmarked entry = true /\ empty_crumb entry = false)) entries
  /\ (forall k x components,
        In (k, x) kvs -> k <> "metadata" ->
        In components (needed (path ++ "." ++ k)%string x) ->
        existsb (holds (crumb name components)) entries = true).

(** [completes d d']: [d'] is [d], except that entries whose metadata
    had no [selected] field have one, a boolean. *)
Inductive completes : value -> value -> Prop :=
| completes_same v : completes v v
| completes_list xs ys : completes_seq xs ys -> completes (VList xs) (VList ys)
| completes_dict kvs kvs' :
    completes_fields kvs kvs' -> completes (VDict kvs) (VDict kvs')
| completes_entry e breadcrumb m b :
    lookup "breadcrumb" e = Some breadcrumb ->
    lookup "metadata" e = Some (VDict m) ->
    lookup "selected" m = None ->
    completes (VDict e)
      (VDict (assign "metadata" (VDict (assign "selected" (VBool b) m)) e))
with completes_seq : list value -> list value -> Prop :=
| completes_nil : completes_seq [] []
| completes_cons x y xs ys :
    completes x y -> completes_seq xs ys -> completes_seq (x :: xs) (y :: ys)
with completes_fields : list (string * value) -> list (string * value) -> Prop :=
| completes_none : completes_fields [] []
| completes_field k v v' kvs kvs' :
    completes v v' -> completes_fields kvs kvs' ->
    completes_fields ((k, v) :: kvs) ((k, v') :: kvs').

Scheme completes_mut := Induction for completes Sort Prop
  with completes_seq_mut := Induction for completes_seq Sort Prop
  with completes_fields_mut := Induction for completes_fields Sort Prop.

Combined Scheme completes_mutual
  from completes_mut, completes_seq_mut, completes_fields_mut.

(** An entry, a mapping with a [breadcrumb], whose metadata has no
    [selected] field. *)
Definition undecided (e : list (string * value)) : bool :=
  has_key "breadcrumb" e
  && match lookup "metadata" e with
     | Some (VDict m) => negb (has_key "selected" m)
     | _ => false
     end.

(** No mapping of the document is such an entry. *)
Fixpoint decided (v : value) : bool :=
  match v with
  | VDict kvs =>
      negb (undecided kvs)
      && (fix all (kvs : list (string * value)) : bool :=
            match kvs with
            | [] => true
            | (_, x) :: rest => decided x && all rest
            end) kvs
  | VList xs =>
      (fix all (xs : list value) : bool :=
         match xs with
         | [] => true
         | x :: rest => decided x && all rest
         end) xs
  | _ => true
  end.

(* ================================================================== *)
(** * Properties *)

Example fnmatch_star : Fnmatch.fnmatch "stream1.secret" "stream1.*" = true.
Proof. reflexivity. Qed.

Example fnmatch_literal : Fnmatch.fnmatch "stream1.id" "stream1.secret" = false.
Proof. reflexivity. Qed.


(** ** Association lists and locations *)

Lemma lookup_assign_same {A : Type} (k : string) (v : A) kvs :
  lookup k (assign k v kvs) = Some v.
Proof.
  induction kvs as [|[k' v'] rest IH]; simpl.
  - now rewrite String.eqb_refl.
  - destruct (String.eqb k' k) eqn:E; simpl.
    + now rewrite String.eqb_refl.
    + now rewrite E.
Qed.

Lemma lookup_assign_other {A : Type} (k k' : string) (v : A) kvs :
  k <> k' -> lookup k' (assign k v kvs) = lookup k' kvs.
Proof.
  intros Hne. induction kvs as [|[k0 v0] rest IH]; simpl.
  - destruct (String.eqb k k') eqn:E; [apply String.eqb_eq in E; contradiction|reflexivity].
  - destruct (String.eqb k0 k) eqn:E; simpl.
    + apply String.eqb_eq in E. subst k0.
      destruct (String.eqb k k') eqn:E'; [apply String.eqb_eq in E'; contradiction|reflexivity].
    + destruct (String.eqb k0 k'); [reflexivity|exact IH].
Qed.

Lemma assign_assign {A : Type} (k : string) (v v' : A) kvs :
  assign k v' (assign k v kvs) = assign k v' kvs.
Proof.
  induction kvs as [|[k0 v0] rest IH]; simpl.
  - now rewrite String.eqb_refl.
  - destruct (String.eqb k0 k) eqn:E; simpl.
    + now rewrite String.eqb_refl.
    + now rewrite E, IH.
Qed.

Lemma nth_error_set_nth {A : Type} (i : nat) (x : A) xs :
  i < List.length xs -> nth_error (set_nth i x xs) i = Some x.
Proof.
  revert i. induction xs as [|y rest IH]; intros [|i] H; simpl in *; try lia.
  - reflexivity.
  - apply IH. lia.
Qed.

Lemma set_nth_set_nth {A : Type} (i : nat) (x y : A) xs :
  set_nth i y (set_nth i x xs) = set_nth i y xs.
Proof.
  revert i. induction xs as [|z rest IH]; intros [|i]; simpl; try reflexivity.
  now rewrite IH.
Qed.

Lemma child_put_child s c v x :
  child s v = Some x -> child s (put_child s c v) = Some c.
Proof.
  destruct s as [k|i], v; simpl; try discriminate; intros H.
  - apply lookup_assign_same.
  - apply nth_error_set_nth. apply nth_error_Some. congruence.
Qed.

Lemma put_child_put_child s c c' v :
  put_child s c' (put_child s c v) = put_child s c' v.
Proof.
  destruct s as [k|i], v; simpl; try reflexivity.
  - now rewrite assign_assign.
  - now rewrite set_nth_set_nth.
Qed.

Lemma get_at_app l1 l2 v :
  get_at (l1 ++ l2) v =
  match get_at l1 v with Some c => get_at l2 c | None => None end.
Proof.
  revert v. induction l1 as [|s l1 IH]; intros v; simpl; [reflexivity|].
  destruct (child s v); [apply IH|reflexivity].
Qed.

Lemma get_at_set_at l x v y :
  get_at l v = Some y -> get_at l (set_at l x v) = Some x.
Proof.
  revert v. induction l as [|s l IH]; intros v H; simpl in *; [reflexivity|].
  destruct (child s v) as [c|] eqn:E; [|discriminate].
  rewrite (child_put_child _ _ _ _ E). now apply IH.
Qed.

Lemma set_at_app l1 l2 x v n :
  get_at l1 v = Some n -> set_at (l1 ++ l2) x v = set_at l1 (set_at l2 x n) v.
Proof.
  revert v. induction l1 as [|s l1 IH]; intros v H; simpl in *.
  - now inversion H.
  - destruct (child s v) as [c|] eqn:E; [|discriminate].
    now rewrite (IH _ H).
Qed.

Lemma set_at_set_at l x x' v :
  set_at l x' (set_at l x v) = set_at l x' v.
Proof.
  revert v. induction l as [|s l IH]; intros v; simpl; [reflexivity|].
  destruct (child s v) as [c|] eqn:E; simpl.
  - rewrite (child_put_child _ _ _ _ E), IH. apply put_child_put_child.
  - now rewrite E.
Qed.

(** ** The glob matcher *)

Lemma py_any_fnmatch (s : string) (pats : list string) :
  py_any (py_fnmatch (VStr s)) pats = Done (existsb (Fnmatch.fnmatch s) pats).
Proof.
  induction pats as [|p rest IH]; simpl; [reflexivity|].
  destruct (Fnmatch.fnmatch s p); simpl; [reflexivity|exact IH].
Qed.

Lemma match_patterns_text (s : string) (include exclude : list string) :
  SelectExecutor._match_patterns (VStr s) include exclude =
  Done (existsb (Fnmatch.fnmatch s) include
        && negb (existsb (Fnmatch.fnmatch s) exclude)).
Proof.
  unfold SelectExecutor._match_patterns. now rewrite !py_any_fnmatch.
Qed.

(** C3.  On text, [_match_patterns] answers, and answers true exactly when
    the value glob-matches some pattern of [include] and none of [exclude];
    with no [include] pattern the answer is false whatever [exclude] is. *)
Theorem match_patterns_include_and_not_exclude
  (v : string) (include exclude : list string) :
  (exists b,
      SelectExecutor._match_patterns (VStr v) include exclude = Done b
      /\ (b = true <->
          (exists p, In p include /\ Fnmatch.fnmatch v p = true)
          /\ (forall p, In p exclude -> Fnmatch.fnmatch v p = false)))
  /\ SelectExecutor._match_patterns (VStr v) [] exclude = Done false.
Proof.
  split; [|now rewrite match_patterns_text].
  eexists. split; [apply match_patterns_text|].
  rewrite andb_true_iff, negb_true_iff, existsb_exists. split.
  - intros [Hin Hex]. split; [exact Hin|].
    intros p Hp. destruct (Fnmatch.fnmatch v p) eqn:E; [|reflexivity].
    assert (existsb (Fnmatch.fnmatch v) exclude = true)
      by (apply existsb_exists; eauto).
    congruence.
  - intros [Hin Hex]. split; [exact Hin|].
    destruct (existsb (Fnmatch.fnmatch v) exclude) eqn:E; [|reflexivity].
    apply existsb_exists in E. destruct E as [p [Hp Hm]].
    rewrite (Hex _ Hp) in Hm. discriminate.
Qed.

(** ** Running the primitives *)

Lemma get_at_key l k v kvs x :
  get_at l v = Some (VDict kvs) -> lookup k kvs = Some x ->
  get_at (l ++ [Key k]) v = Some x.
Proof.
  intros H L. rewrite get_at_app, H. simpl. now rewrite L.
Qed.

Lemma run_read {T : Type} l (w : world T) v :
  get_at l (doc w) = Some v -> read l w = (w, Done v).
Proof. unfold read. now intros ->. Qed.

Lemma run_getitem {T : Type} l k (w : world T) v :
  get_at l (doc w) = Some v -> getitem l k w = (w, py_getitem v k).
Proof. unfold getitem, bind, lift. intros H. now rewrite (run_read _ _ _ H). Qed.

Lemma run_ref_item {T : Type} l k (w : world T) kvs x :
  get_at l (doc w) = Some (VDict kvs) -> lookup k kvs = Some x ->
  ref_item l k w = (w, Done (l ++ [Key k])).
Proof.
  intros H L. unfold ref_item, bind. rewrite (run_getitem _ _ _ _ H). simpl.
  now rewrite L.
Qed.

Lemma run_setitem {T : Type} l k x (w : world T) kvs :
  get_at l (doc w) = Some (VDict kvs) ->
  setitem l k x w =
  (World (set_at l (VDict (assign k x kvs)) (doc w)) (self w), Done tt).
Proof. unfold setitem, bind. intros H. now rewrite (run_read _ _ _ H). Qed.

Lemma all_str_map (parts : list string) : all_str (map VStr parts) = Done parts.
Proof. induction parts as [|p rest IH]; simpl; [reflexivity|now rewrite IH]. Qed.

Lemma py_join_texts sep (parts : list string) :
  py_join sep (VList (map VStr parts)) = Done (Text.join sep parts).
Proof. unfold py_join. simpl. now rewrite all_str_map. Qed.

(** ** Property-level selection *)

(** On the entry of property [id] of [stream1] under the one rule
    [stream1.*], the handler writes [true], whereas matching the path
    without the stream name, [id], gives [false]. *)
Lemma property_path_without_stream_differs :
  get_at [Key "metadata"; Key "selected"]
    (doc (fst (SelectExecutor.property_metadata_node c2_patterns [] ""
                 (World c2_node None))))
  = Some (VBool true)
  /\ SelectExecutor._match_patterns
       (VStr (spec_property_path ["stream1"; "id"]))
       (property_includes c2_patterns) (property_excludes c2_patterns)
     = Done false.
Proof. split; reflexivity. Qed.

Lemma property_metadata_node_run
  (patterns : list SelectPattern) (node : loc) (path : string)
  (w : world SelectExecutor.state) kvs (parts : list string) m :
  get_at node (doc w) = Some (VDict kvs) ->
  lookup "breadcrumb" kvs = Some (VList (map VStr parts)) ->
  lookup "metadata" kvs = Some (VDict m) ->
  SelectExecutor.property_metadata_node patterns node path w =
  (World (set_at (node ++ [Key "metadata"])
            (VDict (assign "selected"
               (VBool (existsb (Fnmatch.fnmatch (Text.join "." parts))
                         (property_includes patterns)
                       && negb (existsb (Fnmatch.fnmatch (Text.join "." parts))
                                  (property_excludes patterns)))) m))
            (doc w)) (self w),
   Done tt).
Proof.
  intros Hn Hb Hm.
  pose proof (get_at_key _ _ _ _ _ Hn Hm) as Hmeta.
  unfold SelectExecutor.property_metadata_node, bind at 1.
  rewrite (run_getitem _ _ _ _ Hn). simpl. rewrite Hb.
  unfold bind at 1, lift at 1. rewrite py_join_texts.
  unfold bind at 1, lift at 1, SelectExecutor.property_match_patterns.
  rewrite match_patterns_text.
  unfold bind at 1. rewrite (run_ref_item _ _ _ _ _ Hn Hm).
  unfold SelectExecutor.update_node_selection.
  now rewrite (run_setitem _ _ _ _ _ Hmeta).
Qed.

(** C2 (amended).  For an entry whose breadcrumb is the list of texts
    [parts] and whose metadata is a dict, [property_metadata_node] returns
    normally and writes into the metadata's [selected] field the answer of
    [_match_patterns] on the dot-join of the whole breadcrumb, stream name
    included, against the patterns of the non-negated rules and those of
    the negated rules; nothing else in the document changes. *)
Theorem property_metadata_node_selected
  (patterns : list SelectPattern) (node : loc) (path : string)
  (w : world SelectExecutor.state) kvs (parts : list string) m :
  get_at node (doc w) = Some (VDict kvs) ->
  lookup "breadcrumb" kvs = Some (VList (map VStr parts)) ->
  lookup "metadata" kvs = Some (VDict m) ->
  exists b,
    SelectExecutor._match_patterns (VStr (Text.join "." parts))
      (property_includes patterns) (property_excludes patterns) = Done b
    /\ SelectExecutor.property_metadata_node patterns node path w =
       (World (set_at (node ++ [Key "metadata"])
                 (VDict (assign "selected" (VBool b) m)) (doc w)) (self w),
        Done tt)
    /\ get_at (node ++ [Key "metadata"; Key "selected"])
         (doc (fst (SelectExecutor.property_metadata_node patterns node path w)))
       = Some (VBool b).
Proof.
  intros Hn Hb Hm.
  pose proof (get_at_key _ _ _ _ _ Hn Hm) as Hmeta.
  pose proof (property_metadata_node_run patterns node path w _ _ _ Hn Hb Hm) as E.
  eexists. split; [apply match_patterns_text|].
  split; [exact E|].
  rewrite E. simpl.
  change (node ++ [Key "metadata"; Key "selected"])
    with (node ++ ([Key "metadata"] ++ [Key "selected"])).
  rewrite app_assoc, get_at_app.
  rewrite (get_at_set_at _ _ _ _ Hmeta). simpl.
  now rewrite lookup_assign_same.
Qed.

Lemma property_metadata_node_selected_witness :
  exists b,
    SelectExecutor._match_patterns (VStr (Text.join "." ["stream1"; "id"]))
      (property_includes c2_patterns) (property_excludes c2_patterns) = Done b
    /\ SelectExecutor.property_metadata_node c2_patterns [] "" (World c2_node None) =
       (World (set_at ([] ++ [Key "metadata"])
                 (VDict (assign "selected" (VBool b)
                           [("inclusion", VStr "available")])) c2_node) None,
        Done tt)
    /\ get_at ([] ++ [Key "metadata"; Key "selected"])
         (doc (fst (SelectExecutor.property_metadata_node c2_patterns [] ""
                      (World c2_node None))))
       = Some (VBool b).
Proof.
  apply (property_metadata_node_selected c2_patterns [] "" (World c2_node None)
           c2_fields ["stream1"; "id"] [("inclusion", VStr "available")]);
    reflexivity.
Defined.

(** ** Stream-level selection *)

Lemma stream_match_patterns_text patterns (name : string) :
  SelectExecutor.stream_match_patterns patterns (VStr name) =
  Done (stream_selected patterns name).
Proof.
  unfold SelectExecutor.stream_match_patterns. rewrite match_patterns_text.
  simpl. now rewrite andb_true_r.
Qed.

Lemma set_at_key k x kvs y :
  lookup k kvs = Some y -> set_at [Key k] x (VDict kvs) = VDict (assign k x kvs).
Proof. simpl. now intros ->. Qed.

Lemma set_at_idx i x xs y :
  nth_error xs i = Some y -> set_at [Idx i] x (VList xs) = VList (set_nth i x xs).
Proof. simpl. now intros ->. Qed.

Section StreamNode.

Variable patterns : list SelectPattern.
Variables (node : loc) (path : string).
Variable w : world SelectExecutor.state.
Variable kvs : list (string * value).
Variable name : string.

Hypothesis Hnode : get_at node (doc w) = Some (VDict kvs).
Hypothesis Hname : lookup "stream" kvs = Some (VStr name).

(** Up to the [try], [stream_node] has made the node current and
    computed the decision. *)
Lemma stream_node_prologue :
  SelectExecutor.stream_node patterns node path w =
  (catch
     (entries <- getitem node "metadata" ;;
      i <- lift (next_index SelectExecutor.empty_breadcrumb entries) ;;
      target <- ref_item (node ++ [Key "metadata"; Idx i]) "metadata" ;;
      SelectExecutor.update_node_selection target path (stream_selected patterns name))
     (fun e =>
        match e with
        | KeyError =>
            Some (setitem node "metadata" (VList [SelectExecutor.stream_metadata]))
        | StopIteration =>
            Some (entries <- ref_item node "metadata" ;;
                  list_insert0 entries SelectExecutor.stream_metadata)
        | _ => None
        end) ;;
   SelectExecutor.update_node_selection node path (stream_selected patterns name))
    (World (doc w) (Some node)).
Proof.
  unfold SelectExecutor.stream_node.
  unfold bind at 1. simpl.
  unfold bind at 1, SelectExecutor.current_stream, bind at 1,
    SelectExecutor.the_stream, bind at 1. simpl.
  erewrite run_getitem by (cbn [doc]; exact Hnode).
  simpl. rewrite Hname.
  unfold bind at 1, lift at 1. now rewrite stream_match_patterns_text.
Qed.

(** No metadata sequence: one is created, holding the synthetic entry
    as it is. *)
Lemma stream_node_absent :
  lookup "metadata" kvs = None ->
  SelectExecutor.stream_node patterns node path w =
  (World
     (set_at node
        (VDict (assign "selected" (VBool (stream_selected patterns name))
                  (assign "metadata" (VList [SelectExecutor.stream_metadata]) kvs)))
        (doc w))
     (Some node),
   Done tt).
Proof.
  intros Habs. rewrite stream_node_prologue.
  unfold bind at 1, catch, bind at 1.
  erewrite run_getitem by (cbn [doc]; exact Hnode).
  simpl py_getitem. rewrite Habs. cbv beta iota.
  unfold raise. cbv beta iota.
  erewrite run_setitem by (cbn [doc]; exact Hnode).
  unfold SelectExecutor.update_node_selection.
  erewrite run_setitem by (simpl; apply (get_at_set_at _ _ _ _ Hnode)).
  simpl. now rewrite set_at_set_at.
Qed.

(** A metadata sequence without an entry of empty breadcrumb: the
    synthetic entry goes in front, as it is. *)
Lemma stream_node_legacy entries :
  lookup "metadata" kvs = Some (VList entries) ->
  next_index SelectExecutor.empty_breadcrumb (VList entries) = raise StopIteration ->
  SelectExecutor.stream_node patterns node path w =
  (World
     (set_at node
        (VDict (assign "selected" (VBool (stream_selected patterns name))
                  (assign "metadata"
                     (VList (SelectExecutor.stream_metadata :: entries)) kvs)))
        (doc w))
     (Some node),
   Done tt).
Proof.
  intros Hmd Hnext. rewrite stream_node_prologue.
  unfold bind at 1, catch, bind at 1.
  erewrite run_getitem by (cbn [doc]; exact Hnode).
  simpl py_getitem. rewrite Hmd. cbv beta iota.
  unfold bind at 1, lift at 1. rewrite Hnext. unfold raise. cbv beta iota.
  unfold bind at 1.
  erewrite run_ref_item by (cbn [doc]; eassumption).
  unfold list_insert0, bind at 1.
  erewrite run_read by (simpl; apply (get_at_key _ _ _ _ _ Hnode Hmd)).
  unfold write. cbv beta iota.
  unfold SelectExecutor.update_node_selection.
  simpl doc. simpl self.
  rewrite (set_at_app node [Key "metadata"] _ _ _ Hnode).
  rewrite (set_at_key _ _ _ _ Hmd).
  erewrite run_setitem by (simpl; apply (get_at_set_at _ _ _ _ Hnode)).
  simpl. now rewrite set_at_set_at.
Qed.

(** An entry of empty breadcrumb is found: the decision is written into
    its metadata. *)
Lemma stream_node_found entries i e m :
  lookup "metadata" kvs = Some (VList entries) ->
  next_index SelectExecutor.empty_breadcrumb (VList entries) = Done i ->
  nth_error entries i = Some (VDict e) ->
  lookup "metadata" e = Some (VDict m) ->
  SelectExecutor.stream_node patterns node path w =
  (World
     (set_at node
        (VDict
           (assign "selected" (VBool (stream_selected patterns name))
              (assign "metadata"
                 (VList
                    (set_nth i
                       (VDict (assign "metadata"
                                 (VDict (assign "selected" (VBool (stream_selected patterns name)) m)) e))
                       entries))
                 kvs)))
        (doc w))
     (Some node),
   Done tt).
Proof.
  intros Hmd Hnext Hi Hm. rewrite stream_node_prologue.
  assert (Hentry : get_at (node ++ [Key "metadata"; Idx i]) (doc w) = Some (VDict e)).
  { rewrite get_at_app, Hnode. simpl. now rewrite Hmd, Hi. }
  unfold bind at 1, catch, bind at 1.
  erewrite run_getitem by (cbn [doc]; exact Hnode).
  simpl py_getitem. rewrite Hmd. cbv beta iota.
  unfold bind at 1, lift at 1. rewrite Hnext. cbv beta iota.
  unfold bind at 1.
  erewrite run_ref_item by (cbn [doc]; eassumption).
  unfold SelectExecutor.update_node_selection.
  erewrite run_setitem by (simpl; apply (get_at_key _ _ _ _ _ Hentry Hm)).
  cbv beta iota. simpl doc. simpl self.
  rewrite <- app_assoc.
  rewrite (set_at_app node _ _ _ _ Hnode).
  replace (set_at ([Key "metadata"; Idx i] ++ [Key "metadata"])
             (VDict (assign "selected" (VBool (stream_selected patterns name)) m)) (VDict kvs))
    with (VDict (assign "metadata"
                   (VList (set_nth i
                             (VDict (assign "metadata"
                                (VDict (assign "selected" (VBool (stream_selected patterns name)) m)) e))
                             entries)) kvs))
    by (simpl; now rewrite Hmd, Hi, Hm).
  erewrite run_setitem by (simpl; apply (get_at_set_at _ _ _ _ Hnode)).
  simpl. now rewrite set_at_set_at.
Qed.

End StreamNode.

Lemma stream_metadata_node_selected
  (patterns : list SelectPattern) (entry stream : loc) (path : string)
  (w : world SelectExecutor.state) e m kvs name :
  self w = Some stream ->
  get_at stream (doc w) = Some (VDict kvs) ->
  lookup "stream" kvs = Some (VStr name) ->
  get_at entry (doc w) = Some (VDict e) ->
  lookup "metadata" e = Some (VDict m) ->
  SelectExecutor.stream_metadata_node patterns entry path w =
  (World (set_at (entry ++ [Key "metadata"])
            (VDict (assign "selected" (VBool (stream_selected patterns name)) m))
            (doc w))
     (self w),
   Done tt).
Proof.
  intros Hself Hstream Hname Hentry Hm.
  unfold SelectExecutor.stream_metadata_node.
  unfold bind at 1. erewrite run_ref_item by eassumption.
  unfold bind at 1, SelectExecutor.current_stream, bind at 1,
    SelectExecutor.the_stream, bind at 1. simpl. rewrite Hself. simpl.
  erewrite run_getitem by eassumption. simpl. rewrite Hname.
  unfold bind at 1, lift at 1. rewrite stream_match_patterns_text.
  unfold SelectExecutor.update_node_selection.
  erewrite run_setitem by (apply (get_at_key _ _ _ _ _ Hentry Hm)).
  now rewrite Hself.
Qed.

(** Whatever the [try] did, a [stream_node] that returns has written the
    decision at the top level of the node. *)
Lemma stream_node_top_level
  (patterns : list SelectPattern) (node : loc) (path : string)
  (w w' : world SelectExecutor.state) kvs name :
  get_at node (doc w) = Some (VDict kvs) ->
  lookup "stream" kvs = Some (VStr name) ->
  SelectExecutor.stream_node patterns node path w = (w', Done tt) ->
  get_at (node ++ [Key "selected"]) (doc w')
  = Some (VBool (stream_selected patterns name)).
Proof.
  intros Hnode Hname. rewrite (stream_node_prologue _ _ _ _ _ _ Hnode Hname).
  unfold bind at 1.
  match goal with |- context [catch ?b ?h ?x] => destruct (catch b h x) as [w2 [[]|why]] end;
    [|discriminate].
  unfold SelectExecutor.update_node_selection, setitem, bind, read.
  destruct (get_at node (doc w2)) as [[| | | | |kvs2]|] eqn:E; simpl; try discriminate.
  unfold write. intros H. inversion H; subst. simpl.
  rewrite get_at_app, (get_at_set_at _ _ _ _ E). simpl.
  now rewrite lookup_assign_same.
Qed.

Lemma stream_node_readback node d kvs (b : bool) (x : value) :
  get_at node d = Some (VDict kvs) ->
  get_at (node ++ [Key "metadata"])
    (set_at node
       (VDict (assign "selected" (VBool b) (assign "metadata" x kvs))) d)
  = Some x.
Proof.
  intros H. rewrite get_at_app, (get_at_set_at _ _ _ _ H). simpl.
  rewrite lookup_assign_other by discriminate. now rewrite lookup_assign_same.
Qed.

(** In both backfill cases the entry [stream_node] puts in carries no
    [selected] field when the handler returns, although the decision for
    the stream is [true]. *)
Lemma stream_node_backfill_leaves_entry_unselected :
  stream_selected c1_patterns "s" = true
  /\ get_at [Key "metadata"; Idx 0; Key "metadata"]
       (doc (fst (SelectExecutor.stream_node c1_patterns [] ""
                    (World (VDict c1_bare) None))))
     = Some (VDict [("inclusion", VStr "automatic")])
  /\ get_at [Key "metadata"; Idx 0; Key "metadata"]
       (doc (fst (SelectExecutor.stream_node c1_patterns [] ""
                    (World (VDict c1_legacy) None))))
     = Some (VDict [("inclusion", VStr "automatic")]).
Proof. repeat split; reflexivity. Qed.

(** C1 (amended).  On a stream node with a textual name [stream_node]
    returns normally in these three cases.  Without a metadata sequence it
    creates one holding the single synthetic entry; with a sequence that
    has no entry of empty breadcrumb it puts the synthetic entry in front
    of the entries there; in both cases the synthetic entry is stored as
    it is, without a [selected] field.  When an entry of empty breadcrumb
    is found, the decision is written into that entry's metadata and the
    other entries stay as they are. *)
Theorem stream_node_backfill
  (patterns : list SelectPattern) (node : loc) (path : string)
  (w : world SelectExecutor.state) kvs name :
  get_at node (doc w) = Some (VDict kvs) ->
  lookup "stream" kvs = Some (VStr name) ->
  (lookup "metadata" kvs = None ->
   exists w', SelectExecutor.stream_node patterns node path w = (w', Done tt)
     /\ get_at (node ++ [Key "metadata"]) (doc w')
        = Some (VList [SelectExecutor.stream_metadata]))
  /\ (forall entries,
        lookup "metadata" kvs = Some (VList entries) ->
        next_index SelectExecutor.empty_breadcrumb (VList entries)
        = raise StopIteration ->
        exists w', SelectExecutor.stream_node patterns node path w = (w', Done tt)
          /\ get_at (node ++ [Key "metadata"]) (doc w')
             = Some (VList (SelectExecutor.stream_metadata :: entries)))
  /\ (forall entries i e m,
        lookup "metadata" kvs = Some (VList entries) ->
        next_index SelectExecutor.empty_breadcrumb (VList entries) = Done i ->
        nth_error entries i = Some (VDict e) ->
        lookup "metadata" e = Some (VDict m) ->
        exists w', SelectExecutor.stream_node patterns node path w = (w', Done tt)
          /\ get_at (node ++ [Key "metadata"]) (doc w')
             = Some (VList
                       (set_nth i
                          (VDict
                             (assign "metadata"
                                (VDict (assign "selected"
                                          (VBool (stream_selected patterns name)) m))
                                e))
                          entries)))
  /\ get_at [Key "metadata"; Key "selected"] SelectExecutor.stream_metadata = None.
Proof.
  intros Hnode Hname. repeat split.
  - intros Habs. eexists. split.
    + apply (stream_node_absent _ _ _ _ _ _ Hnode Hname Habs).
    + apply (stream_node_readback _ _ _ _ _ Hnode).
  - intros entries Hmd Hnext. eexists. split.
    + apply (stream_node_legacy _ _ _ _ _ _ Hnode Hname _ Hmd Hnext).
    + apply (stream_node_readback _ _ _ _ _ Hnode).
  - intros entries i e m Hmd Hnext Hi Hm. eexists. split.
    + apply (stream_node_found _ _ _ _ _ _ Hnode Hname _ _ _ _ Hmd Hnext Hi Hm).
    + apply (stream_node_readback _ _ _ _ _ Hnode).
Qed.

(** The field the handler leaves out is written when the traversal comes
    to the entry. *)
Example backfilled_entry_selected_by_traversal :
  get_at [Key "streams"; Idx 0; Key "metadata"; Idx 0; Key "metadata"; Key "selected"]
    (fst (select 16 ["s"] (VDict [("streams", VList [VDict c1_bare])])))
  = Some (VBool true).
Proof. vm_compute. reflexivity. Qed.

Lemma stream_node_backfill_witness :
  (exists w', SelectExecutor.stream_node c1_patterns [] "" (World (VDict c1_bare) None)
              = (w', Done tt)
     /\ get_at ([] ++ [Key "metadata"]) (doc w')
        = Some (VList [SelectExecutor.stream_metadata]))
  /\ (exists w', SelectExecutor.stream_node c1_patterns [] ""
                   (World (VDict c1_legacy) None) = (w', Done tt)
        /\ get_at ([] ++ [Key "metadata"]) (doc w')
           = Some (VList [SelectExecutor.stream_metadata; VDict c1_entry]))
  /\ (exists w', SelectExecutor.stream_node c1_patterns [] ""
                   (World (VDict c1_found) None) = (w', Done tt)
        /\ get_at ([] ++ [Key "metadata"]) (doc w')
           = Some (VList [VDict c1_entry;
                          VDict [("breadcrumb", VList []);
                                 ("metadata", VDict [("selected", VBool true)])]])).
Proof.
  split; [|split].
  - apply (proj1
             (stream_node_backfill c1_patterns [] "" (World (VDict c1_bare) None)
                c1_bare "s" eq_refl eq_refl)).
    reflexivity.
  - apply (proj1 (proj2
             (stream_node_backfill c1_patterns [] "" (World (VDict c1_legacy) None)
                c1_legacy "s" eq_refl eq_refl)) [VDict c1_entry]);
      reflexivity.
  - apply (proj1 (proj2 (proj2
             (stream_node_backfill c1_patterns [] "" (World (VDict c1_found) None)
                c1_found "s" eq_refl eq_refl)))
             [VDict c1_entry;
              VDict [("breadcrumb", VList []); ("metadata", VDict [])]]
             1 [("breadcrumb", VList []); ("metadata", VDict [])] []);
      reflexivity.
Defined.

(** C4.  The stream-level decision is [_match_patterns] on the stream name
    with the stream patterns of the non-negated rules as [include] and no
    [exclude]; two rule lists with the same non-negated rules decide alike,
    so negated rules have no part in it.  [stream_node] writes this value
    at the top level of the stream node whenever it returns, and into the
    metadata of the entry of empty breadcrumb it finds;
    [stream_metadata_node] writes it into the metadata of the entry it is
    given. *)
Theorem stream_level_selection
  (patterns : list SelectPattern) (node : loc) (path : string)
  (w : world SelectExecutor.state) kvs name :
  get_at node (doc w) = Some (VDict kvs) ->
  lookup "stream" kvs = Some (VStr name) ->
  SelectExecutor.stream_match_patterns patterns (VStr name)
  = SelectExecutor._match_patterns (VStr name) (stream_includes patterns) []
  /\ SelectExecutor.stream_match_patterns patterns (VStr name)
     = Done (stream_selected patterns name)
  /\ (forall patterns' v,
        filter (fun p => negb (negated p)) patterns'
        = filter (fun p => negb (negated p)) patterns ->
        SelectExecutor.stream_match_patterns patterns' v
        = SelectExecutor.stream_match_patterns patterns v)
  /\ (forall w',
        SelectExecutor.stream_node patterns node path w = (w', Done tt) ->
        get_at (node ++ [Key "selected"]) (doc w')
        = Some (VBool (stream_selected patterns name)))
  /\ (forall entries i e m,
        lookup "metadata" kvs = Some (VList entries) ->
        next_index SelectExecutor.empty_breadcrumb (VList entries) = Done i ->
        nth_error entries i = Some (VDict e) ->
        lookup "metadata" e = Some (VDict m) ->
        exists w', SelectExecutor.stream_node patterns node path w = (w', Done tt)
          /\ get_at (node ++ [Key "metadata"; Idx i; Key "metadata"; Key "selected"])
               (doc w')
             = Some (VBool (stream_selected patterns name)))
  /\ (forall entry entry_path e m,
        self w = Some node ->
        get_at entry (doc w) = Some (VDict e) ->
        lookup "metadata" e = Some (VDict m) ->
        exists w',
          SelectExecutor.stream_metadata_node patterns entry entry_path w
          = (w', Done tt)
          /\ get_at (entry ++ [Key "metadata"; Key "selected"]) (doc w')
             = Some (VBool (stream_selected patterns name))).
Proof.
  intros Hnode Hname. repeat split.
  - apply stream_match_patterns_text.
  - intros patterns' v Hsame.
    unfold SelectExecutor.stream_match_patterns. now rewrite Hsame.
  - intros w'. apply (stream_node_top_level _ _ _ _ _ _ _ Hnode Hname).
  - intros entries i e m Hmd Hnext Hi Hm. eexists. split.
    + apply (stream_node_found _ _ _ _ _ _ Hnode Hname _ _ _ _ Hmd Hnext Hi Hm).
    + simpl doc.
      change (node ++ [Key "metadata"; Idx i; Key "metadata"; Key "selected"])
        with (node ++ ([Key "metadata"] ++ [Idx i; Key "metadata"; Key "selected"])).
      rewrite app_assoc, get_at_app, (stream_node_readback _ _ _ _ _ Hnode).
      simpl. rewrite nth_error_set_nth
        by (apply nth_error_Some; congruence).
      now rewrite !lookup_assign_same.
  - intros entry entry_path e m Hself Hentry Hm. eexists. split.
    + apply (stream_metadata_node_selected _ _ _ _ _ _ _ _ _
               Hself Hnode Hname Hentry Hm).
    + simpl doc.
      change (entry ++ [Key "metadata"; Key "selected"])
        with (entry ++ ([Key "metadata"] ++ [Key "selected"])).
      rewrite app_assoc, get_at_app.
      rewrite (get_at_set_at _ _ _ _ (get_at_key _ _ _ _ _ Hentry Hm)).
      simpl. now rewrite lookup_assign_same.
Qed.

Lemma stream_level_selection_witness :
  SelectExecutor.stream_match_patterns c1_patterns (VStr "s")
  = Done (stream_selected c1_patterns "s")
  /\ exists w',
       SelectExecutor.stream_node c1_patterns [] "" (World (VDict c1_found) None)
       = (w', Done tt)
       /\ get_at ([] ++ [Key "metadata"; Idx 1; Key "metadata"; Key "selected"])
            (doc w')
          = Some (VBool (stream_selected c1_patterns "s")).
Proof.
  destruct (stream_level_selection c1_patterns [] "" (World (VDict c1_found) None)
              c1_found "s" eq_refl eq_refl) as (_ & H2 & _ & _ & H5 & _).
  split; [exact H2|].
  apply (H5 [VDict c1_entry;
             VDict [("breadcrumb", VList []); ("metadata", VDict [])]]
            1 [("breadcrumb", VList []); ("metadata", VDict [])] []);
    reflexivity.
Defined.

(** ** The dispatch of [execute] *)

Lemma stream_node_without_name
  (patterns : list SelectPattern) (node : loc) (path : string)
  (w : world SelectExecutor.state) kvs :
  get_at node (doc w) = Some (VDict kvs) ->
  lookup "stream" kvs = None ->
  SelectExecutor.stream_node patterns node path w
  = (World (doc w) (Some node), Stop (Exn KeyError)).
Proof.
  intros Hnode Hname. unfold SelectExecutor.stream_node.
  unfold bind at 1. simpl.
  unfold bind at 1, SelectExecutor.current_stream, bind at 1,
    SelectExecutor.the_stream, bind at 1. simpl.
  erewrite run_getitem by (cbn [doc]; exact Hnode).
  simpl. now rewrite Hname.
Qed.

(** C10.  [execute] never lets a [KeyError] out.  When the handler a kind
    is dispatched to raises [KeyError], [execute] returns normally in the
    state the handler had reached; a value that is no kind at all is
    skipped in the same way, with the state untouched.  In particular
    [SelectExecutor.stream_node] on a stream mapping without a [stream]
    key raises [KeyError] before it writes anything to the document, and
    [execute] returns normally with the document as it was. *)
Theorem execute_never_raises_key_error
  {T : Type} (ex : CatalogExecutor.t T) (node_type : option CatalogNode)
  (node : loc) (path : string) (w : world T) :
  snd (CatalogExecutor.execute ex node_type node path w) <> Stop (Exn KeyError)
  /\ (forall kind w',
        CatalogExecutor.dispatch ex kind node path w = (w', Stop (Exn KeyError)) ->
        CatalogExecutor.execute ex (Some kind) node path w = (w', Done tt))
  /\ CatalogExecutor.execute ex None node path w = (w, Done tt)
  /\ (forall rules (w0 : world SelectExecutor.state) kvs,
        get_at node (doc w0) = Some (VDict kvs) ->
        lookup "stream" kvs = None ->
        SelectExecutor.stream_node (map parse_select_pattern rules) node path w0
        = (World (doc w0) (Some node), Stop (Exn KeyError))
        /\ CatalogExecutor.execute (SelectExecutor.make rules) (Some STREAM)
             node path w0
           = (World (doc w0) (Some node), Done tt)).
Proof.
  repeat split.
  - unfold CatalogExecutor.execute, catch.
    destruct node_type as [kind|].
    + destruct (CatalogExecutor.dispatch ex kind node path w)
        as [w' [[]|[[]| |]]]; simpl; discriminate.
    + simpl. discriminate.
  - intros kind w' H. unfold CatalogExecutor.execute, catch. now rewrite H.
  - apply (stream_node_without_name _ _ _ _ _ H H0).
  - unfold CatalogExecutor.execute, catch. simpl.
    now rewrite (stream_node_without_name _ _ _ _ _ H H0).
Qed.

Lemma execute_never_raises_key_error_witness :
  SelectExecutor.stream_node (map parse_select_pattern ["s"]) [] ""
    (World (VDict [("tap_stream_id", VStr "s")]) None)
  = (World (VDict [("tap_stream_id", VStr "s")]) (Some []), Stop (Exn KeyError))
  /\ CatalogExecutor.execute (SelectExecutor.make ["s"]) (Some STREAM) [] ""
       (World (VDict [("tap_stream_id", VStr "s")]) None)
     = (World (VDict [("tap_stream_id", VStr "s")]) (Some []), Done tt).
Proof.
  apply (proj2 (proj2 (proj2
           (execute_never_raises_key_error (SelectExecutor.make ["s"])
              (Some STREAM) [] ""
              (World (VDict [("tap_stream_id", VStr "s")]) None))))
           ["s"] (World (VDict [("tap_stream_id", VStr "s")]) None)
           [("tap_stream_id", VStr "s")]);
    reflexivity.
Defined.

(** ** A selection pass on a small catalog *)

(** C6.  Under the rules [stream1.*] and [!stream1.secret] the pass over a
    catalog with stream [stream1] and properties [id] and [secret], each
    with its metadata entry, ends normally; it leaves [id] selected and
    [secret] not selected, although [stream1.*] matches [stream1.secret].
    The same holds of the legacy catalog, whose entries the pass makes up
    itself. *)
Theorem select_star_except_secret :
  snd (select 16 c6_rules c6_catalog) = Done tt
  /\ c6_entry_selected (fst (select 16 c6_rules c6_catalog)) 1 = Some (VBool true)
  /\ c6_entry_selected (fst (select 16 c6_rules c6_catalog)) 2 = Some (VBool false)
  /\ Fnmatch.fnmatch "stream1.secret" "stream1.*" = true
  /\ snd (select 16 c6_rules c6_legacy) = Done tt
  /\ c6_entry_selected (fst (select 16 c6_rules c6_legacy)) 1 = Some (VBool true)
  /\ c6_entry_selected (fst (select 16 c6_rules c6_legacy)) 2 = Some (VBool false).
Proof. repeat split; vm_compute; reflexivity. Qed.

(** ** The report of [ListSelectedExecutor] *)

Ltac eqb_facts :=
  repeat match goal with
         | H : Z.eqb _ _ = true |- _ => apply Z.eqb_eq in H
         | H : Bool.eqb _ _ = true |- _ => apply eqb_prop in H
         | H : String.eqb _ _ = true |- _ => apply String.eqb_eq in H
         | |- Z.eqb _ _ = true => apply Z.eqb_eq
         | |- Bool.eqb _ _ = true => apply eqb_true_iff
         | |- String.eqb _ _ = true => apply String.eqb_eq
         end.

Ltac bool_cases :=
  repeat match goal with
         | b : bool |- _ => destruct b
         end;
  simpl in *; subst; try reflexivity; try discriminate; try lia.

Lemma py_eqb_same_right a b c :
  hashable a = true -> py_eqb a c = true -> py_eqb b c = true -> py_eqb a b = true.
Proof.
  destruct a, c; simpl; try discriminate; intros _ H1;
    destruct b; simpl; try discriminate; intros H2;
    eqb_facts; bool_cases.
Qed.

Lemma py_eqb_same_left x a b :
  hashable x = true -> py_eqb x a = true -> py_eqb x b = true -> py_eqb a b = true.
Proof.
  destruct x, a; simpl; try discriminate; intros _ H1;
    destruct b; simpl; try discriminate; intros H2;
    eqb_facts; bool_cases.
Qed.

Lemma py_del_members {A : Type} (k : value) (d d' : list (value * A)) :
  dict_ok d ->
  ListSelectedExecutor.py_del k d = Done d' ->
  dict_ok d'
  /\ forall x a, In (x, a) d' <-> In (x, a) d /\ py_eqb x k = false.
Proof.
  intros Hok. revert d'. induction Hok as [|k0 v rest Hh Hall Hok IH]; intros d'; simpl.
  - discriminate.
  - destruct (py_eqb k0 k) eqn:E.
    + intros H. inversion H; subst d'. split; [exact Hok|].
      intros x a. split.
      * intros Hin. split; [now right|].
        rewrite Forall_forall in Hall. specialize (Hall _ Hin). simpl in Hall.
        destruct (py_eqb x k) eqn:E'; [|reflexivity].
        rewrite (py_eqb_same_right _ _ _ Hh E E') in Hall. discriminate.
      * intros [[Heq|Hin] Hne]; [|exact Hin].
        inversion Heq; subst. congruence.
    + destruct (ListSelectedExecutor.py_del k rest) as [rest'|] eqn:D;
        simpl; [|discriminate].
      intros H. inversion H; subst d'.
      destruct (IH _ eq_refl) as [Hok' Hmem]. split.
      * constructor; [exact Hh| |exact Hok'].
        rewrite Forall_forall in *. intros [x a] Hin.
        apply Hall. now apply Hmem in Hin.
      * intros x a. simpl. rewrite Hmem. split.
        -- intros [Heq|[Hin Hne]]; [|tauto].
           inversion Heq; subst. tauto.
        -- tauto.
Qed.

Lemma del_each_members {A : Type} (ks : list value) (d d' : list (value * A)) :
  dict_ok d ->
  ListSelectedExecutor.del_each ks d = Done d' ->
  forall x a,
    In (x, a) d' <-> In (x, a) d /\ forall k, In k ks -> py_eqb x k = false.
Proof.
  revert d. induction ks as [|k ks IH]; intros d Hok; simpl.
  - intros H. inversion H; subst. intros x a. split; [intros; split; tauto|tauto].
  - destruct (ListSelectedExecutor.py_del k d) as [d1|] eqn:D; simpl; [|discriminate].
    intros H x a. destruct (py_del_members _ _ _ Hok D) as [Hok1 Hmem].
    rewrite (IH _ Hok1 H), Hmem. split.
    + intros [[Hin Hk] Hks]. split; [exact Hin|].
      intros k' [<-|Hin']; auto.
    + intros [Hin Hks]. repeat split; auto.
Qed.

Lemma py_del_present {A : Type} (k : value) (d : list (value * A)) :
  (exists x a, In (x, a) d /\ py_eqb x k = true) ->
  exists d', ListSelectedExecutor.py_del k d = Done d'.
Proof.
  induction d as [|[k0 v] rest IH]; intros (x & a & Hin & Hx); simpl.
  - destruct Hin.
  - destruct (py_eqb k0 k) eqn:E; [eauto|].
    destruct Hin as [Heq|Hin].
    + inversion Heq; subst. congruence.
    + destruct IH as [d' ->]; [eauto|]. simpl. eauto.
Qed.

Lemma del_each_returns {A : Type} (ks : list value) (d : list (value * A)) :
  dict_ok d ->
  ForallOrdPairs (fun a b => py_eqb a b = false) ks ->
  (forall k, In k ks -> exists x a, In (x, a) d /\ py_eqb x k = true) ->
  exists d', ListSelectedExecutor.del_each ks d = Done d'.
Proof.
  intros Hok Hks. revert d Hok.
  induction Hks as [|k ks Hk Hks IH]; intros d Hok Hin; simpl; [eauto|].
  destruct (py_del_present k d) as [d1 D]; [apply Hin; now left|].
  rewrite D. simpl. destruct (py_del_members _ _ _ Hok D) as [Hok1 Hmem].
  apply IH; [exact Hok1|].
  intros k' Hk'. destruct (Hin k' (or_intror Hk')) as (x & a & Hx & Exk').
  exists x, a. split; [|exact Exk']. apply Hmem. split; [exact Hx|].
  destruct (py_eqb x k) eqn:E; [|reflexivity].
  assert (Hhx : hashable x = true).
  { clear - Hok Hx. induction Hok as [|k0 v rest Hh _ _ IH]; [destruct Hx|].
    destruct Hx as [Heq|Hx]; [inversion Heq; now subst|auto]. }
  rewrite Forall_forall in Hk.
  pose proof (py_eqb_same_left _ _ _ Hhx E Exk') as Hsame.
  rewrite (Hk _ Hk') in Hsame. discriminate.
Qed.

Lemma set_of_members (names : list string) (n : string) :
  In n (ListSelectedExecutor.set_of names) <-> In n names.
Proof.
  induction names as [|m rest IH]; simpl; [tauto|].
  destruct (existsb (String.eqb m) (ListSelectedExecutor.set_of rest)) eqn:E.
  - rewrite IH. split; [tauto|]. intros [<-|H]; [|exact H].
    apply existsb_exists in E. destruct E as [y [Hy Hm]].
    apply String.eqb_eq in Hm. subst y. now apply IH.
  - simpl. now rewrite IH.
Qed.

Lemma dropped_names_members self k :
  In k (dropped_names self) <->
  exists flag, In (k, flag) (ListSelectedExecutor.streams self)
               /\ py_truthy flag = false.
Proof.
  unfold dropped_names. rewrite in_map_iff. split.
  - intros [[k' flag] [Hk Hin]]. simpl in Hk. subst k'.
    apply filter_In in Hin. destruct Hin as [Hin Hf]. simpl in Hf.
    exists flag. split; [exact Hin|]. now apply negb_true_iff.
  - intros [flag [Hin Hf]]. exists (k, flag). split; [reflexivity|].
    apply filter_In. split; [exact Hin|]. simpl. now rewrite Hf.
Qed.

Lemma selected_names_members props n :
  In n (selected_names props) <->
  exists flag, In (n, flag) props /\ py_truthy flag = true.
Proof.
  unfold selected_names. rewrite set_of_members, in_map_iff. split.
  - intros [[n' flag] [Hn Hin]]. simpl in Hn. subst n'.
    apply filter_In in Hin. now exists flag.
  - intros [flag [Hin Hf]]. exists (n, flag). split; [reflexivity|].
    apply filter_In. now split.
Qed.

(** C9.  [is_node_selected] answers [False] for a node without the
    [metadata] key; for a node whose metadata is a mapping its answer
    equals [True] exactly when [inclusion] is ["automatic"] or [selected]
    equals [True].  When the names of the false stream-level pairs differ
    from each other and all key [properties] (a dict), [selected_properties]
    returns a report, and a stream is in it with a set of names exactly
    when it keys [properties], no stream-level pair of its name has a false
    flag, and the set holds the names its property pairs have with a true
    flag: a stream with a false pair is left out whatever its properties. *)
Theorem selected_report (self : ListSelectedExecutor.state) :
  (forall kvs,
      lookup "metadata" kvs = None ->
      ListSelectedExecutor.is_node_selected (VDict kvs) = Done (VBool false))
  /\ (forall kvs m,
        lookup "metadata" kvs = Some (VDict m) ->
        exists r,
          ListSelectedExecutor.is_node_selected (VDict kvs) = Done r
          /\ (py_eqb r (VBool true) = true <->
              lookup "inclusion" m = Some (VStr "automatic")
              \/ exists s, lookup "selected" m = Some s
                           /\ py_eqb s (VBool true) = true))
  /\ (dict_ok (ListSelectedExecutor.properties self) ->
      ForallOrdPairs (fun a b => py_eqb a b = false) (dropped_names self) ->
      (forall k, In k (dropped_names self) ->
                 exists x a, In (x, a) (ListSelectedExecutor.properties self)
                             /\ py_eqb x k = true) ->
      exists report,
        ListSelectedExecutor.selected_properties self = Done report
        /\ forall stream names,
             In (stream, names) report <->
             exists props,
               In (stream, props) (ListSelectedExecutor.properties self)
               /\ (forall name flag,
                     In (name, flag) (ListSelectedExecutor.streams self) ->
                     py_truthy flag = false -> py_eqb stream name = false)
               /\ names = selected_names props)
  /\ (forall props n,
        In n (selected_names props) <->
        exists flag, In (n, flag) props /\ py_truthy flag = true).
Proof.
  split; [|split; [|split]].
  - intros kvs Habs. unfold ListSelectedExecutor.is_node_selected. simpl.
    now rewrite Habs.
  - intros kvs m Hm. unfold ListSelectedExecutor.is_node_selected. simpl.
    rewrite Hm. simpl.
    destruct (lookup "inclusion" m) as [inc|] eqn:Einc; simpl.
    + destruct (py_eqb inc (VStr "automatic")) eqn:Eauto.
      * exists (VBool true). split; [reflexivity|]. split; [|reflexivity].
        intros _. left. destruct inc; simpl in Eauto; try discriminate.
        apply String.eqb_eq in Eauto. now subst.
      * destruct (lookup "selected" m) as [s|] eqn:Es; simpl.
        -- exists s. split; [reflexivity|]. split.
           ++ intros H. right. now exists s.
           ++ intros [H|[s' [Hs' H]]]; [|congruence].
              inversion H; subst. simpl in Eauto. discriminate.
        -- exists (VBool false). split; [reflexivity|]. split; [discriminate|].
           intros [H|[s' [Hs' _]]]; [|discriminate].
           inversion H; subst. simpl in Eauto. discriminate.
    + destruct (lookup "selected" m) as [s|] eqn:Es; simpl.
      * exists s. split; [reflexivity|]. split.
        -- intros H. right. now exists s.
        -- intros [H|[s' [Hs' H]]]; [discriminate|congruence].
      * exists (VBool false). split; [reflexivity|]. split; [discriminate|].
        intros [H|[s' [Hs' _]]]; discriminate.
  - intros Hok Hdistinct Hpresent.
    destruct (del_each_returns _ _ Hok Hdistinct Hpresent) as [d' Hd'].
    unfold ListSelectedExecutor.selected_properties.
    fold (dropped_names self). rewrite Hd'. simpl.
    eexists. split; [reflexivity|].
    intros stream names. rewrite in_map_iff. split.
    + intros [[stream' props] [Heq Hin]]. inversion Heq; subst.
      apply (del_each_members _ _ _ Hok Hd') in Hin. destruct Hin as [Hin Hks].
      exists props. split; [exact Hin|]. split; [|reflexivity].
      intros name flag Hpair Hflag. apply Hks.
      apply dropped_names_members. now exists flag.
    + intros [props [Hin [Hks ->]]]. exists (stream, props). split; [reflexivity|].
      apply (del_each_members _ _ _ Hok Hd'). split; [exact Hin|].
      intros k Hk. apply dropped_names_members in Hk. destruct Hk as [flag [Hp Hf]].
      now apply (Hks k flag).
  - apply selected_names_members.
Qed.

Lemma selected_report_witness :
  exists report,
    ListSelectedExecutor.selected_properties c9_state = Done report
    /\ forall stream names,
         In (stream, names) report <->
         exists props,
           In (stream, props) (ListSelectedExecutor.properties c9_state)
           /\ (forall name flag,
                 In (name, flag) (ListSelectedExecutor.streams c9_state) ->
                 py_truthy flag = false -> py_eqb stream name = false)
           /\ names = selected_names props.
Proof.
  apply (proj1 (proj2 (proj2 (selected_report c9_state)))).
  - repeat constructor.
  - repeat constructor.
  - intros k [<-|[]]. exists (VStr "users"), [("id", VBool true); ("name", VBool false)].
    split; [now left|reflexivity].
Defined.

Example selected_report_example :
  ListSelectedExecutor.selected_properties c9_state = Done [(VStr "orders", ["id"])].
Proof. reflexivity. Qed.

(** ** What holds throughout a traversal *)

Section Invariant.

Context {T : Type}.
Variable executor : CatalogExecutor.t T.
Variable I : world T -> Prop.

Hypothesis execute_keeps :
  forall kind node path w,
    I w -> dispatchable kind node path w ->
    I (fst (CatalogExecutor.execute executor (Some kind) node path w)).

Lemma bind_keeps {A B : Type} (c : M T A) (k : A -> M T B) w :
  I (fst (c w)) ->
  (forall a w', c w = (w', Done a) -> I w' -> I (fst (k a w'))) ->
  I (fst (bind c k w)).
Proof.
  unfold bind. destruct (c w) as [w' [a|why]]; simpl; intros H K; [|exact H].
  now apply K.
Qed.

Lemma read_done l (w w' : world T) v :
  read l w = (w', Done v) -> w' = w /\ get_at l (doc w) = Some v.
Proof.
  unfold read. destruct (get_at l (doc w)); intros H; inversion H; now subst.
Qed.

Lemma read_keeps l (w : world T) : I w -> I (fst (read l w)).
Proof. unfold read. now destruct (get_at l (doc w)). Qed.

Lemma for_each_keeps {A : Type} (f : A -> M T unit) (xs : list A) :
  (forall x w, I w -> I (fst (f x w))) ->
  forall w, I w -> I (fst (for_each xs f w)).
Proof.
  intros Hf. induction xs as [|x rest IH]; intros w Hw; simpl; [exact Hw|].
  apply bind_keeps; [now apply Hf|]. intros _ w' _ Hw'. now apply IH.
Qed.

(** The traversal changes the state through [execute] only: what every
    dispatch keeps, the traversal keeps, however far the fuel lets it go. *)
Lemma visit_keeps (fuel : nat) :
  (forall node path w, I w -> I (fst (visit fuel executor node path w)))
  /\ (forall node path index w,
        I w -> I (fst (visit_list fuel executor node path index w))).
Proof.
  induction fuel as [|fuel [IHv IHl]]; [split; intros; exact H|].
  split.
  - intros node path w Hw. simpl.
    apply bind_keeps; [now apply read_keeps|].
    intros v w0 Hread _. apply read_done in Hread. destruct Hread as [-> Hnode].
    destruct v; try exact Hw; [now apply IHl|].
    apply bind_keeps.
    { unfold when. destruct (Text.search_indexed "streams" path) eqn:E; [|exact Hw].
      apply execute_keeps; [exact Hw|]. simpl. split; [exact E|eauto]. }
    intros _ w1 _ Hw1. apply bind_keeps.
    { unfold when. destruct (Text.search_schema_properties path) eqn:E; [|exact Hw1].
      now apply execute_keeps. }
    intros _ w2 _ Hw2. apply bind_keeps; [now apply read_keeps|].
    intros v2 w2' Hread _. apply read_done in Hread. destruct Hread as [-> Hnode2].
    destruct v2 as [| | | | |kvs2]; try exact Hw2.
    apply bind_keeps.
    { unfold when.
      destruct (Text.search_indexed "metadata" path && has_key "breadcrumb" kvs2)
        eqn:E; [|exact Hw2].
      apply andb_true_iff in E. destruct E as [Epath Ekey].
      unfold has_key in Ekey.
      destruct (lookup "breadcrumb" kvs2) as [b|] eqn:Eb; [|discriminate].
      apply bind_keeps.
      { erewrite run_getitem by exact Hnode2. exact Hw2. }
      intros b' w3 Hget _.
      erewrite run_getitem in Hget by exact Hnode2. simpl in Hget. rewrite Eb in Hget.
      inversion Hget; subst b' w3. clear Hget.
      apply bind_keeps; [exact Hw2|].
      intros n w3 Hlen _. unfold lift in Hlen. inversion Hlen; subst w3.
      destruct n as [|n]; simpl.
      - apply execute_keeps; [exact Hw2|]. simpl. split; [exact Epath|].
        exists kvs2, b. auto.
      - apply execute_keeps; [exact Hw2|]. simpl. split; [exact Epath|].
        exists kvs2, b, n. auto. }
    intros _ w3 _ Hw3. apply bind_keeps; [now apply read_keeps|].
    intros v3 w3' Hread _. apply read_done in Hread. destruct Hread as [-> Hnode3].
    destruct v3; try exact Hw3.
    apply for_each_keeps; [|exact Hw3]. intros k w4 Hw4. now apply IHv.
  - intros node path index w Hw. simpl.
    apply bind_keeps; [now apply read_keeps|].
    intros v w0 Hread _. apply read_done in Hread. destruct Hread as [-> Hnode].
    destruct v; try exact Hw.
    destruct (index <? List.length xs); [|exact Hw].
    apply bind_keeps; [now apply IHv|].
    intros _ w1 _ Hw1. now apply IHl.
Qed.

End Invariant.

(** ** Which nodes are dispatched as Property nodes *)

Lemma chars_app (a b : string) :
  Text.chars (a ++ b)%string = Text.chars a ++ Text.chars b.
Proof.
  unfold Text.chars. induction a as [|c a IH]; simpl; [reflexivity|now rewrite IH].
Qed.

Lemma strip_prefix_app (p s : list ascii) : Text.strip_prefix p (p ++ s) = Some s.
Proof.
  induction p as [|c p IH]; simpl; [reflexivity|]. now rewrite Ascii.eqb_refl.
Qed.

Lemma strip_prefix_some (p s rest : list ascii) :
  Text.strip_prefix p s = Some rest -> s = p ++ rest.
Proof.
  revert s. induction p as [|c p IH]; intros s; simpl.
  - intros H. now inversion H.
  - destruct s as [|d s]; [discriminate|].
    destruct (Ascii.eqb c d) eqn:E; [|discriminate].
    apply Ascii.eqb_eq in E. subst d. intros H. now rewrite (IH _ H).
Qed.

Lemma search_from_iff (s : list ascii) :
  Text.search_from s = true <->
  exists pre rest, s = pre ++ Text.schema_properties ++ rest
                   /\ Text.line_end rest = true.
Proof.
  induction s as [|c s IH].
  - simpl. split; [discriminate|].
    intros (pre & rest & H & _). destruct pre; discriminate.
  - change (Text.search_from (c :: s))
      with (match Text.strip_prefix Text.schema_properties (c :: s) with
            | Some rest => Text.line_end rest
            | None => false
            end || Text.search_from s).
    rewrite orb_true_iff, IH. split.
    + intros [H|(pre & rest & -> & Hl)].
      * destruct (Text.strip_prefix Text.schema_properties (c :: s)) as [rest|] eqn:E;
          [|discriminate].
        exists [], rest. split; [|exact H]. rewrite app_nil_l.
        now apply strip_prefix_some.
      * exists (c :: pre), rest. now split.
    + intros (pre & rest & Heq & Hl). destruct pre as [|d pre].
      * left. rewrite app_nil_l in Heq. rewrite Heq, strip_prefix_app. exact Hl.
      * right. inversion Heq; subst. now exists pre, rest.
Qed.

Lemma recorder_execute kind node path (w : world (list (CatalogNode * string))) :
  CatalogExecutor.execute Recorder.make (Some kind) node path w
  = (World (doc w) (self w ++ [(kind, path)]), Done tt).
Proof. destruct kind; reflexivity. Qed.

Lemma chars_text (cs : list ascii) : Text.chars (Text.text cs) = cs.
Proof. apply list_ascii_of_string_of_list_ascii. Qed.

Lemma text_chars (s : string) : Text.text (Text.chars s) = s.
Proof. apply string_of_list_ascii_of_string. Qed.

Lemma chars_inj (a b : string) : Text.chars a = Text.chars b -> a = b.
Proof. intros H. rewrite <- (text_chars a), <- (text_chars b). now rewrite H. Qed.

Lemma search_schema_properties_iff (path : string) :
  Text.search_schema_properties path = true <->
  exists pre rest, path = (pre ++ "schema.properties." ++ rest)%string
                   /\ Text.line_end (Text.chars rest) = true.
Proof.
  unfold Text.search_schema_properties. rewrite search_from_iff. split.
  - intros (pre & rest & H & Hl). exists (Text.text pre), (Text.text rest).
    split; [|now rewrite chars_text].
    apply chars_inj. now rewrite !chars_app, !chars_text.
  - intros (pre & rest & -> & Hl). exists (Text.chars pre), (Text.chars rest).
    split; [|exact Hl]. now rewrite !chars_app.
Qed.

Lemma line_end_without_newline (s : list ascii) :
  forallb (fun c => negb (Text.is_newline c)) s = true -> Text.line_end s = true.
Proof.
  induction s as [|c s IH]; simpl; [reflexivity|].
  destruct (Text.is_newline c); simpl; [discriminate|exact IH].
Qed.

Lemma name_without_newline (s : list ascii) :
  forallb name_char s = true ->
  forallb (fun c => negb (Text.is_newline c)) s = true.
Proof.
  rewrite !forallb_forall. intros H c Hc. specialize (H c Hc).
  unfold name_char in H. now apply andb_true_iff in H.
Qed.

Lemma name_without_dot (s : list ascii) :
  forallb name_char s = true ->
  forallb (fun c => negb (Ascii.eqb c "."%char)) s = true.
Proof.
  rewrite !forallb_forall. intros H c Hc. specialize (H c Hc).
  unfold name_char in H. now apply andb_true_iff in H.
Qed.

Lemma property_suffix_from_schema (s : string) :
  property_suffix s ->
  exists rest, Text.chars s = Text.schema_properties ++ rest
               /\ forallb (fun c => negb (Text.is_newline c)) rest = true.
Proof.
  induction 1 as [name [_ Hn]|s name _ (rest & Hs & Hr) [_ Hn]].
  - exists (Text.chars name). split; [apply chars_app|].
    now apply name_without_newline.
  - exists (rest ++ Text.chars ".properties." ++ Text.chars name). split.
    + now rewrite !chars_app, Hs, <- !app_assoc.
    + rewrite !forallb_app, Hr, (name_without_newline _ Hn). reflexivity.
Qed.

Lemma property_suffix_last_segment (s : string) :
  property_suffix s ->
  exists x name, Text.chars s = x ++ Text.chars ".properties." ++ name
                 /\ forallb (fun c => negb (Ascii.eqb c "."%char)) name = true.
Proof.
  intros [name [_ Hn]|s' name _ [_ Hn]].
  - exists (Text.chars "schema"), (Text.chars name). split.
    + now rewrite chars_app.
    + now apply name_without_dot.
  - exists (Text.chars s'), (Text.chars name). split.
    + now rewrite !chars_app.
    + now apply name_without_dot.
Qed.

Lemma drop_while_app f (a b : list ascii) :
  forallb f a = true -> Text.drop_while f (a ++ b) = Text.drop_while f b.
Proof.
  induction a as [|c a IH]; simpl; [reflexivity|].
  destruct (f c); simpl; [exact IH|discriminate].
Qed.

Lemma forallb_rev {A : Type} (f : A -> bool) (xs : list A) :
  forallb f (rev xs) = forallb f xs.
Proof.
  induction xs as [|x xs IH]; simpl; [reflexivity|].
  rewrite forallb_app, IH. simpl. rewrite andb_true_r. apply andb_comm.
Qed.

Lemma suffix_shape_last_segment (path : string) :
  ends_in_property_suffix path -> last_segment_is_property path = true.
Proof.
  intros (pre & s & -> & Hs).
  destruct (property_suffix_last_segment _ Hs) as (x & name & Hx & Hn).
  unfold last_segment_is_property.
  rewrite chars_app, Hx, !rev_app_distr, <- !app_assoc.
  rewrite drop_while_app by now rewrite forallb_rev.
  change (rev (Text.chars ".properties."))
    with ("."%char :: rev (Text.chars ".properties")).
  cbn [app Text.drop_while Ascii.eqb Bool.eqb negb].
  change ("."%char :: rev (Text.chars ".properties") ++ rev x ++ rev (Text.chars pre))
    with (("."%char :: rev (Text.chars ".properties")) ++ rev x ++ rev (Text.chars pre)).
  now rewrite strip_prefix_app.
Qed.

Lemma recorder_keeps_call (call : CatalogNode * string) kind node path
  (w : world (list (CatalogNode * string))) :
  In call (self w) ->
  In call (self (fst (CatalogExecutor.execute Recorder.make (Some kind) node path w))).
Proof. rewrite recorder_execute. simpl. intros H. apply in_or_app. now left. Qed.

(** The schema of the items of array property [tags] is a mapping; its
    path does not end in the suffix shape, and it is dispatched as a
    Property node all the same. *)
Lemma items_schema_dispatched_as_property :
  In (STREAM_PROPERTY, ".streams[0].schema.properties.tags.items")
    (Recorder.calls 16 c5_catalog)
  /\ ~ ends_in_property_suffix ".streams[0].schema.properties.tags.items".
Proof.
  split.
  - vm_compute. tauto.
  - intros H. apply suffix_shape_last_segment in H. vm_compute in H. discriminate.
Qed.

(** C5 (amended).  A mapping node is dispatched as a Property node exactly
    when its path contains [schema.properties.] followed, up to the end, by
    characters other than newline (a single final newline apart): every
    Property dispatch of a traversal has such a path, and a mapping reached
    under such a path is dispatched.  A path ending in the suffix shape
    [schema.properties.<name>(.properties.<name>)*] is of this kind. *)
Theorem property_dispatch (path : string) :
  (Text.search_schema_properties path = true <->
   exists pre rest, path = (pre ++ "schema.properties." ++ rest)%string
                    /\ Text.line_end (Text.chars rest) = true)
  /\ (forall fuel catalog,
        In (STREAM_PROPERTY, path) (Recorder.calls fuel catalog) ->
        Text.search_schema_properties path = true)
  /\ (forall fuel node kvs (w : world (list (CatalogNode * string))),
        get_at node (doc w) = Some (VDict kvs) ->
        Text.search_schema_properties path = true ->
        In (STREAM_PROPERTY, path)
          (self (fst (visit (S fuel) Recorder.make node path w))))
  /\ (ends_in_property_suffix path -> Text.search_schema_properties path = true).
Proof.
  split; [apply search_schema_properties_iff|]. split; [|split].
  - intros fuel catalog. unfold Recorder.calls.
    set (I := fun w : world (list (CatalogNode * string)) =>
                forall p, In (STREAM_PROPERTY, p) (self w) ->
                          Text.search_schema_properties p = true).
    assert (H : I (fst (visit fuel Recorder.make [] "" (World catalog [])))).
    { apply (visit_keeps Recorder.make I); [|intros p []].
      intros kind node p w Hw Hd q. rewrite recorder_execute. simpl.
      intros Hin. apply in_app_or in Hin. destruct Hin as [Hin|[Heq|[]]].
      - now apply Hw.
      - inversion Heq; subst. exact Hd. }
    apply H.
  - intros fuel node kvs w Hnode Hpath.
    set (I := fun w : world (list (CatalogNode * string)) =>
                In (STREAM_PROPERTY, path) (self w)).
    assert (Hexec : forall kind n p w0, I w0 -> dispatchable kind n p w0 ->
              I (fst (CatalogExecutor.execute Recorder.make (Some kind) n p w0))).
    { intros kind n p w0 Hw0 _. now apply recorder_keeps_call. }
    simpl visit. unfold bind at 1. rewrite (run_read _ _ _ Hnode).
    unfold bind at 1.
    destruct (when (Text.search_indexed "streams" path)
                (CatalogExecutor.execute Recorder.make (Some STREAM) node path) w)
      as [w1 [[]|why]] eqn:E1.
    2:{ exfalso. unfold when in E1.
        destruct (Text.search_indexed "streams" path);
          [rewrite recorder_execute in E1|]; inversion E1. }
    unfold bind at 1. rewrite Hpath. unfold when at 1.
    rewrite recorder_execute.
    match goal with
    | |- In _ (self (fst (?c ?w2))) => change (I (fst (c w2)))
    end.
    assert (Hw2 : I (World (doc w1) (self w1 ++ [(STREAM_PROPERTY, path)]))).
    { unfold I. simpl. apply in_or_app. right. now left. }
    revert Hw2. generalize (World (doc w1) (self w1 ++ [(STREAM_PROPERTY, path)])).
    intros w2 Hw2.
    apply (bind_keeps I); [now apply read_keeps|].
    intros v2 w2' Hread _. apply read_done in Hread. destruct Hread as [-> Hnode2].
    destruct v2 as [| | | | |kvs2]; try exact Hw2.
    apply (bind_keeps I).
    { unfold when.
      destruct (Text.search_indexed "metadata" path && has_key "breadcrumb" kvs2);
        [|exact Hw2].
      apply (bind_keeps I).
      { unfold getitem. apply (bind_keeps I); [now apply read_keeps|].
        intros a w' Hr _. apply read_done in Hr. destruct Hr as [-> _]. exact Hw2. }
      intros b w3 _ Hw3. apply (bind_keeps I); [exact Hw3|].
      intros n w4 _ Hw4. destruct (n =? 0); now apply recorder_keeps_call. }
    intros _ w3 _ Hw3. apply (bind_keeps I); [now apply read_keeps|].
    intros v3 w3' Hread _. apply read_done in Hread. destruct Hread as [-> _].
    destruct v3; try exact Hw3.
    apply (for_each_keeps I); [|exact Hw3].
    intros k w4 Hw4. now apply (visit_keeps Recorder.make I Hexec fuel).
  - intros (pre & s & -> & Hs).
    destruct (property_suffix_from_schema _ Hs) as (rest & Hc & Hr).
    unfold Text.search_schema_properties. apply search_from_iff.
    exists (Text.chars pre), rest. split.
    + now rewrite chars_app, Hc.
    + now apply line_end_without_newline.
Qed.

Lemma property_dispatch_witness :
  In (STREAM_PROPERTY, ".schema.properties.id")
    (self (fst (visit 1 Recorder.make [] ".schema.properties.id"
                  (World (VDict []) [])))).
Proof.
  apply (proj1 (proj2 (proj2 (property_dispatch ".schema.properties.id")))
           0 [] [] (World (VDict []) []));
    reflexivity.
Defined.

(** ** What a selection pass may change *)

Lemma well_formed_list b xs :
  well_formed b (VList xs)
  = (if b then forallb entry_like xs else true) && forallb (well_formed false) xs.
Proof.
  reflexivity.
Qed.

Lemma well_formed_dict b kvs : well_formed b (VDict kvs) = forallb field_ok kvs.
Proof.
  simpl. induction kvs as [|[k x] rest IH]; simpl; [reflexivity|].
  unfold field_ok at 1. simpl. now rewrite IH.
Qed.

Lemma well_formed_weaken b v : well_formed b v = true -> well_formed false v = true.
Proof.
  destruct v; try (intros; reflexivity).
  - rewrite !well_formed_list. intros H. apply andb_true_iff in H. now destruct H.
  - now rewrite !well_formed_dict.
Qed.

Lemma has_key_assign_other {A : Type} (k k' : string) (v : A) kvs :
  has_key k' kvs = true -> has_key k' (assign k v kvs) = true.
Proof.
  unfold has_key. destruct (String.eqb k k') eqn:E.
  - apply String.eqb_eq in E. subst. now rewrite lookup_assign_same.
  - rewrite lookup_assign_other; [auto|]. intros ->. now rewrite String.eqb_refl in E.
Qed.

Lemma forallb_assign {A : Type} (P : string * A -> bool) k v kvs :
  forallb P kvs = true -> P (k, v) = true -> forallb P (assign k v kvs) = true.
Proof.
  intros H Hv. induction kvs as [|[k0 v0] rest IH]; simpl in *.
  - now rewrite Hv.
  - apply andb_true_iff in H. destruct H as [H0 Hr].
    destruct (String.eqb k0 k); simpl.
    + now rewrite Hv, Hr.
    + now rewrite H0, IH.
Qed.

Lemma forallb_set_nth {A : Type} (P : A -> bool) i x xs :
  forallb P xs = true -> P x = true -> forallb P (set_nth i x xs) = true.
Proof.
  revert i. induction xs as [|y rest IH]; intros [|i] H Hx; simpl in *;
    try reflexivity; apply andb_true_iff in H; destruct H as [H0 Hr].
  - now rewrite Hx, Hr.
  - now rewrite H0, IH.
Qed.

Lemma forallb_lookup {A : Type} (P : string * A -> bool) k v kvs :
  forallb P kvs = true -> lookup k kvs = Some v -> P (k, v) = true.
Proof.
  induction kvs as [|[k0 v0] rest IH]; simpl; [discriminate|].
  intros H. apply andb_true_iff in H. destruct H as [H0 Hr].
  destruct (String.eqb k0 k) eqn:E; [|now apply IH].
  apply String.eqb_eq in E. subst. intros Hv. now inversion Hv; subst.
Qed.

Lemma forallb_nth_error {A : Type} (P : A -> bool) i x xs :
  forallb P xs = true -> nth_error xs i = Some x -> P x = true.
Proof.
  intros H Hn. rewrite forallb_forall in H. apply H. eapply nth_error_In; eauto.
Qed.

Lemma well_formed_field b kvs k x :
  well_formed b (VDict kvs) = true -> lookup k kvs = Some x ->
  well_formed (String.eqb k "metadata") x = true
  /\ (k = "stream" -> hashable x = true).
Proof.
  rewrite well_formed_dict. intros H Hk.
  pose proof (forallb_lookup _ _ _ _ H Hk) as Hf. unfold field_ok in Hf.
  cbn [fst snd] in Hf. apply andb_true_iff in Hf. destruct Hf as [H1 H2].
  split; [exact H1|]. intros ->. now rewrite String.eqb_refl in H2.
Qed.

Lemma well_formed_assign b kvs k x :
  well_formed b (VDict kvs) = true ->
  well_formed (String.eqb k "metadata") x = true ->
  (k = "stream" -> hashable x = true) ->
  well_formed b (VDict (assign k x kvs)) = true.
Proof.
  rewrite !well_formed_dict. intros H Hx Hs. apply forallb_assign; [exact H|].
  unfold field_ok. cbn [fst snd]. rewrite Hx. simpl.
  destruct (String.eqb k "stream") eqn:E; [|reflexivity].
  apply String.eqb_eq in E. now apply Hs.
Qed.

(** What stands at a location of a well-formed document is well-formed. *)
Lemma well_formed_get_at l : forall b d n,
  well_formed b d = true -> get_at l d = Some n ->
  exists b', well_formed b' n = true.
Proof.
  induction l as [|s l IH]; intros b d n Hd Hn; simpl in Hn.
  - inversion Hn; subst. eauto.
  - destruct (child s d) as [c|] eqn:E; [|discriminate].
    destruct s as [k|i], d; simpl in E; try discriminate.
    + destruct (well_formed_field _ _ _ _ Hd E) as [Hc _]. eauto.
    + rewrite well_formed_list in Hd. apply andb_true_iff in Hd. destruct Hd as [_ Hd].
      pose proof (forallb_nth_error _ _ _ _ Hd E) as Hc. eauto.
Qed.

Lemma entry_like_set_at s l x c :
  entry_like c = true -> entry_like (set_at (s :: l) x c) = true.
Proof.
  intros H. simpl. destruct (child s c) as [c'|] eqn:E; [|exact H].
  destruct s as [k|i], c; simpl in *; try discriminate; try reflexivity.
  apply andb_true_iff in H. destruct H as [H1 H2].
  now rewrite !has_key_assign_other.
Qed.

Lemma get_at_scalar l v n :
  hashable v = true -> get_at l v = Some n -> l = [] /\ n = v.
Proof.
  intros Hv. destruct l as [|s l]; simpl.
  - intros H. inversion H. now split.
  - destruct s, v; simpl in *; discriminate.
Qed.

(** Replacing a list or a mapping at a location keeps the document
    well-formed when the new object is well-formed wherever the old one
    was and is a metadata entry if the old one was. *)
Lemma well_formed_set_at l : forall b d n n',
  well_formed b d = true ->
  get_at l d = Some n ->
  hashable n = false ->
  (forall b', well_formed b' n = true -> well_formed b' n' = true) ->
  (entry_like n = true -> entry_like n' = true) ->
  well_formed b (set_at l n' d) = true.
Proof.
  induction l as [|s l IH]; intros b d n n' Hd Hn Hc Hwf He; simpl in *.
  - inversion Hn; subst. now apply Hwf.
  - destruct (child s d) as [c|] eqn:E; [|discriminate].
    destruct s as [k|i], d; simpl in E; try discriminate; simpl put_child.
    + destruct (well_formed_field _ _ _ _ Hd E) as [Hwc Hname].
      apply well_formed_assign; [exact Hd|now apply (IH _ _ n)|].
      intros ->. destruct (get_at_scalar _ _ _ (Hname eq_refl) Hn) as [_ ->].
      rewrite (Hname eq_refl) in Hc. discriminate.
    + rewrite well_formed_list in *. apply andb_true_iff in Hd.
      destruct Hd as [Hent Hall]. apply andb_true_iff. split.
      * destruct b; [|reflexivity]. apply forallb_set_nth; [exact Hent|].
        pose proof (forallb_nth_error _ _ _ _ Hent E) as Hce.
        destruct l as [|s' l'].
        -- simpl in *. inversion Hn; subst. now apply He.
        -- now apply entry_like_set_at.
      * apply forallb_set_nth; [exact Hall|].
        pose proof (forallb_nth_error _ _ _ _ Hall E) as Hwc.
        now apply (IH _ _ n).
Qed.

Lemma well_formed_select b' (b : bool) kvs :
  well_formed b' (VDict kvs) = true ->
  well_formed b' (VDict (assign "selected" (VBool b) kvs)) = true.
Proof.
  intros H. apply well_formed_assign; [exact H|reflexivity|discriminate].
Qed.

Lemma entry_like_assign k x kvs :
  entry_like (VDict kvs) = true -> entry_like (VDict (assign k x kvs)) = true.
Proof.
  simpl. intros H. apply andb_true_iff in H. destruct H as [H1 H2].
  now rewrite !has_key_assign_other.
Qed.

Lemma well_formed_texts (components : list string) :
  forallb (well_formed false) (map VStr components) = true.
Proof. induction components; simpl; auto. Qed.

Lemma well_formed_synthetic name components :
  well_formed false name = true ->
  well_formed false (synthetic (VList (name :: map VStr components))) = true.
Proof.
  intros Hname. unfold synthetic. rewrite well_formed_dict.
  unfold field_ok. cbn [forallb fst snd].
  replace (String.eqb "breadcrumb" "metadata") with false by reflexivity.
  replace (String.eqb "breadcrumb" "stream") with false by reflexivity.
  rewrite well_formed_list. cbn [forallb]. rewrite Hname, well_formed_texts.
  reflexivity.
Qed.

Lemma write_step_well_formed d d' :
  well_formed false d = true -> write_step d d' -> well_formed false d' = true.
Proof.
  intros Hd Hstep.
  destruct Hstep as [d node kvs b Hn Hs|d node e m b Hn Hb Hm|d node kvs Hn Hs Hm
                    |d node kvs entries Hn Hs Hm Hnext
                    |d node kvs entries name components Hn Hs Hm Hnext].
  - apply (well_formed_set_at _ _ _ _ _ Hd Hn); [reflexivity| |].
    + intros b'. apply well_formed_select.
    + apply entry_like_assign.
  - apply (well_formed_set_at _ _ _ _ _ Hd (get_at_key _ _ _ _ _ Hn Hm));
      [reflexivity| |].
    + intros b'. apply well_formed_select.
    + apply entry_like_assign.
  - apply (well_formed_set_at _ _ _ _ _ Hd Hn); [reflexivity| |].
    + intros b' H. apply well_formed_assign; [exact H|reflexivity|discriminate].
    + apply entry_like_assign.
  - apply (well_formed_set_at _ _ _ _ _ Hd (get_at_key _ _ _ _ _ Hn Hm));
      [reflexivity| |].
    + intros b'. rewrite !well_formed_list. simpl. intros H. exact H.
    + reflexivity.
  - destruct (well_formed_get_at _ _ _ _ Hd Hn) as [b0 Hkvs].
    destruct (well_formed_field _ _ _ _ Hkvs Hs) as [Hname _].
    apply (well_formed_set_at _ _ _ _ _ Hd (get_at_key _ _ _ _ _ Hn Hm));
      [reflexivity| |].
    + intros b'. rewrite !well_formed_list, !forallb_app. intros H.
      apply andb_true_iff in H. destruct H as [H1 H2]. rewrite H2.
      cbn [forallb]. rewrite (well_formed_synthetic _ _ Hname).
      destruct b'; [|reflexivity]. simpl in *. now rewrite H1.
    + reflexivity.
Qed.

(** ** The writes of the four handlers *)

Section Frame.

Variable origin : value.

Lemma framed_step (w : world SelectExecutor.state) d' s :
  framed origin w -> write_step (doc w) d' -> framed origin (World d' s).
Proof.
  intros [Hf Hw] Hstep. split; simpl.
  - eapply writes_more; eauto.
  - eapply write_step_well_formed; eauto.
Qed.

Lemma framed_self (w : world SelectExecutor.state) s :
  framed origin w -> framed origin (World (doc w) s).
Proof. intros H. exact H. Qed.

Lemma select_stream_framed node (b : bool) w kvs :
  framed origin w ->
  get_at node (doc w) = Some (VDict kvs) ->
  has_key "stream" kvs = true ->
  framed origin (fst (setitem node "selected" (VBool b) w)).
Proof.
  intros Hw Hn Hs. rewrite (run_setitem _ _ _ _ _ Hn). simpl.
  apply (framed_step w); [exact Hw|]. now apply write_stream_selected.
Qed.

Lemma select_entry_framed entry (b : bool) w e :
  framed origin w ->
  get_at entry (doc w) = Some (VDict e) ->
  has_key "breadcrumb" e = true ->
  framed origin (fst (setitem (entry ++ [Key "metadata"]) "selected" (VBool b) w)).
Proof.
  intros Hw Hn Hb. unfold setitem, bind, read.
  rewrite get_at_app, Hn. simpl.
  destruct (lookup "metadata" e) as [[| | | | |m]|] eqn:Hm; simpl; try exact Hw.
  apply (framed_step w); [exact Hw|]. now apply (write_entry_selected _ _ e).
Qed.

Lemma new_metadata_framed node w kvs :
  framed origin w ->
  get_at node (doc w) = Some (VDict kvs) ->
  has_key "stream" kvs = true ->
  lookup "metadata" kvs = None ->
  framed origin (fst (setitem node "metadata" (VList [SelectExecutor.stream_metadata]) w)).
Proof.
  intros Hw Hn Hs Hm. rewrite (run_setitem _ _ _ _ _ Hn). simpl.
  apply (framed_step w); [exact Hw|]. now apply write_new_metadata.
Qed.

Lemma insert_front_framed node w kvs md :
  framed origin w ->
  get_at node (doc w) = Some (VDict kvs) ->
  has_key "stream" kvs = true ->
  lookup "metadata" kvs = Some md ->
  next_index SelectExecutor.empty_breadcrumb md = raise StopIteration ->
  framed origin (fst (list_insert0 (node ++ [Key "metadata"])
                 SelectExecutor.stream_metadata w)).
Proof.
  intros Hw Hn Hs Hm Hnext. unfold list_insert0, bind, read.
  rewrite get_at_app, Hn. simpl. rewrite Hm.
  destruct md as [| | | |entries|]; simpl; try exact Hw.
  apply (framed_step w); [exact Hw|]. now apply (write_entry_in_front _ _ kvs).
Qed.

Lemma append_framed node w kvs name components md :
  framed origin w ->
  get_at node (doc w) = Some (VDict kvs) ->
  lookup "stream" kvs = Some name ->
  lookup "metadata" kvs = Some md ->
  next_index
    (SelectExecutor.has_breadcrumb (VList (name :: map VStr components))) md
  = raise StopIteration ->
  framed origin (fst (list_append (node ++ [Key "metadata"])
                 (synthetic (VList (name :: map VStr components))) w)).
Proof.
  intros Hw Hn Hs Hm Hnext. unfold list_append, bind, read.
  rewrite get_at_app, Hn. simpl. rewrite Hm.
  destruct md as [| | | |entries|]; simpl; try exact Hw.
  apply (framed_step w); [exact Hw|]. now apply (write_entry_at_end _ _ kvs).
Qed.

End Frame.

(** *** Computations that only read *)

Lemma reads_only_state {T A : Type} (c : M T A) w w' r :
  reads_only c -> c w = (w', r) -> w' = w.
Proof. intros H E. specialize (H w). rewrite E in H. exact H. Qed.

Lemma reads_only_bind {T A B : Type} (c : M T A) (k : A -> M T B) :
  reads_only c -> (forall a, reads_only (k a)) -> reads_only (bind c k).
Proof.
  intros Hc Hk w. unfold bind. destruct (c w) as [w' [a|why]] eqn:E.
  - rewrite (reads_only_state _ _ _ _ Hc E). apply Hk.
  - simpl. apply (reads_only_state _ _ _ _ Hc E).
Qed.

Lemma reads_only_lift {T A : Type} (r : res A) : reads_only (@lift T A r).
Proof. intros w. reflexivity. Qed.

Lemma reads_only_ret {T A : Type} (a : A) : reads_only (@ret T A a).
Proof. intros w. reflexivity. Qed.

Lemma reads_only_read {T : Type} l : reads_only (@read T l).
Proof. intros w. unfold read. now destruct (get_at l (doc w)). Qed.

Lemma reads_only_getitem {T : Type} l k : reads_only (@getitem T l k).
Proof.
  apply reads_only_bind; [apply reads_only_read|]. intros v. apply reads_only_lift.
Qed.

Lemma reads_only_ref_item {T : Type} l k : reads_only (@ref_item T l k).
Proof.
  apply reads_only_bind; [apply reads_only_getitem|]. intros v. apply reads_only_ret.
Qed.

Lemma reads_only_the_stream : reads_only SelectExecutor.the_stream.
Proof.
  apply reads_only_bind; [intros w; reflexivity|].
  intros [s|]; [apply reads_only_ret|apply reads_only_lift].
Qed.

Lemma reads_only_current_stream : reads_only SelectExecutor.current_stream.
Proof.
  apply reads_only_bind; [apply reads_only_the_stream|].
  intros s. apply reads_only_getitem.
Qed.

Lemma getitem_done {T : Type} l k (w w' : world T) v :
  getitem l k w = (w', Done v) ->
  w' = w /\ exists kvs, get_at l (doc w) = Some (VDict kvs) /\ lookup k kvs = Some v.
Proof.
  intros H. split; [apply (reads_only_state _ _ _ _ (reads_only_getitem l k) H)|].
  unfold getitem, bind, read, lift in H.
  destruct (get_at l (doc w)) as [[| | | | |kvs]|]; simpl in H; try discriminate.
  exists kvs. split; [reflexivity|].
  destruct (lookup k kvs); inversion H. reflexivity.
Qed.

Lemma ref_item_done {T : Type} l k (w w' : world T) t :
  ref_item l k w = (w', Done t) ->
  w' = w /\ t = l ++ [Key k]
  /\ exists kvs v, get_at l (doc w) = Some (VDict kvs) /\ lookup k kvs = Some v.
Proof.
  intros H. split; [apply (reads_only_state _ _ _ _ (reads_only_ref_item l k) H)|].
  unfold ref_item, bind in H.
  destruct (getitem l k w) as [w1 [v|why]] eqn:E; [|discriminate].
  apply getitem_done in E. destruct E as [_ (kvs & Hn & Hv)].
  unfold ret in H. inversion H. split; [reflexivity|]. now exists kvs, v.
Qed.

Lemma the_stream_done (w w' : world SelectExecutor.state) s :
  SelectExecutor.the_stream w = (w', Done s) -> w' = w /\ self w = Some s.
Proof.
  unfold SelectExecutor.the_stream, bind, get_self.
  destruct (self w) as [s0|]; simpl; intros H; inversion H. now subst.
Qed.

Lemma current_stream_done (w w' : world SelectExecutor.state) name :
  SelectExecutor.current_stream w = (w', Done name) ->
  w' = w
  /\ exists s kvs, self w = Some s /\ get_at s (doc w) = Some (VDict kvs)
                   /\ lookup "stream" kvs = Some name.
Proof.
  unfold SelectExecutor.current_stream. unfold bind at 1.
  destruct (SelectExecutor.the_stream w) as [w1 [s|why]] eqn:E; [|discriminate].
  apply the_stream_done in E. destruct E as [-> Hs]. intros H.
  apply getitem_done in H. destruct H as [-> (kvs & Hn & Hv)].
  split; [reflexivity|]. now exists s, kvs.
Qed.

Lemma lift_done {T A : Type} (r : res A) (w w' : world T) a :
  lift r w = (w', Done a) -> w' = w /\ r = Done a.
Proof. unfold lift. intros H. inversion H. now subst. Qed.

(** *** The search for an entry *)

Lemma next_from_done cond i xs j :
  next_from cond i xs = Done j ->
  i <= j /\ exists x, nth_error xs (j - i) = Some x /\ cond x = Done true.
Proof.
  revert i. induction xs as [|x rest IH]; intros i; simpl; [discriminate|].
  destruct (cond x) as [[|]|why] eqn:E; simpl; try discriminate.
  - intros H. inversion H; subst. split; [lia|]. exists x.
    now rewrite Nat.sub_diag.
  - intros H. destruct (IH _ H) as [Hle (y & Hy & Hc)]. split; [lia|].
    exists y. split; [|exact Hc].
    replace (j - i) with (S (j - S i)) by lia. exact Hy.
Qed.

Lemma next_from_key_error cond i xs :
  next_from cond i xs = raise KeyError ->
  exists x, In x xs /\ cond x = raise KeyError.
Proof.
  unfold raise. revert i. induction xs as [|x rest IH]; intros i; simpl; [discriminate|].
  destruct (cond x) as [[|]|why] eqn:E; simpl; try discriminate.
  - intros H. destruct (IH _ H) as (y & Hy & Hc). eauto.
  - intros H. inversion H; subst. exists x. split; [now left|exact E].
Qed.

Lemma empty_breadcrumb_done x :
  SelectExecutor.empty_breadcrumb x = Done true ->
  exists e b, x = VDict e /\ lookup "breadcrumb" e = Some b.
Proof.
  unfold SelectExecutor.empty_breadcrumb.
  destruct x as [| | | | |e]; simpl; try discriminate.
  destruct (lookup "breadcrumb" e) as [b|] eqn:E; simpl; [|discriminate].
  intros _. now exists e, b.
Qed.

Lemma empty_breadcrumb_key_error x :
  SelectExecutor.empty_breadcrumb x = raise KeyError -> entry_like x = false.
Proof.
  unfold SelectExecutor.empty_breadcrumb, py_getitem, py_len, raise.
  destruct x as [| | | | |e]; simpl; try discriminate.
  unfold has_key. destruct (lookup "breadcrumb" e) as [b|]; simpl; [|reflexivity].
  destruct b; simpl; discriminate.
Qed.

Lemma texts_never_key_error (cond : value -> res bool) i ks :
  (forall s, cond (VStr s) <> raise KeyError) ->
  (forall s, cond (VStr s) <> Done true) ->
  next_from cond i (map VStr ks) <> raise KeyError
  /\ forall j, next_from cond i (map VStr ks) <> Done j.
Proof.
  unfold raise. intros Hk Hd. revert i. induction ks as [|k ks IH]; intros i; simpl.
  - split; [discriminate|intros j; discriminate].
  - destruct (cond (VStr k)) as [[|]|why] eqn:E; simpl.
    + now destruct (Hd k).
    + apply IH.
    + split; [|intros j; discriminate].
      intros H. inversion H; subst. now destruct (Hk k).
Qed.

Lemma next_index_found md i :
  next_index SelectExecutor.empty_breadcrumb md = Done i ->
  exists entries e b,
    md = VList entries /\ nth_error entries i = Some (VDict e)
    /\ lookup "breadcrumb" e = Some b.
Proof.
  unfold next_index. destruct md as [| | |s|entries|kvs]; simpl; try discriminate.
  - rewrite <- (map_map (fun c => String c EmptyString) VStr).
    intros H. exfalso. revert H.
    apply (texts_never_key_error SelectExecutor.empty_breadcrumb); discriminate.
  - intros H. apply next_from_done in H. destruct H as [_ (x & Hx & Hc)].
    rewrite Nat.sub_0_r in Hx.
    apply empty_breadcrumb_done in Hc. destruct Hc as (e & b & -> & Hb).
    now exists entries, e, b.
  - intros H. exfalso. revert H.
    apply (texts_never_key_error SelectExecutor.empty_breadcrumb); discriminate.
Qed.

Lemma next_index_key_error md :
  next_index SelectExecutor.empty_breadcrumb md = raise KeyError ->
  exists entries, md = VList entries /\ forallb entry_like entries = false.
Proof.
  unfold next_index. destruct md as [| | |s|entries|kvs]; simpl; try discriminate.
  - rewrite <- (map_map (fun c => String c EmptyString) VStr).
    intros H. exfalso. revert H.
    apply (texts_never_key_error SelectExecutor.empty_breadcrumb); discriminate.
  - intros H. apply next_from_key_error in H. destruct H as (x & Hx & Hc).
    apply empty_breadcrumb_key_error in Hc. exists entries. split; [reflexivity|].
    destruct (forallb entry_like entries) eqn:E; [|reflexivity].
    rewrite forallb_forall in E. rewrite (E _ Hx) in Hc. discriminate.
  - intros H. exfalso. revert H.
    apply (texts_never_key_error SelectExecutor.empty_breadcrumb); discriminate.
Qed.

Lemma metadata_entries_entry_like b d node kvs entries :
  well_formed b d = true ->
  get_at node d = Some (VDict kvs) ->
  lookup "metadata" kvs = Some (VList entries) ->
  forallb entry_like entries = true.
Proof.
  intros Hd Hn Hm. destruct (well_formed_get_at _ _ _ _ Hd Hn) as [b' Hk].
  destruct (well_formed_field _ _ _ _ Hk Hm) as [H _].
  rewrite well_formed_list, String.eqb_refl in H.
  now apply andb_true_iff in H.
Qed.

(** A write below a field other than [stream] leaves the mapping a
    mapping, with the [stream] field it had. *)
Lemma node_after_write_below node k l x d kvs :
  get_at node d = Some (VDict kvs) ->
  k <> "stream" ->
  exists kvs', get_at node (set_at (node ++ Key k :: l) x d) = Some (VDict kvs')
               /\ lookup "stream" kvs' = lookup "stream" kvs.
Proof.
  intros Hn Hk. rewrite (set_at_app _ _ _ _ _ Hn), (get_at_set_at _ _ _ _ Hn).
  simpl. destruct (lookup k kvs) as [c|].
  - eexists. split; [reflexivity|]. now apply lookup_assign_other.
  - now exists kvs.
Qed.

Lemma node_after_assign node k x d kvs :
  get_at node d = Some (VDict kvs) ->
  k <> "stream" ->
  exists kvs', get_at node (set_at node (VDict (assign k x kvs)) d) = Some (VDict kvs')
               /\ lookup "stream" kvs' = lookup "stream" kvs.
Proof.
  intros Hn Hk. rewrite (get_at_set_at _ _ _ _ Hn).
  eexists. split; [reflexivity|]. now apply lookup_assign_other.
Qed.

Lemma setitem_doc {T : Type} t k x (w : world T) :
  doc (fst (setitem t k x w)) = doc w
  \/ exists m, doc (fst (setitem t k x w)) = set_at t (VDict (assign k x m)) (doc w).
Proof.
  unfold setitem, bind, read.
  destruct (get_at t (doc w)) as [[| | | | |m]|]; simpl; auto.
  right. now exists m.
Qed.

Lemma setitem_stop {T : Type} t k x (w w' : world T) why :
  setitem t k x w = (w', Stop why) -> why = Exn TypeError \/ why = Dangling.
Proof.
  unfold setitem, bind, read, write, lift, raise.
  destruct (get_at t (doc w)) as [[| | | | |m]|]; simpl; intros H; inversion H; auto.
Qed.

Lemma list_insert0_doc {T : Type} t x (w : world T) :
  doc (fst (list_insert0 t x w)) = doc w
  \/ exists xs, doc (fst (list_insert0 t x w)) = set_at t (VList xs) (doc w).
Proof.
  unfold list_insert0, bind, read.
  destruct (get_at t (doc w)) as [[| | | |xs|]|]; simpl; auto.
  right. now exists (x :: xs).
Qed.

Section Handlers.

Variable origin : value.
Variable patterns : list SelectPattern.

(** The [try] statement of [stream_node] on a mapping that has a [stream]
    field: the document stays framed, and the mapping keeps that field. *)
Lemma stream_node_try_framed node path (selected : bool)
  (w w' : world SelectExecutor.state) kvs outcome :
  framed origin w ->
  get_at node (doc w) = Some (VDict kvs) ->
  has_key "stream" kvs = true ->
  catch
    (entries <- getitem node "metadata" ;;
     i <- lift (next_index SelectExecutor.empty_breadcrumb entries) ;;
     target <- ref_item (node ++ [Key "metadata"; Idx i]) "metadata" ;;
     SelectExecutor.update_node_selection target path selected)
    (fun e =>
       match e with
       | KeyError =>
           Some (setitem node "metadata" (VList [SelectExecutor.stream_metadata]))
       | StopIteration =>
           Some (entries <- ref_item node "metadata" ;;
                 list_insert0 entries SelectExecutor.stream_metadata)
       | _ => None
       end) w = (w', outcome) ->
  framed origin w'
  /\ exists kvs', get_at node (doc w') = Some (VDict kvs')
                  /\ has_key "stream" kvs' = true.
Proof.
  intros Hw Hn Hs H.
  assert (Hsame : framed origin w
                  /\ exists kvs', get_at node (doc w) = Some (VDict kvs')
                                  /\ has_key "stream" kvs' = true)
    by (split; [exact Hw|now exists kvs]).
  assert (Hkey : forall kvs', lookup "stream" kvs' = lookup "stream" kvs ->
                              has_key "stream" kvs' = true).
  { intros kvs' E. unfold has_key in *. now rewrite E. }
  unfold catch in H. unfold bind at 1 in H.
  erewrite run_getitem in H by exact Hn. simpl py_getitem in H.
  destruct (lookup "metadata" kvs) as [md|] eqn:Hm.
  - (* the sequence is there *)
    unfold bind at 1, lift at 1 in H.
    destruct (next_index SelectExecutor.empty_breadcrumb md) as [i|[[]| |]] eqn:Hnext;
      try (inversion H; subst; exact Hsame).
    + (* an entry is found *)
      destruct (next_index_found _ _ Hnext) as (entries & e & b & -> & Hi & Hb).
      pose proof (metadata_entries_entry_like _ _ _ _ _ (proj2 Hw) Hn Hm) as Hall.
      pose proof (forallb_nth_error _ _ _ _ Hall Hi) as He. simpl in He.
      apply andb_true_iff in He. destruct He as [Hbk Hmk].
      unfold has_key in Hmk.
      destruct (lookup "metadata" e) as [mv|] eqn:Hmv; [|discriminate].
      assert (Hentry : get_at (node ++ [Key "metadata"; Idx i]) (doc w)
                       = Some (VDict e)).
      { rewrite get_at_app, Hn. simpl. now rewrite Hm, Hi. }
      unfold bind at 1 in H. erewrite run_ref_item in H by eassumption.
      unfold SelectExecutor.update_node_selection in H.
      pose proof (select_entry_framed origin _ selected w e Hw Hentry Hbk) as Hframed.
      pose proof (setitem_doc ((node ++ [Key "metadata"; Idx i]) ++ [Key "metadata"])
                    "selected" (VBool selected) w) as Hdoc.
      destruct (setitem ((node ++ [Key "metadata"; Idx i]) ++ [Key "metadata"])
                  "selected" (VBool selected) w) as [w3 [[]|why]] eqn:Es;
        simpl fst in *;
        [|destruct (setitem_stop _ _ _ _ _ _ Es) as [->| ->]];
        (inversion H; subst w' outcome; clear H;
         split; [exact Hframed|];
         destruct Hdoc as [->|[m ->]]; [now exists kvs|];
         rewrite <- app_assoc; simpl app;
         destruct (node_after_write_below node "metadata" [Idx i; Key "metadata"]
                     (VDict (assign "selected" (VBool selected) m)) _ _ Hn)
           as (kvs' & Hk' & Hst); [discriminate|];
         exists kvs'; split; [exact Hk'|now apply Hkey]).
    + (* KeyError while searching: not in a well-formed document *)
      exfalso. destruct (next_index_key_error _ Hnext) as (entries & -> & Hbad).
      rewrite (metadata_entries_entry_like _ _ _ _ _ (proj2 Hw) Hn Hm) in Hbad.
      discriminate.
    + (* no entry of empty breadcrumb *)
      unfold bind at 1 in H. erewrite run_ref_item in H by eassumption.
      pose proof (insert_front_framed origin node w kvs md Hw Hn Hs Hm Hnext) as Hframed.
      pose proof (list_insert0_doc (node ++ [Key "metadata"])
                    SelectExecutor.stream_metadata w) as Hdoc.
      rewrite H in Hframed, Hdoc. simpl fst in *.
      split; [exact Hframed|]. destruct Hdoc as [->|[xs ->]]; [now exists kvs|].
      destruct (node_after_write_below node "metadata" [] (VList xs) _ _ Hn)
        as (kvs' & Hk' & Hst); [discriminate|].
      exists kvs'. split; [exact Hk'|now apply Hkey].
  - (* no sequence at all *)
    unfold raise in H. cbv beta iota in H.
    pose proof (new_metadata_framed origin node w kvs Hw Hn Hs Hm) as Hframed.
    rewrite H in Hframed. simpl fst in Hframed.
    split; [exact Hframed|].
    rewrite (run_setitem _ _ _ _ _ Hn) in H. inversion H; subst w' outcome. simpl.
    destruct (node_after_assign node "metadata"
                (VList [SelectExecutor.stream_metadata]) _ _ Hn)
      as (kvs' & Hk' & Hst); [discriminate|].
    exists kvs'. split; [exact Hk'|now apply Hkey].
Qed.

Lemma stream_node_framed node path (w : world SelectExecutor.state) :
  framed origin w ->
  framed origin (fst (SelectExecutor.stream_node patterns node path w)).
Proof.
  intros Hw. unfold SelectExecutor.stream_node.
  unfold bind at 1. simpl.
  assert (Hw1 : framed origin (World (doc w) (Some node))) by exact Hw.
  revert Hw1. generalize (eq_refl : self (World (doc w) (Some node)) = Some node).
  generalize (World (doc w) (Some node)). clear w Hw. intros w Hself Hw.
  unfold bind at 1.
  destruct (SelectExecutor.current_stream w) as [w1 [name|why]] eqn:Ec.
  2:{ simpl. now rewrite (reads_only_state _ _ _ _ reads_only_current_stream Ec). }
  apply current_stream_done in Ec. destruct Ec as [-> (s & kvs & Hs & Hn & Hname)].
  rewrite Hself in Hs. inversion Hs; subst s. clear Hs.
  unfold bind at 1, lift at 1.
  destruct (SelectExecutor.stream_match_patterns patterns name) as [selected|why];
    [|exact Hw].
  assert (Hkey : has_key "stream" kvs = true) by (unfold has_key; now rewrite Hname).
  unfold bind at 1.
  match goal with
  | |- context [catch ?body ?handler w] =>
      destruct (catch body handler w) as [w2 [[]|why]] eqn:Et
  end.
  - destruct (stream_node_try_framed _ _ _ _ _ _ _ Hw Hn Hkey Et)
      as [Hw2 (kvs' & Hn' & Hkey')].
    unfold SelectExecutor.update_node_selection.
    now apply (select_stream_framed origin node selected w2 kvs').
  - now destruct (stream_node_try_framed _ _ _ _ _ _ _ Hw Hn Hkey Et).
Qed.

Lemma stream_metadata_node_framed node path (w : world SelectExecutor.state) kvs :
  framed origin w ->
  get_at node (doc w) = Some (VDict kvs) ->
  has_key "breadcrumb" kvs = true ->
  framed origin (fst (SelectExecutor.stream_metadata_node patterns node path w)).
Proof.
  intros Hw Hn Hb. unfold SelectExecutor.stream_metadata_node.
  unfold bind at 1.
  destruct (ref_item node "metadata" w) as [w1 [target|why]] eqn:Er.
  2:{ simpl. now rewrite (reads_only_state _ _ _ _ (reads_only_ref_item _ _) Er). }
  apply ref_item_done in Er. destruct Er as [-> [-> _]].
  unfold bind at 1.
  destruct (SelectExecutor.current_stream w) as [w1 [name|why]] eqn:Ec.
  2:{ simpl. now rewrite (reads_only_state _ _ _ _ reads_only_current_stream Ec). }
  rewrite (reads_only_state _ _ _ _ reads_only_current_stream Ec).
  unfold bind at 1, lift at 1.
  destruct (SelectExecutor.stream_match_patterns patterns name) as [selected|why];
    [|exact Hw].
  unfold SelectExecutor.update_node_selection.
  now apply (select_entry_framed origin node selected w kvs).
Qed.

Lemma property_metadata_node_framed node path (w : world SelectExecutor.state) kvs :
  framed origin w ->
  get_at node (doc w) = Some (VDict kvs) ->
  has_key "breadcrumb" kvs = true ->
  framed origin (fst (SelectExecutor.property_metadata_node patterns node path w)).
Proof.
  intros Hw Hn Hb. unfold SelectExecutor.property_metadata_node.
  unfold bind at 1.
  destruct (getitem node "breadcrumb" w) as [w1 [breadcrumb|why]] eqn:Eg.
  2:{ simpl. now rewrite (reads_only_state _ _ _ _ (reads_only_getitem _ _) Eg). }
  rewrite (reads_only_state _ _ _ _ (reads_only_getitem _ _) Eg).
  unfold bind at 1, lift at 1.
  destruct (py_join "." breadcrumb) as [prop|why]; [|exact Hw].
  unfold bind at 1, lift at 1.
  destruct (SelectExecutor.property_match_patterns patterns (VStr prop))
    as [selected|why]; [|exact Hw].
  unfold bind at 1.
  destruct (ref_item node "metadata" w) as [w2 [target|why]] eqn:Er.
  2:{ simpl. now rewrite (reads_only_state _ _ _ _ (reads_only_ref_item _ _) Er). }
  apply ref_item_done in Er. destruct Er as [-> [-> _]].
  unfold SelectExecutor.update_node_selection.
  now apply (select_entry_framed origin node selected w kvs).
Qed.

Lemma property_node_framed node path (w : world SelectExecutor.state) :
  framed origin w ->
  framed origin (fst (SelectExecutor.property_node patterns node path w)).
Proof.
  intros Hw. unfold SelectExecutor.property_node.
  unfold bind at 1.
  destruct (SelectExecutor.current_stream w) as [w1 [name|why]] eqn:Ec.
  2:{ simpl. now rewrite (reads_only_state _ _ _ _ reads_only_current_stream Ec). }
  apply current_stream_done in Ec. destruct Ec as [-> (s & kvs & Hs & Hn & Hname)].
  unfold bind at 1.
  destruct (SelectExecutor.the_stream w) as [w1 [s'|why]] eqn:Es.
  2:{ simpl. now rewrite (reads_only_state _ _ _ _ reads_only_the_stream Es). }
  apply the_stream_done in Es. destruct Es as [-> Hs'].
  rewrite Hs in Hs'. inversion Hs'; subst s'. clear Hs'.
  unfold catch.
  match goal with
  | |- context [bind ?c ?k w] =>
      assert (Hread : reads_only (bind c k));
      [|destruct (bind c k w) as [w1 [[]|[[]| |]]] eqn:Eb;
        try (simpl; now rewrite (reads_only_state _ _ _ _ Hread Eb))]
  end.
  { apply reads_only_bind; [apply reads_only_getitem|]. intros entries.
    apply reads_only_bind; [apply reads_only_lift|]. intros i. apply reads_only_ret. }
  rewrite (reads_only_state _ _ _ _ Hread Eb).
  assert (Hsearch : exists md,
             lookup "metadata" kvs = Some md
             /\ next_index
                  (SelectExecutor.has_breadcrumb
                     (VList (name :: map VStr (Text.findall_properties path)))) md
                = raise StopIteration).
  { unfold bind at 1 in Eb. erewrite run_getitem in Eb by exact Hn.
    simpl py_getitem in Eb.
    destruct (lookup "metadata" kvs) as [md|]; [|discriminate].
    exists md. split; [reflexivity|].
    unfold bind, lift in Eb.
    destruct (next_index
                (SelectExecutor.has_breadcrumb
                   (VList (name :: map VStr (Text.findall_properties path)))) md)
      as [i|why]; [discriminate|].
    now inversion Eb. }
  destruct Hsearch as (md & Hm & Hnext).
  unfold bind at 1.
  destruct (ref_item s "metadata" w) as [w2 [target|why]] eqn:Er.
  2:{ simpl. now rewrite (reads_only_state _ _ _ _ (reads_only_ref_item _ _) Er). }
  apply ref_item_done in Er. destruct Er as [-> [-> _]].
  apply (append_framed origin s w kvs name (Text.findall_properties path) md
           Hw Hn Hname Hm Hnext).
Qed.

(** Every dispatch of a selection pass keeps the document framed. *)
Lemma select_execute_framed rules kind node path (w : world SelectExecutor.state) :
  patterns = map parse_select_pattern rules ->
  framed origin w ->
  dispatchable kind node path w ->
  framed origin
    (fst (CatalogExecutor.execute (SelectExecutor.make rules) (Some kind) node path w)).
Proof.
  intros Hp Hw Hd.
  assert (E : forall c : M SelectExecutor.state unit,
             fst (catch c (fun e => match e with
                                    | KeyError => Some (ret tt)
                                    | _ => None
                                    end) w) = fst (c w)).
  { intros c. unfold catch. destruct (c w) as [w' [[]|[[]| |]]]; reflexivity. }
  unfold CatalogExecutor.execute. rewrite E.
  unfold SelectExecutor.make, SelectExecutor.init. simpl fst. rewrite <- Hp.
  destruct kind; simpl CatalogExecutor.dispatch; simpl in Hd.
  - now apply stream_node_framed.
  - destruct Hd as [_ (kvs & b & Hn & Hb & _)].
    apply (stream_metadata_node_framed _ _ _ kvs Hw Hn).
    unfold has_key. now rewrite Hb.
  - now apply property_node_framed.
  - destruct Hd as [_ (kvs & b & n & Hn & Hb & _)].
    apply (property_metadata_node_framed _ _ _ kvs Hw Hn).
    unfold has_key. now rewrite Hb.
Qed.

End Handlers.

(** ** What the writes leave in place *)

Lemma extends_seq_same xs : extends_seq xs xs.
Proof. induction xs; constructor; [apply extends_same|assumption]. Qed.

Lemma extends_fields_same kvs : extends_fields kvs kvs.
Proof.
  induction kvs as [|[k v] rest IH]; constructor; [apply extends_same|assumption].
Qed.

Lemma extends_transitive :
  (forall a b, extends a b -> forall c, extends b c -> extends a c)
  /\ (forall xs ys, extends_seq xs ys ->
                    forall zs, extends_seq ys zs -> extends_seq xs zs)
  /\ (forall kvs kvs', extends_fields kvs kvs' ->
                       forall kvs'', extends_fields kvs' kvs'' ->
                                     extends_fields kvs kvs'').
Proof.
  apply extends_mutual.
  - intros v c H. exact H.
  - intros xs ys Hs IH c H. inversion H; subst.
    + now apply extends_list.
    + apply extends_list. now apply IH.
  - intros kvs kvs' Hs IH c H. inversion H; subst.
    + now apply extends_dict.
    + apply extends_dict. now apply IH.
  - intros zs H. exact H.
  - intros x y xs ys Hxy IHx Hs IHs zs.
    induction zs as [|z zs IHz]; intros H; inversion H; subst.
    + apply seq_keep; [now apply IHx|now apply IHs].
    + apply seq_new. now apply IHz.
  - intros y xs ys Hs IHs zs.
    induction zs as [|z zs IHz]; intros H; inversion H; subst.
    + apply seq_new. now apply IHs.
    + apply seq_new. now apply IHz.
  - intros kvs'' H. exact H.
  - intros k v v' kvs kvs' Hv IHv Hs IHs kvs'' H. inversion H; subst.
    + apply fields_keep; [now apply IHv|now apply IHs].
    + apply fields_selected. now apply IHs.
  - intros v b kvs kvs' Hs IHs kvs'' H. inversion H; subst.
    + match goal with Hb : extends (VBool b) _ |- _ => inversion Hb; subst end.
      apply fields_selected. now apply IHs.
    + apply fields_selected. now apply IHs.
  - intros k v kvs' Hk Hs IHs kvs'' H. inversion H; subst.
    + apply fields_new; [exact Hk|now apply IHs].
    + apply fields_new; [now left|now apply IHs].
Qed.

Lemma extends_fields_assign k c c' kvs :
  lookup k kvs = Some c -> extends c c' -> extends_fields kvs (assign k c' kvs).
Proof.
  intros Hk Hc. induction kvs as [|[k0 v0] rest IH]; simpl in *; [discriminate|].
  destruct (String.eqb k0 k) eqn:E.
  - apply String.eqb_eq in E. subst k0. inversion Hk; subst.
    apply fields_keep; [exact Hc|apply extends_fields_same].
  - apply fields_keep; [apply extends_same|now apply IH].
Qed.

Lemma extends_seq_set_nth i c c' xs :
  nth_error xs i = Some c -> extends c c' -> extends_seq xs (set_nth i c' xs).
Proof.
  revert i. induction xs as [|x rest IH]; intros [|i] Hi Hc; simpl in *;
    try discriminate.
  - inversion Hi; subst. apply seq_keep; [exact Hc|apply extends_seq_same].
  - apply seq_keep; [apply extends_same|now apply IH].
Qed.

(** Extending the object at a location extends the document. *)
Lemma extends_set_at l : forall d n n',
  get_at l d = Some n -> extends n n' -> extends d (set_at l n' d).
Proof.
  induction l as [|s l IH]; intros d n n' Hn He; simpl in *.
  - now inversion Hn; subst.
  - destruct (child s d) as [c|] eqn:E; [|discriminate].
    destruct s as [k|i], d; simpl in E; try discriminate; simpl put_child.
    + apply extends_dict. apply (extends_fields_assign _ _ _ _ E). now apply (IH _ n).
    + apply extends_list. apply (extends_seq_set_nth _ _ _ _ E). now apply (IH _ n).
Qed.

Lemma extends_fields_select (b : bool) kvs :
  extends_fields kvs (assign "selected" (VBool b) kvs).
Proof.
  induction kvs as [|[k v] rest IH]; simpl.
  - apply fields_new; [now left|apply fields_nil].
  - destruct (String.eqb k "selected") eqn:E.
    + apply String.eqb_eq in E. subst k. apply fields_selected.
      apply extends_fields_same.
    + apply fields_keep; [apply extends_same|exact IH].
Qed.

Lemma extends_fields_new_metadata x kvs :
  lookup "metadata" kvs = None ->
  extends_fields kvs (assign "metadata" x kvs).
Proof.
  induction kvs as [|[k v] rest IH]; simpl.
  - intros _. apply fields_new; [now right|apply fields_nil].
  - destruct (String.eqb k "metadata"); [discriminate|].
    intros H. apply fields_keep; [apply extends_same|now apply IH].
Qed.

Lemma extends_seq_at_end x xs : extends_seq xs (xs ++ [x]).
Proof.
  induction xs as [|y rest IH]; simpl.
  - apply seq_new, seq_nil.
  - apply seq_keep; [apply extends_same|exact IH].
Qed.

Lemma write_step_extends d d' : write_step d d' -> extends d d'.
Proof.
  intros [d0 node kvs b Hn Hs|d0 node e m b Hn Hb Hm|d0 node kvs Hn Hs Hm
         |d0 node kvs entries Hn Hs Hm
         |d0 node kvs entries name components Hn Hs Hm].
  - apply (extends_set_at _ _ _ _ Hn). apply extends_dict, extends_fields_select.
  - apply (extends_set_at _ _ _ _ (get_at_key _ _ _ _ _ Hn Hm)).
    apply extends_dict, extends_fields_select.
  - apply (extends_set_at _ _ _ _ Hn).
    now apply extends_dict, extends_fields_new_metadata.
  - apply (extends_set_at _ _ _ _ (get_at_key _ _ _ _ _ Hn Hm)).
    apply extends_list, seq_new, extends_seq_same.
  - apply (extends_set_at _ _ _ _ (get_at_key _ _ _ _ _ Hn Hm)).
    apply extends_list, extends_seq_at_end.
Qed.

Lemma only_selection_writes_extends d d' :
  only_selection_writes d d' -> extends d d'.
Proof.
  induction 1 as [d|d d' d'' _ IH Hstep]; [apply extends_same|].
  apply (proj1 extends_transitive _ _ IH). now apply write_step_extends.
Qed.

(** What [extends] says of a scalar, of the elements of a list and of the
    fields of a mapping. *)
Lemma extends_scalar v v' :
  extends v v' ->
  match v with
  | VList _ | VDict _ => True
  | _ => v' = v
  end.
Proof. intros H. destruct v; inversion H; subst; auto. Qed.

Lemma extends_seq_member xs ys x :
  extends_seq xs ys -> In x xs -> exists y, In y ys /\ extends x y.
Proof.
  induction 1 as [|x0 y0 xs ys Hxy Hs IH|y0 xs ys Hs IH]; intros Hin.
  - destruct Hin.
  - destruct Hin as [<-|Hin].
    + exists y0. split; [now left|exact Hxy].
    + destruct (IH Hin) as (y & Hy & He). exists y. split; [now right|exact He].
  - destruct (IH Hin) as (y & Hy & He). exists y. split; [now right|exact He].
Qed.

Lemma extends_fields_field kvs kvs' k v :
  extends_fields kvs kvs' -> lookup k kvs = Some v -> k <> "selected" ->
  exists v', lookup k kvs' = Some v' /\ extends v v'.
Proof.
  induction 1 as [|k0 v0 v0' kvs kvs' Hv Hs IH|v0 b kvs kvs' Hs IH|k0 v0 kvs' Hk Hs IH];
    cbn [lookup]; intros Hl Hne; try discriminate.
  - destruct (String.eqb k0 k); [|now apply IH].
    inversion Hl; subst. now exists v0'.
  - destruct (String.eqb "selected" k) eqn:E; [|now apply IH].
    apply String.eqb_eq in E. now destruct Hne.
Qed.

Lemma select_document fuel rules catalog :
  fst (select fuel rules catalog)
  = doc (fst (visit fuel (SelectExecutor.make rules) [] ""
                (World catalog (snd (SelectExecutor.init rules))))).
Proof.
  unfold select.
  now destruct (visit fuel (SelectExecutor.make rules) [] ""
                  (World catalog (snd (SelectExecutor.init rules)))).
Qed.

(** A selection pass keeps a well-formed document framed. *)
Lemma select_framed (fuel : nat) (rules : list string) (origin catalog : value) s :
  framed origin (World catalog s) ->
  framed origin (World (fst (select fuel rules catalog)) s).
Proof.
  intros Hw. rewrite select_document.
  assert (H : framed origin
                (fst (visit fuel (SelectExecutor.make rules) [] ""
                        (World catalog (snd (SelectExecutor.init rules)))))).
  { apply (visit_keeps (SelectExecutor.make rules) (framed origin)).
    - intros kind node path w Hw' Hd.
      now apply (select_execute_framed origin (map parse_select_pattern rules) rules).
    - exact Hw. }
  exact H.
Qed.

(** C8.  On a well-formed document, however far a selection pass gets, the
    document it has made is reached from the given one by selection writes
    alone: [selected] fields of metadata entries and of stream nodes, and
    synthetic metadata entries put in.  So every list still has its
    elements and every mapping its fields, in their order and with their
    values, [selected] fields apart; and the document is still
    well-formed. *)
Theorem select_only_writes_selection (fuel : nat) (rules : list string)
  (catalog : value) :
  well_formed false catalog = true ->
  only_selection_writes catalog (fst (select fuel rules catalog))
  /\ extends catalog (fst (select fuel rules catalog))
  /\ well_formed false (fst (select fuel rules catalog)) = true.
Proof.
  intros Hwf.
  destruct (select_framed fuel rules catalog catalog None) as [Hwrites Hwf'].
  { split; [apply writes_none|exact Hwf]. }
  simpl in Hwrites, Hwf'. repeat split.
  - exact Hwrites.
  - now apply only_selection_writes_extends.
  - exact Hwf'.
Qed.

Lemma select_only_writes_selection_witness :
  only_selection_writes c6_catalog (fst (select 16 c6_rules c6_catalog))
  /\ extends c6_catalog (fst (select 16 c6_rules c6_catalog))
  /\ well_formed false (fst (select 16 c6_rules c6_catalog)) = true.
Proof.
  apply (select_only_writes_selection 16 c6_rules c6_catalog). reflexivity.
Defined.

(** ** No two entries with one breadcrumb *)

Lemma no_duplicates_list b xs :
  no_duplicates b (VList xs)
  = (if b then distinct_breadcrumbs xs else true) && forallb (no_duplicates false) xs.
Proof. reflexivity. Qed.

Lemma no_duplicates_dict b kvs :
  no_duplicates b (VDict kvs)
  = forallb (fun kv => no_duplicates (String.eqb (fst kv) "metadata") (snd kv)) kvs.
Proof.
  simpl. induction kvs as [|[k x] rest IH]; simpl; [reflexivity|now rewrite IH].
Qed.

Lemma ends_in_metadata_app l : ends_in_metadata (l ++ [Key "metadata"]) = true.
Proof.
  induction l as [|s l IH]; [reflexivity|].
  simpl. destruct (l ++ [Key "metadata"]) eqn:E; [|exact IH].
  destruct l; discriminate.
Qed.

Lemma writable_tail s s' l n :
  writable (s :: s' :: l) n = true -> writable (s' :: l) n = true.
Proof. destruct n; auto. Qed.

Lemma map_set_nth {A B : Type} (f : A -> B) i c c' xs :
  nth_error xs i = Some c -> f c' = f c -> map f (set_nth i c' xs) = map f xs.
Proof.
  revert i. induction xs as [|x rest IH]; intros [|i] Hi Hf; simpl in *;
    try discriminate; try reflexivity.
  - inversion Hi; subst. now rewrite Hf.
  - now rewrite (IH _ Hi Hf).
Qed.

(** A write below an entry with a flat breadcrumb leaves the breadcrumb. *)
Lemma breadcrumb_of_set_at s l c n n' :
  flat (breadcrumb_of c) = true ->
  get_at (s :: l) c = Some n ->
  writable (s :: l) n = true ->
  breadcrumb_of (set_at (s :: l) n' c) = breadcrumb_of c.
Proof.
  intros Hflat Hn Hw. simpl in *.
  destruct (child s c) as [c0|] eqn:E; [|discriminate].
  destruct s as [k|i], c as [| | | | |e]; simpl in E; try discriminate;
    simpl put_child; [|reflexivity].
  simpl. destruct (String.eqb k "breadcrumb") eqn:Ek.
  - apply String.eqb_eq in Ek. subst k. exfalso.
    simpl in Hflat. rewrite E in Hflat.
    destruct c0 as [| | | |xs|]; try discriminate;
      try (match type of Hn with
           | get_at l ?v = Some n =>
               destruct (get_at_scalar l v n eq_refl Hn) as [_ ->]
           end; simpl in Hw; discriminate).
    destruct l as [|s' l'].
    + simpl in Hn. inversion Hn; subst n. simpl in Hw. discriminate.
    + simpl in Hn. destruct s' as [k'|j]; simpl in Hn; [discriminate|].
      destruct (nth_error xs j) as [x|] eqn:Ex; [|discriminate].
      pose proof (forallb_nth_error _ _ _ _ Hflat Ex) as Hx.
      destruct (get_at_scalar _ _ _ Hx Hn) as [_ ->].
      destruct x; simpl in Hw, Hx; discriminate.
  - apply lookup_assign_other. intros ->. now rewrite String.eqb_refl in Ek.
Qed.

Lemma no_duplicates_set_at l : forall b d n n',
  no_duplicates b d = true ->
  get_at l d = Some n ->
  l = [] \/ writable l n = true ->
  (forall b', no_duplicates b' n = true -> no_duplicates b' n' = true) ->
  breadcrumb_of n' = breadcrumb_of n ->
  no_duplicates b (set_at l n' d) = true.
Proof.
  induction l as [|s l IH]; intros b d n n' Hd Hn Hw Hnd Hbc; simpl in *.
  - inversion Hn; subst. now apply Hnd.
  - destruct Hw as [Hw|Hw]; [discriminate|].
    assert (Hw' : l = [] \/ writable l n = true).
    { destruct l as [|s' l']; [now left|right]. now apply (writable_tail s). }
    destruct (child s d) as [c|] eqn:E; [|discriminate].
    destruct s as [k|i], d; simpl in E; try discriminate; simpl put_child.
    + rewrite no_duplicates_dict in *. apply forallb_assign; [exact Hd|]. simpl.
      pose proof (forallb_lookup _ _ _ _ Hd E) as Hc. simpl in Hc.
      now apply (IH _ _ n).
    + rewrite no_duplicates_list in *. apply andb_true_iff in Hd.
      destruct Hd as [Hdist Hall]. apply andb_true_iff. split.
      * destruct b; [|reflexivity]. unfold distinct_breadcrumbs in *.
        rewrite (map_set_nth breadcrumb_of i c); [exact Hdist|exact E|].
        destruct l as [|s' l'].
        -- simpl in *. inversion Hn; subst. exact Hbc.
        -- destruct Hw' as [Hw'|Hw']; [discriminate|].
           apply (breadcrumb_of_set_at _ _ _ n); [|exact Hn|exact Hw'].
           apply andb_true_iff in Hdist. destruct Hdist as [_ Hflat].
           apply (forallb_nth_error _ i _ _ Hflat).
           now rewrite nth_error_map, E.
      * apply forallb_set_nth; [exact Hall|].
        pose proof (forallb_nth_error _ _ _ _ Hall E) as Hc.
        now apply (IH _ _ n).
Qed.

Lemma next_from_stop_iteration cond i xs :
  (forall x, cond x <> raise StopIteration) ->
  next_from cond i xs = raise StopIteration ->
  Forall (fun x => cond x = Done false) xs.
Proof.
  unfold raise. intros Hc. revert i.
  induction xs as [|x rest IH]; intros i; simpl; [constructor|].
  destruct (cond x) as [[|]|why] eqn:E; simpl; try discriminate.
  - intros H. constructor; [exact E|now apply (IH (S i))].
  - intros H. inversion H; subst. now destruct (Hc x).
Qed.

Lemma empty_breadcrumb_never_stops x :
  SelectExecutor.empty_breadcrumb x <> raise StopIteration.
Proof.
  unfold SelectExecutor.empty_breadcrumb, py_getitem, py_len, raise.
  destruct x as [| | | | |e]; simpl; try discriminate.
  destruct (lookup "breadcrumb" e) as [b|]; simpl; [|discriminate].
  destruct b; simpl; discriminate.
Qed.

Lemma has_breadcrumb_never_stops breadcrumb x :
  SelectExecutor.has_breadcrumb breadcrumb x <> raise StopIteration.
Proof.
  unfold SelectExecutor.has_breadcrumb, py_getitem, raise.
  destruct x as [| | | | |e]; simpl; try discriminate.
  destruct (lookup "breadcrumb" e) as [b|]; simpl; discriminate.
Qed.

Lemma empty_breadcrumb_differs x :
  SelectExecutor.empty_breadcrumb x = Done false ->
  differs (VList []) (breadcrumb_of x) = true.
Proof.
  unfold SelectExecutor.empty_breadcrumb, py_getitem, py_len, raise.
  destruct x as [| | | | |e]; simpl; try discriminate.
  destruct (lookup "breadcrumb" e) as [b|]; simpl; [|discriminate].
  destruct b as [| | |s|[|y ys]|kvs]; simpl; try discriminate; reflexivity.
Qed.

Lemma has_breadcrumb_differs breadcrumb x :
  SelectExecutor.has_breadcrumb breadcrumb x = Done false ->
  exists b, breadcrumb_of x = Some b /\ py_eqb b breadcrumb = false.
Proof.
  unfold SelectExecutor.has_breadcrumb, py_getitem, raise.
  destruct x as [| | | | |e]; simpl; try discriminate.
  destruct (lookup "breadcrumb" e) as [b|]; simpl; [|discriminate].
  intros H. inversion H. now exists b.
Qed.

Lemma distinct_at_end os breadcrumb :
  distinct os = true ->
  Forall (fun o => exists b, o = Some b /\ py_eqb b breadcrumb = false) os ->
  distinct (os ++ [Some breadcrumb]) = true.
Proof.
  induction os as [|o rest IH]; intros Hd Hall; simpl in *; [reflexivity|].
  inversion Hall as [|o' rest' (b & -> & Hb) Hrest]; subst.
  apply andb_true_iff in Hd. destruct Hd as [H1 H2].
  rewrite forallb_app, H1, (IH H2 Hrest). simpl. now rewrite Hb.
Qed.

Lemma no_duplicates_select b' (b : bool) kvs :
  no_duplicates b' (VDict kvs) = true ->
  no_duplicates b' (VDict (assign "selected" (VBool b) kvs)) = true.
Proof.
  rewrite !no_duplicates_dict. intros H. now apply forallb_assign.
Qed.

Lemma breadcrumb_of_assign k x kvs :
  k <> "breadcrumb" ->
  breadcrumb_of (VDict (assign k x kvs)) = breadcrumb_of (VDict kvs).
Proof. intros H. simpl. now apply lookup_assign_other. Qed.

Lemma no_duplicates_scalar v : hashable v = true -> no_duplicates false v = true.
Proof. destruct v; simpl; auto; discriminate. Qed.

Lemma hashable_texts (components : list string) :
  forallb hashable (map VStr components) = true.
Proof. induction components; simpl; auto. Qed.

Lemma no_duplicates_synthetic name components :
  hashable name = true ->
  no_duplicates false (synthetic (VList (name :: map VStr components))) = true.
Proof.
  intros Hname. unfold synthetic. rewrite no_duplicates_dict. cbn [forallb fst snd].
  replace (String.eqb "breadcrumb" "metadata") with false by reflexivity.
  rewrite no_duplicates_list. cbn [forallb].
  rewrite (no_duplicates_scalar _ Hname).
  replace (forallb (no_duplicates false) (map VStr components)) with true.
  - reflexivity.
  - symmetry. induction components; simpl; auto.
Qed.

Lemma write_step_no_duplicates d d' :
  well_formed false d = true ->
  no_duplicates false d = true ->
  write_step d d' ->
  no_duplicates false d' = true.
Proof.
  intros Hwf Hd Hstep.
  destruct Hstep as [d node kvs b Hn Hs|d node e m b Hn Hb Hm|d node kvs Hn Hs Hm
                    |d node kvs entries Hn Hs Hm Hnext
                    |d node kvs entries name components Hn Hs Hm Hnext].
  - apply (no_duplicates_set_at _ _ _ _ _ Hd Hn); [now right| |].
    + intros b'. apply no_duplicates_select.
    + now apply breadcrumb_of_assign.
  - apply (no_duplicates_set_at _ _ _ _ _ Hd (get_at_key _ _ _ _ _ Hn Hm));
      [now right| |].
    + intros b'. apply no_duplicates_select.
    + now apply breadcrumb_of_assign.
  - apply (no_duplicates_set_at _ _ _ _ _ Hd Hn); [now right| |].
    + intros b'. rewrite !no_duplicates_dict. intros H. now apply forallb_assign.
    + now apply breadcrumb_of_assign.
  - apply (no_duplicates_set_at _ _ _ _ _ Hd (get_at_key _ _ _ _ _ Hn Hm)).
    + right. apply ends_in_metadata_app.
    + intros b'. rewrite !no_duplicates_list. intros H.
      apply andb_true_iff in H. destruct H as [H1 H2].
      cbn [forallb]. rewrite H2.
      replace (no_duplicates false (synthetic (VList []))) with true by reflexivity.
      destruct b'; [|reflexivity]. unfold distinct_breadcrumbs in *. cbn [map].
      apply andb_true_iff in H1. destruct H1 as [Hdist Hflat].
      change (breadcrumb_of (synthetic (VList []))) with (Some (VList [])).
      cbn [distinct forallb flat]. rewrite Hdist, Hflat.
      replace (forallb (differs (VList [])) (map breadcrumb_of entries)) with true;
        [reflexivity|].
      symmetry. apply forallb_forall. intros o Ho.
      apply in_map_iff in Ho. destruct Ho as (x & <- & Hx).
      unfold next_index in Hnext. simpl in Hnext.
      pose proof (next_from_stop_iteration _ _ _ empty_breadcrumb_never_stops Hnext)
        as Hall.
      rewrite Forall_forall in Hall. now apply empty_breadcrumb_differs, Hall.
    + reflexivity.
  - destruct (well_formed_get_at _ _ _ _ Hwf Hn) as [b0 Hkvs].
    destruct (well_formed_field _ _ _ _ Hkvs Hs) as [_ Hname].
    specialize (Hname eq_refl).
    apply (no_duplicates_set_at _ _ _ _ _ Hd (get_at_key _ _ _ _ _ Hn Hm)).
    + right. apply ends_in_metadata_app.
    + intros b'. rewrite !no_duplicates_list, forallb_app. intros H.
      apply andb_true_iff in H. destruct H as [H1 H2].
      cbn [forallb]. rewrite H2, (no_duplicates_synthetic _ _ Hname).
      destruct b'; [|reflexivity]. unfold distinct_breadcrumbs in *.
      rewrite map_app, forallb_app. cbn [map].
      apply andb_true_iff in H1. destruct H1 as [Hdist Hflat].
      change (breadcrumb_of (synthetic (VList (name :: map VStr components))))
        with (Some (VList (name :: map VStr components))).
      rewrite Hflat. cbn [forallb flat]. rewrite Hname, hashable_texts.
      rewrite distinct_at_end; [reflexivity|exact Hdist|].
      unfold next_index in Hnext. simpl in Hnext.
      pose proof (next_from_stop_iteration _ _ _
                    (has_breadcrumb_never_stops _) Hnext) as Hall.
      rewrite Forall_forall in *. intros o Ho.
      apply in_map_iff in Ho. destruct Ho as (x & <- & Hx).
      now apply has_breadcrumb_differs, Hall.
    + reflexivity.
Qed.

Lemma writes_no_duplicates d d' :
  well_formed false d = true ->
  no_duplicates false d = true ->
  only_selection_writes d d' ->
  well_formed false d' = true /\ no_duplicates false d' = true.
Proof.
  intros Hwf Hd. induction 1 as [d|d d' d'' _ IH Hstep]; [now split|].
  destruct (IH Hwf Hd) as [Hwf' Hd']. split.
  - now apply (write_step_well_formed d').
  - now apply (write_step_no_duplicates d').
Qed.

(** ** Running the pass again *)

Lemma assign_same {A : Type} (k : string) (v : A) kvs :
  lookup k kvs = Some v -> assign k v kvs = kvs.
Proof.
  induction kvs as [|[k0 v0] rest IH]; simpl; [discriminate|].
  destruct (String.eqb k0 k) eqn:E.
  - apply String.eqb_eq in E. subst. intros H. now inversion H.
  - intros H. now rewrite (IH H).
Qed.

Lemma set_at_field l k x d kvs y :
  get_at l d = Some (VDict kvs) -> lookup k kvs = Some y ->
  set_at (l ++ [Key k]) x d = set_at l (VDict (assign k x kvs)) d.
Proof.
  intros Hl Hk. now rewrite (set_at_app _ _ _ _ _ Hl), (set_at_key _ _ _ _ Hk).
Qed.

Lemma next_from_set_nth cond j i c c' xs :
  nth_error xs i = Some c -> cond c' = cond c ->
  next_from cond j (set_nth i c' xs) = next_from cond j xs.
Proof.
  revert j i. induction xs as [|x rest IH]; intros j [|i] Hi Hc; simpl in *;
    try discriminate.
  - inversion Hi; subst. now rewrite Hc.
  - now rewrite (IH _ _ Hi Hc).
Qed.

(** Run again on the entry it has written, [property_metadata_node] leaves
    the document as it is. *)
Lemma property_metadata_node_again
  (patterns : list SelectPattern) (node : loc) (path : string)
  (w : world SelectExecutor.state) kvs (parts : list string) m :
  get_at node (doc w) = Some (VDict kvs) ->
  lookup "breadcrumb" kvs = Some (VList (map VStr parts)) ->
  lookup "metadata" kvs = Some (VDict m) ->
  SelectExecutor.property_metadata_node patterns node path
    (fst (SelectExecutor.property_metadata_node patterns node path w))
  = SelectExecutor.property_metadata_node patterns node path w.
Proof.
  intros Hn Hb Hm.
  rewrite (property_metadata_node_run patterns node path w _ _ _ Hn Hb Hm).
  simpl fst.
  set (b := existsb (Fnmatch.fnmatch (Text.join "." parts)) (property_includes patterns)
            && negb (existsb (Fnmatch.fnmatch (Text.join "." parts))
                       (property_excludes patterns))).
  set (m1 := assign "selected" (VBool b) m).
  rewrite (set_at_field _ _ _ _ _ _ Hn Hm).
  erewrite (property_metadata_node_run patterns node path _ _ parts m1).
  - simpl doc. simpl self. unfold m1 at 1. rewrite assign_assign. fold m1.
    erewrite set_at_field; [|simpl; apply (get_at_set_at _ _ _ _ Hn)
                            |apply lookup_assign_same].
    now rewrite set_at_set_at, assign_assign.
  - simpl. apply (get_at_set_at _ _ _ _ Hn).
  - rewrite lookup_assign_other by discriminate. exact Hb.
  - apply lookup_assign_same.
Qed.

(** So does [stream_metadata_node] on an entry of the current stream. *)
Lemma stream_metadata_node_again
  (patterns : list SelectPattern) (stream : loc) (i : nat) (path : string)
  (w : world SelectExecutor.state) e m kvs name :
  self w = Some stream ->
  get_at stream (doc w) = Some (VDict kvs) ->
  lookup "stream" kvs = Some (VStr name) ->
  get_at (stream ++ [Key "metadata"; Idx i]) (doc w) = Some (VDict e) ->
  lookup "metadata" e = Some (VDict m) ->
  SelectExecutor.stream_metadata_node patterns (stream ++ [Key "metadata"; Idx i]) path
    (fst (SelectExecutor.stream_metadata_node patterns
            (stream ++ [Key "metadata"; Idx i]) path w))
  = SelectExecutor.stream_metadata_node patterns
      (stream ++ [Key "metadata"; Idx i]) path w.
Proof.
  intros Hself Hstream Hname Hentry Hm.
  rewrite (stream_metadata_node_selected _ _ _ _ _ _ _ _ _
             Hself Hstream Hname Hentry Hm).
  simpl fst.
  set (m1 := assign "selected" (VBool (stream_selected patterns name)) m).
  destruct (node_after_write_below stream "metadata" [Idx i; Key "metadata"]
              (VDict m1) _ _ Hstream) as (kvs' & Hk' & Hst); [discriminate|].
  assert (Hloc : (stream ++ [Key "metadata"; Idx i]) ++ [Key "metadata"]
                 = stream ++ Key "metadata" :: [Idx i; Key "metadata"])
    by now rewrite <- app_assoc.
  rewrite (set_at_field _ _ _ _ _ _ Hentry Hm).
  erewrite (stream_metadata_node_selected patterns _ stream path _
              (assign "metadata" (VDict m1) e) m1 kvs' name).
  - simpl doc. simpl self. unfold m1 at 1. rewrite assign_assign. fold m1.
    erewrite set_at_field; [|apply (get_at_set_at _ _ _ _ Hentry)
                            |apply lookup_assign_same].
    now rewrite set_at_set_at, assign_assign.
  - exact Hself.
  - simpl doc. rewrite <- (set_at_field _ _ _ _ _ _ Hentry Hm), Hloc. exact Hk'.
  - now rewrite Hst.
  - simpl. apply (get_at_set_at _ _ _ _ Hentry).
  - apply lookup_assign_same.
Qed.

(** So does [stream_node] on a stream whose entry of empty breadcrumb it
    has found and written. *)
Lemma stream_node_again
  (patterns : list SelectPattern) (node : loc) (path : string)
  (w : world SelectExecutor.state) kvs name entries i e m :
  get_at node (doc w) = Some (VDict kvs) ->
  lookup "stream" kvs = Some (VStr name) ->
  lookup "metadata" kvs = Some (VList entries) ->
  next_index SelectExecutor.empty_breadcrumb (VList entries) = Done i ->
  nth_error entries i = Some (VDict e) ->
  lookup "metadata" e = Some (VDict m) ->
  SelectExecutor.stream_node patterns node path
    (fst (SelectExecutor.stream_node patterns node path w))
  = SelectExecutor.stream_node patterns node path w.
Proof.
  intros Hn Hname Hmd Hnext Hi Hm.
  rewrite (stream_node_found _ _ _ _ _ _ Hn Hname _ _ _ _ Hmd Hnext Hi Hm).
  simpl fst.
  set (b := stream_selected patterns name).
  set (m1 := assign "selected" (VBool b) m).
  set (e1 := assign "metadata" (VDict m1) e).
  set (entries1 := set_nth i (VDict e1) entries).
  set (kvs1 := assign "selected" (VBool b) (assign "metadata" (VList entries1) kvs)).
  assert (Hmd1 : lookup "metadata" kvs1 = Some (VList entries1)).
  { unfold kvs1. rewrite lookup_assign_other by discriminate.
    apply lookup_assign_same. }
  assert (Hi1 : nth_error entries1 i = Some (VDict e1)).
  { apply nth_error_set_nth. apply nth_error_Some. congruence. }
  assert (Hn1 : get_at node (set_at node (VDict kvs1) (doc w)) = Some (VDict kvs1))
    by apply (get_at_set_at _ _ _ _ Hn).
  assert (Hname1 : lookup "stream" kvs1 = Some (VStr name)).
  { unfold kvs1. now rewrite !lookup_assign_other by discriminate. }
  assert (Hnext1 : next_index SelectExecutor.empty_breadcrumb (VList entries1)
                   = Done i).
  { unfold next_index in *. simpl in *. unfold entries1.
    rewrite (next_from_set_nth _ _ _ (VDict e)); [exact Hnext|exact Hi|].
    unfold SelectExecutor.empty_breadcrumb, e1. simpl.
    now rewrite lookup_assign_other by discriminate. }
  assert (Hm1 : lookup "metadata" e1 = Some (VDict m1)) by apply lookup_assign_same.
  rewrite (stream_node_found patterns node path
             (World (set_at node (VDict kvs1) (doc w)) (Some node))
             kvs1 name Hn1 Hname1 entries1 i e1 m1 Hmd1 Hnext1 Hi1 Hm1).
  simpl doc. rewrite set_at_set_at. fold b.
  replace (assign "selected" (VBool b) m1) with m1
    by (unfold m1; now rewrite assign_assign).
  replace (assign "metadata" (VDict m1) e1) with e1
    by (unfold e1; now rewrite assign_assign).
  replace (set_nth i (VDict e1) entries1) with entries1
    by (unfold entries1; now rewrite set_nth_set_nth).
  rewrite (assign_same _ _ _ Hmd1).
  replace (assign "selected" (VBool b) kvs1) with kvs1
    by (unfold kvs1; now rewrite assign_assign).
  reflexivity.
Qed.

(** The stream lists [metadata] before [schema]: the first pass appends the
    entry of property [id] when the metadata sequence has been gone
    through, so the entry gets its [selected] field in the second pass
    only, and the two documents differ. *)
Lemma second_pass_changes_document :
  snd (select 16 c7_rules c7_catalog) = Done tt
  /\ snd (select 16 c7_rules c7_once) = Done tt
  /\ get_at c7_id_selected c7_once = None
  /\ get_at c7_id_selected c7_twice = Some (VBool true)
  /\ c7_twice <> c7_once.
Proof.
  assert (H1 : get_at c7_id_selected c7_once = None) by (vm_compute; reflexivity).
  assert (H2 : get_at c7_id_selected c7_twice = Some (VBool true))
    by (vm_compute; reflexivity).
  repeat split; try (vm_compute; reflexivity); try assumption.
  intros E. rewrite E, H1 in H2. clear E. discriminate H2.
Qed.

Example third_pass_changes_nothing :
  fst (select 16 c7_rules c7_twice) = c7_twice.
Proof. vm_compute. reflexivity. Qed.

(** On a well-formed document the second pass, like the first, changes
    the document by selection writes only, and such a write puts an entry
    in only where the search has found none of its breadcrumb: if no
    metadata sequence holds two entries of one breadcrumb at the start,
    none does after the first pass nor after the second. *)
Lemma second_pass_writes (fuel fuel' : nat) (rules : list string) (catalog : value) :
  well_formed false catalog = true ->
  only_selection_writes (fst (select fuel rules catalog))
    (fst (select fuel' rules (fst (select fuel rules catalog))))
  /\ extends (fst (select fuel rules catalog))
       (fst (select fuel' rules (fst (select fuel rules catalog))))
  /\ (no_duplicates false catalog = true ->
      no_duplicates false (fst (select fuel rules catalog)) = true
      /\ no_duplicates false
           (fst (select fuel' rules (fst (select fuel rules catalog)))) = true).
Proof.
  intros Hwf.
  destruct (select_framed fuel rules catalog catalog None) as [Hw1 Hwf1].
  { split; [apply writes_none|exact Hwf]. }
  simpl in Hw1, Hwf1.
  destruct (select_framed fuel' rules (fst (select fuel rules catalog))
              (fst (select fuel rules catalog)) None) as [Hw2 Hwf2].
  { split; [apply writes_none|exact Hwf1]. }
  simpl in Hw2, Hwf2.
  split; [exact Hw2|]. split; [now apply only_selection_writes_extends|].
  intros Hnd.
  destruct (writes_no_duplicates _ _ Hwf Hnd Hw1) as [_ Hnd1].
  destruct (writes_no_duplicates _ _ Hwf1 Hnd1 Hw2) as [_ Hnd2].
  now split.
Qed.

(* ================================================================== *)
(** * Further properties *)

(** ** Parsing a rule *)

Lemma hd_split_dot (s : string) :
  hd EmptyString (Text.split_dot s) = Text.before_dot s.
Proof.
  induction s as [|c s IH]; simpl; [reflexivity|].
  destruct (Ascii.eqb c "."%char); [reflexivity|].
  destruct (Text.split_dot s) as [|piece rest]; simpl in *; now rewrite <- IH.
Qed.

Lemma split_dot_pieces (s : string) :
  exists piece rest, Text.split_dot s = piece :: rest.
Proof.
  destruct s as [|c s]; simpl; [now eexists; eexists|].
  destruct (Ascii.eqb c "."%char); [now eexists; eexists|].
  destruct (Text.split_dot s); now eexists; eexists.
Qed.

Lemma join_split_dot (s : string) : Text.join "." (Text.split_dot s) = s.
Proof.
  induction s as [|c s IH]; simpl; [reflexivity|].
  destruct (split_dot_pieces s) as (piece & rest & Es). rewrite Es in *.
  destruct (Ascii.eqb c "."%char) eqn:E.
  - apply Ascii.eqb_eq in E. subst c.
    change (Text.join "." (EmptyString :: piece :: rest))
      with ("" ++ "." ++ Text.join "." (piece :: rest))%string.
    now rewrite IH.
  - rewrite <- IH. now destruct rest.
Qed.

Lemma before_dot_no_dot (s : string) : has_dot (Text.before_dot s) = false.
Proof.
  unfold has_dot, Text.chars. induction s as [|c s IH]; [reflexivity|].
  cbn [Text.before_dot].
  destruct (Ascii.eqb c "."%char) eqn:E; cbn [list_ascii_of_string existsb];
    [reflexivity|].
  rewrite (Ascii.eqb_sym "."%char c), E. exact IH.
Qed.

Lemma before_dot_prefix (s : string) :
  s = Text.before_dot s
  \/ exists rest, s = (Text.before_dot s ++ "." ++ rest)%string.
Proof.
  induction s as [|c s IH]; simpl; [now left|].
  destruct (Ascii.eqb c "."%char) eqn:E.
  - apply Ascii.eqb_eq in E. subst c. right. now exists s.
  - destruct IH as [IH|[rest IH]].
    + left. f_equal. exact IH.
    + right. exists rest. simpl. f_equal. exact IH.
Qed.

Lemma startswith_bang (c : ascii) (rest : string) :
  Text.startswith "!" (String c rest) = Ascii.eqb "!"%char c.
Proof.
  unfold Text.startswith.
  cbn [Text.chars list_ascii_of_string Text.strip_prefix].
  now destruct (Ascii.eqb "!"%char c).
Qed.

(** X1.  Parsing a rule loses nothing: a rule that starts with [!] is
    negated and its property pattern is the rest of its text, any other
    rule is not negated and is its own property pattern; so the text of a
    rule is its property pattern, with the one [!] that was taken off put
    back. *)
Theorem parse_select_pattern_lossless (rule : string) :
  rule_text (parse_select_pattern rule) = rule
  /\ parse_select_pattern (String "!"%char rule)
     = {| stream_pattern := Text.before_dot rule;
          property_pattern := rule;
          negated := true |}
  /\ (Text.startswith "!" rule = false ->
      parse_select_pattern rule
      = {| stream_pattern := Text.before_dot rule;
           property_pattern := rule;
           negated := false |}).
Proof.
  split; [|split].
  - unfold rule_text, parse_select_pattern. cbn [negated property_pattern].
    destruct rule as [|c rule]; [reflexivity|].
    rewrite startswith_bang.
    destruct (Ascii.eqb "!"%char c) eqn:E; [|reflexivity].
    apply Ascii.eqb_eq in E. now subst c.
  - unfold parse_select_pattern. rewrite startswith_bang, Ascii.eqb_refl.
    reflexivity.
  - intros H. unfold parse_select_pattern. now rewrite H.
Qed.

Lemma parse_select_pattern_lossless_witness :
  parse_select_pattern "users.*"
  = {| stream_pattern := Text.before_dot "users.*";
       property_pattern := "users.*";
       negated := false |}.
Proof.
  apply (proj2 (proj2 (parse_select_pattern_lossless "users.*"))). reflexivity.
Defined.

(** X2.  The stream pattern of a rule is the first piece of what
    [split(".")] makes of its property pattern: it holds no dot, and the
    property pattern is the stream pattern alone or the stream pattern, a
    dot and more. *)
Theorem stream_pattern_is_first_piece (rule : string) :
  let p := parse_select_pattern rule in
  stream_pattern p = hd EmptyString (Text.split_dot (property_pattern p))
  /\ has_dot (stream_pattern p) = false
  /\ (property_pattern p = stream_pattern p
      \/ exists rest,
           property_pattern p = (stream_pattern p ++ "." ++ rest)%string).
Proof.
  cbv zeta. unfold parse_select_pattern. simpl stream_pattern. simpl property_pattern.
  split; [now rewrite hd_split_dot|]. split; [apply before_dot_no_dot|].
  apply before_dot_prefix.
Qed.

(** ** What a rule selects *)

Lemma plain_char_cases (c : ascii) :
  plain_char c = true ->
  Ascii.eqb c "*"%char = false /\ Ascii.eqb c "?"%char = false
  /\ Ascii.eqb c "["%char = false.
Proof.
  unfold plain_char. rewrite negb_true_iff, !orb_false_iff. tauto.
Qed.

Lemma translate_plain (cs : list ascii) :
  forallb plain_char cs = true ->
  Fnmatch.translate_from 0 cs = map Fnmatch.TLit cs.
Proof.
  induction cs as [|c cs IH]; [reflexivity|].
  cbn [forallb]. rewrite andb_true_iff. intros [Hc Hcs].
  destruct (plain_char_cases c Hc) as (E1 & E2 & E3).
  cbn [Fnmatch.translate_from map]. rewrite E1, E2, E3. now rewrite IH.
Qed.

Lemma translate_plain_star (cs : list ascii) :
  forallb plain_char cs = true ->
  Fnmatch.translate_from 0 (cs ++ ["*"%char]) = map Fnmatch.TLit cs ++ [Fnmatch.TStar].
Proof.
  induction cs as [|c cs IH]; [reflexivity|].
  cbn [forallb]. rewrite andb_true_iff. intros [Hc Hcs].
  destruct (plain_char_cases c Hc) as (E1 & E2 & E3).
  cbn [Fnmatch.translate_from map app]. rewrite E1, E2, E3. now rewrite IH.
Qed.

Lemma match_literals (l cs : list ascii) :
  Fnmatch.match_tokens (map Fnmatch.TLit l) cs = true <-> cs = l.
Proof.
  revert cs. induction l as [|a l IH]; intros cs; cbn [map Fnmatch.match_tokens].
  - destruct cs; split; congruence.
  - destruct cs as [|c cs]; [split; congruence|].
    cbn [Fnmatch.token_accepts]. rewrite andb_true_iff, Ascii.eqb_eq, IH.
    split; [intros [-> ->]; reflexivity|intros H; inversion H; auto].
Qed.

Lemma match_star (cs : list ascii) : Fnmatch.match_tokens [Fnmatch.TStar] cs = true.
Proof.
  induction cs as [|c cs IH]; [reflexivity|].
  cbn [Fnmatch.match_tokens] in *. exact IH.
Qed.

Lemma match_literals_star (l cs : list ascii) :
  Fnmatch.match_tokens (map Fnmatch.TLit l ++ [Fnmatch.TStar]) cs = true
  <-> exists rest, cs = l ++ rest.
Proof.
  revert cs. induction l as [|a l IH]; intros cs.
  - cbn [map app]. rewrite match_star. split; [intros _; now exists cs|reflexivity].
  - cbn [map app Fnmatch.match_tokens].
    destruct cs as [|c cs].
    + split; [discriminate|intros [rest H]; discriminate].
    + cbn [Fnmatch.token_accepts]. rewrite andb_true_iff, Ascii.eqb_eq, IH. split.
      * intros [-> [rest ->]]. now exists rest.
      * intros [rest H]. inversion H. split; [reflexivity|now exists rest].
Qed.

Lemma fnmatch_plain (name pat : string) :
  plain pat = true -> Fnmatch.fnmatch name pat = String.eqb name pat.
Proof.
  intros H. unfold Fnmatch.fnmatch, Fnmatch.translate.
  rewrite (translate_plain _ H). apply eq_true_iff_eq.
  rewrite match_literals, String.eqb_eq. split.
  - apply chars_inj.
  - now intros ->.
Qed.

Lemma plain_before_dot (s : string) :
  plain s = true -> plain (Text.before_dot s) = true.
Proof.
  unfold plain, Text.chars. induction s as [|c s IH]; [reflexivity|].
  cbn [list_ascii_of_string forallb Text.before_dot].
  rewrite andb_true_iff. intros [Hc Hs].
  destruct (Ascii.eqb c "."%char); [reflexivity|].
  cbn [list_ascii_of_string forallb]. now rewrite Hc, IH.
Qed.

Lemma append_longer (a b : string) : (a ++ b)%string = a -> b = EmptyString.
Proof.
  induction a as [|c a IH]; simpl; [auto|]. intros H. inversion H. auto.
Qed.

Lemma one_pattern (rule : string) :
  Text.startswith "!" rule = false ->
  stream_includes [parse_select_pattern rule] = [Text.before_dot rule]
  /\ property_includes [parse_select_pattern rule] = [rule]
  /\ property_excludes [parse_select_pattern rule] = [].
Proof.
  intros H. unfold stream_includes, property_includes, property_excludes.
  unfold parse_select_pattern. rewrite H. repeat split.
Qed.

(** X3.  A rule without glob characters that is not negated selects by
    name: the stream whose name is the rule's text before its first dot
    and no other, and the property whose dotted breadcrumb is the whole
    text of the rule and no other.  So a rule that is the name of a stream
    selects that stream and none of its properties. *)
Theorem plain_rule_selects_by_name (rule : string) :
  plain rule = true ->
  Text.startswith "!" rule = false ->
  (forall name,
      SelectExecutor.stream_match_patterns [parse_select_pattern rule] (VStr name)
      = Done (String.eqb name (Text.before_dot rule)))
  /\ (forall prop,
        SelectExecutor.property_match_patterns [parse_select_pattern rule] (VStr prop)
        = Done (String.eqb prop rule))
  /\ (forall name,
        SelectExecutor.property_match_patterns [parse_select_pattern rule]
          (VStr (rule ++ "." ++ name))
        = Done false).
Proof.
  intros Hplain Hbang.
  destruct (one_pattern rule Hbang) as (Es & Ei & Ee).
  assert (Hprop : forall prop,
             SelectExecutor.property_match_patterns [parse_select_pattern rule]
               (VStr prop)
             = Done (String.eqb prop rule)).
  { intros prop. unfold SelectExecutor.property_match_patterns.
    rewrite match_patterns_text.
    fold (property_includes [parse_select_pattern rule]).
    fold (property_excludes [parse_select_pattern rule]).
    rewrite Ei, Ee. cbn [existsb]. rewrite (fnmatch_plain _ _ Hplain).
    now rewrite orb_false_r, andb_true_r. }
  split; [|split].
  - intros name. rewrite stream_match_patterns_text. unfold stream_selected.
    rewrite Es. cbn [existsb].
    rewrite (fnmatch_plain _ _ (plain_before_dot _ Hplain)).
    now rewrite orb_false_r.
  - exact Hprop.
  - intros name. rewrite Hprop. f_equal. apply String.eqb_neq.
    intros H. apply append_longer in H. discriminate.
Qed.

Lemma plain_rule_selects_by_name_witness :
  SelectExecutor.stream_match_patterns [parse_select_pattern "users"] (VStr "users")
  = Done (String.eqb "users" (Text.before_dot "users"))
  /\ SelectExecutor.property_match_patterns [parse_select_pattern "users"]
       (VStr ("users" ++ "." ++ "id"))
     = Done false.
Proof.
  split.
  - apply (proj1 (plain_rule_selects_by_name "users" eq_refl eq_refl)).
  - apply (proj2 (proj2 (plain_rule_selects_by_name "users" eq_refl eq_refl))).
Defined.

Lemma before_dot_app (s rest : string) :
  has_dot s = false -> Text.before_dot (s ++ "." ++ rest) = s.
Proof.
  unfold has_dot, Text.chars. induction s as [|c s IH]; [reflexivity|].
  cbn [list_ascii_of_string existsb]. rewrite orb_false_iff. intros [Hc Hs].
  cbn [append Text.before_dot]. rewrite (Ascii.eqb_sym c "."%char), Hc.
  f_equal. now apply IH.
Qed.

Lemma startswith_bang_app (s rest : string) :
  Text.startswith "!" s = false ->
  Text.startswith "!" (s ++ "." ++ rest) = false.
Proof.
  destruct s as [|c s]; [reflexivity|].
  cbn [append]. now rewrite !startswith_bang.
Qed.

Lemma plain_app (a b : string) :
  plain (a ++ b) = plain a && plain b.
Proof. unfold plain. now rewrite chars_app, forallb_app. Qed.

(** X4.  For a stream name [s] without dots and glob characters, the rule
    [s.*] selects the stream called [s] and no other, and it selects a
    property exactly when its dotted breadcrumb starts with [s.], however
    deep the property is nested. *)
Theorem star_rule_selects_all_properties (s : string) :
  plain s = true ->
  has_dot s = false ->
  Text.startswith "!" s = false ->
  (forall name,
      SelectExecutor.stream_match_patterns
        [parse_select_pattern (s ++ ".*")] (VStr name)
      = Done (String.eqb name s))
  /\ (forall prop, exists b,
        SelectExecutor.property_match_patterns
          [parse_select_pattern (s ++ ".*")] (VStr prop) = Done b
        /\ (b = true <-> exists rest, prop = (s ++ "." ++ rest)%string)).
Proof.
  intros Hplain Hdot Hbang.
  change (s ++ ".*")%string with (s ++ "." ++ "*")%string.
  destruct (one_pattern (s ++ "." ++ "*") (startswith_bang_app s "*" Hbang))
    as (Es & Ei & Ee).
  split.
  - intros name. rewrite stream_match_patterns_text. unfold stream_selected.
    rewrite Es. cbn [existsb]. rewrite (before_dot_app s "*" Hdot).
    rewrite (fnmatch_plain _ _ Hplain). now rewrite orb_false_r.
  - intros prop. eexists. split.
    + unfold SelectExecutor.property_match_patterns.
      rewrite match_patterns_text.
      fold (property_includes [parse_select_pattern (s ++ "." ++ "*")]).
      fold (property_excludes [parse_select_pattern (s ++ "." ++ "*")]).
      rewrite Ei, Ee. cbn [existsb]. rewrite orb_false_r, andb_true_r.
      reflexivity.
    + unfold Fnmatch.fnmatch, Fnmatch.translate.
      rewrite !chars_app.
      change (Text.chars "*") with ["*"%char].
      rewrite app_assoc, translate_plain_star.
      2:{ rewrite forallb_app. fold (plain s). now rewrite Hplain. }
      rewrite match_literals_star. split.
      * intros [rest H]. exists (Text.text rest). apply chars_inj.
        now rewrite !chars_app, chars_text, app_assoc.
      * intros [rest ->]. exists (Text.chars rest).
        now rewrite !chars_app, app_assoc.
Qed.

Lemma star_rule_selects_all_properties_witness :
  (forall name,
      SelectExecutor.stream_match_patterns
        [parse_select_pattern ("users" ++ ".*")] (VStr name)
      = Done (String.eqb name "users"))
  /\ (forall prop, exists b,
        SelectExecutor.property_match_patterns
          [parse_select_pattern ("users" ++ ".*")] (VStr prop) = Done b
        /\ (b = true <-> exists rest, prop = ("users" ++ "." ++ rest)%string)).
Proof.
  apply (star_rule_selects_all_properties "users"); reflexivity.
Defined.

Lemma existsb_includes (f : SelectPattern -> string) (keep : SelectPattern -> bool)
  (name : string) (patterns : list SelectPattern) :
  existsb (Fnmatch.fnmatch name) (map f (filter keep patterns))
  = existsb (fun p => keep p && Fnmatch.fnmatch name (f p)) patterns.
Proof.
  induction patterns as [|p rest IH]; [reflexivity|].
  cbn [filter existsb]. destruct (keep p); cbn [map existsb andb]; now rewrite IH.
Qed.

Lemma existsb_permutation {A : Type} (f : A -> bool) (xs ys : list A) :
  Permutation xs ys -> existsb f xs = existsb f ys.
Proof.
  induction 1; cbn [existsb]; try congruence.
  now rewrite !orb_assoc, (orb_comm (f y)).
Qed.

(** X5.  The order of the rules does not matter: two rule lists that are
    rearrangements of each other give the same decision on every stream
    name and on every property path. *)
Theorem rule_order_is_irrelevant (rules rules' : list string) (name : string) :
  Permutation rules rules' ->
  SelectExecutor.stream_match_patterns (map parse_select_pattern rules) (VStr name)
  = SelectExecutor.stream_match_patterns (map parse_select_pattern rules') (VStr name)
  /\ SelectExecutor.property_match_patterns (map parse_select_pattern rules)
       (VStr name)
     = SelectExecutor.property_match_patterns (map parse_select_pattern rules')
         (VStr name).
Proof.
  intros H. apply (Permutation_map parse_select_pattern) in H.
  unfold SelectExecutor.stream_match_patterns,
    SelectExecutor.property_match_patterns.
  rewrite !match_patterns_text, !existsb_includes.
  split; now rewrite !(existsb_permutation _ _ _ H).
Qed.

Lemma rule_order_is_irrelevant_witness :
  SelectExecutor.property_match_patterns
    (map parse_select_pattern ["users.*"; "!users.secret"]) (VStr "users.secret")
  = SelectExecutor.property_match_patterns
      (map parse_select_pattern ["!users.secret"; "users.*"]) (VStr "users.secret").
Proof.
  apply (proj2 (rule_order_is_irrelevant ["users.*"; "!users.secret"]
                  ["!users.secret"; "users.*"] "users.secret"
                  (perm_swap "!users.secret" "users.*" []))).
Defined.

Lemma negated_rules_include_nothing (rules : list string) :
  Forall (fun rule => Text.startswith "!" rule = true) rules ->
  filter (fun p => negb (negated p)) (map parse_select_pattern rules) = [].
Proof.
  induction 1 as [|rule rest Hr _ IH]; [reflexivity|].
  cbn [map filter]. unfold parse_select_pattern at 1. cbn [negated].
  rewrite Hr. exact IH.
Qed.

(** X6.  Rules that are all negated select nothing: with such a rule list
    the decision is [False] on every stream, whatever its name is, and on
    every property path. *)
Theorem negated_rules_select_nothing (rules : list string) :
  Forall (fun rule => Text.startswith "!" rule = true) rules ->
  (forall stream : value,
      SelectExecutor.stream_match_patterns (map parse_select_pattern rules) stream
      = Done false)
  /\ (forall prop : string,
        SelectExecutor.property_match_patterns (map parse_select_pattern rules)
          (VStr prop)
        = Done false).
Proof.
  intros H. split.
  - intros stream. unfold SelectExecutor.stream_match_patterns.
    rewrite (negated_rules_include_nothing _ H). reflexivity.
  - intros prop. unfold SelectExecutor.property_match_patterns.
    rewrite match_patterns_text, (negated_rules_include_nothing _ H). reflexivity.
Qed.

Lemma negated_rules_select_nothing_witness :
  SelectExecutor.stream_match_patterns
    (map parse_select_pattern ["!users"; "!orders.id"]) (VInt 7) = Done false
  /\ SelectExecutor.property_match_patterns
       (map parse_select_pattern ["!users"; "!orders.id"]) (VStr "orders.total")
     = Done false.
Proof.
  assert (H : Forall (fun rule => Text.startswith "!" rule = true)
                ["!users"; "!orders.id"])
    by (repeat constructor).
  split.
  - apply (proj1 (negated_rules_select_nothing _ H)).
  - apply (proj2 (negated_rules_select_nothing _ H)).
Defined.

(** ** The breadcrumb of a property node *)

Lemma findall_from_skip (a b : list ascii) :
  Text.findall_from (List.length a) (a ++ b) = Text.findall_from 0 b.
Proof.
  induction a as [|c a IH]; [reflexivity|]. exact IH.
Qed.

Lemma findall_from_no_p (q rest : list ascii) :
  existsb (Ascii.eqb "p"%char) q = false ->
  Text.findall_from 0 (q ++ rest) = Text.findall_from 0 rest.
Proof.
  induction q as [|c q IH]; [reflexivity|].
  cbn [existsb]. rewrite orb_false_iff. intros [Hc Hq].
  cbn [app Text.findall_from].
  change (Text.chars "properties.") with ("p"%char :: Text.chars "roperties.").
  cbn [Text.strip_prefix]. rewrite Hc. now apply IH.
Qed.

Lemma take_while_app (f : ascii -> bool) (w rest : list ascii) :
  forallb f w = true ->
  Text.take_while f (w ++ rest) = w ++ Text.take_while f rest.
Proof.
  induction w as [|c w IH]; [reflexivity|].
  cbn [forallb app Text.take_while]. rewrite andb_true_iff. intros [-> Hw].
  now rewrite IH.
Qed.

Lemma take_drop_while (f : ascii -> bool) (s : list ascii) :
  s = Text.take_while f s ++ Text.drop_while f s
  /\ forallb f (Text.take_while f s) = true
  /\ Text.take_while f (Text.drop_while f s) = [].
Proof.
  induction s as [|c s (IH1 & IH2 & IH3)]; [repeat split|].
  cbn [Text.take_while Text.drop_while]. destruct (f c) eqn:E.
  - cbn [app forallb]. rewrite E, IH2. repeat split; [now f_equal|exact IH3].
  - cbn [app forallb Text.take_while]. rewrite E. repeat split.
Qed.

Lemma findall_from_match (w rest : list ascii) :
  w <> [] ->
  forallb Text.is_word w = true ->
  Text.take_while Text.is_word rest = [] ->
  Text.findall_from 0 (Text.chars "properties." ++ w ++ rest)
  = Text.text w :: Text.findall_from 0 rest.
Proof.
  intros Hne Hw Hrest.
  assert (E : forall s,
             Text.findall_from 0 ("p"%char :: s)
             = match Text.strip_prefix (Text.chars "properties.") ("p"%char :: s) with
               | Some rest =>
                   match Text.take_while Text.is_word rest with
                   | [] => Text.findall_from 0 s
                   | w => Text.text w :: Text.findall_from (10 + List.length w) s
                   end
               | None => Text.findall_from 0 s
               end) by reflexivity.
  change (Text.chars "properties." ++ w ++ rest)
    with ("p"%char :: Text.chars "roperties." ++ w ++ rest).
  rewrite E.
  change ("p"%char :: Text.chars "roperties." ++ w ++ rest)
    with (Text.chars "properties." ++ w ++ rest).
  rewrite strip_prefix_app, (take_while_app _ _ _ Hw), Hrest, app_nil_r.
  destruct w as [|c w]; [contradiction|]. cbv zeta. f_equal.
  replace (10 + List.length (c :: w))
    with (List.length (Text.chars "roperties." ++ c :: w))
    by (rewrite length_app; reflexivity).
  rewrite app_assoc. apply findall_from_skip.
Qed.

Lemma word_chars (name : string) :
  word name = true ->
  Text.chars name <> [] /\ forallb Text.is_word (Text.chars name) = true.
Proof.
  unfold word. rewrite andb_true_iff, negb_true_iff, String.eqb_neq.
  intros [Hne Hw]. split; [|exact Hw].
  intros E. apply Hne. apply chars_inj. now rewrite E.
Qed.

Lemma nested_starts_with_dot (names : list string) :
  Text.take_while Text.is_word (Text.chars (nested names)) = [].
Proof. destruct names; reflexivity. Qed.

Lemma chars_nested (name : string) (rest : list string) :
  Text.chars (nested (name :: rest))
  = "."%char :: Text.chars "properties." ++ Text.chars name ++ Text.chars (nested rest).
Proof.
  cbn [nested].
  change (".properties." ++ name ++ nested rest)%string
    with ("." ++ "properties." ++ name ++ nested rest)%string.
  now rewrite !chars_app.
Qed.

Lemma findall_from_dot (s : list ascii) :
  Text.findall_from 0 ("."%char :: s) = Text.findall_from 0 s.
Proof. reflexivity. Qed.

Lemma findall_nested (names : list string) :
  Forall (fun name => word name = true) names ->
  Text.findall_from 0 (Text.chars (nested names)) = names.
Proof.
  induction 1 as [|name rest Hname _ IH]; [reflexivity|].
  destruct (word_chars _ Hname) as [Hne Hw].
  rewrite chars_nested.
  rewrite findall_from_dot.
  rewrite (findall_from_match _ _ Hne Hw (nested_starts_with_dot rest)).
  now rewrite text_chars, IH.
Qed.

Lemma no_p_chars (s : string) :
  no_p s = true -> existsb (Ascii.eqb "p"%char) (Text.chars s) = false.
Proof. unfold no_p. now rewrite negb_true_iff. Qed.

(** X7.  The components [property_node] reads off the path of a property
    are the names on the way to it: for a path that goes from a schema
    through the properties [names], each a word, and has no [p] before
    that, [findall] gives exactly [names], in order. *)
Theorem nested_property_components (prefix : string) (names : list string) :
  no_p prefix = true ->
  Forall (fun name => word name = true) names ->
  Text.findall_properties (prefix ++ nested names) = names.
Proof.
  intros Hp Hnames. unfold Text.findall_properties.
  rewrite chars_app, (findall_from_no_p _ _ (no_p_chars _ Hp)).
  now apply findall_nested.
Qed.

Lemma nested_property_components_witness :
  Text.findall_properties (".streams[0].schema" ++ nested ["address"; "city"])
  = ["address"; "city"].
Proof.
  apply (nested_property_components ".streams[0].schema" ["address"; "city"]).
  - reflexivity.
  - repeat constructor.
Defined.

Lemma findall_from_no_match (rest : list ascii) :
  Text.take_while Text.is_word rest = [] ->
  Text.findall_from 0 (Text.chars "properties." ++ rest) = Text.findall_from 0 rest.
Proof.
  intros Hrest.
  assert (E : forall s,
             Text.findall_from 0 ("p"%char :: s)
             = match Text.strip_prefix (Text.chars "properties.") ("p"%char :: s) with
               | Some rest =>
                   match Text.take_while Text.is_word rest with
                   | [] => Text.findall_from 0 s
                   | w => Text.text w :: Text.findall_from (10 + List.length w) s
                   end
               | None => Text.findall_from 0 s
               end) by reflexivity.
  change (Text.chars "properties." ++ rest)
    with ("p"%char :: Text.chars "roperties." ++ rest).
  rewrite E.
  change ("p"%char :: Text.chars "roperties." ++ rest)
    with (Text.chars "properties." ++ rest).
  rewrite strip_prefix_app, Hrest. reflexivity.
Qed.

(** X8.  The component read off a property name stops at the first
    character that is no word character: for a path that ends in
    [.properties.<name>], with no [p] before that and none in the name
    after its leading word characters, [findall] gives those leading word
    characters as the one component, and no component at all when the name
    starts with another character.  So [first-name] and [first-born] both
    give [first]. *)
Theorem property_component_stops_at_non_word (prefix name : string) :
  no_p prefix = true ->
  no_p (after_word_prefix name) = true ->
  Text.findall_properties (prefix ++ ".properties." ++ name)
  = if String.eqb (word_prefix name) EmptyString then [] else [word_prefix name].
Proof.
  intros Hp Hrest. unfold Text.findall_properties.
  change (prefix ++ ".properties." ++ name)%string
    with (prefix ++ "." ++ "properties." ++ name)%string.
  rewrite !chars_app, (findall_from_no_p _ _ (no_p_chars _ Hp)).
  change (Text.chars "." ++ Text.chars "properties." ++ Text.chars name)
    with ("."%char :: Text.chars "properties." ++ Text.chars name).
  rewrite findall_from_dot.
  destruct (take_drop_while Text.is_word (Text.chars name)) as (Hsplit & Hw & Hstop).
  apply no_p_chars in Hrest. unfold after_word_prefix in Hrest.
  rewrite chars_text in Hrest.
  assert (Hend : Text.findall_from 0
                   (Text.drop_while Text.is_word (Text.chars name)) = []).
  { rewrite <- (app_nil_r (Text.drop_while _ _)).
    now rewrite (findall_from_no_p _ [] Hrest). }
  unfold word_prefix. rewrite Hsplit at 1.
  destruct (Text.take_while Text.is_word (Text.chars name)) as [|c w] eqn:Et.
  - cbn [app]. rewrite (findall_from_no_match _ Hstop). exact Hend.
  - rewrite (findall_from_match (c :: w) _ ltac:(discriminate) Hw Hstop), Hend.
    reflexivity.
Qed.

Lemma property_component_stops_at_non_word_witness :
  Text.findall_properties (".streams[0].schema" ++ ".properties." ++ "first-name")
  = ["first"]
  /\ Text.findall_properties (".streams[0].schema" ++ ".properties." ++ "first-born")
     = ["first"]
  /\ Text.findall_properties (".streams[0].schema" ++ ".properties." ++ "$id")
     = [].
Proof.
  split; [|split].
  - apply (property_component_stops_at_non_word ".streams[0].schema" "first-name");
      reflexivity.
  - apply (property_component_stops_at_non_word ".streams[0].schema" "first-born");
      reflexivity.
  - apply (property_component_stops_at_non_word ".streams[0].schema" "$id");
      reflexivity.
Defined.

(** ** [SelectExecutor.property_node] *)

Lemma run_the_stream (w : world (option loc)) s :
  self w = Some s -> SelectExecutor.the_stream w = (w, Done s).
Proof.
  intros H. unfold SelectExecutor.the_stream, bind, get_self. now rewrite H.
Qed.

Lemma run_current_stream (w : world (option loc)) s v :
  self w = Some s -> get_at s (doc w) = Some v ->
  SelectExecutor.current_stream w = (w, py_getitem v "stream").
Proof.
  intros Hs Hn. unfold SelectExecutor.current_stream, bind.
  rewrite (run_the_stream _ _ Hs). now apply run_getitem.
Qed.

Lemma run_list_append {T : Type} l x (w : world T) xs :
  get_at l (doc w) = Some (VList xs) ->
  list_append l x w = (World (set_at l (VList (xs ++ [x])) (doc w)) (self w), Done tt).
Proof. unfold list_append, bind. intros H. now rewrite (run_read _ _ _ H). Qed.

Lemma property_node_run (patterns : list SelectPattern) (node : loc) (path : string)
  (w : world (option loc)) s kvs name entries :
  self w = Some s ->
  get_at s (doc w) = Some (VDict kvs) ->
  lookup "stream" kvs = Some name ->
  lookup "metadata" kvs = Some (VList entries) ->
  SelectExecutor.property_node patterns node path w
  = match next_index
            (SelectExecutor.has_breadcrumb
               (VList (name :: map VStr (Text.findall_properties path))))
            (VList entries) with
    | Done _ => (w, Done tt)
    | Stop (Exn StopIteration) =>
        (World (set_at (s ++ [Key "metadata"])
                  (VList (entries
                          ++ [synthetic
                                (VList (name :: map VStr (Text.findall_properties path)))]))
                  (doc w)) (self w),
         Done tt)
    | Stop why => (w, Stop why)
    end.
Proof.
  intros Hs Hn Hname Hm.
  unfold SelectExecutor.property_node. unfold bind at 1.
  rewrite (run_current_stream _ _ _ Hs Hn). cbn [py_getitem]. rewrite Hname.
  unfold bind at 1. rewrite (run_the_stream _ _ Hs).
  unfold catch. unfold bind at 1. rewrite (run_getitem _ _ _ _ Hn).
  cbn [py_getitem]. rewrite Hm. unfold bind at 1, lift at 1.
  destruct (next_index _ (VList entries)) as [i|[[]| |]]; try reflexivity.
  unfold bind at 1. rewrite (run_ref_item _ _ _ _ _ Hn Hm).
  apply run_list_append. apply (get_at_key _ _ _ _ _ Hn Hm).
Qed.

Lemma py_eqb_texts (parts : list string) :
  py_eqb (VList (map VStr parts)) (VList (map VStr parts)) = true.
Proof.
  cbn [py_eqb]. induction parts as [|p rest IH]; [reflexivity|].
  cbn [map py_eqb]. now rewrite String.eqb_refl, IH.
Qed.

Lemma next_from_at_end cond i xs x :
  Forall (fun y => cond y = Done false) xs ->
  cond x = Done true ->
  next_from cond i (xs ++ [x]) = Done (i + List.length xs).
Proof.
  intros Hall Hx. revert i.
  induction Hall as [|y rest Hy _ IH]; intros i; cbn [app next_from List.length].
  - rewrite Hx. cbn [res_bind]. f_equal. lia.
  - rewrite Hy. cbn [res_bind]. rewrite IH. f_equal. lia.
Qed.

(** X9.  For a current stream with a textual name and a metadata
    sequence, [property_node] leaves the document as it is when the
    sequence holds an entry whose breadcrumb is the stream name followed by
    the components of the path; when the search goes through the sequence
    without finding one, it puts the synthetic entry of that breadcrumb
    after the entries there and touches nothing else, and a second call on
    the same path then changes nothing: a breadcrumb gets one entry at
    most. *)
Theorem property_node_backfill
  (patterns : list SelectPattern) (node : loc) (path : string)
  (w : world SelectExecutor.state) s kvs name entries :
  self w = Some s ->
  get_at s (doc w) = Some (VDict kvs) ->
  lookup "stream" kvs = Some (VStr name) ->
  lookup "metadata" kvs = Some (VList entries) ->
  let breadcrumb := VList (map VStr (name :: Text.findall_properties path)) in
  (forall i,
      next_index (SelectExecutor.has_breadcrumb breadcrumb) (VList entries) = Done i ->
      SelectExecutor.property_node patterns node path w = (w, Done tt))
  /\ (next_index (SelectExecutor.has_breadcrumb breadcrumb) (VList entries)
      = raise StopIteration ->
      exists w',
        SelectExecutor.property_node patterns node path w = (w', Done tt)
        /\ doc w' = set_at s
                      (VDict (assign "metadata"
                                (VList (entries ++ [synthetic breadcrumb])) kvs))
                      (doc w)
        /\ self w' = self w
        /\ SelectExecutor.property_node patterns node path w' = (w', Done tt)).
Proof.
  intros Hs Hn Hname Hm breadcrumb.
  pose proof (property_node_run patterns node path w s kvs (VStr name) entries
                Hs Hn Hname Hm) as Hrun.
  cbn [map] in breadcrumb. fold breadcrumb in Hrun.
  split.
  - intros i Hi. now rewrite Hrun, Hi.
  - intros Hstop. rewrite Hstop in Hrun. unfold raise in Hrun.
    eexists. split; [exact Hrun|]. cbn [doc self].
    split; [apply (set_at_field _ _ _ _ _ _ Hn Hm)|]. split; [reflexivity|].
    rewrite (set_at_field _ _ _ _ _ _ Hn Hm).
    erewrite property_node_run.
    2:{ cbn [self]. exact Hs. }
    2:{ cbn [doc]. apply (get_at_set_at _ _ _ _ Hn). }
    2:{ rewrite lookup_assign_other by discriminate. exact Hname. }
    2:{ apply lookup_assign_same. }
    fold breadcrumb.
    assert (Hfound : next_index (SelectExecutor.has_breadcrumb breadcrumb)
                       (VList (entries ++ [synthetic breadcrumb]))
                     = Done (0 + List.length entries)).
    { cbn [next_index py_iter res_bind]. apply next_from_at_end.
      - apply (next_from_stop_iteration _ 0).
        + apply has_breadcrumb_never_stops.
        + exact Hstop.
      - unfold SelectExecutor.has_breadcrumb, synthetic. cbn [py_getitem lookup].
        rewrite String.eqb_refl. cbn [res_bind]. f_equal.
        apply (py_eqb_texts (name :: Text.findall_properties path)). }
    rewrite Hfound. reflexivity.
Qed.

Lemma property_node_backfill_witness :
  exists w',
    SelectExecutor.property_node [] [Key "schema"; Key "properties"; Key "id"]
      ".schema.properties.id"
      (World (VDict [("stream", VStr "users"); ("metadata", VList [])]) (Some []))
    = (w', Done tt)
    /\ doc w' = set_at []
                  (VDict (assign "metadata"
                            (VList ([] ++ [synthetic
                                             (VList (map VStr
                                                ("users" :: Text.findall_properties
                                                              ".schema.properties.id")))]))
                            [("stream", VStr "users"); ("metadata", VList [])]))
                  (VDict [("stream", VStr "users"); ("metadata", VList [])])
    /\ self w' = Some []
    /\ SelectExecutor.property_node [] [Key "schema"; Key "properties"; Key "id"]
         ".schema.properties.id" w'
       = (w', Done tt).
Proof.
  apply (proj2 (property_node_backfill [] [Key "schema"; Key "properties"; Key "id"]
                  ".schema.properties.id"
                  (World (VDict [("stream", VStr "users"); ("metadata", VList [])])
                     (Some []))
                  [] [("stream", VStr "users"); ("metadata", VList [])] "users" []
                  eq_refl eq_refl eq_refl eq_refl)).
  reflexivity.
Defined.

(** X10.  A property node met before any stream node stops the whole
    selection pass: [property_node] subscripts [self._stream], which is
    still [None], the [TypeError] is none of the exceptions [execute]
    takes, and [visit] ends with it, the document untouched. *)
Theorem property_before_stream_raises_type_error
  (rules : list string) (fuel : nat) (node : loc) (path : string)
  (w : world SelectExecutor.state) kvs :
  get_at node (doc w) = Some (VDict kvs) ->
  self w = None ->
  Text.search_indexed "streams" path = false ->
  Text.search_schema_properties path = true ->
  CatalogExecutor.execute (SelectExecutor.make rules) (Some STREAM_PROPERTY)
    node path w
  = (w, Stop (Exn TypeError))
  /\ visit (S fuel) (SelectExecutor.make rules) node path w
     = (w, Stop (Exn TypeError)).
Proof.
  intros Hn Hs Hstream Hprop.
  assert (E : CatalogExecutor.execute (SelectExecutor.make rules)
                (Some STREAM_PROPERTY) node path w
              = (w, Stop (Exn TypeError))).
  { unfold CatalogExecutor.execute, catch.
    cbn [CatalogExecutor.dispatch SelectExecutor.make CatalogExecutor.property_node].
    unfold SelectExecutor.property_node, bind at 1.
    unfold SelectExecutor.current_stream, bind at 1.
    unfold SelectExecutor.the_stream, bind at 1, get_self.
    rewrite Hs. reflexivity. }
  split; [exact E|].
  cbn [visit]. unfold bind at 1. rewrite (run_read _ _ _ Hn).
  rewrite Hstream, Hprop. unfold when. unfold bind at 1. cbn [ret].
  unfold bind at 1. now rewrite E.
Qed.

Lemma property_before_stream_raises_type_error_witness :
  visit 1 (SelectExecutor.make ["users.*"]) [Key "schema"; Key "properties"; Key "id"]
    ".schema.properties.id"
    (World (VDict [("schema",
                    VDict [("properties",
                            VDict [("id", VDict [("type", VStr "integer")])])])])
       None)
  = (World (VDict [("schema",
                    VDict [("properties",
                            VDict [("id", VDict [("type", VStr "integer")])])])])
       None,
     Stop (Exn TypeError)).
Proof.
  apply (proj2 (property_before_stream_raises_type_error ["users.*"] 0
                  [Key "schema"; Key "properties"; Key "id"] ".schema.properties.id"
                  (World (VDict [("schema",
                                  VDict [("properties",
                                          VDict [("id",
                                                  VDict [("type", VStr "integer")])])])])
                     None)
                  [("type", VStr "integer")] eq_refl eq_refl eq_refl eq_refl)).
Defined.

(** The same on a whole document: a schema that is not under a stream. *)
Example select_schema_outside_streams :
  select 8 ["users.*"]
    (VDict [("schema",
             VDict [("properties",
                     VDict [("id", VDict [("type", VStr "integer")])])])])
  = (VDict [("schema",
             VDict [("properties",
                     VDict [("id", VDict [("type", VStr "integer")])])])],
     Stop (Exn TypeError)).
Proof. vm_compute. reflexivity. Qed.

(** ** The traversal with handlers that leave the document alone *)

Lemma unique_keys_lookup kvs k x :
  unique_keys (VDict kvs) = true -> In (k, x) kvs -> lookup k kvs = Some x.
Proof.
  cbn [unique_keys]. induction kvs as [|[k0 x0] rest IH]; [intros _ []|].
  rewrite !andb_true_iff, negb_true_iff. intros [[Hk _] Hrest] [Heq|Hin].
  - inversion Heq; subst. cbn [lookup]. now rewrite String.eqb_refl.
  - cbn [lookup]. destruct (String.eqb k0 k) eqn:E; [|now apply IH].
    apply String.eqb_eq in E. subst k0. unfold has_key in Hk.
    now rewrite (IH Hrest Hin) in Hk.
Qed.

Lemma unique_keys_field kvs k x :
  unique_keys (VDict kvs) = true -> In (k, x) kvs -> unique_keys x = true.
Proof.
  cbn [unique_keys]. induction kvs as [|[k0 x0] rest IH]; [intros _ []|].
  rewrite !andb_true_iff. intros [[_ Hx] Hrest] [Heq|Hin].
  - now inversion Heq; subst.
  - now apply IH.
Qed.

Lemma unique_keys_element xs x :
  unique_keys (VList xs) = true -> In x xs -> unique_keys x = true.
Proof.
  cbn [unique_keys]. induction xs as [|x0 rest IH]; [intros _ []|].
  rewrite andb_true_iff. intros [Hx Hrest] [->|Hin]; [exact Hx|now apply IH].
Qed.

Lemma depth_field kvs k x :
  In (k, x) kvs -> S (depth x) <= depth (VDict kvs).
Proof.
  cbn [depth]. induction kvs as [|[k0 x0] rest IH]; [intros []|].
  intros [Heq|Hin].
  - inversion Heq; subst. lia.
  - specialize (IH Hin). lia.
Qed.

Section VisitWalk.

Context {T : Type}.
Variable ex : CatalogExecutor.t T.
Variable f : CatalogNode -> loc -> string -> T -> T.

Hypothesis quiet :
  forall kind node path w,
    CatalogExecutor.execute ex (Some kind) node path w
    = (World (doc w) (f kind node path (self w)), Done tt).

Variable d : value.

Lemma for_each_fields (fuel : nat) (node : loc) (path : string)
  (kvs : list (string * value)) :
  Forall (fun kv =>
            forall s,
              visit fuel ex (node ++ [Key (fst kv)]) (path ++ "." ++ fst kv)%string
                (World d s)
              = (World d (fst (walk f (snd kv) (node ++ [Key (fst kv)])
                                 (path ++ "." ++ fst kv)%string s)),
                 snd (walk f (snd kv) (node ++ [Key (fst kv)])
                        (path ++ "." ++ fst kv)%string s))) kvs ->
  forall s,
    for_each (keys kvs)
      (fun child_path =>
         visit fuel ex (node ++ [Key child_path]) (path ++ "." ++ child_path)%string)
      (World d s)
    = (World d (fst (walk_fields (walk f) node path kvs s)),
       snd (walk_fields (walk f) node path kvs s)).
Proof.
  induction 1 as [|[k x] rest Hx _ IH]; intros s; [reflexivity|].
  cbn [keys map fst for_each walk_fields]. unfold bind at 1, and_then.
  cbn [fst snd] in Hx. rewrite Hx.
  destruct (walk f x (node ++ [Key k]) (path ++ "." ++ k)%string s) as [s1 [[]|why]];
    cbn [fst snd]; [|reflexivity].
  apply IH.
Qed.

Lemma visit_list_elements (node : loc) (path : string) (xs : list value) :
  get_at node d = Some (VList xs) ->
  forall suf pre,
    xs = pre ++ suf ->
    Forall (fun x =>
              forall fuel node path s,
                get_at node d = Some x -> depth x <= fuel ->
                visit fuel ex node path (World d s)
                = (World d (fst (walk f x node path s)),
                   snd (walk f x node path s))) suf ->
    forall fuel s,
      depth (VList suf) <= S fuel ->
      visit_list fuel ex node path (List.length pre) (World d s)
      = (World d (fst (walk_elements (walk f) node path suf (List.length pre) s)),
         snd (walk_elements (walk f) node path suf (List.length pre) s)).
Proof.
  intros Hn suf. induction suf as [|x rest IH]; intros pre Hxs Hall fuel s Hf.
  - destruct fuel as [|fuel]; [cbn [depth] in Hf; lia|].
    cbn [visit_list]. unfold bind. rewrite (run_read node (World d s) _ Hn).
    rewrite Hxs, app_nil_r, Nat.ltb_irrefl. reflexivity.
  - destruct fuel as [|fuel]; [cbn [depth] in Hf; lia|].
    cbn [visit_list]. unfold bind at 1. rewrite (run_read node (World d s) _ Hn).
    assert (Hlt : (List.length pre <? List.length xs) = true).
    { apply Nat.ltb_lt. rewrite Hxs, length_app. cbn [List.length]. lia. }
    rewrite Hlt. unfold bind at 1. cbn [walk_elements]. unfold and_then.
    inversion Hall as [|x' rest' Hx Hrest]; subst x' rest'.
    rewrite Hx.
    2:{ rewrite get_at_app, Hn. cbn [get_at child].
        rewrite Hxs, nth_error_app2, Nat.sub_diag by lia. reflexivity. }
    2:{ cbn [depth] in Hf. lia. }
    destruct (walk f x (node ++ [Idx (List.length pre)])
                (path ++ "[" ++ Text.decimal (List.length pre) ++ "]")%string s)
      as [s1 [[]|why]]; cbn [fst snd]; [|reflexivity].
    specialize (IH (pre ++ [x])). rewrite length_app in IH.
    cbn [List.length] in IH. rewrite Nat.add_1_r in IH.
    apply IH; [now rewrite <- app_assoc|exact Hrest|].
    cbn [depth] in *. lia.
Qed.

Lemma visit_is_walk (v : value) :
  unique_keys v = true ->
  forall fuel node path s,
    get_at node d = Some v -> depth v <= fuel ->
    visit fuel ex node path (World d s)
    = (World d (fst (walk f v node path s)), snd (walk f v node path s)).
Proof.
  induction v as [|b|z|t|xs IH|kvs IH] using value_ind;
    intros Hu fuel node path s Hn Hf;
    (destruct fuel as [|fuel]; [cbn [depth] in Hf; lia|]).
  1-4: cbn [visit]; unfold bind; rewrite (run_read node (World d s) _ Hn);
    reflexivity.
  - cbn [visit]. unfold bind at 1. rewrite (run_read node (World d s) _ Hn).
    apply (visit_list_elements node path xs Hn xs [] eq_refl); [|exact Hf].
    rewrite Forall_forall in *. intros x Hx. apply IH; [exact Hx|].
    apply (unique_keys_element _ _ Hu Hx).
  - assert (Hall :
      Forall (fun kv =>
                forall s,
                  visit fuel ex (node ++ [Key (fst kv)]) (path ++ "." ++ fst kv)%string
                    (World d s)
                  = (World d (fst (walk f (snd kv) (node ++ [Key (fst kv)])
                                     (path ++ "." ++ fst kv)%string s)),
                     snd (walk f (snd kv) (node ++ [Key (fst kv)])
                            (path ++ "." ++ fst kv)%string s))) kvs).
    { rewrite Forall_forall in *. intros [k x] Hin s'. cbn [fst snd].
      apply (IH (k, x) Hin).
      - apply (unique_keys_field _ _ _ Hu Hin).
      - apply (get_at_key _ _ _ _ _ Hn (unique_keys_lookup _ _ _ Hu Hin)).
      - pose proof (depth_field _ _ _ Hin). cbn [snd]. lia. }
    pose proof (for_each_fields fuel node path kvs Hall) as Hfields.
    cbn [walk]. unfold and_then, walk_node. cbv zeta.
    set (s1 := if Text.search_indexed "streams" path
               then f STREAM node path s else s).
    set (s2 := if Text.search_schema_properties path
               then f STREAM_PROPERTY node path s1 else s1).
    assert (E1 : when (Text.search_indexed "streams" path)
                   (CatalogExecutor.execute ex (Some STREAM) node path) (World d s)
                 = (World d s1, Done tt)).
    { unfold when, s1.
      destruct (Text.search_indexed "streams" path); [now rewrite quiet|reflexivity]. }
    assert (E2 : when (Text.search_schema_properties path)
                   (CatalogExecutor.execute ex (Some STREAM_PROPERTY) node path)
                   (World d s1)
                 = (World d s2, Done tt)).
    { unfold when, s2.
      destruct (Text.search_schema_properties path); [now rewrite quiet|reflexivity]. }
    cbn [visit]. unfold bind at 1. rewrite (run_read node (World d s) _ Hn).
    unfold bind at 1. rewrite E1. unfold bind at 1. rewrite E2.
    unfold bind at 1. rewrite (run_read node (World d s2) _ Hn).
    unfold bind at 1.
    assert (Hrest : forall s3,
               bind (read node)
                 (fun v => match v with
                           | VDict kvs =>
                               for_each (keys kvs)
                                 (fun child_path =>
                                    visit fuel ex (node ++ [Key child_path])
                                      (path ++ "." ++ child_path)%string)
                           | _ => halt Dangling
                           end) (World d s3)
               = for_each (keys kvs)
                   (fun child_path =>
                      visit fuel ex (node ++ [Key child_path])
                        (path ++ "." ++ child_path)%string) (World d s3)).
    { intros s3. unfold bind. now rewrite (run_read node (World d s3) _ Hn). }
    destruct (Text.search_indexed "metadata" path); cbn [andb].
    2:{ unfold when. cbn [ret]. rewrite Hrest. apply Hfields. }
    unfold has_key. destruct (lookup "breadcrumb" kvs) as [b|] eqn:Eb.
    2:{ unfold when. cbn [ret]. rewrite Hrest. apply Hfields. }
    unfold when. unfold bind at 1.
    rewrite (run_getitem node "breadcrumb" (World d s2) _ Hn).
    cbn [py_getitem]. rewrite Eb. unfold bind at 1, lift at 1.
    destruct (py_len b) as [[|n]|why]; cbn [Nat.eqb]; [| |reflexivity].
    + rewrite quiet. cbn [doc self]. rewrite Hrest. apply Hfields.
    + rewrite quiet. cbn [doc self]. rewrite Hrest. apply Hfields.
Qed.

End VisitWalk.

(** X11.  With handlers that return normally and leave the document
    alone, the traversal is a depth-first walk in pre-order: given fuel for
    the depth of the document, [visit] ends as [walk] does, in the state
    [walk] computes, and the document is as it was.  The base class, whose
    handlers do nothing, is such an executor, and so is one that only
    notes its calls. *)
Theorem quiet_traversal_is_walk {T : Type} (ex : CatalogExecutor.t T)
  (f : CatalogNode -> loc -> string -> T -> T)
  (catalog : value) (s : T) (fuel : nat) :
  (forall kind node path w,
      CatalogExecutor.execute ex (Some kind) node path w
      = (World (doc w) (f kind node path (self w)), Done tt)) ->
  unique_keys catalog = true ->
  depth catalog <= fuel ->
  visit fuel ex [] "" (World catalog s)
  = (World catalog (fst (walk f catalog [] "" s)), snd (walk f catalog [] "" s)).
Proof.
  intros Hquiet Hu Hf.
  now apply (visit_is_walk ex f Hquiet catalog catalog Hu fuel [] "" s).
Qed.

Lemma base_is_quiet {T : Type} kind node path (w : world T) :
  CatalogExecutor.execute (CatalogExecutor.base T) (Some kind) node path w
  = (World (doc w) (self w), Done tt).
Proof. destruct kind, w; reflexivity. Qed.

Lemma tracer_is_quiet kind node path (w : world (list (CatalogNode * loc * string))) :
  CatalogExecutor.execute Tracer.make (Some kind) node path w
  = (World (doc w) (Tracer.noted kind node path (self w)), Done tt).
Proof. destruct kind; reflexivity. Qed.

Lemma quiet_traversal_is_walk_witness :
  visit 16 (CatalogExecutor.base unit) [] "" (World c6_catalog tt)
  = (World c6_catalog (fst (walk (fun _ _ _ s => s) c6_catalog [] "" tt)),
     snd (walk (fun _ _ _ s => s) c6_catalog [] "" tt))
  /\ visit 16 Tracer.make [] "" (World c6_catalog [])
     = (World c6_catalog (fst (walk Tracer.noted c6_catalog [] "" [])),
        snd (walk Tracer.noted c6_catalog [] "" [])).
Proof.
  split.
  - apply (quiet_traversal_is_walk (CatalogExecutor.base unit) (fun _ _ _ s => s)
             c6_catalog tt 16).
    + intros kind node path w. destruct kind, w; reflexivity.
    + reflexivity.
    + vm_compute. lia.
  - apply (quiet_traversal_is_walk Tracer.make Tracer.noted c6_catalog [] 16).
    + intros kind node path w. destruct kind; reflexivity.
    + reflexivity.
    + vm_compute. lia.
Defined.

(** The calls of a traversal of the catalog with stream [stream1]: the
    stream first, then its two properties, then its three metadata
    entries. *)
Example calls_in_preorder :
  Tracer.calls 16 c6_catalog
  = [(STREAM, [Key "streams"; Idx 0], ".streams[0]");
     (STREAM_PROPERTY,
      [Key "streams"; Idx 0; Key "schema"; Key "properties"; Key "id"],
      ".streams[0].schema.properties.id");
     (STREAM_PROPERTY,
      [Key "streams"; Idx 0; Key "schema"; Key "properties"; Key "secret"],
      ".streams[0].schema.properties.secret");
     (STREAM_METADATA, [Key "streams"; Idx 0; Key "metadata"; Idx 0],
      ".streams[0].metadata[0]");
     (STREAM_PROPERTY_METADATA, [Key "streams"; Idx 0; Key "metadata"; Idx 1],
      ".streams[0].metadata[1]");
     (STREAM_PROPERTY_METADATA, [Key "streams"; Idx 0; Key "metadata"; Idx 2],
      ".streams[0].metadata[2]")].
Proof. vm_compute. reflexivity. Qed.

(** ** The path is the address of the node *)

Lemma append_assoc (a b c : string) : ((a ++ b) ++ c = a ++ b ++ c)%string.
Proof. induction a as [|x a IH]; simpl; [reflexivity|now rewrite IH]. Qed.

Lemma append_empty (a : string) : (a ++ "")%string = a.
Proof. induction a as [|x a IH]; simpl; [reflexivity|now rewrite IH]. Qed.

Lemma address_app (l : loc) (s : step) :
  address (l ++ [s]) = (address l ++ segment s)%string.
Proof.
  induction l as [|s0 l IH]; cbn [app address].
  - now rewrite append_empty.
  - now rewrite IH, append_assoc.
Qed.

Section Addressed.

Variable catalog : value.

Lemma noted_addressed kind node kvs calls :
  get_at node catalog = Some (VDict kvs) ->
  Forall (fun c => snd c = address (snd (fst c))
                   /\ exists kvs, get_at (snd (fst c)) catalog = Some (VDict kvs))
    calls ->
  Forall (fun c => snd c = address (snd (fst c))
                   /\ exists kvs, get_at (snd (fst c)) catalog = Some (VDict kvs))
    (Tracer.noted kind node (address node) calls).
Proof.
  intros Hn Hc. unfold Tracer.noted. apply Forall_app. split; [exact Hc|].
  constructor; [|constructor]. cbn [fst snd]. split; [reflexivity|now exists kvs].
Qed.

Lemma walk_node_addressed node kvs calls :
  get_at node catalog = Some (VDict kvs) ->
  Forall (fun c => snd c = address (snd (fst c))
                   /\ exists kvs, get_at (snd (fst c)) catalog = Some (VDict kvs))
    calls ->
  Forall (fun c => snd c = address (snd (fst c))
                   /\ exists kvs, get_at (snd (fst c)) catalog = Some (VDict kvs))
    (fst (walk_node Tracer.noted kvs node (address node) calls)).
Proof.
  intros Hn Hc. unfold walk_node.
  assert (H1 : Forall (fun c => snd c = address (snd (fst c))
                         /\ exists kvs, get_at (snd (fst c)) catalog = Some (VDict kvs))
                 (if Text.search_indexed "streams" (address node)
                  then Tracer.noted STREAM node (address node) calls else calls)).
  { destruct (Text.search_indexed "streams" (address node));
      [now apply (noted_addressed _ _ kvs)|exact Hc]. }
  revert H1.
  generalize (if Text.search_indexed "streams" (address node)
              then Tracer.noted STREAM node (address node) calls else calls).
  intros calls1 H1.
  assert (H2 : Forall (fun c => snd c = address (snd (fst c))
                         /\ exists kvs, get_at (snd (fst c)) catalog = Some (VDict kvs))
                 (if Text.search_schema_properties (address node)
                  then Tracer.noted STREAM_PROPERTY node (address node) calls1
                  else calls1)).
  { destruct (Text.search_schema_properties (address node));
      [now apply (noted_addressed _ _ kvs)|exact H1]. }
  revert H2.
  generalize (if Text.search_schema_properties (address node)
              then Tracer.noted STREAM_PROPERTY node (address node) calls1
              else calls1).
  intros calls2 H2. cbv zeta.
  destruct (Text.search_indexed "metadata" (address node)); [|exact H2].
  destruct (lookup "breadcrumb" kvs) as [b|]; [|exact H2].
  destruct (py_len b) as [[|n]|why]; cbn [fst];
    [now apply (noted_addressed _ _ kvs)|now apply (noted_addressed _ _ kvs)|exact H2].
Qed.

Lemma walk_addressed (v : value) :
  unique_keys v = true ->
  forall node calls,
    get_at node catalog = Some v ->
    Forall (fun c => snd c = address (snd (fst c))
                     /\ exists kvs, get_at (snd (fst c)) catalog = Some (VDict kvs))
      calls ->
    Forall (fun c => snd c = address (snd (fst c))
                     /\ exists kvs, get_at (snd (fst c)) catalog = Some (VDict kvs))
      (fst (walk Tracer.noted v node (address node) calls)).
Proof.
  induction v as [|b|z|t|xs IH|kvs IH] using value_ind;
    intros Hu node calls Hn Hc; try exact Hc.
  - cbn [walk].
    assert (H : forall suf pre calls,
               xs = pre ++ suf ->
               Forall (fun c => snd c = address (snd (fst c))
                                /\ exists kvs,
                                     get_at (snd (fst c)) catalog = Some (VDict kvs))
                 calls ->
               Forall (fun c => snd c = address (snd (fst c))
                                /\ exists kvs,
                                     get_at (snd (fst c)) catalog = Some (VDict kvs))
                 (fst (walk_elements (walk Tracer.noted) node (address node) suf
                         (List.length pre) calls))).
    { induction suf as [|x rest IHs]; intros pre calls0 Hxs Hc0; [exact Hc0|].
      cbn [walk_elements]. unfold and_then.
      assert (Hin : In x xs) by (rewrite Hxs; apply in_or_app; right; now left).
      assert (Hx : get_at (node ++ [Idx (List.length pre)]) catalog = Some x).
      { rewrite get_at_app, Hn. cbn [get_at child].
        rewrite Hxs, nth_error_app2, Nat.sub_diag by lia. reflexivity. }
      rewrite Forall_forall in IH.
      pose proof (IH x Hin (unique_keys_element _ _ Hu Hin)
                    (node ++ [Idx (List.length pre)]) calls0 Hx Hc0) as Hw.
      rewrite address_app in Hw. cbn [segment] in Hw.
      destruct (walk Tracer.noted x (node ++ [Idx (List.length pre)])
                  (address node ++ "[" ++ Text.decimal (List.length pre) ++ "]")%string
                  calls0) as [calls1 [[]|why]]; cbn [fst] in *; [|exact Hw].
      specialize (IHs (pre ++ [x]) calls1).
      rewrite length_app in IHs. cbn [List.length] in IHs.
      rewrite Nat.add_1_r in IHs. apply IHs; [now rewrite <- app_assoc|exact Hw]. }
    apply (H xs [] calls eq_refl Hc).
  - cbn [walk]. unfold and_then.
    pose proof (walk_node_addressed node kvs calls Hn Hc) as H0.
    destruct (walk_node Tracer.noted kvs node (address node) calls)
      as [calls0 [[]|why]]; cbn [fst] in *; [|exact H0].
    assert (H : forall suf calls,
               (forall k x, In (k, x) suf -> In (k, x) kvs) ->
               Forall (fun c => snd c = address (snd (fst c))
                                /\ exists kvs,
                                     get_at (snd (fst c)) catalog = Some (VDict kvs))
                 calls ->
               Forall (fun c => snd c = address (snd (fst c))
                                /\ exists kvs,
                                     get_at (snd (fst c)) catalog = Some (VDict kvs))
                 (fst (walk_fields (walk Tracer.noted) node (address node) suf calls))).
    { induction suf as [|[k x] rest IHs]; intros calls1 Hsub Hc1; [exact Hc1|].
      cbn [walk_fields]. unfold and_then.
      assert (Hin : In (k, x) kvs) by (apply Hsub; now left).
      rewrite Forall_forall in IH.
      pose proof (IH (k, x) Hin (unique_keys_field _ _ _ Hu Hin)
                    (node ++ [Key k]) calls1
                    (get_at_key _ _ _ _ _ Hn (unique_keys_lookup _ _ _ Hu Hin)) Hc1)
        as Hw.
      rewrite address_app in Hw. cbn [segment snd] in Hw.
      destruct (walk Tracer.noted x (node ++ [Key k]) (address node ++ "." ++ k)%string
                  calls1) as [calls2 [[]|why]]; cbn [fst] in *; [|exact Hw].
      apply IHs; [|exact Hw]. intros k' x' Hin'. apply Hsub. now right. }
    apply (H kvs calls0); [auto|exact H0].
Qed.

End Addressed.

(** X12.  The path a handler is called with is the address of the node it
    is called on, and that node is a mapping: in a traversal from the root
    with the empty path, every call carries a path made of [.<key>] for
    each key and [[<index>]] for each index on the way from the root to its
    node. *)
Theorem path_is_address_of_node (catalog : value) (fuel : nat)
  (kind : CatalogNode) (node : loc) (path : string) :
  unique_keys catalog = true ->
  depth catalog <= fuel ->
  In (kind, node, path) (Tracer.calls fuel catalog) ->
  path = address node
  /\ exists kvs, get_at node catalog = Some (VDict kvs).
Proof.
  intros Hu Hf. unfold Tracer.calls.
  rewrite (visit_is_walk Tracer.make Tracer.noted tracer_is_quiet catalog catalog
             Hu fuel [] "" [] eq_refl Hf).
  cbn [fst self]. intros Hin.
  pose proof (walk_addressed catalog catalog Hu [] [] eq_refl (Forall_nil _)) as H.
  rewrite Forall_forall in H. apply (H _ Hin).
Qed.

Lemma path_is_address_of_node_witness :
  ".streams[0].metadata[2]" = address [Key "streams"; Idx 0; Key "metadata"; Idx 2]
  /\ exists kvs,
       get_at [Key "streams"; Idx 0; Key "metadata"; Idx 2] c6_catalog
       = Some (VDict kvs).
Proof.
  apply (path_is_address_of_node c6_catalog 16 STREAM_PROPERTY_METADATA
           [Key "streams"; Idx 0; Key "metadata"; Idx 2] ".streams[0].metadata[2]").
  - reflexivity.
  - vm_compute. lia.
  - vm_compute. tauto.
Defined.

(** ** The listing visitors read the document only *)

Lemma keeps_doc_bind {T A B : Type} (c : M T A) (k : A -> M T B) :
  keeps_doc c -> (forall a, keeps_doc (k a)) -> keeps_doc (bind c k).
Proof.
  intros Hc Hk w. unfold bind. specialize (Hc w).
  destruct (c w) as [w' [a|why]]; cbn [fst] in *; [|exact Hc].
  now rewrite Hk.
Qed.

Lemma keeps_doc_ret {T A : Type} (a : A) : keeps_doc (@ret T A a).
Proof. intros w. reflexivity. Qed.

Lemma keeps_doc_lift {T A : Type} (r : res A) : keeps_doc (@lift T A r).
Proof. intros w. reflexivity. Qed.

Lemma keeps_doc_get_self {T : Type} : keeps_doc (@get_self T).
Proof. intros w. reflexivity. Qed.

Lemma keeps_doc_put_self {T : Type} (s : T) : keeps_doc (put_self s).
Proof. intros w. reflexivity. Qed.

Lemma keeps_doc_read {T : Type} l : keeps_doc (@read T l).
Proof. intros w. unfold read. now destruct (get_at l (doc w)). Qed.

Lemma keeps_doc_getitem {T : Type} l k : keeps_doc (@getitem T l k).
Proof.
  apply keeps_doc_bind; [apply keeps_doc_read|]. intros v. apply keeps_doc_lift.
Qed.

Lemma keeps_doc_catch {T A : Type} (body : M T A) handler :
  keeps_doc body ->
  (forall e h, handler e = Some h -> keeps_doc h) ->
  keeps_doc (catch body handler).
Proof.
  intros Hb Hh w. unfold catch. specialize (Hb w).
  destruct (body w) as [w' [a|[e| |]]]; cbn [fst] in *; try exact Hb.
  destruct (handler e) as [h|] eqn:E; cbn [fst]; [|exact Hb].
  now rewrite (Hh e h E).
Qed.

Lemma keeps_doc_execute {T : Type} (ex : CatalogExecutor.t T) kind node path :
  keeps_doc (CatalogExecutor.dispatch ex kind node path) ->
  keeps_doc (CatalogExecutor.execute ex (Some kind) node path).
Proof.
  intros H. apply keeps_doc_catch; [exact H|].
  intros [] h E; inversion E. apply keeps_doc_ret.
Qed.

Ltac keeps_doc_steps :=
  repeat first
    [ apply keeps_doc_ret | apply keeps_doc_lift | apply keeps_doc_get_self
    | apply keeps_doc_put_self | apply keeps_doc_read | apply keeps_doc_getitem
    | apply keeps_doc_bind; [|intros ?]
    | match goal with |- keeps_doc (if ?b then _ else _) => destruct b end
    | match goal with |- keeps_doc (match ?o with Some _ => _ | None => _ end) =>
        destruct o end ].

Lemma list_executor_keeps_doc kind node path :
  keeps_doc (CatalogExecutor.dispatch ListExecutor.make kind node path).
Proof.
  destruct kind; cbn [CatalogExecutor.dispatch ListExecutor.make
                        CatalogExecutor.stream_node CatalogExecutor.property_node
                        CatalogExecutor.stream_metadata_node
                        CatalogExecutor.property_metadata_node];
    unfold ListExecutor.stream_node, ListExecutor.property_node, CatalogExecutor.pass;
    keeps_doc_steps.
Qed.

Lemma list_selected_executor_keeps_doc kind node path :
  keeps_doc (CatalogExecutor.dispatch ListSelectedExecutor.make kind node path).
Proof.
  destruct kind; cbn [CatalogExecutor.dispatch ListSelectedExecutor.make
                        CatalogExecutor.stream_node CatalogExecutor.property_node
                        CatalogExecutor.stream_metadata_node
                        CatalogExecutor.property_metadata_node];
    unfold ListSelectedExecutor.stream_node,
      ListSelectedExecutor.stream_metadata_node,
      ListSelectedExecutor.property_metadata_node,
      ListSelectedExecutor.current, CatalogExecutor.pass;
    keeps_doc_steps.
Qed.

(** X13.  The two listing visitors never write to the document: however
    far a traversal with [ListExecutor] or with [ListSelectedExecutor]
    gets, and however it ends, the document is the one it started on. *)
Theorem listing_leaves_document_alone (fuel : nat) (catalog : value)
  (properties : ListExecutor.state) (object : ListSelectedExecutor.object) :
  doc (fst (visit fuel ListExecutor.make [] "" (World catalog properties))) = catalog
  /\ doc (fst (visit fuel ListSelectedExecutor.make [] "" (World catalog object)))
     = catalog.
Proof.
  split.
  - apply (proj1 (visit_keeps ListExecutor.make (fun w => doc w = catalog)
                    (fun kind node path w Hw _ =>
                       eq_trans
                         (keeps_doc_execute _ kind node path
                            (list_executor_keeps_doc kind node path) w) Hw)
                    fuel)).
    reflexivity.
  - apply (proj1 (visit_keeps ListSelectedExecutor.make (fun w => doc w = catalog)
                    (fun kind node path w Hw _ =>
                       eq_trans
                         (keeps_doc_execute _ kind node path
                            (list_selected_executor_keeps_doc kind node path) w) Hw)
                    fuel)).
    reflexivity.
Qed.

(** ** Dicts keyed by values *)

Lemma py_eqb_hashable_refl (k : value) : hashable k = true -> py_eqb k k = true.
Proof.
  destruct k; cbn [hashable py_eqb]; try discriminate; intros _.
  - reflexivity.
  - now destruct b.
  - apply Z.eqb_refl.
  - apply String.eqb_refl.
Qed.

Lemma py_hash_done (k : value) : hashable k = true -> py_hash k = Done tt.
Proof. destruct k; cbn; try discriminate; reflexivity. Qed.

Lemma py_hash_hashable (k : value) u : py_hash k = Done u -> hashable k = true.
Proof. destruct k; cbn; try discriminate; reflexivity. Qed.

Lemma dict_get_none {A : Type} (k : value) (d : list (value * A)) :
  dict_get k d = None <-> Forall (fun e => py_eqb (fst e) k = false) d.
Proof.
  induction d as [|[k0 v0] rest IH]; cbn [dict_get].
  - split; [constructor|reflexivity].
  - destruct (py_eqb k0 k) eqn:E.
    + split; [discriminate|]. intros H. inversion H; subst. cbn [fst] in *. congruence.
    + rewrite IH. split; [now constructor|]. intros H. now inversion H.
Qed.

Lemma dict_set_new {A : Type} (k : value) (v : A) (d : list (value * A)) :
  Forall (fun e => py_eqb (fst e) k = false) d -> dict_set k v d = d ++ [(k, v)].
Proof.
  induction 1 as [|[k0 v0] rest Hk _ IH]; [reflexivity|].
  cbn [dict_set app fst] in *. now rewrite Hk, IH.
Qed.

Lemma dict_get_snoc {A : Type} (k : value) (v : A) (d : list (value * A)) :
  Forall (fun e => py_eqb (fst e) k = false) d ->
  py_eqb k k = true ->
  dict_get k (d ++ [(k, v)]) = Some v.
Proof.
  intros H Hk. induction H as [|[k0 v0] rest Hk0 _ IH]; cbn [app dict_get fst] in *.
  - now rewrite Hk.
  - now rewrite Hk0.
Qed.

Lemma dict_set_snoc {A : Type} (k : value) (v v' : A) (d : list (value * A)) :
  Forall (fun e => py_eqb (fst e) k = false) d ->
  py_eqb k k = true ->
  dict_set k v' (d ++ [(k, v)]) = d ++ [(k, v')].
Proof.
  intros H Hk. induction H as [|[k0 v0] rest Hk0 _ IH]; cbn [app dict_set fst] in *.
  - now rewrite Hk.
  - now rewrite Hk0, IH.
Qed.

Lemma dict_ok_snoc {A : Type} (k : value) (v : A) (d : list (value * A)) :
  dict_ok d -> hashable k = true ->
  Forall (fun e => py_eqb (fst e) k = false) d ->
  dict_ok (d ++ [(k, v)]).
Proof.
  intros Hd Hk. induction Hd as [|k0 v0 rest Hh Hall Hok IH]; intros Hnew.
  - cbn [app]. constructor; [exact Hk|constructor|constructor].
  - inversion Hnew as [|e rest' Hk0 Hrest]; subst. cbn [app fst] in *.
    constructor; [exact Hh| |now apply IH].
    apply Forall_app. split; [exact Hall|]. constructor; [exact Hk0|constructor].
Qed.

Lemma dict_ok_snoc_inv {A : Type} (k : value) (v : A) (d : list (value * A)) :
  dict_ok (d ++ [(k, v)]) ->
  hashable k = true /\ Forall (fun e => py_eqb (fst e) k = false) d.
Proof.
  induction d as [|[k0 v0] rest IH]; cbn [app]; intros H; inversion H; subst.
  - split; [assumption|constructor].
  - match goal with
    | Hall : Forall _ (rest ++ [(k, v)]) |- _ =>
        apply Forall_app in Hall; destruct Hall as [_ Hlast];
        inversion Hlast as [|e l Hk0 _]; subst
    end.
    destruct (IH ltac:(assumption)) as [Hk Hrest].
    split; [exact Hk|]. constructor; [exact Hk0|exact Hrest].
Qed.

Lemma py_last_key_snoc {A : Type} (k : value) (v : A) (d : list (value * A)) :
  py_last_key (d ++ [(k, v)]) = Done k.
Proof. unfold py_last_key. now rewrite rev_unit. Qed.

(** ** [ListExecutor] *)

Lemma split_dot_app (a b : string) :
  Text.split_dot (a ++ "." ++ b) = Text.split_dot a ++ Text.split_dot b.
Proof.
  induction a as [|c a IH]; [reflexivity|].
  cbn [append Text.split_dot]. cbn [append] in IH. rewrite IH.
  destruct (Ascii.eqb c "."%char); [reflexivity|].
  destruct (split_dot_pieces a) as (piece & rest & ->). reflexivity.
Qed.

Lemma split_dot_no_dot (s : string) :
  has_dot s = false -> Text.split_dot s = [s].
Proof.
  unfold has_dot, Text.chars. induction s as [|c s IH]; [reflexivity|].
  cbn [list_ascii_of_string existsb]. rewrite orb_false_iff. intros [Hc Hs].
  cbn [Text.split_dot]. rewrite (Ascii.eqb_sym c "."%char), Hc. now rewrite (IH Hs).
Qed.

Lemma last_split_dot (prefix name : string) :
  has_dot name = false ->
  last (Text.split_dot (prefix ++ "." ++ name)) EmptyString = name.
Proof.
  intros H. rewrite split_dot_app, (split_dot_no_dot _ H). apply last_last.
Qed.

Lemma list_stream_node_run (node : loc) (path : string)
  (w : world ListExecutor.state) kvs stream :
  get_at node (doc w) = Some (VDict kvs) ->
  lookup "stream" kvs = Some stream ->
  hashable stream = true ->
  ListExecutor.stream_node node path w
  = (World (doc w)
       (match dict_get stream (self w) with
        | Some _ => self w
        | None => self w ++ [(stream, [])]
        end),
     Done tt).
Proof.
  intros Hn Hs Hh. destruct w as [d properties]. cbn [doc self] in *.
  unfold ListExecutor.stream_node. unfold bind at 1.
  rewrite (run_getitem node "stream" (World d properties) _ Hn).
  cbn [py_getitem]. rewrite Hs.
  unfold bind at 1, get_self. cbn [self].
  unfold bind at 1, lift at 1, py_contains. rewrite (py_hash_done _ Hh).
  cbn [res_bind].
  destruct (dict_get stream properties) as [x|] eqn:E; [reflexivity|].
  unfold bind at 1, lift at 1, py_store. rewrite (py_hash_done _ Hh).
  cbn [res_bind]. unfold put_self. cbn [doc].
  now rewrite (dict_set_new _ _ _ (proj1 (dict_get_none _ _) E)).
Qed.

Lemma list_property_node_run (node : loc) (path : string)
  (w : world ListExecutor.state) before last_key names :
  self w = before ++ [(last_key, names)] ->
  dict_ok (self w) ->
  ListExecutor.property_node node path w
  = (World (doc w)
       (before ++ [(last_key,
                    set_add String.eqb (last (Text.split_dot path) EmptyString)
                      names)]),
     Done tt).
Proof.
  intros Hs Hok. rewrite Hs in Hok.
  destruct (dict_ok_snoc_inv _ _ _ Hok) as [Hh Hnew].
  pose proof (py_eqb_hashable_refl _ Hh) as Hrefl.
  unfold ListExecutor.property_node. unfold bind at 1, get_self. rewrite Hs.
  unfold bind at 1, lift at 1. rewrite py_last_key_snoc.
  unfold bind at 1, lift at 1, py_lookup. rewrite (py_hash_done _ Hh).
  cbn [res_bind]. rewrite (dict_get_snoc _ _ _ Hnew Hrefl).
  unfold put_self. now rewrite (dict_set_snoc _ _ _ _ Hnew Hrefl).
Qed.

(** X14.  [ListExecutor] files a property under the stream inserted
    last.  A stream node whose name is new adds that name, with no
    properties yet, after the others, and a property node then adds to it
    the last piece of its dotted path.  A stream node whose name is there
    already changes nothing, so the property goes to the set of the key
    inserted last, which is another stream's unless the name was the
    last. *)
Theorem list_executor_files_under_last_key
  (node node' : loc) (path path' prefix name : string)
  (w : world ListExecutor.state) kvs stream :
  get_at node (doc w) = Some (VDict kvs) ->
  lookup "stream" kvs = Some stream ->
  hashable stream = true ->
  dict_ok (self w) ->
  path' = (prefix ++ "." ++ name)%string ->
  has_dot name = false ->
  (dict_get stream (self w) = None ->
   bind (ListExecutor.stream_node node path)
     (fun _ => ListExecutor.property_node node' path') w
   = (World (doc w) (self w ++ [(stream, [name])]), Done tt))
  /\ (forall before last_key names present,
        self w = before ++ [(last_key, names)] ->
        dict_get stream (self w) = Some present ->
        bind (ListExecutor.stream_node node path)
          (fun _ => ListExecutor.property_node node' path') w
        = (World (doc w) (before ++ [(last_key, set_add String.eqb name names)]),
           Done tt)).
Proof.
  intros Hn Hs Hh Hok -> Hname.
  pose proof (list_stream_node_run node path w kvs stream Hn Hs Hh) as Hrun.
  split.
  - intros Hnew. unfold bind. rewrite Hrun, Hnew.
    rewrite (list_property_node_run node' _
               (World (doc w) (self w ++ [(stream, [])])) (self w) stream []
               eq_refl).
    + cbn [doc]. now rewrite (last_split_dot _ _ Hname).
    + cbn [self]. apply dict_ok_snoc; [exact Hok|exact Hh|].
      now apply dict_get_none.
  - intros before last_key names present Hw Hpresent.
    unfold bind. rewrite Hrun, Hpresent.
    rewrite (list_property_node_run node' _ (World (doc w) (self w))
               before last_key names Hw Hok).
    cbn [doc]. now rewrite (last_split_dot _ _ Hname).
Qed.

Lemma list_executor_files_under_last_key_witness :
  bind (ListExecutor.stream_node [Key "streams"; Idx 2] ".streams[2]")
    (fun _ =>
       ListExecutor.property_node
         [Key "streams"; Idx 2; Key "schema"; Key "properties"; Key "id"]
         ".streams[2].schema.properties.id")
    (World (VDict [("streams",
                    VList [VDict [("stream", VStr "users")];
                           VDict [("stream", VStr "orders")];
                           VDict [("stream", VStr "users")]])])
       [(VStr "users", ["name"]); (VStr "orders", ["total"])])
  = (World (VDict [("streams",
                    VList [VDict [("stream", VStr "users")];
                           VDict [("stream", VStr "orders")];
                           VDict [("stream", VStr "users")]])])
       ([(VStr "users", ["name"])]
        ++ [(VStr "orders", set_add String.eqb "id" ["total"])]),
     Done tt).
Proof.
  apply (proj2
           (list_executor_files_under_last_key
              [Key "streams"; Idx 2]
              [Key "streams"; Idx 2; Key "schema"; Key "properties"; Key "id"]
              ".streams[2]" ".streams[2].schema.properties.id"
              ".streams[2].schema.properties" "id"
              (World (VDict [("streams",
                              VList [VDict [("stream", VStr "users")];
                                     VDict [("stream", VStr "orders")];
                                     VDict [("stream", VStr "users")]])])
                 [(VStr "users", ["name"]); (VStr "orders", ["total"])])
              [("stream", VStr "users")] (VStr "users")
              eq_refl eq_refl eq_refl
              ltac:(repeat constructor) eq_refl eq_refl)
           [(VStr "users", ["name"])] (VStr "orders") ["total"] ["name"]
           eq_refl eq_refl).
Defined.

(** X15.  [ListExecutor] needs a stream before a property: on a property
    node met while [properties] is still empty, [next(reversed(...))]
    raises [StopIteration], which [execute] does not take, and the
    traversal ends with it. *)
Theorem list_executor_property_before_stream
  (fuel : nat) (node : loc) (path : string) (w : world ListExecutor.state) kvs :
  get_at node (doc w) = Some (VDict kvs) ->
  self w = [] ->
  Text.search_indexed "streams" path = false ->
  Text.search_schema_properties path = true ->
  CatalogExecutor.execute ListExecutor.make (Some STREAM_PROPERTY) node path w
  = (w, Stop (Exn StopIteration))
  /\ visit (S fuel) ListExecutor.make node path w = (w, Stop (Exn StopIteration)).
Proof.
  intros Hn Hs Hstream Hprop.
  assert (E : CatalogExecutor.execute ListExecutor.make (Some STREAM_PROPERTY)
                node path w
              = (w, Stop (Exn StopIteration))).
  { unfold CatalogExecutor.execute, catch.
    cbn [CatalogExecutor.dispatch ListExecutor.make CatalogExecutor.property_node].
    unfold ListExecutor.property_node, bind at 1, get_self.
    rewrite Hs. reflexivity. }
  split; [exact E|].
  cbn [visit]. unfold bind at 1. rewrite (run_read _ _ _ Hn).
  rewrite Hstream, Hprop. unfold when. unfold bind at 1. cbn [ret].
  unfold bind at 1. now rewrite E.
Qed.

Lemma list_executor_property_before_stream_witness :
  visit 1 ListExecutor.make [Key "schema"; Key "properties"; Key "id"]
    ".schema.properties.id"
    (World (VDict [("schema",
                    VDict [("properties",
                            VDict [("id", VDict [("type", VStr "integer")])])])])
       [])
  = (World (VDict [("schema",
                    VDict [("properties",
                            VDict [("id", VDict [("type", VStr "integer")])])])])
       [],
     Stop (Exn StopIteration)).
Proof.
  apply (proj2 (list_executor_property_before_stream 0
                  [Key "schema"; Key "properties"; Key "id"] ".schema.properties.id"
                  (World (VDict [("schema",
                                  VDict [("properties",
                                          VDict [("id",
                                                  VDict [("type", VStr "integer")])])])])
                     [])
                  [("type", VStr "integer")] eq_refl eq_refl eq_refl eq_refl)).
Defined.

(** ** [ListSelectedExecutor] *)

Lemma dict_set_keys {A : Type} (Q : value -> Prop) (k : value) (v : A)
  (d : list (value * A)) :
  Forall (fun e => Q (fst e)) d -> Q k -> Forall (fun e => Q (fst e)) (dict_set k v d).
Proof.
  intros H Hk. induction H as [|[k0 v0] rest Hk0 Hrest IH]; cbn [dict_set].
  - constructor; [exact Hk|constructor].
  - destruct (py_eqb k0 k); constructor; assumption.
Qed.

Lemma dict_set_ok {A : Type} (k : value) (v : A) (d : list (value * A)) :
  dict_ok d -> hashable k = true -> dict_ok (dict_set k v d).
Proof.
  intros Hd Hk. induction Hd as [|k0 v0 rest Hh Hall Hok IH]; cbn [dict_set].
  - constructor; [exact Hk|constructor|constructor].
  - destruct (py_eqb k0 k) eqn:E.
    + now constructor.
    + constructor; [exact Hh| |exact IH].
      apply (dict_set_keys (fun x => py_eqb k0 x = false)); assumption.
Qed.

Lemma dict_get_set_keeps {A : Type} (k k' : value) (v x : A) (d : list (value * A)) :
  dict_get k' d = Some x -> exists y, dict_get k' (dict_set k v d) = Some y.
Proof.
  induction d as [|[k0 v0] rest IH]; cbn [dict_get dict_set]; [discriminate|].
  destruct (py_eqb k0 k) eqn:E; cbn [dict_get];
    destruct (py_eqb k0 k') eqn:E'; eauto.
Qed.

Lemma dict_get_set_same {A : Type} (k : value) (v : A) (d : list (value * A)) :
  hashable k = true -> dict_get k (dict_set k v d) = Some v.
Proof.
  intros Hk. induction d as [|[k0 v0] rest IH]; cbn [dict_get dict_set].
  - now rewrite (py_eqb_hashable_refl _ Hk).
  - destruct (py_eqb k0 k) eqn:E; cbn [dict_get]; now rewrite E.
Qed.

Lemma list_selected_stream_node_consistent node path
  (w : world ListSelectedExecutor.object) :
  consistent (self w) ->
  consistent (self (fst (ListSelectedExecutor.stream_node node path w))).
Proof.
  intros (Hok & Hstreams & Hcur). unfold ListSelectedExecutor.stream_node.
  unfold bind at 1.
  destruct (getitem node "stream" w) as [w0 [stream|why]] eqn:Eg.
  2:{ rewrite (reads_only_state _ _ _ _ (reads_only_getitem _ _) Eg).
      cbn [fst]. now repeat split. }
  rewrite (reads_only_state _ _ _ _ (reads_only_getitem _ _) Eg).
  unfold bind at 1, get_self. unfold bind at 1, put_self. cbn [doc self].
  unfold bind at 1, lift at 1, py_store.
  destruct (py_hash stream) as [[]|why] eqn:Eh; cbn [res_bind fst self].
  - apply py_hash_hashable in Eh. cbn [ListSelectedExecutor._stream
      ListSelectedExecutor.collected ListSelectedExecutor.properties
      ListSelectedExecutor.streams]. repeat split.
    + now apply dict_set_ok.
    + intros name flag Hin. destruct (Hstreams name flag Hin) as [props Hp].
      apply (dict_get_set_keeps _ _ _ _ _ Hp).
    + intros s Hs _. inversion Hs; subst s. eexists.
      now apply dict_get_set_same.
  - repeat split; cbn [ListSelectedExecutor._stream ListSelectedExecutor.collected];
      [exact Hok|exact Hstreams|].
    intros s Hs Hh. inversion Hs; subst s.
    rewrite (py_hash_done _ Hh) in Eh. discriminate.
Qed.

Lemma reads_only_current : reads_only ListSelectedExecutor.current.
Proof.
  intros w. unfold ListSelectedExecutor.current, bind, get_self.
  now destruct (ListSelectedExecutor._stream (self w)).
Qed.

Lemma current_done (w w' : world ListSelectedExecutor.object) stream :
  ListSelectedExecutor.current w = (w', Done stream) ->
  w' = w /\ ListSelectedExecutor._stream (self w) = Some stream.
Proof.
  unfold ListSelectedExecutor.current, bind, get_self.
  destruct (ListSelectedExecutor._stream (self w)) as [s|]; cbn; intros H;
    inversion H; now subst.
Qed.

Lemma in_set_add {A : Type} (eqb : A -> A -> bool) (x y : A) (s : list A) :
  In y (set_add eqb x s) -> In y s \/ y = x.
Proof.
  unfold set_add. destruct (existsb (fun z => eqb z x) s); [now left|].
  intros H. apply in_app_or in H. destruct H as [H|[H|[]]]; auto.
Qed.

Lemma list_selected_stream_metadata_node_consistent node path
  (w : world ListSelectedExecutor.object) :
  consistent (self w) ->
  consistent (self (fst (ListSelectedExecutor.stream_metadata_node node path w))).
Proof.
  intros Hc. unfold ListSelectedExecutor.stream_metadata_node.
  unfold bind at 1.
  destruct (ListSelectedExecutor.current w) as [w0 [stream|why]] eqn:E0.
  2:{ now rewrite (reads_only_state _ _ _ _ reads_only_current E0). }
  apply current_done in E0. destruct E0 as [-> Hstream].
  unfold bind at 1.
  destruct (read node w) as [w0 [n|why]] eqn:E1.
  2:{ now rewrite (reads_only_state _ _ _ _ (reads_only_read _) E1). }
  rewrite (reads_only_state _ _ _ _ (reads_only_read _) E1).
  unfold bind at 1, lift at 1.
  destruct (ListSelectedExecutor.is_node_selected n) as [selected|why]; [|exact Hc].
  unfold bind at 1, lift at 1.
  destruct (py_hash stream) as [[]|why] eqn:Eh; [|exact Hc].
  unfold bind at 1, lift at 1.
  destruct (py_hash selected) as [[]|why]; [|exact Hc].
  unfold bind at 1, get_self, put_self. cbn [fst self].
  destruct Hc as (Hok & Hstreams & Hcur).
  repeat split; cbn [ListSelectedExecutor._stream ListSelectedExecutor.collected
                       ListSelectedExecutor.properties ListSelectedExecutor.streams];
    [exact Hok| |exact Hcur].
  intros name flag Hin. apply in_set_add in Hin. destruct Hin as [Hin|Heq].
  - apply (Hstreams name flag Hin).
  - inversion Heq; subst. apply (Hcur _ Hstream (py_hash_hashable _ _ Eh)).
Qed.

Lemma list_selected_property_metadata_node_consistent node path
  (w : world ListSelectedExecutor.object) :
  consistent (self w) ->
  consistent (self (fst (ListSelectedExecutor.property_metadata_node node path w))).
Proof.
  intros Hc. unfold ListSelectedExecutor.property_metadata_node.
  unfold bind at 1.
  destruct (getitem node "breadcrumb" w) as [w0 [breadcrumb|why]] eqn:E0.
  2:{ now rewrite (reads_only_state _ _ _ _ (reads_only_getitem _ _) E0). }
  rewrite (reads_only_state _ _ _ _ (reads_only_getitem _ _) E0).
  unfold bind at 1, lift at 1.
  destruct (py_from1 breadcrumb) as [rest|why]; [|exact Hc].
  unfold bind at 1, lift at 1.
  destruct (py_join "." rest) as [name|why]; [|exact Hc].
  unfold bind at 1.
  destruct (read node w) as [w1 [n|why]] eqn:E1.
  2:{ now rewrite (reads_only_state _ _ _ _ (reads_only_read _) E1). }
  rewrite (reads_only_state _ _ _ _ (reads_only_read _) E1).
  unfold bind at 1, lift at 1.
  destruct (ListSelectedExecutor.is_node_selected n) as [selected|why]; [|exact Hc].
  unfold bind at 1.
  destruct (ListSelectedExecutor.current w) as [w2 [stream|why]] eqn:E2.
  2:{ now rewrite (reads_only_state _ _ _ _ reads_only_current E2). }
  apply current_done in E2. destruct E2 as [-> Hstream].
  unfold bind at 1, get_self. unfold bind at 1, lift at 1, py_lookup.
  destruct (py_hash stream) as [[]|why] eqn:Eh; [|exact Hc].
  cbn [res_bind].
  destruct (dict_get stream _) as [props|] eqn:Ep; [|exact Hc].
  unfold bind at 1, lift at 1.
  destruct (py_hash selected) as [[]|why]; [|exact Hc].
  unfold put_self. cbn [fst self].
  destruct Hc as (Hok & Hstreams & Hcur).
  repeat split; cbn [ListSelectedExecutor._stream ListSelectedExecutor.collected
                       ListSelectedExecutor.properties ListSelectedExecutor.streams].
  - apply dict_set_ok; [exact Hok|apply (py_hash_hashable _ _ Eh)].
  - intros k flag Hin. destruct (Hstreams k flag Hin) as [x Hx].
    apply (dict_get_set_keeps _ _ _ _ _ Hx).
  - intros s Hs Hh. destruct (Hcur s Hs Hh) as [x Hx].
    apply (dict_get_set_keeps _ _ _ _ _ Hx).
Qed.

Lemma dict_get_entry {A : Type} (k : value) (v : A) (d : list (value * A)) :
  dict_get k d = Some v -> exists x, In (x, v) d /\ py_eqb x k = true.
Proof.
  induction d as [|[k0 v0] rest IH]; cbn [dict_get]; [discriminate|].
  destruct (py_eqb k0 k) eqn:E.
  - intros H. inversion H; subst. exists k0. split; [now left|exact E].
  - intros H. destruct (IH H) as (x & Hin & Hx). exists x. split; [now right|exact Hx].
Qed.

(** X16.  Whatever the catalog and however far the traversal gets,
    [ListSelectedExecutor] keeps its two collections in step: [properties]
    stays a dict, and every stream name noted in [streams] is one of its
    keys.  So when [selected_properties] deletes the streams that are not
    selected, each of those names has an entry to delete. *)
Theorem list_selected_collections_in_step (fuel : nat) (catalog : value) :
  consistent (listed fuel catalog)
  /\ forall name,
       In name (dropped_names (ListSelectedExecutor.collected (listed fuel catalog))) ->
       exists key props,
         In (key, props)
           (ListSelectedExecutor.properties
              (ListSelectedExecutor.collected (listed fuel catalog)))
         /\ py_eqb key name = true.
Proof.
  assert (Hexec : forall kind node path (w : world ListSelectedExecutor.object),
             consistent (self w) -> dispatchable kind node path w ->
             consistent
               (self (fst (CatalogExecutor.execute ListSelectedExecutor.make
                             (Some kind) node path w)))).
  { intros kind node path w Hw _.
    assert (E : forall c : M ListSelectedExecutor.object unit,
               self (fst (catch c (fun e => match e with
                                            | KeyError => Some (ret tt)
                                            | _ => None
                                            end) w)) = self (fst (c w))).
    { intros c. unfold catch. destruct (c w) as [w' [[]|[[]| |]]]; reflexivity. }
    unfold CatalogExecutor.execute. rewrite E.
    destruct kind; cbn [CatalogExecutor.dispatch ListSelectedExecutor.make
                          CatalogExecutor.stream_node CatalogExecutor.property_node
                          CatalogExecutor.stream_metadata_node
                          CatalogExecutor.property_metadata_node].
    - now apply list_selected_stream_node_consistent.
    - now apply list_selected_stream_metadata_node_consistent.
    - exact Hw.
    - now apply list_selected_property_metadata_node_consistent. }
  assert (H : consistent (listed fuel catalog)).
  { unfold listed.
    apply (proj1 (visit_keeps ListSelectedExecutor.make
                    (fun w => consistent (self w)) Hexec fuel)).
    repeat split; [constructor|intros ? ? []|discriminate]. }
  split; [exact H|].
  intros name Hin. destruct H as (_ & Hstreams & _).
  unfold dropped_names in Hin. apply in_map_iff in Hin.
  destruct Hin as ([name' flag] & Heq & Hin). cbn [fst] in Heq. subst name'.
  apply filter_In in Hin. destruct Hin as [Hin _].
  destruct (Hstreams name flag Hin) as [props Hp].
  destruct (dict_get_entry _ _ _ Hp) as (key & Hkey & Heq).
  now exists key, props.
Qed.

(** ** When the report fails *)

Lemma dict_ok_hashable {A : Type} (d : list (value * A)) x a :
  dict_ok d -> In (x, a) d -> hashable x = true.
Proof.
  induction 1 as [|k v rest Hh _ _ IH]; [intros []|].
  intros [Heq|Hin]; [now inversion Heq; subst|now apply IH].
Qed.

Lemma py_del_done {A : Type} (k : value) (d d' : list (value * A)) :
  ListSelectedExecutor.py_del k d = Done d' ->
  exists x a, In (x, a) d /\ py_eqb x k = true.
Proof.
  revert d'. induction d as [|[k0 v0] rest IH]; intros d';
    cbn [ListSelectedExecutor.py_del]; [discriminate|].
  destruct (py_eqb k0 k) eqn:E.
  - intros _. exists k0, v0. split; [now left|exact E].
  - destruct (ListSelectedExecutor.py_del k rest) as [rest'|why]; [|discriminate].
    intros _. destruct (IH rest' eq_refl) as (x & a & Hin & Hx).
    exists x, a. split; [now right|exact Hx].
Qed.

Lemma py_del_stop {A : Type} (k : value) (d : list (value * A)) why :
  ListSelectedExecutor.py_del k d = Stop why -> why = Exn KeyError.
Proof.
  induction d as [|[k0 v0] rest IH]; cbn [ListSelectedExecutor.py_del].
  - intros H. now inversion H.
  - destruct (py_eqb k0 k); [discriminate|].
    destruct (ListSelectedExecutor.py_del k rest) as [rest'|why']; [discriminate|].
    cbn [res_bind]. intros H. inversion H; subst. now apply IH.
Qed.

Lemma del_each_stop {A : Type} (ks : list value) (d : list (value * A)) why :
  ListSelectedExecutor.del_each ks d = Stop why -> why = Exn KeyError.
Proof.
  revert d. induction ks as [|k ks IH]; intros d;
    cbn [ListSelectedExecutor.del_each]; [discriminate|].
  destruct (ListSelectedExecutor.py_del k d) as [d'|why'] eqn:E; cbn [res_bind].
  - apply IH.
  - intros H. inversion H; subst. apply (py_del_stop _ _ _ E).
Qed.

Lemma del_each_ok {A : Type} (ks : list value) (d d' : list (value * A)) :
  dict_ok d -> ListSelectedExecutor.del_each ks d = Done d' -> dict_ok d'.
Proof.
  revert d. induction ks as [|k ks IH]; intros d Hok;
    cbn [ListSelectedExecutor.del_each].
  - intros H. now inversion H; subst.
  - destruct (ListSelectedExecutor.py_del k d) as [d1|why] eqn:E; cbn [res_bind];
      [|discriminate].
    apply IH. apply (proj1 (py_del_members _ _ _ Hok E)).
Qed.

Lemma del_each_app {A : Type} (ks ks' : list value) (d d' : list (value * A)) :
  ListSelectedExecutor.del_each (ks ++ ks') d = Done d' ->
  exists d1, ListSelectedExecutor.del_each ks d = Done d1
             /\ ListSelectedExecutor.del_each ks' d1 = Done d'.
Proof.
  revert d. induction ks as [|k ks IH]; intros d;
    cbn [app ListSelectedExecutor.del_each].
  - intros H. now exists d.
  - destruct (ListSelectedExecutor.py_del k d) as [d1|why]; cbn [res_bind];
      [apply IH|discriminate].
Qed.

Lemma del_each_repeated {A : Type} (pre mid post : list value) (k k' : value)
  (d : list (value * A)) :
  dict_ok d ->
  py_eqb k k' = true ->
  ListSelectedExecutor.del_each (pre ++ k :: mid ++ k' :: post) d = raise KeyError.
Proof.
  intros Hok Hk.
  destruct (ListSelectedExecutor.del_each (pre ++ k :: mid ++ k' :: post) d)
    as [d'|why] eqn:E.
  2:{ now rewrite (del_each_stop _ _ _ E). }
  exfalso.
  apply del_each_app in E. destruct E as (d1 & E1 & E).
  cbn [ListSelectedExecutor.del_each] in E.
  destruct (ListSelectedExecutor.py_del k d1) as [d2|why] eqn:E2; [|discriminate].
  cbn [res_bind] in E.
  apply del_each_app in E. destruct E as (d3 & E3 & E).
  cbn [ListSelectedExecutor.del_each] in E.
  destruct (ListSelectedExecutor.py_del k' d3) as [d4|why] eqn:E4; [|discriminate].
  pose proof (del_each_ok _ _ _ Hok E1) as Hok1.
  destruct (py_del_members _ _ _ Hok1 E2) as [Hok2 Hmem2].
  pose proof (del_each_ok _ _ _ Hok2 E3) as Hok3.
  destruct (py_del_done _ _ _ E4) as (x & a & Hin & Hx).
  pose proof (dict_ok_hashable _ _ _ Hok3 Hin) as Hh.
  apply (del_each_members _ _ _ Hok2 E3) in Hin. destruct Hin as [Hin _].
  apply Hmem2 in Hin. destruct Hin as [_ Hne].
  rewrite (py_eqb_same_right x k k' Hh Hx Hk) in Hne. discriminate.
Qed.

(** X17.  [selected_properties] raises [KeyError] when two of the pairs in
    [streams] that are not selected name the same stream: the name is
    deleted from the copy of [properties] once, and the second [del] finds
    nothing.  Two such pairs can be there, since pairs of one name with
    different flags, [False] and [None] for one, are different members of
    the set. *)
Theorem report_fails_on_repeated_name
  (self : ListSelectedExecutor.state) (pre mid post : list value) (k k' : value) :
  dict_ok (ListSelectedExecutor.properties self) ->
  dropped_names self = pre ++ k :: mid ++ k' :: post ->
  py_eqb k k' = true ->
  ListSelectedExecutor.selected_properties self = raise KeyError.
Proof.
  intros Hok Hd Hk. unfold ListSelectedExecutor.selected_properties.
  unfold dropped_names in Hd. rewrite Hd.
  now rewrite (del_each_repeated pre mid post k k' _ Hok Hk).
Qed.

Lemma report_fails_on_repeated_name_witness :
  ListSelectedExecutor.selected_properties
    (ListSelectedExecutor.collected (listed 16 twice_unselected))
  = raise KeyError.
Proof.
  apply (report_fails_on_repeated_name
           (ListSelectedExecutor.collected (listed 16 twice_unselected))
           [] [] [] (VStr "users") (VStr "users")).
  - vm_compute. repeat constructor.
  - reflexivity.
  - reflexivity.
Defined.

(** ** From selecting to listing *)

Lemma is_node_selected_after_write (b : bool) kvs m :
  ListSelectedExecutor.is_node_selected
    (VDict (assign "metadata" (VDict (assign "selected" (VBool b) m)) kvs))
  = Done (VBool (automatic m || b)).
Proof.
  unfold ListSelectedExecutor.is_node_selected, automatic.
  cbn [py_getitem]. rewrite lookup_assign_same. cbn [res_bind].
  cbn [ListSelectedExecutor.py_get].
  rewrite lookup_assign_other by discriminate.
  rewrite lookup_assign_same.
  destruct (lookup "inclusion" m) as [v|]; cbn [res_bind].
  - now destruct (py_eqb v (VStr "automatic")).
  - reflexivity.
Qed.

Lemma list_selected_property_metadata_node_run (node : loc) (path : string)
  (w : world ListSelectedExecutor.object) kvs (parts : list string) flag stream props :
  get_at node (doc w) = Some (VDict kvs) ->
  lookup "breadcrumb" kvs = Some (VList (map VStr parts)) ->
  ListSelectedExecutor.is_node_selected (VDict kvs) = Done flag ->
  hashable flag = true ->
  ListSelectedExecutor._stream (self w) = Some stream ->
  hashable stream = true ->
  dict_get stream
    (ListSelectedExecutor.properties (ListSelectedExecutor.collected (self w)))
  = Some props ->
  ListSelectedExecutor.property_metadata_node node path w
  = (World (doc w)
       {| ListSelectedExecutor._stream := Some stream;
          ListSelectedExecutor.collected :=
            {| ListSelectedExecutor.streams :=
                 ListSelectedExecutor.streams
                   (ListSelectedExecutor.collected (self w));
               ListSelectedExecutor.properties :=
                 dict_set stream
                   (set_add (ListSelectedExecutor.same_node String.eqb)
                      (Text.join "." (tl parts), flag) props)
                   (ListSelectedExecutor.properties
                      (ListSelectedExecutor.collected (self w))) |} |},
     Done tt).
Proof.
  intros Hn Hb Hsel Hflag Hs Hh Hp.
  unfold ListSelectedExecutor.property_metadata_node. unfold bind at 1.
  rewrite (run_getitem _ _ _ _ Hn). cbn [py_getitem]. rewrite Hb.
  unfold bind at 1, lift at 1. cbn [py_from1].
  replace (tl (map VStr parts)) with (map VStr (tl parts)) by (now destruct parts).
  unfold bind at 1, lift at 1. rewrite py_join_texts.
  unfold bind at 1. rewrite (run_read _ _ _ Hn).
  unfold bind at 1, lift at 1. rewrite Hsel.
  unfold bind at 1, ListSelectedExecutor.current, bind at 1, get_self. rewrite Hs.
  cbn [ret]. unfold bind at 1. unfold bind at 1, lift at 1, py_lookup.
  rewrite (py_hash_done _ Hh). cbn [res_bind]. rewrite Hp.
  unfold bind at 1, lift at 1. rewrite (py_hash_done _ Hflag).
  unfold put_self. now rewrite Hs.
Qed.

(** X18.  What the selection visitor decides on a property is what the
    listing visitor records for it.  On a metadata entry whose breadcrumb
    is a list of texts, [SelectExecutor] writes the decision on the dotted
    breadcrumb, and [ListSelectedExecutor], called on the entry as it then
    is, adds to the properties of its current stream the pair of the
    dotted breadcrumb without its first element and that decision; but
    for an entry that says [inclusion: automatic] the pair says selected
    whatever the decision was. *)
Theorem selection_is_what_gets_listed
  (patterns : list SelectPattern) (node : loc) (path : string)
  (d : value) (s : SelectExecutor.state) (o : ListSelectedExecutor.object)
  kvs (parts : list string) m stream props :
  get_at node d = Some (VDict kvs) ->
  lookup "breadcrumb" kvs = Some (VList (map VStr parts)) ->
  lookup "metadata" kvs = Some (VDict m) ->
  ListSelectedExecutor._stream o = Some stream ->
  hashable stream = true ->
  dict_get stream (ListSelectedExecutor.properties (ListSelectedExecutor.collected o))
  = Some props ->
  exists decision d' o',
    SelectExecutor.property_match_patterns patterns (VStr (Text.join "." parts))
    = Done decision
    /\ SelectExecutor.property_metadata_node patterns node path (World d s)
       = (World d' s, Done tt)
    /\ ListSelectedExecutor.property_metadata_node node path (World d' o)
       = (World d' o', Done tt)
    /\ dict_get stream
         (ListSelectedExecutor.properties (ListSelectedExecutor.collected o'))
       = Some (set_add (ListSelectedExecutor.same_node String.eqb)
                 (Text.join "." (tl parts), VBool (automatic m || decision)) props)
    /\ ListSelectedExecutor.streams (ListSelectedExecutor.collected o')
       = ListSelectedExecutor.streams (ListSelectedExecutor.collected o).
Proof.
  intros Hn Hb Hm Hs Hh Hp.
  pose proof (property_metadata_node_run patterns node path (World d s) kvs parts m
                Hn Hb Hm) as Hrun.
  cbn [doc self] in Hrun.
  rewrite (set_at_field _ _ _ _ _ _ Hn Hm) in Hrun.
  eexists. eexists. eexists. split; [|split; [exact Hrun|]].
  { unfold SelectExecutor.property_match_patterns. apply match_patterns_text. }
  erewrite list_selected_property_metadata_node_run.
  - cbn [ListSelectedExecutor.collected ListSelectedExecutor.properties
           ListSelectedExecutor.streams doc self].
    split; [reflexivity|]. split; [|reflexivity].
    apply (dict_get_set_same _ _ _ Hh).
  - cbn [doc]. apply (get_at_set_at _ _ _ _ Hn).
  - rewrite lookup_assign_other by discriminate. exact Hb.
  - apply is_node_selected_after_write.
  - reflexivity.
  - exact Hs.
  - exact Hh.
  - exact Hp.
Qed.

Lemma selection_is_what_gets_listed_witness :
  exists decision d' o',
    SelectExecutor.property_match_patterns
      (map parse_select_pattern ["stream1.*"; "!stream1.secret"])
      (VStr (Text.join "." ["stream1"; "secret"]))
    = Done decision
    /\ SelectExecutor.property_metadata_node
         (map parse_select_pattern ["stream1.*"; "!stream1.secret"]) [] ""
         (World (synthetic (VList (map VStr ["stream1"; "secret"]))) None)
       = (World d' None, Done tt)
    /\ ListSelectedExecutor.property_metadata_node [] ""
         (World d'
            {| ListSelectedExecutor._stream := Some (VStr "stream1");
               ListSelectedExecutor.collected :=
                 {| ListSelectedExecutor.streams := [];
                    ListSelectedExecutor.properties := [(VStr "stream1", [])] |} |})
       = (World d' o', Done tt)
    /\ dict_get (VStr "stream1")
         (ListSelectedExecutor.properties (ListSelectedExecutor.collected o'))
       = Some (set_add (ListSelectedExecutor.same_node String.eqb)
                 (Text.join "." (tl ["stream1"; "secret"]),
                  VBool (automatic [("inclusion", VStr "automatic")] || decision))
                 [])
    /\ ListSelectedExecutor.streams (ListSelectedExecutor.collected o') = [].
Proof.
  apply (selection_is_what_gets_listed
           (map parse_select_pattern ["stream1.*"; "!stream1.secret"]) [] ""
           (synthetic (VList (map VStr ["stream1"; "secret"]))) None
           {| ListSelectedExecutor._stream := Some (VStr "stream1");
              ListSelectedExecutor.collected :=
                {| ListSelectedExecutor.streams := [];
                   ListSelectedExecutor.properties := [(VStr "stream1", [])] |} |}
           [("breadcrumb", VList (map VStr ["stream1"; "secret"]));
            ("metadata", VDict [("inclusion", VStr "automatic")])]
           ["stream1"; "secret"] [("inclusion", VStr "automatic")]
           (VStr "stream1") []);
    reflexivity.
Defined.

(** X19.  [ListSelectedExecutor] needs a stream before a metadata entry:
    its [_stream] attribute exists only once [stream_node] has run, so on
    an entry of empty breadcrumb met before any stream node the handler
    raises [AttributeError], which [execute] does not take, and the
    traversal ends with it. *)
Theorem list_selected_metadata_before_stream
  (fuel : nat) (node : loc) (path : string)
  (w : world ListSelectedExecutor.object) kvs breadcrumb :
  get_at node (doc w) = Some (VDict kvs) ->
  lookup "breadcrumb" kvs = Some breadcrumb ->
  py_len breadcrumb = Done 0 ->
  ListSelectedExecutor._stream (self w) = None ->
  Text.search_indexed "streams" path = false ->
  Text.search_indexed "metadata" path = true ->
  CatalogExecutor.execute ListSelectedExecutor.make (Some STREAM_METADATA) node path w
  = (w, Stop (Exn AttributeError))
  /\ visit (S fuel) ListSelectedExecutor.make node path w
     = (w, Stop (Exn AttributeError)).
Proof.
  intros Hn Hb Hlen Hs Hstream Hmeta.
  assert (E : CatalogExecutor.execute ListSelectedExecutor.make (Some STREAM_METADATA)
                node path w
              = (w, Stop (Exn AttributeError))).
  { unfold CatalogExecutor.execute, catch.
    cbn [CatalogExecutor.dispatch ListSelectedExecutor.make
           CatalogExecutor.stream_metadata_node].
    unfold ListSelectedExecutor.stream_metadata_node, bind at 1.
    unfold ListSelectedExecutor.current, bind at 1, get_self.
    rewrite Hs. reflexivity. }
  split; [exact E|].
  assert (Epass : when (Text.search_schema_properties path)
                    (CatalogExecutor.execute ListSelectedExecutor.make
                       (Some STREAM_PROPERTY) node path) w
                  = (w, Done tt)).
  { unfold when. now destruct (Text.search_schema_properties path). }
  cbn [visit]. unfold bind at 1. rewrite (run_read _ _ _ Hn).
  rewrite Hstream, Hmeta. unfold when at 1. unfold bind at 1. cbn [ret].
  unfold bind at 1. rewrite Epass.
  unfold bind at 1. rewrite (run_read _ _ _ Hn).
  unfold has_key. rewrite Hb. cbn [andb]. unfold when.
  unfold bind at 1. unfold bind at 1. rewrite (run_getitem _ _ _ _ Hn).
  cbn [py_getitem]. rewrite Hb. unfold bind at 1, lift at 1. rewrite Hlen.
  cbn [Nat.eqb]. now rewrite E.
Qed.

Lemma list_selected_metadata_before_stream_witness :
  visit 1 ListSelectedExecutor.make [Key "metadata"; Idx 0] ".metadata[0]"
    (World (VDict [("metadata",
                    VList [VDict [("breadcrumb", VList []);
                                  ("metadata", VDict [])]])])
       ListSelectedExecutor.init)
  = (World (VDict [("metadata",
                    VList [VDict [("breadcrumb", VList []);
                                  ("metadata", VDict [])]])])
       ListSelectedExecutor.init,
     Stop (Exn AttributeError)).
Proof.
  apply (proj2 (list_selected_metadata_before_stream 0 [Key "metadata"; Idx 0]
                  ".metadata[0]"
                  (World (VDict [("metadata",
                                  VList [VDict [("breadcrumb", VList []);
                                                ("metadata", VDict [])]])])
                     ListSelectedExecutor.init)
                  [("breadcrumb", VList []); ("metadata", VDict [])] (VList [])
                  eq_refl eq_refl eq_refl eq_refl eq_refl eq_refl)).
Defined.

Lemma dict_get_set_other {A : Type} (k k' : value) (v : A) (d : list (value * A)) :
  dict_ok d -> py_eqb k k' = false ->
  dict_get k' (dict_set k v d) = dict_get k' d.
Proof.
  intros Hok Hk. induction Hok as [|k0 v0 rest Hh _ _ IH]; cbn [dict_set dict_get].
  - now rewrite Hk.
  - destruct (py_eqb k0 k) eqn:E; cbn [dict_get].
    + destruct (py_eqb k0 k') eqn:E'; [|reflexivity].
      rewrite (py_eqb_same_left k0 k k' Hh E E') in Hk. discriminate.
    + now rewrite IH.
Qed.

(** X20.  For [ListSelectedExecutor] a stream node starts its stream
    afresh: it becomes the current stream with an empty set of properties,
    also when the name was met before, so that what was recorded under the
    name until then is dropped; the properties of the other streams and
    the stream-level pairs stay as they are. *)
Theorem list_selected_stream_node_starts_afresh
  (node : loc) (path : string) (w : world ListSelectedExecutor.object) kvs stream :
  get_at node (doc w) = Some (VDict kvs) ->
  lookup "stream" kvs = Some stream ->
  hashable stream = true ->
  dict_ok (ListSelectedExecutor.properties (ListSelectedExecutor.collected (self w))) ->
  exists o',
    ListSelectedExecutor.stream_node node path w = (World (doc w) o', Done tt)
    /\ ListSelectedExecutor._stream o' = Some stream
    /\ dict_get stream
         (ListSelectedExecutor.properties (ListSelectedExecutor.collected o'))
       = Some []
    /\ (forall other,
          py_eqb stream other = false ->
          dict_get other
            (ListSelectedExecutor.properties (ListSelectedExecutor.collected o'))
          = dict_get other
              (ListSelectedExecutor.properties
                 (ListSelectedExecutor.collected (self w))))
    /\ ListSelectedExecutor.streams (ListSelectedExecutor.collected o')
       = ListSelectedExecutor.streams (ListSelectedExecutor.collected (self w)).
Proof.
  intros Hn Hs Hh Hok. eexists. split; [|split; [|split; [|split]]].
  - unfold ListSelectedExecutor.stream_node. unfold bind at 1.
    rewrite (run_getitem _ _ _ _ Hn). cbn [py_getitem]. rewrite Hs.
    unfold bind at 1, get_self. unfold bind at 1, put_self. cbn [doc self].
    unfold bind at 1, lift at 1, py_store. rewrite (py_hash_done _ Hh).
    cbn [res_bind doc]. reflexivity.
  - reflexivity.
  - cbn [ListSelectedExecutor.collected ListSelectedExecutor.properties].
    now apply dict_get_set_same.
  - intros other Hother.
    cbn [ListSelectedExecutor.collected ListSelectedExecutor.properties].
    now apply dict_get_set_other.
  - reflexivity.
Qed.

Lemma list_selected_stream_node_starts_afresh_witness :
  exists o',
    ListSelectedExecutor.stream_node [] ""
      (World (VDict [("stream", VStr "users")])
         {| ListSelectedExecutor._stream := Some (VStr "orders");
            ListSelectedExecutor.collected :=
              {| ListSelectedExecutor.streams := [];
                 ListSelectedExecutor.properties :=
                   [(VStr "users", [("id", VBool true)]);
                    (VStr "orders", [("total", VBool true)])] |} |})
    = (World (VDict [("stream", VStr "users")]) o', Done tt)
    /\ ListSelectedExecutor._stream o' = Some (VStr "users")
    /\ dict_get (VStr "users")
         (ListSelectedExecutor.properties (ListSelectedExecutor.collected o'))
       = Some []
    /\ (forall other,
          py_eqb (VStr "users") other = false ->
          dict_get other
            (ListSelectedExecutor.properties (ListSelectedExecutor.collected o'))
          = dict_get other
              [(VStr "users", [("id", VBool true)]);
               (VStr "orders", [("total", VBool true)])])
    /\ ListSelectedExecutor.streams (ListSelectedExecutor.collected o') = [].
Proof.
  apply (list_selected_stream_node_starts_afresh [] ""
           (World (VDict [("stream", VStr "users")])
              {| ListSelectedExecutor._stream := Some (VStr "orders");
                 ListSelectedExecutor.collected :=
                   {| ListSelectedExecutor.streams := [];
                      ListSelectedExecutor.properties :=
                        [(VStr "users", [("id", VBool true)]);
                         (VStr "orders", [("total", VBool true)])] |} |})
           [("stream", VStr "users")] (VStr "users") eq_refl eq_refl eq_refl).
  repeat constructor.
Defined.

(** ** Selecting and then listing a catalog *)

(** The catalog with stream [stream1], selected under [stream1.*] and
    [!stream1.secret] and then listed: [id] is reported and [secret] is
    not.  On the legacy form of the catalog both are reported, because the
    entries the selection makes up say [inclusion: automatic]. *)
Example selected_then_listed :
  ListSelectedExecutor.selected_properties
    (ListSelectedExecutor.collected
       (listed 16 (fst (select 16 c6_rules c6_catalog))))
  = Done [(VStr "stream1", ["id"])]
  /\ ListSelectedExecutor.selected_properties
       (ListSelectedExecutor.collected
          (listed 16 (fst (select 16 c6_rules c6_legacy))))
     = Done [(VStr "stream1", ["id"; "secret"])].
Proof. split; vm_compute; reflexivity. Qed.

(** [ListExecutor] on the same catalog lists the names of both. *)
Example properties_listed :
  self (fst (visit 16 ListExecutor.make [] "" (World c6_catalog ListExecutor.init)))
  = [(VStr "stream1", ["id"; "secret"])].
Proof. vm_compute. reflexivity. Qed.

(** ** Which paths end in an index *)

Lemma is_newline_char (c : ascii) : Text.is_newline c = true -> c = ascii_of_nat 10.
Proof.
  unfold Text.is_newline, Text.code. intros H. apply N.eqb_eq in H.
  rewrite <- (ascii_N_embedding c), H. reflexivity.
Qed.

Lemma numeral_chars (digits : string) :
  numeral digits = true ->
  Text.chars digits <> [] /\ forallb Text.is_digit (Text.chars digits) = true.
Proof.
  unfold numeral. rewrite andb_true_iff, negb_true_iff, String.eqb_neq.
  intros [Hne Hd]. split; [|exact Hd].
  intros E. apply Hne. apply chars_inj. now rewrite E.
Qed.

Lemma chars_numeral (ds : list ascii) :
  ds <> [] -> forallb Text.is_digit ds = true -> numeral (Text.text ds) = true.
Proof.
  intros Hne Hd. unfold numeral. rewrite chars_text, Hd, andb_true_r.
  apply negb_true_iff, String.eqb_neq. intros E. apply Hne.
  rewrite <- (chars_text ds), E. reflexivity.
Qed.

Lemma search_indexed_suffix (name prefix digits ending : string) :
  numeral digits = true ->
  ending = EmptyString \/ ending = newline ->
  Text.search_indexed name (prefix ++ name ++ "[" ++ digits ++ "]" ++ ending) = true.
Proof.
  intros Hnum Hend. destruct (numeral_chars _ Hnum) as [Hne Hd].
  unfold Text.search_indexed.
  assert (E : forall c : ascii,
             rev (Text.chars (prefix ++ name ++ "[" ++ digits ++ String c EmptyString))
             = c :: rev (Text.chars digits)
                 ++ ("["%char :: rev (Text.chars name)) ++ rev (Text.chars prefix)).
  { intros c. rewrite !chars_app.
    change (Text.chars "[") with ["["%char].
    change (Text.chars (String c EmptyString)) with [c].
    rewrite !rev_app_distr. cbn [rev app]. now rewrite <- !app_assoc. }
  assert (Hcore :
            (List.length
               (Text.drop_while Text.is_digit
                  (rev (Text.chars digits)
                   ++ ("["%char :: rev (Text.chars name)) ++ rev (Text.chars prefix)))
             <? List.length
                  (rev (Text.chars digits)
                   ++ ("["%char :: rev (Text.chars name)) ++ rev (Text.chars prefix)))
            && match Text.strip_prefix ("["%char :: rev (Text.chars name))
                       (Text.drop_while Text.is_digit
                          (rev (Text.chars digits)
                           ++ ("["%char :: rev (Text.chars name))
                           ++ rev (Text.chars prefix))) with
               | Some _ => true
               | None => false
               end = true).
  { rewrite drop_while_app by (now rewrite forallb_rev).
    cbn [app Text.drop_while]. change (Text.is_digit "["%char) with false.
    cbv iota.
    change ("["%char :: rev (Text.chars name) ++ rev (Text.chars prefix))
      with (("["%char :: rev (Text.chars name)) ++ rev (Text.chars prefix)).
    rewrite strip_prefix_app, andb_true_r. apply Nat.ltb_lt.
    rewrite (length_app (rev (Text.chars digits))), length_rev.
    destruct (Text.chars digits); [contradiction|]. cbn [List.length]. lia. }
  destruct Hend as [->| ->].
  - change (prefix ++ name ++ "[" ++ digits ++ "]" ++ "")%string
      with (prefix ++ name ++ "[" ++ digits ++ String "]"%char EmptyString)%string.
    rewrite E. change (Text.is_newline "]"%char) with false. cbv iota.
    rewrite Ascii.eqb_refl. exact Hcore.
  - unfold newline.
    replace (prefix ++ name ++ "[" ++ digits ++ "]" ++ String (ascii_of_nat 10) "")%string
      with ((prefix ++ name ++ "[" ++ digits ++ "]") ++ String (ascii_of_nat 10) "")%string
      by (now rewrite !append_assoc).
    rewrite chars_app.
    change (Text.chars (String (ascii_of_nat 10) "")) with [ascii_of_nat 10].
    rewrite rev_app_distr. cbn [rev app].
    change (Text.is_newline (ascii_of_nat 10)) with true. cbv iota.
    change (prefix ++ name ++ "[" ++ digits ++ "]")%string
      with (prefix ++ name ++ "[" ++ digits ++ String "]"%char EmptyString)%string.
    rewrite E. rewrite Ascii.eqb_refl. exact Hcore.
Qed.

Lemma rev_chars_path (path : string) (r : list ascii) :
  rev (Text.chars path) = r -> path = Text.text (rev r).
Proof. intros <-. now rewrite rev_involutive, text_chars. Qed.

Lemma search_indexed_shape (name path : string) :
  Text.search_indexed name path = true ->
  exists prefix digits ending,
    numeral digits = true
    /\ (ending = EmptyString \/ ending = newline)
    /\ path = (prefix ++ name ++ "[" ++ digits ++ "]" ++ ending)%string.
Proof.
  unfold Text.search_indexed.
  assert (Hcore : forall r,
             match r with
             | c :: r1 =>
                 if Ascii.eqb c "]"%char
                 then (List.length (Text.drop_while Text.is_digit r1) <? List.length r1)
                      && match Text.strip_prefix ("["%char :: rev (Text.chars name))
                                 (Text.drop_while Text.is_digit r1) with
                         | Some _ => true
                         | None => false
                         end
                 else false
             | [] => false
             end = true ->
             exists ds rest,
               ds <> [] /\ forallb Text.is_digit ds = true
               /\ r = "]"%char :: ds ++ ("["%char :: rev (Text.chars name)) ++ rest).
  { intros [|c r1]; [discriminate|].
    destruct (Ascii.eqb c "]"%char) eqn:Ec; [|discriminate].
    apply Ascii.eqb_eq in Ec. subst c.
    rewrite andb_true_iff, Nat.ltb_lt. intros [Hlen Hstrip].
    destruct (take_drop_while Text.is_digit r1) as (Hsplit & Hd & _).
    destruct (Text.strip_prefix ("["%char :: rev (Text.chars name))
                (Text.drop_while Text.is_digit r1)) as [rest|] eqn:Es;
      [|discriminate].
    apply strip_prefix_some in Es.
    exists (Text.take_while Text.is_digit r1), rest. split; [|split; [exact Hd|]].
    - intros E. rewrite E in Hsplit. cbn [app] in Hsplit.
      rewrite <- Hsplit in Hlen. lia.
    - rewrite <- Es. now f_equal. }
  assert (Hpath : forall ds rest ending,
             ds <> [] -> forallb Text.is_digit ds = true ->
             (ending = EmptyString \/ ending = newline) ->
             rev (Text.chars path)
             = rev (Text.chars ending)
               ++ "]"%char :: ds ++ ("["%char :: rev (Text.chars name)) ++ rest ->
             exists prefix digits ending,
               numeral digits = true
               /\ (ending = EmptyString \/ ending = newline)
               /\ path = (prefix ++ name ++ "[" ++ digits ++ "]" ++ ending)%string).
  { intros ds rest ending Hne Hd Hend Hr.
    exists (Text.text (rev rest)), (Text.text (rev ds)), ending.
    split; [|split; [exact Hend|]].
    - apply chars_numeral; [|now rewrite forallb_rev].
      intros E. apply Hne. rewrite <- (rev_involutive ds), E. reflexivity.
    - apply chars_inj. rewrite <- (rev_involutive (Text.chars path)), Hr.
      rewrite !chars_app, !chars_text.
      change (Text.chars "[") with ["["%char].
      change (Text.chars "]") with ["]"%char].
      rewrite !rev_app_distr. cbn [rev]. rewrite !rev_app_distr, !rev_involutive.
      cbn [rev app]. rewrite <- !app_assoc, !rev_involutive. reflexivity. }
  destruct (rev (Text.chars path)) as [|c r'] eqn:Er; [discriminate|].
  destruct (Text.is_newline c) eqn:Enl.
  - intros H. destruct (Hcore r' H) as (ds & rest & Hne & Hd & ->).
    apply is_newline_char in Enl. subst c.
    apply (Hpath ds rest newline Hne Hd); [now right|reflexivity].
  - intros H. destruct (Hcore (c :: r') H) as (ds & rest & Hne & Hd & Heq).
    apply (Hpath ds rest EmptyString Hne Hd); [now left|exact Heq].
Qed.

Lemma digits_of_uint (u : Decimal.uint) :
  forallb Text.is_digit (Text.chars (NilEmpty.string_of_uint u)) = true.
Proof. induction u; cbn [NilEmpty.string_of_uint]; try reflexivity; exact IHu. Qed.

Lemma decimal_numeral (i : nat) : numeral (Text.decimal i) = true.
Proof.
  unfold Text.decimal, NilZero.string_of_uint.
  destruct (Nat.to_uint i) as [|u|u|u|u|u|u|u|u|u|u] eqn:E; [reflexivity|..];
    unfold numeral; rewrite digits_of_uint, andb_true_r; reflexivity.
Qed.

(** X21.  A path passes the test for an indexed node of [name] exactly
    when it ends in [name], an opening bracket, a decimal numeral and a
    closing bracket, one final newline apart; what stands before [name]
    does not matter, so an element of a list under any key that ends in
    [streams] is taken for a stream.  The paths the traversal makes for
    the elements of a list under [name] pass the test.  Every call of a
    traversal has a path of the shape for its kind: [streams[n]] for a
    stream, [metadata[n]] for the two kinds of metadata entries. *)
Theorem indexed_path_shape (name path : string) :
  (Text.search_indexed name path = true <->
   exists prefix digits ending,
     numeral digits = true
     /\ (ending = EmptyString \/ ending = newline)
     /\ path = (prefix ++ name ++ "[" ++ digits ++ "]" ++ ending)%string)
  /\ (forall prefix i,
        Text.search_indexed name (prefix ++ name ++ "[" ++ Text.decimal i ++ "]")
        = true)
  /\ (forall fuel catalog kind node,
        In (kind, node, path) (Tracer.calls fuel catalog) ->
        shaped kind path = true).
Proof.
  split; [|split].
  - split; [apply search_indexed_shape|].
    intros (prefix & digits & ending & Hnum & Hend & ->).
    now apply search_indexed_suffix.
  - intros prefix i.
    change (prefix ++ name ++ "[" ++ Text.decimal i ++ "]")%string
      with (prefix ++ name ++ "[" ++ Text.decimal i ++ "]" ++ "")%string.
    apply search_indexed_suffix; [apply decimal_numeral|now left].
  - intros fuel catalog kind node. unfold Tracer.calls.
    assert (Hexec : forall k0 n0 p0 (w : world (list (CatalogNode * loc * string))),
               (forall k n p, In (k, n, p) (self w) -> shaped k p = true) ->
               dispatchable k0 n0 p0 w ->
               forall k n p,
                 In (k, n, p)
                   (self (fst (CatalogExecutor.execute Tracer.make (Some k0) n0 p0 w))) ->
                 shaped k p = true).
    { intros k0 n0 p0 w Hw Hd k n p.
      rewrite tracer_is_quiet. cbn [fst self]. unfold Tracer.noted.
      intros Hin. apply in_app_or in Hin. destruct Hin as [Hin|[Heq|[]]].
      + apply (Hw _ _ _ Hin).
      + inversion Heq; subst. destruct k; cbn [shaped dispatchable] in *;
          try exact Hd; apply (proj1 Hd). }
    apply (proj1 (visit_keeps Tracer.make
                    (fun w => forall k n p, In (k, n, p) (self w) ->
                                            shaped k p = true)
                    Hexec fuel)).
    intros k n p [].
Qed.

(* ================================================================== *)
(** * Two passes over a catalog *)

Example catalogs_are_shaped :
  catalog_shaped c6_catalog = true
  /\ catalog_shaped c6_legacy = true
  /\ catalog_shaped c7_catalog = true.
Proof. repeat split; vm_compute; reflexivity. Qed.

(** ** Paths of streams and of their entries *)

Lemma search_indexed_after (name base digits : string) :
  numeral digits = true ->
  Text.search_indexed name (base ++ "[" ++ digits ++ "]")
  = match Text.strip_prefix (rev (Text.chars name)) (rev (Text.chars base)) with
    | Some _ => true
    | None => false
    end.
Proof.
  intros Hnum. destruct (numeral_chars _ Hnum) as [Hne Hd].
  unfold Text.search_indexed.
  rewrite !chars_app.
  change (Text.chars "[") with ["["%char]. change (Text.chars "]") with ["]"%char].
  rewrite !rev_app_distr. cbn [rev app]. rewrite <- !app_assoc. cbn [app].
  change (Text.is_newline "]"%char) with false. cbv iota.
  rewrite Ascii.eqb_refl.
  rewrite drop_while_app by (now rewrite forallb_rev).
  cbn [Text.drop_while]. change (Text.is_digit "["%char) with false. cbv iota.
  cbn [Text.strip_prefix]. rewrite Ascii.eqb_refl.
  replace (List.length ("["%char :: rev (Text.chars base))
           <? List.length (rev (Text.chars digits) ++ "["%char :: rev (Text.chars base)))
    with true; [reflexivity|].
  symmetry. apply Nat.ltb_lt. rewrite length_app, length_rev.
  destruct (Text.chars digits); [contradiction|]. cbn [List.length]. lia.
Qed.

Lemma search_from_without_h (s : list ascii) :
  forallb (fun c => negb (Ascii.eqb c "h"%char)) s = true ->
  Text.search_from s = false.
Proof.
  induction s as [|a s IH]; [reflexivity|].
  intros H. pose proof H as H0. cbn [forallb] in H.
  apply andb_true_iff in H. destruct H as [_ Hs].
  cbn [Text.search_from]. rewrite (IH Hs), orb_false_r.
  unfold Text.schema_properties.
  change (Text.chars "schema.properties.")
    with ("s"%char :: "c"%char :: "h"%char :: Text.chars "ema.properties.").
  cbn [Text.strip_prefix].
  destruct (Ascii.eqb "s"%char a); [|reflexivity].
  destruct s as [|b s]; [reflexivity|].
  destruct (Ascii.eqb "c"%char b); [|reflexivity].
  destruct s as [|c s]; [reflexivity|].
  cbn [forallb] in H0. rewrite !andb_true_iff in H0.
  destruct H0 as (_ & _ & Hc & _). apply negb_true_iff in Hc.
  rewrite Ascii.eqb_sym, Hc. reflexivity.
Qed.

Lemma digits_without_h (s : list ascii) :
  forallb Text.is_digit s = true ->
  forallb (fun c => negb (Ascii.eqb c "h"%char)) s = true.
Proof.
  induction s as [|a s IH]; [reflexivity|].
  cbn [forallb]. rewrite !andb_true_iff. intros [Ha Hs]. split; [|now apply IH].
  apply negb_true_iff. destruct (Ascii.eqb_spec a "h"%char) as [->|]; [|reflexivity].
  discriminate Ha.
Qed.

Lemma decimal_without_h (i : nat) :
  forallb (fun c => negb (Ascii.eqb c "h"%char)) (Text.chars (Text.decimal i)) = true.
Proof.
  apply digits_without_h. exact (proj2 (numeral_chars _ (decimal_numeral i))).
Qed.

(** The path of a stream is taken for a stream and for nothing else. *)
Lemma stream_path (i : nat) :
  Text.search_indexed "streams" (".streams" ++ "[" ++ Text.decimal i ++ "]") = true
  /\ Text.search_schema_properties (".streams" ++ "[" ++ Text.decimal i ++ "]") = false
  /\ Text.search_indexed "metadata" (".streams" ++ "[" ++ Text.decimal i ++ "]") = false.
Proof.
  split; [|split].
  - now rewrite (search_indexed_after _ _ _ (decimal_numeral i)).
  - unfold Text.search_schema_properties. apply search_from_without_h.
    rewrite !chars_app, !forallb_app, decimal_without_h. reflexivity.
  - now rewrite (search_indexed_after _ _ _ (decimal_numeral i)).
Qed.

(** The path of an entry of a stream is taken for a metadata entry and
    for nothing else. *)
Lemma entry_path (i j : nat) :
  let path := (((".streams" ++ "[" ++ Text.decimal i ++ "]") ++ "." ++ "metadata")
               ++ "[" ++ Text.decimal j ++ "]")%string in
  Text.search_indexed "streams" path = false
  /\ Text.search_schema_properties path = false
  /\ Text.search_indexed "metadata" path = true.
Proof.
  cbv zeta. split; [|split].
  - rewrite (search_indexed_after _ _ _ (decimal_numeral j)).
    rewrite (chars_app _ ("." ++ "metadata")), rev_app_distr. reflexivity.
  - unfold Text.search_schema_properties. apply search_from_without_h.
    rewrite !chars_app, !forallb_app, !decimal_without_h. reflexivity.
  - rewrite (search_indexed_after _ _ _ (decimal_numeral j)).
    rewrite (chars_app _ ("." ++ "metadata")), rev_app_distr.
    change (rev (Text.chars ("." ++ "metadata")))
      with (rev (Text.chars "metadata") ++ ["."%char]).
    rewrite <- app_assoc. now rewrite strip_prefix_app.
Qed.

(** The path of the metadata of such an entry is taken for nothing. *)
Lemma entry_metadata_path (i j : nat) (name : string) :
  let path := ((((".streams" ++ "[" ++ Text.decimal i ++ "]") ++ "." ++ "metadata")
                ++ "[" ++ Text.decimal j ++ "]") ++ "." ++ "metadata")%string in
  Text.search_indexed name path = false
  /\ Text.search_schema_properties path = false.
Proof.
  cbv zeta. split.
  - unfold Text.search_indexed.
    rewrite (chars_app _ ("." ++ "metadata")), rev_app_distr. reflexivity.
  - unfold Text.search_schema_properties. apply search_from_without_h.
    rewrite !chars_app, !forallb_app, !decimal_without_h. reflexivity.
Qed.

(** ** Locations and loops *)

Lemma set_nth_same {A : Type} (i : nat) (x : A) xs :
  nth_error xs i = Some x -> set_nth i x xs = xs.
Proof.
  revert i. induction xs as [|y rest IH]; intros [|i] H; cbn in *; try discriminate.
  - now inversion H.
  - now rewrite (IH _ H).
Qed.

Lemma set_at_same l x d : get_at l d = Some x -> set_at l x d = d.
Proof.
  revert d. induction l as [|s l IH]; intros d H; cbn in *.
  - now inversion H.
  - destruct (child s d) as [c|] eqn:Ec; [|discriminate].
    rewrite (IH _ H). destruct s as [k|i], d; cbn in *; try discriminate.
    + now rewrite (assign_same _ _ _ Ec).
    + now rewrite (set_nth_same _ _ _ Ec).
Qed.

Lemma lookup_in {A : Type} (k : string) (x : A) kvs :
  lookup k kvs = Some x -> In (k, x) kvs.
Proof.
  induction kvs as [|[k0 x0] rest IH]; cbn [lookup]; [discriminate|].
  destruct (String.eqb k0 k) eqn:E.
  - apply String.eqb_eq in E. intros H. inversion H. subst. now left.
  - intros H. right. now apply IH.
Qed.

Lemma in_keys_lookup {A : Type} (k : string) (kvs : list (string * A)) :
  In k (keys kvs) -> exists x, lookup k kvs = Some x.
Proof.
  induction kvs as [|[k0 x0] rest IH]; cbn [keys map fst lookup]; [intros []|].
  intros [->|Hin].
  - rewrite String.eqb_refl. now exists x0.
  - destruct (String.eqb k0 k); [now exists x0|]. now apply IH.
Qed.

Lemma execute_done {T : Type} (ex : CatalogExecutor.t T) kind node path w w' :
  CatalogExecutor.dispatch ex kind node path w = (w', Done tt) ->
  CatalogExecutor.execute ex (Some kind) node path w = (w', Done tt).
Proof. intros H. unfold CatalogExecutor.execute, catch. now rewrite H. Qed.

Lemma for_each_idle {T A : Type} (f : A -> M T unit) (xs : list A) (w : world T) :
  (forall x, In x xs -> f x w = (w, Done tt)) -> for_each xs f w = (w, Done tt).
Proof.
  induction xs as [|x rest IH]; intros H; [reflexivity|].
  cbn [for_each]. unfold bind. rewrite (H x (or_introl eq_refl)).
  apply IH. intros y Hy. apply H. now right.
Qed.

(** ** Where the traversal calls no handler *)

Lemma calm_fields_lookup (c : string -> value -> bool) path kvs k x :
  calm_fields c path kvs = true -> lookup k kvs = Some x ->
  c (path ++ "." ++ k)%string x = true.
Proof.
  induction kvs as [|[k0 x0] rest IH]; cbn [calm_fields lookup]; [discriminate|].
  rewrite andb_true_iff. intros [H0 Hrest].
  destruct (String.eqb k0 k) eqn:E.
  - apply String.eqb_eq in E. subst. intros H. now inversion H; subst.
  - now apply IH.
Qed.

Lemma visit_list_calm {T : Type} (ex : CatalogExecutor.t T) (l : loc) (path : string)
  (xs : list value) (w : world T) :
  get_at l (doc w) = Some (VList xs) ->
  forall todo done,
    xs = done ++ todo ->
    calm_elements (calm false) path todo (List.length done) = true ->
    Forall (fun x =>
              forall path fuel l (w : world T),
                calm false path x = true -> depth x <= fuel ->
                get_at l (doc w) = Some x ->
                visit fuel ex l path w = (w, Done tt)) todo ->
    forall fuel,
      depth (VList todo) <= S fuel ->
      visit_list fuel ex l path (List.length done) w = (w, Done tt).
Proof.
  intros Hl todo. induction todo as [|x rest IH]; intros done Hxs Hc Hall fuel Hf.
  - destruct fuel as [|fuel]; [cbn [depth] in Hf; lia|].
    cbn [visit_list]. unfold bind. rewrite (run_read l w _ Hl).
    rewrite Hxs, app_nil_r, Nat.ltb_irrefl. reflexivity.
  - destruct fuel as [|fuel]; [cbn [depth] in Hf; lia|].
    cbn [visit_list]. unfold bind at 1. rewrite (run_read l w _ Hl).
    assert (Hlt : (List.length done <? List.length xs) = true).
    { apply Nat.ltb_lt. rewrite Hxs, length_app. cbn [List.length]. lia. }
    rewrite Hlt. unfold bind at 1.
    cbn [calm_elements] in Hc. apply andb_true_iff in Hc. destruct Hc as [Hx Hrest].
    inversion Hall as [|x' rest' Hvx Hvrest]; subst x' rest'.
    rewrite (Hvx _ fuel _ w Hx).
    2:{ cbn [depth] in Hf. lia. }
    2:{ rewrite get_at_app, Hl. cbn [get_at child].
        rewrite Hxs, nth_error_app2, Nat.sub_diag by lia. reflexivity. }
    specialize (IH (done ++ [x])). rewrite length_app in IH.
    cbn [List.length] in IH. rewrite Nat.add_1_r in IH.
    apply IH; [now rewrite <- app_assoc|exact Hrest|exact Hvrest|].
    cbn [depth] in *. lia.
Qed.

(** Where the traversal calls no handler, it leaves everything as it
    was, whatever the executor. *)
Lemma visit_calm {T : Type} (ex : CatalogExecutor.t T) (x : value) :
  forall path fuel l (w : world T),
    calm false path x = true -> depth x <= fuel ->
    get_at l (doc w) = Some x ->
    visit fuel ex l path w = (w, Done tt).
Proof.
  induction x as [|b|z|t|xs IH|kvs IH] using value_ind;
    intros path fuel l w Hc Hf Hl;
    (destruct fuel as [|fuel]; [cbn [depth] in Hf; lia|]).
  1-4: cbn [visit]; unfold bind; rewrite (run_read l w _ Hl); reflexivity.
  - cbn [visit]. unfold bind at 1. rewrite (run_read l w _ Hl).
    apply (visit_list_calm ex l path xs w Hl xs [] eq_refl); [exact Hc|exact IH|exact Hf].
  - cbn [calm] in Hc. rewrite !andb_true_iff, !negb_true_iff in Hc.
    destruct Hc as [[[Hs Hp] Hm] Hfields]. cbn [orb] in Hp.
    apply negb_true_iff in Hp.
    cbn [visit]. unfold bind at 1. rewrite (run_read l w _ Hl).
    rewrite Hs, Hp. cbn [when]. unfold bind at 1, ret at 1.
    unfold bind at 1, ret at 1. unfold bind at 1. rewrite (run_read l w _ Hl).
    rewrite Hm. cbn [when]. unfold bind at 1, ret at 1.
    unfold bind. rewrite (run_read l w _ Hl).
    apply for_each_idle. intros k Hk.
    destruct (in_keys_lookup _ _ Hk) as [x Hx].
    pose proof (lookup_in _ _ _ Hx) as Hin.
    rewrite Forall_forall in IH.
    apply (IH (k, x) Hin).
    + apply (calm_fields_lookup _ _ _ _ _ Hfields Hx).
    + pose proof (depth_field _ _ _ Hin). cbn [snd]. lia.
    + apply (get_at_key _ _ _ _ _ Hl Hx).
Qed.

(** ** Entries and the search among them *)

Lemma texts_are_text (parts : list string) : forallb is_text (map VStr parts) = true.
Proof. induction parts as [|p rest IH]; [reflexivity|exact IH]. Qed.

Lemma texts_map (parts : list value) :
  forallb is_text parts = true -> parts = map VStr (texts parts).
Proof.
  induction parts as [|p rest IH]; [reflexivity|].
  cbn [forallb]. rewrite andb_true_iff. intros [Hp Hrest].
  destruct p; try discriminate. cbn [texts map]. now rewrite <- (IH Hrest).
Qed.

Lemma entry_ok_fields (entry : value) :
  entry_ok entry = true ->
  exists e parts m,
    entry = VDict e
    /\ lookup "breadcrumb" e = Some (VList parts)
    /\ forallb is_text parts = true
    /\ lookup "metadata" e = Some (VDict m)
    /\ forallb (fun f => no_dict (snd f)) m = true
    /\ forallb entry_field_ok e = true.
Proof.
  destruct entry as [| | | | |e]; try discriminate. cbn [entry_ok].
  rewrite !andb_true_iff. unfold has_key. intros [[Hb Hm] Hall].
  destruct (lookup "breadcrumb" e) as [b|] eqn:Eb; [|discriminate].
  destruct (lookup "metadata" e) as [md|] eqn:Em; [|discriminate].
  pose proof (forallb_lookup _ _ _ _ Hall Eb) as Hb'.
  pose proof (forallb_lookup _ _ _ _ Hall Em) as Hm'.
  unfold entry_field_ok in Hb', Hm'. cbn [fst snd] in Hb', Hm'.
  change (String.eqb "breadcrumb" "metadata") with false in Hb'.
  change (String.eqb "breadcrumb" "breadcrumb") with true in Hb'.
  change (String.eqb "metadata" "metadata") with true in Hm'.
  cbv iota in Hb', Hm'.
  destruct b as [| | | |parts|]; try discriminate.
  destruct md as [| | | | |m]; try discriminate.
  exists e, parts, m. repeat split; assumption.
Qed.

Lemma synthetic_entry_ok (name : string) (components : list string) :
  entry_ok (synthetic (crumb name components)) = true.
Proof.
  unfold synthetic, crumb, entry_ok, entry_field_ok. cbn [has_key lookup forallb fst snd].
  change (String.eqb "breadcrumb" "breadcrumb") with true.
  change (String.eqb "breadcrumb" "metadata") with false.
  change (String.eqb "metadata" "metadata") with true.
  change (String.eqb "metadata" "breadcrumb") with false.
  cbv iota. cbn [is_text andb forallb no_dict snd]. now rewrite texts_are_text.
Qed.

Lemma backfill_one_entry_ok name md components :
  forallb entry_ok md = true ->
  forallb entry_ok (backfill_one name md components) = true.
Proof.
  intros H. unfold backfill_one.
  destruct (existsb (holds (crumb name components)) md); [exact H|].
  rewrite forallb_app, H. cbn [forallb]. now rewrite synthetic_entry_ok.
Qed.

Lemma backfill_entry_ok name properties :
  forall md, forallb entry_ok md = true ->
             forallb entry_ok (backfill name md properties) = true.
Proof.
  induction properties as [|p rest IH]; intros md H; [exact H|].
  cbn [backfill fold_left]. apply IH. now apply backfill_one_entry_ok.
Qed.

Lemma backfill_app name md a b :
  backfill name md (a ++ b) = backfill name (backfill name md a) b.
Proof. apply fold_left_app. Qed.

Lemma has_breadcrumb_holds breadcrumb entry :
  entry_ok entry = true ->
  SelectExecutor.has_breadcrumb breadcrumb entry = Done (holds breadcrumb entry).
Proof.
  intros H. destruct (entry_ok_fields _ H) as (e & parts & m & -> & Hb & _).
  unfold SelectExecutor.has_breadcrumb, holds. cbn [py_getitem]. now rewrite Hb.
Qed.

Lemma next_from_holds breadcrumb md :
  forallb entry_ok md = true ->
  forall i,
    if existsb (holds breadcrumb) md
    then exists j, next_from (SelectExecutor.has_breadcrumb breadcrumb) i md = Done j
    else next_from (SelectExecutor.has_breadcrumb breadcrumb) i md = raise StopIteration.
Proof.
  induction md as [|e rest IH]; intros H i; [reflexivity|].
  cbn [forallb] in H. apply andb_true_iff in H. destruct H as [He Hrest].
  cbn [existsb next_from]. rewrite (has_breadcrumb_holds _ _ He). cbn [res_bind].
  destruct (holds breadcrumb e); cbn [orb]; [now exists i|].
  apply (IH Hrest).
Qed.

Lemma no_dict_calm (x : value) :
  no_dict x = true -> forall properties path, calm properties path x = true.
Proof.
  induction x as [|b|z|t|xs IH|kvs IH] using value_ind; try reflexivity;
    [|discriminate].
  cbn [no_dict calm]. intros H properties path. generalize 0.
  induction xs as [|x rest IHrest]; intros index; [reflexivity|].
  cbn [forallb] in H. apply andb_true_iff in H. destruct H as [Hx Hrest].
  inversion IH as [|x' rest' Hvx Hvrest]; subst x' rest'.
  cbn [calm_elements]. rewrite (Hvx Hx), (IHrest Hvrest Hrest). reflexivity.
Qed.

Lemma no_dict_calm_fields properties path (m : list (string * value)) :
  forallb (fun f => no_dict (snd f)) m = true ->
  calm_fields (calm properties) path m = true.
Proof.
  induction m as [|[k x] rest IH]; [reflexivity|].
  cbn [forallb snd calm_fields]. rewrite andb_true_iff. intros [Hx Hrest].
  now rewrite (no_dict_calm _ Hx), (IH Hrest).
Qed.

Lemma texts_no_dict (parts : list value) :
  forallb is_text parts = true -> no_dict (VList parts) = true.
Proof.
  cbn [no_dict]. induction parts as [|p rest IH]; [reflexivity|].
  cbn [forallb]. rewrite !andb_true_iff. intros [Hp Hrest]. split; [|now apply IH].
  now destruct p.
Qed.

Lemma mark_entry_ok patterns name entry :
  entry_ok entry = true -> entry_ok (mark patterns name entry) = true.
Proof.
  intros H. destruct (entry_ok_fields _ H) as (e & parts & m & -> & Hb & Hp & Hm & Hnd & Hall).
  cbn [mark]. rewrite Hb, Hm. cbn [entry_ok].
  cbn [entry_ok] in H. rewrite !andb_true_iff in H. destruct H as [[H1 H2] _].
  rewrite (has_key_assign_other _ _ _ _ H1), (has_key_assign_other _ _ _ _ H2).
  cbn [andb]. apply forallb_assign; [exact Hall|].
  unfold entry_field_ok. cbn [fst snd].
  change (String.eqb "metadata" "metadata") with true. cbv iota.
  now apply forallb_assign.
Qed.

Lemma set_nth_middle {A : Type} (done : list A) x y rest :
  set_nth (List.length done) y (done ++ x :: rest) = done ++ y :: rest.
Proof. induction done as [|a done IH]; [reflexivity|]. cbn. now rewrite IH. Qed.

Lemma bounded {A : Type} (f : A -> nat) (xs : list A) :
  exists n, forall x, In x xs -> f x <= n.
Proof.
  induction xs as [|a rest [n IH]]; [exists 0; intros x []|].
  exists (Nat.max (f a) n). intros x [->|Hin]; [lia|].
  specialize (IH x Hin). lia.
Qed.

(** ** Below a stream *)

Section Below.

Variable rules : list string.
Variable stream : loc.
Variable name : string.
Variable base : list (string * value).

Hypothesis Hname : lookup "stream" base = Some (VStr name).

Lemma standing_staged md (w : world (option loc)) y :
  get_at stream (doc w) = Some y -> standing stream base md (staged stream base md w).
Proof.
  intros H. split; [reflexivity|]. cbn [staged doc]. apply (get_at_set_at _ _ _ _ H).
Qed.

Lemma staged_staged md md' (w : world (option loc)) :
  staged stream base md' (staged stream base md w) = staged stream base md' w.
Proof. unfold staged. cbn [doc]. now rewrite set_at_set_at. Qed.

Lemma staged_same md (w : world (option loc)) :
  standing stream base md w -> staged stream base md w = w.
Proof.
  intros [Hs Hd]. unfold staged. rewrite (set_at_same _ _ _ Hd).
  destruct w as [d s]. cbn [self] in Hs. now rewrite Hs.
Qed.

Lemma standing_below md (w : world (option loc)) k r :
  standing stream base md w -> k <> "metadata" ->
  get_at (stream ++ Key k :: r) (doc w) = get_at (Key k :: r) (VDict base).
Proof.
  intros [_ Hd] Hk. rewrite get_at_app, Hd. cbn [get_at child].
  rewrite lookup_assign_other by congruence. reflexivity.
Qed.

Lemma standing_entries md (w : world (option loc)) :
  standing stream base md w ->
  get_at (stream ++ [Key "metadata"]) (doc w) = Some (VList md).
Proof.
  intros [_ Hd]. apply (get_at_key _ _ _ _ _ Hd). apply lookup_assign_same.
Qed.

Lemma staged_entries md md' (w : world (option loc)) :
  standing stream base md w ->
  World (set_at (stream ++ [Key "metadata"]) (VList md') (doc w)) (Some stream)
  = staged stream base md' w.
Proof.
  intros [_ Hd]. unfold staged.
  rewrite (set_at_field _ _ _ _ _ _ Hd (lookup_assign_same _ _ _)).
  now rewrite assign_assign.
Qed.

(** [property_node] below the stream: the entries get one for the
    property, unless they have one. *)
Lemma property_node_staged md (w : world (option loc)) node path :
  standing stream base md w ->
  forallb entry_ok md = true ->
  SelectExecutor.property_node (map parse_select_pattern rules) node path w
  = (staged stream base (backfill_one name md (Text.findall_properties path)) w,
     Done tt).
Proof.
  intros Hst Hok. pose proof Hst as [Hs Hd].
  rewrite (property_node_run _ node path w stream _ (VStr name) md Hs Hd).
  2:{ rewrite lookup_assign_other by discriminate. exact Hname. }
  2:{ apply lookup_assign_same. }
  unfold backfill_one, next_index. cbn [py_iter res_bind].
  pose proof (next_from_holds (crumb name (Text.findall_properties path)) md Hok 0) as H.
  change (VList (VStr name :: map VStr (Text.findall_properties path)))
    with (crumb name (Text.findall_properties path)).
  destruct (existsb (holds (crumb name (Text.findall_properties path))) md).
  - destruct H as [j ->]. now rewrite (staged_same _ _ Hst).
  - rewrite H. unfold raise. rewrite Hs. now rewrite (staged_entries md _ w Hst).
Qed.

Lemma for_each_properties (fuel : nat) (k : string) (r : loc) (path : string)
  (xkvs : list (string * value)) :
  k <> "metadata" ->
  get_at (Key k :: r) (VDict base) = Some (VDict xkvs) ->
  forall fs,
    (forall k' x', In (k', x') fs -> lookup k' xkvs = Some x') ->
    Forall (fun kv =>
              forall path k r (w : world (option loc)) md,
                calm true path (snd kv) = true ->
                standing stream base md w ->
                forallb entry_ok md = true ->
                k <> "metadata" ->
                get_at (Key k :: r) (VDict base) = Some (snd kv) ->
                visit fuel (SelectExecutor.make rules) (stream ++ Key k :: r) path w
                = (staged stream base (backfill name md (needed path (snd kv))) w,
                   Done tt)) fs ->
    calm_fields (calm true) path fs = true ->
    forall (w : world (option loc)) md,
      standing stream base md w ->
      forallb entry_ok md = true ->
      for_each (keys fs)
        (fun child_path =>
           visit fuel (SelectExecutor.make rules)
             ((stream ++ Key k :: r) ++ [Key child_path])
             (path ++ "." ++ child_path)%string) w
      = (staged stream base (backfill name md (needed_fields needed path fs)) w,
         Done tt).
Proof.
  intros Hk Hx fs. induction fs as [|[k' x'] rest IH]; intros Hin Hall Hc w md Hst Hok.
  - cbn [keys map for_each needed_fields backfill fold_left]. unfold ret.
    now rewrite (staged_same _ _ Hst).
  - cbn [keys map fst for_each needed_fields]. unfold bind at 1.
    inversion Hall as [|kv rest' Hv Hrest]; subst kv rest'. cbn [snd] in Hv.
    cbn [calm_fields] in Hc. apply andb_true_iff in Hc. destruct Hc as [Hc1 Hc2].
    replace ((stream ++ Key k :: r) ++ [Key k']) with (stream ++ Key k :: r ++ [Key k'])
      by (now rewrite <- app_assoc).
    rewrite (Hv _ k (r ++ [Key k']) w md Hc1 Hst Hok Hk).
    2:{ change (Key k :: r ++ [Key k']) with ((Key k :: r) ++ [Key k']).
        rewrite get_at_app, Hx. cbn [get_at child].
        now rewrite (Hin k' x' (or_introl eq_refl)). }
    destruct Hst as [Hs Hd].
    assert (Hin' : forall k0 x0, In (k0, x0) rest -> lookup k0 xkvs = Some x0).
    { intros k0 x0 H0. apply Hin. now right. }
    specialize (IH Hin' Hrest Hc2
                  (staged stream base (backfill name md (needed (path ++ "." ++ k') x')) w)
                  (backfill name md (needed (path ++ "." ++ k') x'))
                  (standing_staged _ _ _ Hd) (backfill_entry_ok _ _ _ Hok)).
    cbv beta iota. etransitivity; [exact IH|].
    now rewrite staged_staged, backfill_app.
Qed.


Lemma visit_list_properties (k : string) (r : loc) (path : string) (xs : list value) :
  k <> "metadata" ->
  get_at (Key k :: r) (VDict base) = Some (VList xs) ->
  forall todo done,
    xs = done ++ todo ->
    Forall (fun x =>
              forall path fuel k r (w : world (option loc)) md,
                calm true path x = true ->
                depth x <= fuel ->
                standing stream base md w ->
                forallb entry_ok md = true ->
                k <> "metadata" ->
                get_at (Key k :: r) (VDict base) = Some x ->
                visit fuel (SelectExecutor.make rules) (stream ++ Key k :: r) path w
                = (staged stream base (backfill name md (needed path x)) w,
                   Done tt)) todo ->
    calm_elements (calm true) path todo (List.length done) = true ->
    forall fuel (w : world (option loc)) md,
      depth (VList todo) <= S fuel ->
      standing stream base md w ->
      forallb entry_ok md = true ->
      visit_list fuel (SelectExecutor.make rules) (stream ++ Key k :: r) path
        (List.length done) w
      = (staged stream base
           (backfill name md (needed_elements needed path todo (List.length done))) w,
         Done tt).
Proof.
  intros Hk Hx todo.
  induction todo as [|x rest IH]; intros done Hxs Hall Hc fuel w md Hf Hst Hok;
    (destruct fuel as [|fuel]; [cbn [depth] in Hf; lia|]);
    assert (Hl : get_at (stream ++ Key k :: r) (doc w) = Some (VList xs))
      by (now rewrite (standing_below _ _ _ _ Hst Hk)).
  - cbn [visit_list]. unfold bind. rewrite (run_read _ w _ Hl).
    rewrite Hxs, app_nil_r, Nat.ltb_irrefl.
    cbn [needed_elements backfill fold_left]. unfold ret.
    now rewrite (staged_same _ _ Hst).
  - cbn [visit_list]. unfold bind at 1. rewrite (run_read _ w _ Hl).
    assert (Hlt : (List.length done <? List.length xs) = true).
    { apply Nat.ltb_lt. rewrite Hxs, length_app. cbn [List.length]. lia. }
    rewrite Hlt. unfold bind at 1.
    cbn [calm_elements] in Hc. apply andb_true_iff in Hc. destruct Hc as [Hc1 Hc2].
    inversion Hall as [|x' rest' Hv Hrest]; subst x' rest'.
    replace ((stream ++ Key k :: r) ++ [Idx (List.length done)])
      with (stream ++ Key k :: r ++ [Idx (List.length done)])
      by (now rewrite <- app_assoc).
    rewrite (Hv _ fuel k (r ++ [Idx (List.length done)]) w md Hc1).
    2:{ cbn [depth] in Hf. lia. }
    2:{ exact Hst. }
    2:{ exact Hok. }
    2:{ exact Hk. }
    2:{ change (Key k :: r ++ [Idx (List.length done)])
          with ((Key k :: r) ++ [Idx (List.length done)]).
        rewrite get_at_app, Hx. cbn [get_at child].
        rewrite Hxs, nth_error_app2, Nat.sub_diag by lia. reflexivity. }
    destruct Hst as [Hs Hd].
    specialize (IH (done ++ [x])). rewrite length_app in IH.
    cbn [List.length] in IH. rewrite Nat.add_1_r in IH.
    cbn [needed_elements]. rewrite backfill_app.
    rewrite (IH ltac:(now rewrite <- app_assoc) Hrest Hc2 fuel _ _
               ltac:(cbn [depth] in *; lia)
               (standing_staged _ _ _ Hd) (backfill_entry_ok _ _ _ Hok)).
    now rewrite staged_staged.
Qed.

(** Below a field of the stream other than [metadata], where the
    traversal finds properties only, it gives the stream the entries its
    properties lack, and changes nothing else. *)
Lemma visit_properties (x : value) :
  unique_keys x = true ->
  forall path fuel k r (w : world (option loc)) md,
    calm true path x = true ->
    depth x <= fuel ->
    standing stream base md w ->
    forallb entry_ok md = true ->
    k <> "metadata" ->
    get_at (Key k :: r) (VDict base) = Some x ->
    visit fuel (SelectExecutor.make rules) (stream ++ Key k :: r) path w
    = (staged stream base (backfill name md (needed path x)) w, Done tt).
Proof.
  induction x as [|b|z|t|xs IH|kvs IH] using value_ind;
    intros Hu path fuel k r w md Hc Hf Hst Hok Hk Hx;
    (destruct fuel as [|fuel]; [cbn [depth] in Hf; lia|]);
    assert (Hl : forall (w : world (option loc)) md,
               standing stream base md w ->
               get_at (stream ++ Key k :: r) (doc w) = Some _)
      by (intros w0 md0 H0; rewrite (standing_below _ _ _ _ H0 Hk); exact Hx).
  1-4: cbn [visit]; unfold bind; rewrite (run_read _ w _ (Hl w md Hst));
    cbn [needed backfill fold_left]; unfold ret; now rewrite (staged_same _ _ Hst).
  - cbn [visit]. unfold bind at 1. rewrite (run_read _ w _ (Hl w md Hst)).
    apply (visit_list_properties k r path xs Hk Hx xs [] eq_refl);
      [|exact Hc|exact Hf|exact Hst|exact Hok].
    rewrite Forall_forall in *. intros x Hin. apply IH; [exact Hin|].
    apply (unique_keys_element _ _ Hu Hin).
  - cbn [calm] in Hc. rewrite !andb_true_iff, !negb_true_iff in Hc.
    destruct Hc as [[[Hs _] Hm] Hfields].
    cbn [visit]. unfold bind at 1. rewrite (run_read _ w _ (Hl w md Hst)).
    rewrite Hs. cbn [when]. unfold bind at 1, ret at 1.
    set (md1 := backfill name md
                  (if Text.search_schema_properties path
                   then [Text.findall_properties path] else [])).
    assert (E : when (Text.search_schema_properties path)
                  (CatalogExecutor.execute (SelectExecutor.make rules)
                     (Some STREAM_PROPERTY) (stream ++ Key k :: r) path) w
                = (staged stream base md1 w, Done tt)).
    { unfold md1. destruct (Text.search_schema_properties path); cbn [when].
      - apply execute_done.
        apply (property_node_staged md w (stream ++ Key k :: r) path Hst Hok).
      - cbn [backfill fold_left]. unfold ret. now rewrite (staged_same _ _ Hst). }
    unfold bind at 1. rewrite E. clear E.
    assert (Hok1 : forallb entry_ok md1 = true) by (now apply backfill_entry_ok).
    assert (Hst1 : standing stream base md1 (staged stream base md1 w))
      by (destruct Hst as [_ Hd]; apply (standing_staged _ _ _ Hd)).
    unfold bind at 1. rewrite (run_read _ _ _ (Hl _ _ Hst1)).
    rewrite Hm. cbn [when]. unfold bind at 1, ret at 1.
    unfold bind. rewrite (run_read _ _ _ (Hl _ _ Hst1)).
    assert (H1 : forall k' x', In (k', x') kvs -> lookup k' kvs = Some x').
    { intros k' x' Hin. apply (unique_keys_lookup _ _ _ Hu Hin). }
    assert (H2 : Forall (fun kv =>
              forall path k r (w : world (option loc)) md,
                calm true path (snd kv) = true ->
                standing stream base md w ->
                forallb entry_ok md = true ->
                k <> "metadata" ->
                get_at (Key k :: r) (VDict base) = Some (snd kv) ->
                visit fuel (SelectExecutor.make rules) (stream ++ Key k :: r) path w
                = (staged stream base (backfill name md (needed path (snd kv))) w,
                   Done tt)) kvs).
    { rewrite Forall_forall in *.
      intros [k' x'] Hin path' k0 r0 w0 md0 Hc0 Hst0 Hok0 Hk0 Hx0.
      cbn [snd] in *. apply (IH (k', x') Hin); try assumption.
      - apply (unique_keys_field _ _ _ Hu Hin).
      - pose proof (depth_field _ _ _ Hin). cbn [snd]. lia. }
    rewrite (for_each_properties fuel k r path kvs Hk Hx kvs H1 H2 Hfields
               _ md1 Hst1 Hok1).
    rewrite staged_staged. cbn [needed]. unfold md1. now rewrite backfill_app.
Qed.


(** *** The entries of the stream *)

Variable i : nat.

Lemma staged_entry md (w : world (option loc)) j x y :
  standing stream base md w -> nth_error md j = Some y ->
  World (set_at ((stream ++ [Key "metadata"]) ++ [Idx j]) x (doc w)) (Some stream)
  = staged stream base (set_nth j x md) w.
Proof.
  intros Hst Hj.
  rewrite (set_at_app _ _ _ _ _ (standing_entries _ _ Hst)), (set_at_idx _ _ _ _ Hj).
  apply (staged_entries _ _ _ Hst).
Qed.

Lemma entry_field_calm j k x :
  entry_field_ok (k, x) = true ->
  calm false
    ((((".streams" ++ "[" ++ Text.decimal i ++ "]") ++ "." ++ "metadata")
      ++ "[" ++ Text.decimal j ++ "]") ++ "." ++ k) x = true.
Proof.
  unfold entry_field_ok. cbn [fst snd].
  destruct (String.eqb k "metadata") eqn:Ek.
  - apply String.eqb_eq in Ek. subst k.
    destruct x as [| | | | |m]; try discriminate. intros H. cbn [calm].
    destruct (entry_metadata_path i j "streams") as [H1 H2].
    destruct (entry_metadata_path i j "metadata") as [H3 _].
    cbv zeta in H1, H2, H3. rewrite H1, H2, H3. cbn [negb orb andb].
    now apply no_dict_calm_fields.
  - destruct (String.eqb k "breadcrumb").
    + destruct x as [| | | |parts|]; try discriminate. intros H.
      apply no_dict_calm. now apply texts_no_dict.
    + intros H. now apply no_dict_calm.
Qed.

(** The traversal at an entry of the stream writes its [selected] and
    changes nothing else. *)
Lemma visit_entry (j : nat) (entry : value) (w : world (option loc)) md fuel :
  standing stream base md w ->
  nth_error md j = Some entry ->
  entry_ok entry = true ->
  depth (mark (map parse_select_pattern rules) name entry) <= fuel ->
  visit fuel (SelectExecutor.make rules) ((stream ++ [Key "metadata"]) ++ [Idx j])
    (((".streams" ++ "[" ++ Text.decimal i ++ "]") ++ "." ++ "metadata")
     ++ "[" ++ Text.decimal j ++ "]") w
  = (staged stream base
       (set_nth j (mark (map parse_select_pattern rules) name entry) md) w,
     Done tt).
Proof.
  intros Hst Hj Hok Hf.
  pose proof (mark_entry_ok (map parse_select_pattern rules) name _ Hok) as Hok'.
  destruct (entry_ok_fields _ Hok) as (e & parts & m & -> & Hb & Hp & Hm & Hnd & Hall).
  set (el := (stream ++ [Key "metadata"]) ++ [Idx j]) in *.
  assert (Hel : get_at el (doc w) = Some (VDict e)).
  { unfold el. rewrite get_at_app, (standing_entries _ _ Hst). cbn [get_at child].
    now rewrite Hj. }
  destruct fuel as [|fuel]; [cbn [mark] in Hf; rewrite Hb, Hm in Hf; cbn [depth] in Hf; lia|].
  destruct (entry_path i j) as (Hs1 & Hs2 & Hs3). cbv zeta in Hs1, Hs2, Hs3.
  cbn [visit]. unfold bind at 1. rewrite (run_read _ _ _ Hel).
  rewrite Hs1, Hs2, Hs3. cbn [when]. unfold bind at 1, ret at 1.
  unfold bind at 1, ret at 1. unfold bind at 1. rewrite (run_read _ _ _ Hel).
  assert (Hhas : has_key "breadcrumb" e = true) by (unfold has_key; now rewrite Hb).
  rewrite Hhas. cbn [andb when].
  set (entry' := mark (map parse_select_pattern rules) name (VDict e)) in *.
  assert (E : (breadcrumb <- getitem el "breadcrumb" ;;
               n <- lift (py_len breadcrumb) ;;
               if n =? 0
               then CatalogExecutor.execute (SelectExecutor.make rules)
                      (Some STREAM_METADATA) el
                      (((".streams" ++ "[" ++ Text.decimal i ++ "]") ++ "." ++ "metadata")
                       ++ "[" ++ Text.decimal j ++ "]")
               else CatalogExecutor.execute (SelectExecutor.make rules)
                      (Some STREAM_PROPERTY_METADATA) el
                      (((".streams" ++ "[" ++ Text.decimal i ++ "]") ++ "." ++ "metadata")
                       ++ "[" ++ Text.decimal j ++ "]")) w
              = (staged stream base (set_nth j entry' md) w, Done tt)).
  { unfold bind at 1. rewrite (run_getitem _ _ _ _ Hel). cbn [py_getitem]. rewrite Hb.
    unfold bind at 1, lift at 1. cbn [py_len].
    pose proof Hst as [Hself Hd].
    assert (Hw : forall b,
               World (set_at (el ++ [Key "metadata"])
                        (VDict (assign "selected" (VBool b) m)) (doc w)) (self w)
               = staged stream base
                   (set_nth j (VDict (assign "metadata"
                                        (VDict (assign "selected" (VBool b) m)) e)) md) w).
    { intros b. rewrite (set_at_field _ _ _ _ _ _ Hel Hm), Hself.
      apply (staged_entry _ _ _ _ _ Hst Hj). }
    destruct parts as [|p parts'].
    - cbn [List.length Nat.eqb]. apply execute_done.
      change (CatalogExecutor.dispatch (SelectExecutor.make rules) STREAM_METADATA)
        with (SelectExecutor.stream_metadata_node (map parse_select_pattern rules)).
      rewrite (stream_metadata_node_selected _ el stream _ w e m _ name Hself Hd
                 ltac:(rewrite lookup_assign_other by discriminate; exact Hname) Hel Hm).
      rewrite Hw. unfold entry'. cbn [mark]. now rewrite Hb, Hm.
    - cbn [List.length Nat.eqb]. apply execute_done.
      change (CatalogExecutor.dispatch (SelectExecutor.make rules)
                STREAM_PROPERTY_METADATA)
        with (SelectExecutor.property_metadata_node (map parse_select_pattern rules)).
      pose proof Hb as Hb'. rewrite (texts_map _ Hp) in Hb'.
      rewrite (property_metadata_node_run _ el _ w e _ m Hel Hb' Hm).
      rewrite Hw. unfold entry'. cbn [mark]. now rewrite Hb, Hm. }
  unfold bind at 1. rewrite E. clear E.
  pose proof Hst as [Hself Hd].
  pose proof (standing_staged (set_nth j entry' md) w _ Hd) as Hst'.
  assert (Hel' : get_at el (doc (staged stream base (set_nth j entry' md) w))
                 = Some entry').
  { unfold el. rewrite get_at_app, (standing_entries _ _ Hst'). cbn [get_at child].
    rewrite nth_error_set_nth; [reflexivity|]. apply nth_error_Some. congruence. }
  assert (He' : exists e', entry' = VDict e').
  { unfold entry'. cbn [mark]. rewrite Hb, Hm. eauto. }
  destruct He' as [e' He']. rewrite He' in *.
  unfold bind. rewrite (run_read _ _ _ Hel').
  apply for_each_idle. intros k Hk.
  destruct (in_keys_lookup _ _ Hk) as [x Hx].
  pose proof (lookup_in _ _ _ Hx) as Hin.
  apply (visit_calm _ x).
  - apply entry_field_calm. cbn [entry_ok] in Hok'. rewrite !andb_true_iff in Hok'.
    apply (forallb_lookup _ _ _ _ (proj2 Hok') Hx).
  - pose proof (depth_field _ _ _ Hin). lia.
  - apply (get_at_key _ _ _ _ _ Hel' Hx).
Qed.

Lemma visit_list_entries (bound : nat) :
  forall todo done fuel (w : world (option loc)),
    standing stream base (done ++ todo) w ->
    forallb entry_ok todo = true ->
    (forall entry, In entry todo ->
                   depth (mark (map parse_select_pattern rules) name entry) <= bound) ->
    bound + List.length todo < fuel ->
    visit_list fuel (SelectExecutor.make rules) (stream ++ [Key "metadata"])
      ((".streams" ++ "[" ++ Text.decimal i ++ "]") ++ "." ++ "metadata")
      (List.length done) w
    = (staged stream base
         (done ++ map (mark (map parse_select_pattern rules) name) todo) w,
       Done tt).
Proof.
  induction todo as [|x rest IH]; intros done fuel w Hst Hok Hb Hf;
    (destruct fuel as [|fuel]; [lia|]);
    pose proof (standing_entries _ _ Hst) as Hl.
  - cbn [visit_list]. unfold bind. rewrite (run_read _ _ _ Hl).
    rewrite app_nil_r, Nat.ltb_irrefl. cbn [map]. unfold ret.
    now rewrite (staged_same _ _ Hst).
  - cbn [visit_list]. unfold bind at 1. rewrite (run_read _ _ _ Hl).
    assert (Hlt : (List.length done <? List.length (done ++ x :: rest)) = true).
    { apply Nat.ltb_lt. rewrite length_app. cbn [List.length]. lia. }
    rewrite Hlt. unfold bind at 1.
    cbn [forallb] in Hok. apply andb_true_iff in Hok. destruct Hok as [Hx Hrest].
    rewrite (visit_entry (List.length done) x w (done ++ x :: rest) fuel Hst).
    2:{ now rewrite nth_error_app2, Nat.sub_diag by lia. }
    2:{ exact Hx. }
    2:{ specialize (Hb x (or_introl eq_refl)). cbn [List.length] in Hf. lia. }
    rewrite set_nth_middle.
    destruct Hst as [Hs Hd].
    pose proof (standing_staged
                  (done ++ mark (map parse_select_pattern rules) name x :: rest)
                  w _ Hd) as Hst'.
    specialize (IH (done ++ [mark (map parse_select_pattern rules) name x]) fuel).
    rewrite length_app in IH. cbn [List.length] in IH. rewrite Nat.add_1_r in IH.
    rewrite <- app_assoc in IH. cbn [app] in IH.
    rewrite (IH _ Hst' Hrest).
    + rewrite staged_staged. cbn [map]. now rewrite <- app_assoc.
    + intros entry Hin. apply Hb. now right.
    + cbn [List.length] in Hf. lia.
Qed.


(** *** The fields of the stream, one after the other *)

Lemma for_each_stream_fields :
  forall fs,
    (forall k x, In (k, x) fs -> lookup k base = Some x) ->
    (forall k x, In (k, x) fs -> k <> "metadata" ->
                 unique_keys x = true
                 /\ calm true ((".streams" ++ "[" ++ Text.decimal i ++ "]") ++ "." ++ k) x
                    = true) ->
    forall md,
      forallb entry_ok md = true ->
      exists n,
        forall fuel, n <= fuel ->
          forall w : world (option loc),
            standing stream base md w ->
            for_each (keys fs)
              (fun child_path =>
                 visit fuel (SelectExecutor.make rules) (stream ++ [Key child_path])
                   ((".streams" ++ "[" ++ Text.decimal i ++ "]") ++ "." ++ child_path)) w
            = (staged stream base
                 (outcome_fields (map parse_select_pattern rules) name
                    (".streams" ++ "[" ++ Text.decimal i ++ "]") fs md) w,
               Done tt).
Proof.
  induction fs as [|[k x] rest IH]; intros Hin Hfs md Hok.
  - exists 0. intros fuel _ w Hst. cbn [keys map for_each outcome_fields]. unfold ret.
    now rewrite (staged_same _ _ Hst).
  - assert (Hin' : forall k0 x0, In (k0, x0) rest -> lookup k0 base = Some x0).
    { intros k0 x0 H0. apply Hin. now right. }
    assert (Hfs' : forall k0 x0, In (k0, x0) rest -> k0 <> "metadata" ->
                     unique_keys x0 = true
                     /\ calm true ((".streams" ++ "[" ++ Text.decimal i ++ "]")
                                   ++ "." ++ k0) x0 = true).
    { intros k0 x0 H0. apply Hfs. now right. }
    cbn [outcome_fields]. destruct (String.eqb k "metadata") eqn:Ek.
    + apply String.eqb_eq in Ek. subst k.
      destruct (bounded (fun e => depth (mark (map parse_select_pattern rules) name e)) md)
        as [bound Hbound].
      destruct (IH Hin' Hfs' (map (mark (map parse_select_pattern rules) name) md))
        as [n Hn].
      { rewrite forallb_forall in *. intros e He. apply in_map_iff in He.
        destruct He as (e0 & <- & He0). apply mark_entry_ok. now apply Hok. }
      exists (Nat.max n (bound + List.length md + 2)). intros fuel Hfuel w Hst.
      destruct fuel as [|fuel]; [lia|].
      cbn [keys map fst for_each]. unfold bind at 1.
      cbn [visit]. unfold bind at 1.
      rewrite (run_read _ _ _ (standing_entries _ _ Hst)).
      pose proof (visit_list_entries bound md [] fuel w Hst Hok Hbound ltac:(lia))
        as Hwalk.
      cbn [List.length app] in Hwalk. rewrite Hwalk. clear Hwalk.
      destruct Hst as [Hs Hd].
      etransitivity; [apply (Hn (S fuel) ltac:(lia) _ (standing_staged _ _ _ Hd))|].
      now rewrite staged_staged.
    + apply String.eqb_neq in Ek.
      destruct (Hfs k x (or_introl eq_refl) Ek) as [Hu Hc].
      destruct (IH Hin' Hfs' (backfill name md
                                (needed ((".streams" ++ "[" ++ Text.decimal i ++ "]")
                                         ++ "." ++ k) x)))
        as [n Hn]; [now apply backfill_entry_ok|].
      exists (Nat.max n (depth x)). intros fuel Hfuel w Hst.
      cbn [keys map fst for_each]. unfold bind at 1.
      rewrite (visit_properties x Hu _ fuel k [] w md Hc ltac:(lia) Hst Hok Ek).
      2:{ cbn [get_at child]. now rewrite (Hin k x (or_introl eq_refl)). }
      destruct Hst as [Hs Hd].
      etransitivity; [apply (Hn fuel ltac:(lia) _ (standing_staged _ _ _ Hd))|].
      now rewrite staged_staged.
Qed.

End Below.

(** ** The traversal at a stream *)

Lemma empty_breadcrumb_crumb entry :
  entry_ok entry = true ->
  SelectExecutor.empty_breadcrumb entry = Done (empty_crumb entry).
Proof.
  intros H. destruct (entry_ok_fields _ H) as (e & parts & m & -> & Hb & _).
  unfold SelectExecutor.empty_breadcrumb, empty_crumb. cbn [py_getitem].
  rewrite Hb. cbn [res_bind py_len]. now destruct parts.
Qed.

Lemma next_from_empty md :
  forallb entry_ok md = true ->
  forall j,
    if existsb empty_crumb md
    then exists index entry,
        next_from SelectExecutor.empty_breadcrumb j md = Done (j + index)
        /\ nth_error md index = Some entry /\ empty_crumb entry = true
    else next_from SelectExecutor.empty_breadcrumb j md = raise StopIteration.
Proof.
  induction md as [|e rest IH]; intros H j; [reflexivity|].
  cbn [forallb] in H. apply andb_true_iff in H. destruct H as [He Hrest].
  cbn [existsb next_from]. rewrite (empty_breadcrumb_crumb _ He). cbn [res_bind].
  destruct (empty_crumb e) eqn:Ee; cbn [orb].
  - exists 0, e. now rewrite Nat.add_0_r.
  - specialize (IH Hrest (S j)). destruct (existsb empty_crumb rest); [|exact IH].
    destruct IH as (index & entry & H1 & H2 & H3). exists (S index), entry.
    rewrite H1. repeat split; [f_equal; lia|exact H2|exact H3].
Qed.

Lemma in_assign {A : Type} (k k0 : string) (x v : A) kvs :
  In (k, x) (assign k0 v kvs) -> (k = k0 /\ x = v) \/ In (k, x) kvs.
Proof.
  induction kvs as [|[k1 x1] rest IH]; cbn [assign].
  - intros [H|[]]. inversion H. now left.
  - destruct (String.eqb k1 k0).
    + intros [H|H]; [inversion H; now left|right; now right].
    + intros [H|H]; [right; now left|].
      destruct (IH H) as [?|?]; [now left|right; now right].
Qed.

Lemma has_key_assign_iff {A : Type} (k k0 : string) (v : A) kvs :
  k <> k0 -> has_key k (assign k0 v kvs) = has_key k kvs.
Proof. intros H. unfold has_key. now rewrite lookup_assign_other by congruence. Qed.

Lemma unique_keys_assign k v kvs :
  unique_keys (VDict kvs) = true -> unique_keys v = true ->
  unique_keys (VDict (assign k v kvs)) = true.
Proof.
  intros H Hv. induction kvs as [|[k0 x0] rest IH].
  - cbn [assign unique_keys has_key lookup negb andb]. now rewrite Hv.
  - cbn [unique_keys] in H. rewrite !andb_true_iff in H. destruct H as [[Hk Hx] Hrest].
    cbn [assign]. destruct (String.eqb k0 k) eqn:E.
    + apply String.eqb_eq in E. subst k0. cbn [unique_keys].
      now rewrite Hk, Hv, Hrest.
    + apply String.eqb_neq in E. specialize (IH Hrest).
      change (unique_keys (VDict ((k0, x0) :: assign k v rest)))
        with (negb (has_key k0 (assign k v rest)) && unique_keys x0
              && unique_keys (VDict (assign k v rest))).
      rewrite has_key_assign_iff by congruence. now rewrite Hk, Hx, IH.
Qed.

(** [stream_node] at a stream leaves it as [entered] says. *)
Lemma stream_node_entered (rules : list string) (stream : loc) (path : string)
  (w : world (option loc)) kvs name :
  get_at stream (doc w) = Some (VDict kvs) ->
  lookup "stream" kvs = Some (VStr name) ->
  (forall v, lookup "metadata" kvs = Some v ->
             exists md, v = VList md /\ forallb entry_ok md = true) ->
  SelectExecutor.stream_node (map parse_select_pattern rules) stream path w
  = (World (set_at stream
              (VDict (entered (map parse_select_pattern rules) name kvs)) (doc w))
       (Some stream),
     Done tt).
Proof.
  intros Hn Hname Hmd. unfold entered.
  destruct (lookup "metadata" kvs) as [v|] eqn:Ev.
  - destruct (Hmd v eq_refl) as (md & -> & Hok).
    pose proof (next_from_empty md Hok 0) as Hnext.
    unfold next_index. cbn [py_iter res_bind].
    destruct (existsb empty_crumb md).
    + destruct Hnext as (index & entry & H1 & H2 & H3). cbn [Nat.add] in H1.
      rewrite H1, H2.
      destruct (entry_ok_fields _ (forallb_nth_error _ _ _ _ Hok H2))
        as (e & parts & m & -> & Hb & _ & Hm & _).
      rewrite (stream_node_found _ _ path _ _ _ Hn Hname md index e m Ev H1 H2 Hm).
      cbn [mark]. rewrite Hb, Hm. unfold empty_crumb in H3. rewrite Hb in H3.
      destruct parts; [reflexivity|discriminate].
    + rewrite Hnext. unfold raise.
      apply (stream_node_legacy _ _ path _ _ _ Hn Hname md Ev Hnext).
  - apply (stream_node_absent _ _ path _ _ _ Hn Hname Ev).
Qed.

Lemma unique_keys_list xs : unique_keys (VList xs) = forallb unique_keys xs.
Proof. induction xs as [|x rest IH]; [reflexivity|]. cbn [forallb]. now rewrite <- IH. Qed.

Lemma mark_unique_keys patterns name entry :
  unique_keys entry = true -> unique_keys (mark patterns name entry) = true.
Proof.
  intros H. destruct entry as [| | | | |e]; try exact H. cbn [mark].
  destruct (lookup "breadcrumb" e) as [[| | | |parts|]|] eqn:Eb; try exact H.
  destruct (lookup "metadata" e) as [[| | | | |m]|] eqn:Em; try exact H.
  apply unique_keys_assign; [exact H|].
  apply unique_keys_assign; [|reflexivity].
  apply (unique_keys_field _ _ _ H (lookup_in _ _ _ Em)).
Qed.

Lemma mark_empty_crumb patterns name entry :
  empty_crumb (mark patterns name entry) = empty_crumb entry.
Proof.
  destruct entry as [| | | | |e]; try reflexivity. cbn [mark].
  destruct (lookup "breadcrumb" e) as [[| | | |parts|]|] eqn:Eb; try reflexivity.
  destruct (lookup "metadata" e) as [[| | | | |m]|] eqn:Em; try reflexivity.
  unfold empty_crumb. rewrite lookup_assign_other by discriminate. reflexivity.
Qed.

Lemma existsb_set_nth {A : Type} (P : A -> bool) i x y xs :
  nth_error xs i = Some y -> P x = true -> existsb P (set_nth i x xs) = true.
Proof.
  revert i. induction xs as [|a rest IH]; intros [|i] Hi Hx; cbn in *; try discriminate.
  - now rewrite Hx.
  - rewrite (IH _ Hi Hx). apply orb_true_r.
Qed.

Lemma stream_ok_fields path kvs :
  stream_ok path (VDict kvs) = true ->
  exists name,
    lookup "stream" kvs = Some (VStr name)
    /\ (forall v, lookup "metadata" kvs = Some v ->
                  exists md, v = VList md /\ forallb entry_ok md = true)
    /\ (forall k x, In (k, x) kvs -> k <> "metadata" ->
                    calm true (path ++ "." ++ k) x = true).
Proof.
  cbn [stream_ok]. rewrite andb_true_iff. unfold has_key. intros [Hs Hall].
  destruct (lookup "stream" kvs) as [s|] eqn:Es; [|discriminate].
  pose proof (forallb_lookup _ _ _ _ Hall Es) as Hs'.
  unfold stream_field_ok in Hs'. cbn [fst snd] in Hs'.
  change (String.eqb "stream" "metadata") with false in Hs'.
  change (String.eqb "stream" "stream") with true in Hs'. cbv iota in Hs'.
  destruct s as [| | |name| |]; try discriminate.
  exists name. split; [reflexivity|]. split.
  - intros v Hv. pose proof (forallb_lookup _ _ _ _ Hall Hv) as Hv'.
    unfold stream_field_ok in Hv'. cbn [fst snd] in Hv'.
    change (String.eqb "metadata" "metadata") with true in Hv'. cbv iota in Hv'.
    destruct v as [| | | |md|]; try discriminate. now exists md.
  - intros k x Hin Hk. rewrite forallb_forall in Hall. specialize (Hall _ Hin).
    unfold stream_field_ok in Hall. cbn [fst snd] in Hall.
    apply String.eqb_neq in Hk. rewrite Hk in Hall.
    destruct (String.eqb k "stream"); [|exact Hall].
    now destruct x.
Qed.

(** What [entered] makes of the fields of a stream. *)
Lemma entered_form patterns path name kvs :
  unique_keys (VDict kvs) = true ->
  stream_ok path (VDict kvs) = true ->
  lookup "stream" kvs = Some (VStr name) ->
  exists md,
    entered patterns name kvs
    = assign "selected" (VBool (stream_selected patterns name))
        (assign "metadata" (VList md) kvs)
    /\ forallb entry_ok md = true
    /\ forallb unique_keys md = true
    /\ existsb empty_crumb md = true.
Proof.
  intros Hu Hok Hname. destruct (stream_ok_fields _ _ Hok) as (name' & Hname' & Hmd & _).
  unfold entered. destruct (lookup "metadata" kvs) as [v|] eqn:Ev.
  - destruct (Hmd v eq_refl) as (md & -> & Hmok).
    assert (Humd : forallb unique_keys md = true).
    { rewrite <- unique_keys_list. apply (unique_keys_field _ _ _ Hu (lookup_in _ _ _ Ev)). }
    pose proof (next_from_empty md Hmok 0) as Hnext.
    unfold next_index. cbn [py_iter res_bind].
    destruct (existsb empty_crumb md).
    + destruct Hnext as (index & entry & H1 & H2 & H3). cbn [Nat.add] in H1.
      rewrite H1, H2. eexists. split; [reflexivity|]. split; [|split].
      * apply forallb_set_nth; [exact Hmok|]. apply mark_entry_ok.
        apply (forallb_nth_error _ _ _ _ Hmok H2).
      * apply forallb_set_nth; [exact Humd|]. apply mark_unique_keys.
        apply (forallb_nth_error _ _ _ _ Humd H2).
      * apply (existsb_set_nth _ _ _ _ _ H2). now rewrite mark_empty_crumb.
    + rewrite Hnext. unfold raise. eexists. split; [reflexivity|].
      cbn [forallb existsb]. rewrite Hmok, Humd. repeat split.
  - eexists. split; [reflexivity|]. repeat split.
Qed.

(** The traversal at a stream leaves it as [outcome_stream] says, and
    changes nothing else. *)
Lemma visit_stream (rules : list string) (stream : loc) (i : nat) kvs :
  unique_keys (VDict kvs) = true ->
  stream_ok (".streams" ++ "[" ++ Text.decimal i ++ "]") (VDict kvs) = true ->
  exists n,
    forall fuel, n <= fuel ->
      forall w : world (option loc),
        get_at stream (doc w) = Some (VDict kvs) ->
        visit fuel (SelectExecutor.make rules) stream
          (".streams" ++ "[" ++ Text.decimal i ++ "]") w
        = (World (set_at stream
                    (outcome_stream (map parse_select_pattern rules)
                       (".streams" ++ "[" ++ Text.decimal i ++ "]") (VDict kvs))
                    (doc w))
             (Some stream),
           Done tt).
Proof.
  intros Hu Hok. destruct (stream_ok_fields _ _ Hok) as (name & Hname & Hmd & Hfields).
  destruct (entered_form (map parse_select_pattern rules) _ name kvs Hu Hok Hname)
    as (md & Hbase & Hmok & Humd & _).
  set (base := entered (map parse_select_pattern rules) name kvs) in *.
  assert (Hbname : lookup "stream" base = Some (VStr name)).
  { rewrite Hbase, !lookup_assign_other by discriminate. exact Hname. }
  assert (Hbmd : lookup "metadata" base = Some (VList md)).
  { rewrite Hbase, lookup_assign_other by discriminate. apply lookup_assign_same. }
  assert (Hbu : unique_keys (VDict base) = true).
  { rewrite Hbase. apply unique_keys_assign; [|reflexivity].
    apply unique_keys_assign; [exact Hu|]. now rewrite unique_keys_list. }
  assert (Hbin : forall k x, In (k, x) base -> lookup k base = Some x).
  { intros k x. apply (unique_keys_lookup _ _ _ Hbu). }
  assert (Hbfs : forall k x, In (k, x) base -> k <> "metadata" ->
                   unique_keys x = true
                   /\ calm true ((".streams" ++ "[" ++ Text.decimal i ++ "]")
                                 ++ "." ++ k) x = true).
  { intros k x Hin Hk. split; [apply (unique_keys_field _ _ _ Hbu Hin)|].
    rewrite Hbase in Hin. apply in_assign in Hin. destruct Hin as [[_ ->]|Hin];
      [reflexivity|].
    apply in_assign in Hin. destruct Hin as [[-> _]|Hin]; [contradiction|].
    now apply Hfields. }
  destruct (for_each_stream_fields rules stream name base Hbname i base Hbin Hbfs md Hmok)
    as [n Hn].
  exists (S n). intros fuel Hfuel w Hw. destruct fuel as [|fuel]; [lia|].
  destruct (stream_path i) as (Hs1 & Hs2 & Hs3).
  cbn [visit]. unfold bind at 1. rewrite (run_read _ _ _ Hw).
  rewrite Hs1, Hs2, Hs3. cbn [when andb]. unfold bind at 1.
  rewrite (execute_done (SelectExecutor.make rules) STREAM stream _ w _
             (stream_node_entered rules stream _ w kvs name Hw Hname Hmd)).
  fold base.
  set (w1 := World (set_at stream (VDict base) (doc w)) (Some stream)).
  assert (Hw1 : get_at stream (doc w1) = Some (VDict base))
    by apply (get_at_set_at _ _ _ _ Hw).
  assert (Hst : standing stream base md w1).
  { split; [reflexivity|]. now rewrite (assign_same _ _ _ Hbmd). }
  unfold bind at 1, ret at 1. unfold bind at 1. rewrite (run_read _ _ _ Hw1).
  unfold bind at 1, ret at 1. unfold bind. rewrite (run_read _ _ _ Hw1).
  rewrite (Hn fuel ltac:(lia) w1 Hst).
  unfold staged, w1. cbn [doc]. rewrite set_at_set_at.
  cbn [outcome_stream]. rewrite Hname. cbv zeta. fold base. now rewrite Hbmd.
Qed.

(** ** The traversal of a catalog *)

Lemma visit_list_streams (rules : list string) (node : loc) :
  forall todo done,
    forallb unique_keys todo = true ->
    streams_ok ".streams" todo (List.length done) = true ->
    exists n,
      forall fuel, n <= fuel ->
        forall w : world (option loc),
          get_at node (doc w) = Some (VList (done ++ todo)) ->
          exists s,
            visit_list fuel (SelectExecutor.make rules) node ".streams"
              (List.length done) w
            = (World
                 (set_at node
                    (VList
                       (done
                        ++ each (fun index =>
                                   outcome_stream (map parse_select_pattern rules)
                                     (".streams" ++ "[" ++ Text.decimal index ++ "]"))
                             todo (List.length done)))
                    (doc w)) s,
               Done tt).
Proof.
  induction todo as [|x rest IH]; intros done Hu Hok.
  - exists 1. intros fuel Hfuel w Hw. destruct fuel as [|fuel]; [lia|].
    exists (self w). cbn [visit_list]. unfold bind. rewrite (run_read _ _ _ Hw).
    rewrite app_nil_r, Nat.ltb_irrefl. cbn [each]. rewrite app_nil_r in *.
    rewrite (set_at_same _ _ _ Hw). now destruct w.
  - cbn [forallb] in Hu. apply andb_true_iff in Hu. destruct Hu as [Hux Hurest].
    cbn [streams_ok] in Hok. apply andb_true_iff in Hok. destruct Hok as [Hx Hrest].
    destruct x as [| | | | |kvs]; try discriminate.
    destruct (visit_stream rules (node ++ [Idx (List.length done)]) (List.length done)
                kvs Hux Hx) as [n1 Hn1].
    set (y := outcome_stream (map parse_select_pattern rules)
                (".streams" ++ "[" ++ Text.decimal (List.length done) ++ "]")
                (VDict kvs)) in *.
    specialize (IH (done ++ [y])). rewrite length_app in IH.
    cbn [List.length] in IH. rewrite Nat.add_1_r in IH.
    destruct (IH Hurest Hrest) as [n2 Hn2].
    exists (S (Nat.max n1 n2)). intros fuel Hfuel w Hw.
    destruct fuel as [|fuel]; [lia|].
    cbn [visit_list]. unfold bind at 1. rewrite (run_read _ _ _ Hw).
    assert (Hlt : (List.length done <? List.length (done ++ VDict kvs :: rest)) = true).
    { apply Nat.ltb_lt. rewrite length_app. cbn [List.length]. lia. }
    rewrite Hlt. unfold bind at 1.
    rewrite (Hn1 fuel ltac:(lia) w).
    2:{ rewrite get_at_app, Hw. cbn [get_at child].
        now rewrite nth_error_app2, Nat.sub_diag by lia. }
    assert (Hdoc : set_at (node ++ [Idx (List.length done)]) y (doc w)
                   = set_at node (VList ((done ++ [y]) ++ rest)) (doc w)).
    { rewrite (set_at_app _ _ _ _ _ Hw).
      rewrite (set_at_idx _ _ _ (VDict kvs))
        by (now rewrite nth_error_app2, Nat.sub_diag by lia).
      now rewrite set_nth_middle, <- app_assoc. }
    rewrite Hdoc.
    destruct (Hn2 fuel ltac:(lia)
                (World (set_at node (VList ((done ++ [y]) ++ rest)) (doc w))
                   (Some (node ++ [Idx (List.length done)]))))
      as [s Hs].
    { apply (get_at_set_at _ _ _ _ Hw). }
    exists s. etransitivity; [exact Hs|]. cbn [doc each].
    now rewrite set_at_set_at, <- app_assoc.
Qed.

Lemma for_each_top (rules : list string) :
  forall fs,
    unique_keys (VDict fs) = true ->
    forallb top_field_ok fs = true ->
    exists n,
      forall fuel, n <= fuel ->
        forall (w : world (option loc)) cur,
          doc w = VDict cur ->
          (forall k x, In (k, x) fs -> lookup k cur = Some x) ->
          exists s,
            for_each (keys fs)
              (fun child_path =>
                 visit fuel (SelectExecutor.make rules) ([] ++ [Key child_path])
                   ("" ++ "." ++ child_path)) w
            = (World
                 match lookup "streams" fs with
                 | Some (VList xs) =>
                     VDict (assign "streams"
                              (VList (outcome_streams (map parse_select_pattern rules)
                                        ".streams" xs)) cur)
                 | _ => VDict cur
                 end s,
               Done tt).
Proof.
  induction fs as [|[k x] rest IH]; intros Hu Hok.
  - exists 0. intros fuel _ w cur Hw _. exists (self w).
    cbn [keys map for_each lookup]. unfold ret. rewrite <- Hw. now destruct w.
  - pose proof Hu as Hu0. cbn [unique_keys] in Hu. rewrite !andb_true_iff in Hu.
    destruct Hu as [[Hk Hux] Hurest]. apply negb_true_iff in Hk.
    cbn [forallb] in Hok. apply andb_true_iff in Hok. destruct Hok as [Hx Hrest].
    destruct (IH Hurest Hrest) as [n2 Hn2].
    unfold top_field_ok in Hx. cbn [fst snd] in Hx. cbn [lookup].
    destruct (String.eqb k "streams") eqn:Ek.
    + apply String.eqb_eq in Ek. subst k.
      destruct x as [| | | |xs|]; try discriminate.
      change ("" ++ "." ++ "streams")%string with ".streams" in Hx.
      rewrite unique_keys_list in Hux.
      destruct (visit_list_streams rules [Key "streams"] xs [] Hux Hx) as [n1 Hn1].
      exists (S (Nat.max n1 n2)). intros fuel Hfuel w cur Hw Hin.
      destruct fuel as [|fuel]; [lia|].
      assert (Hl : get_at [Key "streams"] (doc w) = Some (VList xs)).
      { rewrite Hw. cbn [get_at child]. now rewrite (Hin _ _ (or_introl eq_refl)). }
      cbn [keys map fst for_each]. unfold bind at 1.
      cbn [visit]. unfold bind at 1. cbn [app]. rewrite (run_read _ _ _ Hl).
      destruct (Hn1 fuel ltac:(lia) w Hl) as [s1 Hs1].
      cbn [List.length app] in Hs1.
      change ("" ++ "." ++ "streams")%string with ".streams". rewrite Hs1.
      set (ys := each _ xs 0).
      destruct (Hn2 (S fuel) ltac:(lia)
                  (World (set_at [Key "streams"] (VList ys) (doc w)) s1)
                  (assign "streams" (VList ys) cur)) as [s Hs].
      { cbn [doc]. rewrite Hw.
        apply (set_at_key _ _ _ _ (Hin _ _ (or_introl eq_refl))). }
      { intros k0 x0 H0. rewrite lookup_assign_other; [apply Hin; now right|].
        intros <-. unfold has_key in Hk.
        now rewrite (unique_keys_lookup _ _ _ Hurest H0) in Hk. }
      exists s. etransitivity; [exact Hs|].
      unfold has_key in Hk. destruct (lookup "streams" rest); [discriminate|].
      reflexivity.
    + exists (Nat.max (depth x) n2). intros fuel Hfuel w cur Hw Hin.
      cbn [keys map fst for_each]. unfold bind at 1. cbn [app].
      rewrite (visit_calm _ x _ fuel _ w Hx ltac:(lia)).
      2:{ rewrite Hw. cbn [get_at child]. now rewrite (Hin _ _ (or_introl eq_refl)). }
      destruct (Hn2 fuel ltac:(lia) w cur Hw) as [s Hs].
      { intros k0 x0 H0. apply Hin. now right. }
      exists s. exact Hs.
Qed.

(** A selection pass over a catalog ends normally and leaves the
    catalog as [outcome] says, given fuel enough. *)
Lemma select_is_outcome (rules : list string) (catalog : value) :
  catalog_shaped catalog = true ->
  exists n,
    forall fuel, n <= fuel ->
                 select fuel rules catalog = (outcome rules catalog, Done tt).
Proof.
  unfold catalog_shaped. rewrite andb_true_iff. intros [Hu Hok].
  destruct catalog as [| | | | |kvs]; try discriminate.
  destruct (for_each_top rules kvs Hu Hok) as [n Hn].
  exists (S n). intros fuel Hfuel. destruct fuel as [|fuel]; [lia|].
  unfold select.
  set (w0 := World (VDict kvs) (snd (SelectExecutor.init rules))).
  assert (H0 : get_at [] (doc w0) = Some (VDict kvs)) by reflexivity.
  cbn [visit]. unfold bind at 1. rewrite (run_read [] w0 _ H0).
  change (Text.search_indexed "streams" "") with false.
  change (Text.search_schema_properties "") with false.
  change (Text.search_indexed "metadata" "") with false.
  cbn [when andb]. unfold bind at 1, ret at 1. unfold bind at 1, ret at 1.
  unfold bind at 1. rewrite (run_read [] w0 _ H0).
  unfold bind at 1, ret at 1. unfold bind. rewrite (run_read [] w0 _ H0).
  destruct (Hn fuel ltac:(lia) w0 kvs eq_refl
              (fun k x => unique_keys_lookup kvs k x Hu)) as [s Hs].
  rewrite Hs. cbn [doc outcome].
  destruct (lookup "streams" kvs) as [[| | | |xs|]|]; reflexivity.
Qed.

(** ** A second and a third pass *)

Lemma mark_mark patterns name entry :
  mark patterns name (mark patterns name entry) = mark patterns name entry.
Proof.
  destruct entry as [| | | | |e]; try reflexivity. cbn [mark].
  destruct (lookup "breadcrumb" e) as [[| | | |parts|]|] eqn:Eb;
    try (cbn [mark]; rewrite Eb; reflexivity).
  destruct (lookup "metadata" e) as [[| | | | |m]|] eqn:Em;
    try (cbn [mark]; rewrite Eb, Em; reflexivity).
  cbn [mark]. rewrite lookup_assign_other by discriminate.
  rewrite Eb, lookup_assign_same. now rewrite !assign_assign.
Qed.

Lemma mark_holds patterns name breadcrumb entry :
  holds breadcrumb (mark patterns name entry) = holds breadcrumb entry.
Proof.
  destruct entry as [| | | | |e]; try reflexivity. cbn [mark].
  destruct (lookup "breadcrumb" e) as [[| | | |parts|]|] eqn:Eb; try reflexivity.
  destruct (lookup "metadata" e) as [[| | | | |m]|] eqn:Em; try reflexivity.
  unfold holds. rewrite lookup_assign_other by discriminate. reflexivity.
Qed.

Lemma existsb_map_mark (P : value -> bool) patterns name md :
  (forall e, P (mark patterns name e) = P e) ->
  existsb P (map (mark patterns name) md) = existsb P md.
Proof.
  intros H. induction md as [|e rest IH]; [reflexivity|].
  cbn [map existsb]. now rewrite H, IH.
Qed.

Lemma holds_synthetic name components :
  holds (crumb name components) (synthetic (crumb name components)) = true.
Proof.
  unfold holds, synthetic. cbn [lookup].
  change (String.eqb "breadcrumb" "breadcrumb") with true. cbv iota.
  apply (py_eqb_texts (name :: components)).
Qed.

Lemma backfill_one_keeps (P : value -> bool) name md components :
  existsb P md = true -> existsb P (backfill_one name md components) = true.
Proof.
  intros H. unfold backfill_one.
  destruct (existsb (holds (crumb name components)) md); [exact H|].
  now rewrite existsb_app, H.
Qed.

Lemma backfill_keeps (P : value -> bool) name properties :
  forall md, existsb P md = true -> existsb P (backfill name md properties) = true.
Proof.
  induction properties as [|p rest IH]; intros md H; [exact H|].
  cbn [backfill fold_left]. apply IH. now apply backfill_one_keeps.
Qed.

Lemma backfill_present name properties components :
  In components properties ->
  forall md,
    existsb (holds (crumb name components)) (backfill name md properties) = true.
Proof.
  induction properties as [|p rest IH]; intros Hin md; [destruct Hin|].
  cbn [backfill fold_left]. destruct Hin as [->|Hin]; [|now apply IH].
  apply backfill_keeps. unfold backfill_one.
  destruct (existsb (holds (crumb name components)) md) eqn:E; [exact E|].
  rewrite existsb_app. cbn [existsb]. rewrite holds_synthetic. apply orb_true_r.
Qed.

Lemma backfill_nothing name properties md :
  (forall components, In components properties ->
                      existsb (holds (crumb name components)) md = true) ->
  backfill name md properties = md.
Proof.
  induction properties as [|p rest IH]; intros H; [reflexivity|].
  cbn [backfill fold_left]. unfold backfill_one at 2.
  rewrite (H p (or_introl eq_refl)). apply IH. intros c Hc. apply H. now right.
Qed.

Lemma outcome_fields_keeps (P : value -> bool) patterns name path :
  (forall e, P (mark patterns name e) = P e) ->
  forall fs md,
    existsb P md = true ->
    existsb P (outcome_fields patterns name path fs md) = true.
Proof.
  intros HP. induction fs as [|[k x] rest IH]; intros md H; [exact H|].
  cbn [outcome_fields]. apply IH. destruct (String.eqb k "metadata").
  - now rewrite existsb_map_mark.
  - now apply backfill_keeps.
Qed.

Lemma outcome_fields_all (P : value -> bool) patterns name path :
  (forall e, P e = true -> P (mark patterns name e) = true) ->
  (forall components, P (synthetic (crumb name components)) = true) ->
  forall fs md,
    forallb P md = true ->
    forallb P (outcome_fields patterns name path fs md) = true.
Proof.
  intros Hmark Hsyn. induction fs as [|[k x] rest IH]; intros md H; [exact H|].
  cbn [outcome_fields]. apply IH. destruct (String.eqb k "metadata").
  - rewrite forallb_forall in *. intros e He. apply in_map_iff in He.
    destruct He as (e0 & <- & He0). apply Hmark. now apply H.
  - unfold backfill. generalize (needed (path ++ "." ++ k) x). intros ps.
    revert md H. induction ps as [|p ps IHps]; intros md H; [exact H|].
    cbn [fold_left]. apply IHps. unfold backfill_one.
    destruct (existsb (holds (crumb name p)) md); [exact H|].
    rewrite forallb_app, H. cbn [forallb]. now rewrite Hsyn.
Qed.

Lemma outcome_fields_present patterns name path :
  forall fs md k x components,
    In (k, x) fs -> k <> "metadata" ->
    In components (needed (path ++ "." ++ k) x) ->
    existsb (holds (crumb name components))
      (outcome_fields patterns name path fs md) = true.
Proof.
  induction fs as [|[k0 x0] rest IH]; intros md k x components Hin Hk Hc;
    [destruct Hin|].
  cbn [outcome_fields]. destruct Hin as [Heq|Hin]; [|now apply (IH _ k x)].
  inversion Heq; subst k0 x0. apply String.eqb_neq in Hk. rewrite Hk.
  apply outcome_fields_keeps; [intros e; apply mark_holds|].
  now apply backfill_present.
Qed.

(** Once the entries are there, going through the fields adds none: it
    writes [selected] into each. *)
Lemma outcome_fields_settled patterns name path :
  forall fs md,
    (forall k x components,
        In (k, x) fs -> k <> "metadata" ->
        In components (needed (path ++ "." ++ k) x) ->
        existsb (holds (crumb name components)) md = true) ->
    outcome_fields patterns name path fs md
    = if has_key "metadata" fs then map (mark patterns name) md else md.
Proof.
  induction fs as [|[k x] rest IH]; intros md H; [reflexivity|].
  cbn [outcome_fields]. unfold has_key. cbn [lookup].
  destruct (String.eqb k "metadata") eqn:Ek.
  - rewrite IH.
    + destruct (has_key "metadata" rest); [|reflexivity].
      rewrite map_map. apply map_ext. intros e. apply mark_mark.
    + intros k0 x0 c Hin Hk Hc. rewrite existsb_map_mark by (intros e; apply mark_holds).
      apply (H k0 x0 c); [now right|exact Hk|exact Hc].
  - apply String.eqb_neq in Ek. rewrite backfill_nothing.
    + apply IH. intros k0 x0 c Hin. apply H. now right.
    + intros c Hc. apply (H k x c); [now left|exact Ek|exact Hc].
Qed.

Lemma outcome_fields_marked patterns name path :
  forall fs md,
    Forall (fun entry =>
              mark patterns name entry = entry
              \/ (unmarked entry = true /\ empty_crumb entry = false)) md ->
    Forall (fun entry =>
              mark patterns name entry = entry
              \/ (unmarked entry = true /\ empty_crumb entry = false))
      (outcome_fields patterns name path fs md).
Proof.
  induction fs as [|[k x] rest IH]; intros md H; [exact H|].
  cbn [outcome_fields]. apply IH. destruct (String.eqb k "metadata").
  - rewrite Forall_forall. intros e He. apply in_map_iff in He.
    destruct He as (e0 & <- & _). left. apply mark_mark.
  - unfold backfill. generalize (needed (path ++ "." ++ k) x). intros ps.
    revert md H. induction ps as [|p ps IHps]; intros md H; [exact H|].
    cbn [fold_left]. apply IHps. unfold backfill_one.
    destruct (existsb (holds (crumb name p)) md); [exact H|].
    apply Forall_app. split; [exact H|]. constructor; [|constructor].
    right. split; reflexivity.
Qed.

Lemma outcome_fields_walked patterns name path :
  forall fs md,
    has_key "metadata" fs = true ->
    Forall (fun entry =>
              mark patterns name entry = entry
              \/ (unmarked entry = true /\ empty_crumb entry = false))
      (outcome_fields patterns name path fs md).
Proof.
  induction fs as [|[k x] rest IH]; intros md H; [discriminate|].
  cbn [outcome_fields]. unfold has_key in H. cbn [lookup] in H.
  destruct (String.eqb k "metadata").
  - apply outcome_fields_marked. rewrite Forall_forall. intros e He.
    apply in_map_iff in He. destruct He as (e0 & <- & _). left. apply mark_mark.
  - now apply IH.
Qed.

Lemma texts_unique_keys (parts : list string) :
  forallb unique_keys (map VStr parts) = true.
Proof. induction parts as [|p rest IH]; [reflexivity|exact IH]. Qed.

Lemma synthetic_unique_keys name components :
  unique_keys (synthetic (crumb name components)) = true.
Proof.
  unfold synthetic.
  change (unique_keys
            (VDict (assign "metadata" (VDict [("inclusion", VStr "automatic")])
                      (assign "breadcrumb" (crumb name components) [])))
          = true).
  apply unique_keys_assign; [|reflexivity].
  apply unique_keys_assign; [reflexivity|].
  unfold crumb. rewrite unique_keys_list. cbn [forallb unique_keys].
  now rewrite texts_unique_keys.
Qed.

(** After a pass a stream is settled, and it still is a stream. *)
Lemma outcome_stream_settled patterns path kvs :
  unique_keys (VDict kvs) = true ->
  stream_ok path (VDict kvs) = true ->
  exists name kvs1 md1,
    outcome_stream patterns path (VDict kvs) = VDict kvs1
    /\ settled patterns path name kvs1 md1
    /\ unique_keys (VDict kvs1) = true
    /\ stream_ok path (VDict kvs1) = true.
Proof.
  intros Hu Hok. destruct (stream_ok_fields _ _ Hok) as (name & Hname & Hmd & Hfields).
  destruct (entered_form patterns _ name kvs Hu Hok Hname)
    as (md & Hbase & Hmok & Humd & Hempty).
  set (base := entered patterns name kvs) in *.
  assert (Hbmd : lookup "metadata" base = Some (VList md)).
  { rewrite Hbase, lookup_assign_other by discriminate. apply lookup_assign_same. }
  assert (Hbu : unique_keys (VDict base) = true).
  { rewrite Hbase. apply unique_keys_assign; [|reflexivity].
    apply unique_keys_assign; [exact Hu|]. now rewrite unique_keys_list. }
  set (mdF := outcome_fields patterns name path base md).
  assert (HmokF : forallb entry_ok mdF = true).
  { apply outcome_fields_all; [apply mark_entry_ok|apply synthetic_entry_ok|exact Hmok]. }
  exists name, (assign "metadata" (VList mdF) base), mdF. split; [|split; [|split]].
  - cbn [outcome_stream]. rewrite Hname. cbv zeta. fold base. now rewrite Hbmd.
  - repeat split.
    + rewrite lookup_assign_other by discriminate.
      rewrite Hbase, !lookup_assign_other by discriminate. exact Hname.
    + rewrite lookup_assign_other by discriminate. rewrite Hbase.
      apply lookup_assign_same.
    + apply lookup_assign_same.
    + exact HmokF.
    + apply outcome_fields_keeps; [apply mark_empty_crumb|exact Hempty].
    + apply outcome_fields_walked. unfold has_key. now rewrite Hbmd.
    + intros k x components Hin Hk Hc.
      apply in_assign in Hin. destruct Hin as [[-> _]|Hin]; [contradiction|].
      apply (outcome_fields_present _ _ _ _ _ k x components Hin Hk Hc).
  - apply unique_keys_assign; [exact Hbu|]. rewrite unique_keys_list.
    apply outcome_fields_all;
      [apply mark_unique_keys|apply synthetic_unique_keys|exact Humd].
  - cbn [stream_ok]. apply andb_true_iff. split.
    + unfold has_key. rewrite lookup_assign_other by discriminate.
      rewrite Hbase, !lookup_assign_other by discriminate. now rewrite Hname.
    + cbn [stream_ok] in Hok. apply andb_true_iff in Hok. destruct Hok as [_ Hall].
      apply forallb_assign; [|exact HmokF]. rewrite Hbase.
      apply forallb_assign; [|reflexivity].
      apply forallb_assign; [exact Hall|exact Hmok].
Qed.

(** A pass over a settled stream writes [selected] into its entries and
    does nothing else. *)
Lemma settled_outcome patterns path name kvs md :
  settled patterns path name kvs md ->
  outcome_stream patterns path (VDict kvs)
  = VDict (assign "metadata" (VList (map (mark patterns name) md)) kvs).
Proof.
  intros (Hname & Hsel & Hmd & Hok & Hempty & Hmarked & Hpresent).
  assert (Hent : entered patterns name kvs = kvs).
  { unfold entered. rewrite Hmd.
    pose proof (next_from_empty md Hok 0) as Hnext. rewrite Hempty in Hnext.
    destruct Hnext as (index & entry & H1 & H2 & H3). cbn [Nat.add] in H1.
    unfold next_index. cbn [py_iter res_bind]. rewrite H1, H2.
    rewrite Forall_forall in Hmarked.
    destruct (Hmarked entry (nth_error_In _ _ H2)) as [E|[_ E]]; [|congruence].
    rewrite E, (set_nth_same _ _ _ H2), (assign_same _ _ _ Hmd).
    apply (assign_same _ _ _ Hsel). }
  cbn [outcome_stream]. rewrite Hname. cbv zeta. rewrite Hent, Hmd.
  rewrite (outcome_fields_settled _ _ _ kvs md Hpresent).
  unfold has_key. now rewrite Hmd.
Qed.

Lemma settled_again patterns path name kvs md :
  settled patterns path name kvs md ->
  settled patterns path name
    (assign "metadata" (VList (map (mark patterns name) md)) kvs)
    (map (mark patterns name) md).
Proof.
  intros (Hname & Hsel & Hmd & Hok & Hempty & Hmarked & Hpresent). repeat split.
  - now rewrite lookup_assign_other by discriminate.
  - now rewrite lookup_assign_other by discriminate.
  - apply lookup_assign_same.
  - rewrite forallb_forall in *. intros e He. apply in_map_iff in He.
    destruct He as (e0 & <- & He0). apply mark_entry_ok. now apply Hok.
  - now rewrite existsb_map_mark by (intros e; apply mark_empty_crumb).
  - rewrite Forall_forall. intros e He. apply in_map_iff in He.
    destruct He as (e0 & <- & _). left. apply mark_mark.
  - intros k x components Hin Hk Hc.
    apply in_assign in Hin. destruct Hin as [[-> _]|Hin]; [contradiction|].
    rewrite existsb_map_mark by (intros e; apply mark_holds).
    apply (Hpresent k x components Hin Hk Hc).
Qed.

Lemma completes_fields_same kvs : completes_fields kvs kvs.
Proof.
  induction kvs as [|[k v] rest IH]; constructor; [apply completes_same|exact IH].
Qed.

Lemma completes_fields_assign k v v' kvs :
  completes v v' -> completes_fields (assign k v kvs) (assign k v' kvs).
Proof.
  intros H. induction kvs as [|[k0 v0] rest IH]; cbn [assign].
  - constructor; [exact H|constructor].
  - destruct (String.eqb k0 k).
    + constructor; [exact H|apply completes_fields_same].
    + constructor; [apply completes_same|exact IH].
Qed.

Lemma settled_completes patterns path name kvs md :
  settled patterns path name kvs md ->
  completes (VDict kvs)
    (VDict (assign "metadata" (VList (map (mark patterns name) md)) kvs)).
Proof.
  intros (Hname & Hsel & Hmd & Hok & Hempty & Hmarked & Hpresent).
  rewrite <- (assign_same _ _ _ Hmd) at 1.
  apply completes_dict, completes_fields_assign, completes_list.
  clear Hmd Hempty Hpresent.
  induction md as [|e rest IH]; [constructor|].
  cbn [forallb] in Hok. apply andb_true_iff in Hok. destruct Hok as [He Hrest].
  inversion Hmarked as [|e' rest' Hq Hqrest]; subst e' rest'.
  cbn [map]. constructor; [|now apply IH].
  destruct Hq as [->|[Hun _]]; [apply completes_same|].
  destruct (entry_ok_fields _ He) as (ekvs & parts & m & -> & Hb & _ & Hm & _).
  cbn [mark]. rewrite Hb, Hm. apply (completes_entry _ _ _ _ Hb Hm).
  unfold unmarked in Hun. rewrite Hm in Hun. apply negb_true_iff in Hun.
  unfold has_key in Hun. now destruct (lookup "selected" m).
Qed.

(** What two and three passes make of a stream. *)
Lemma outcome_stream_twice patterns path kvs :
  unique_keys (VDict kvs) = true ->
  stream_ok path (VDict kvs) = true ->
  completes (outcome_stream patterns path (VDict kvs))
    (outcome_stream patterns path (outcome_stream patterns path (VDict kvs)))
  /\ outcome_stream patterns path
       (outcome_stream patterns path (outcome_stream patterns path (VDict kvs)))
     = outcome_stream patterns path (outcome_stream patterns path (VDict kvs)).
Proof.
  intros Hu Hok.
  destruct (outcome_stream_settled patterns path kvs Hu Hok)
    as (name & kvs1 & md1 & -> & Hs & _ & _).
  rewrite (settled_outcome _ _ _ _ _ Hs).
  split; [apply (settled_completes _ _ _ _ _ Hs)|].
  rewrite (settled_outcome _ _ _ _ _ (settled_again _ _ _ _ _ Hs)).
  rewrite assign_assign, map_map. do 3 f_equal. apply map_ext. intros e. apply mark_mark.
Qed.

Lemma outcome_streams_twice patterns path :
  forall xs index,
    forallb unique_keys xs = true ->
    streams_ok path xs index = true ->
    let g := fun index =>
               outcome_stream patterns (path ++ "[" ++ Text.decimal index ++ "]") in
    forallb unique_keys (each g xs index) = true
    /\ streams_ok path (each g xs index) index = true
    /\ completes_seq (each g xs index) (each g (each g xs index) index)
    /\ each g (each g (each g xs index) index) index = each g (each g xs index) index.
Proof.
  cbv zeta. induction xs as [|x rest IH]; intros index Hu Hok.
  - repeat split. constructor.
  - cbn [forallb] in Hu. apply andb_true_iff in Hu. destruct Hu as [Hux Hurest].
    cbn [streams_ok] in Hok. apply andb_true_iff in Hok. destruct Hok as [Hx Hrest].
    destruct (IH (S index) Hurest Hrest) as (H1 & H2 & H3 & H4).
    destruct x as [| | | | |kvs]; try discriminate.
    destruct (outcome_stream_twice patterns _ kvs Hux Hx) as [Hc He].
    destruct (outcome_stream_settled patterns _ kvs Hux Hx)
      as (name & kvs1 & md1 & E & _ & Hu1 & Hok1).
    cbn [each forallb streams_ok]. rewrite He, H4. rewrite E in *.
    rewrite Hu1, Hok1, H1, H2. repeat split. now constructor.
Qed.

(** After a pass a catalog still is one; a second pass completes it, and
    a third changes nothing. *)
Lemma outcome_twice (rules : list string) (catalog : value) :
  catalog_shaped catalog = true ->
  catalog_shaped (outcome rules catalog) = true
  /\ completes (outcome rules catalog) (outcome rules (outcome rules catalog))
  /\ outcome rules (outcome rules (outcome rules catalog))
     = outcome rules (outcome rules catalog).
Proof.
  intros Hshaped. pose proof Hshaped as Hs.
  unfold catalog_shaped in Hs. apply andb_true_iff in Hs. destruct Hs as [Hu Hok].
  destruct catalog as [| | | | |kvs]; try discriminate.
  destruct (lookup "streams" kvs) as [v|] eqn:Ev.
  2:{ assert (E : outcome rules (VDict kvs) = VDict kvs)
        by (cbn [outcome]; now rewrite Ev).
      rewrite !E. split; [exact Hshaped|]. split; [apply completes_same|reflexivity]. }
  pose proof (forallb_lookup _ _ _ _ Hok Ev) as Hv.
  unfold top_field_ok in Hv. cbn [fst snd] in Hv.
  change (String.eqb "streams" "streams") with true in Hv. cbv iota in Hv.
  destruct v as [| | | |xs|]; try discriminate.
  pose proof (unique_keys_field _ _ _ Hu (lookup_in _ _ _ Ev)) as Hux.
  rewrite unique_keys_list in Hux.
  destruct (outcome_streams_twice (map parse_select_pattern rules) _ xs 0 Hux Hv)
    as (H1 & H2 & H3 & H4). cbv zeta in H1, H2, H3, H4.
  assert (E1 : outcome rules (VDict kvs)
               = VDict (assign "streams"
                          (VList (outcome_streams (map parse_select_pattern rules)
                                    ("" ++ "." ++ "streams") xs)) kvs))
    by (cbn [outcome]; now rewrite Ev).
  assert (E2 : forall zs,
             outcome rules (VDict (assign "streams" (VList zs) kvs))
             = VDict (assign "streams"
                        (VList (outcome_streams (map parse_select_pattern rules)
                                  ("" ++ "." ++ "streams") zs)) kvs)).
  { intros zs. cbn [outcome]. now rewrite lookup_assign_same, assign_assign. }
  rewrite E1, !E2. unfold outcome_streams. rewrite H4.
  split; [|split; [|reflexivity]].
  - unfold catalog_shaped. apply andb_true_iff. split.
    + apply unique_keys_assign; [exact Hu|]. now rewrite unique_keys_list.
    + apply forallb_assign; [exact Hok|]. exact H2.
  - apply completes_dict, completes_fields_assign, completes_list. exact H3.
Qed.

Lemma completes_decided :
  (forall d d', completes d d' -> decided d = true -> d' = d)
  /\ (forall xs ys, completes_seq xs ys -> decided (VList xs) = true -> ys = xs)
  /\ (forall kvs kvs', completes_fields kvs kvs' ->
                       decided (VDict kvs) = true \/ undecided kvs = true ->
                       (fix all (kvs : list (string * value)) : bool :=
                          match kvs with
                          | [] => true
                          | (_, x) :: rest => decided x && all rest
                          end) kvs = true ->
                       kvs' = kvs).
Proof.
  apply completes_mutual.
  - reflexivity.
  - intros xs ys _ IH H. now rewrite (IH H).
  - intros kvs kvs' _ IH H. rewrite (IH (or_introl H)); [reflexivity|].
    cbn [decided] in H. now apply andb_true_iff in H.
  - intros e breadcrumb m b Hb Hm Hs H. exfalso.
    cbn [decided] in H. apply andb_true_iff in H. destruct H as [H _].
    apply negb_true_iff in H. unfold undecided, has_key in H.
    now rewrite Hb, Hm, Hs in H.
  - reflexivity.
  - intros x y xs ys _ IHx _ IHxs H.
    change (decided x && decided (VList xs) = true) in H.
    apply andb_true_iff in H. destruct H as [H1 H2].
    now rewrite (IHx H1), (IHxs H2).
  - reflexivity.
  - intros k v v' kvs kvs' _ IHv _ IHkvs _ H.
    apply andb_true_iff in H. destruct H as [H1 H2].
    rewrite (IHv H1). f_equal. apply IHkvs; [|exact H2].
    destruct (undecided kvs) eqn:E; [now right|left].
    cbn [decided]. now rewrite E.
Qed.

(** C7 (amended).  Take a catalog, and two passes in a row over it with
    the same rules.  Both end normally.  The second inserts no entry and
    changes no field the first has left: the document after it is the one
    after the first, except that the entries whose metadata had no
    [selected] field then (those the first pass appended once their
    sequence had been gone through) have got one.  So the two documents
    are the same when the first pass has left no such entry; and a third
    pass changes nothing at all. *)
Theorem select_twice (rules : list string) (catalog : value) :
  catalog_shaped catalog = true ->
  exists n,
    forall f1 f2 f3,
      n <= f1 -> n <= f2 -> n <= f3 ->
      let once := fst (select f1 rules catalog) in
      let twice := fst (select f2 rules once) in
      snd (select f1 rules catalog) = Done tt
      /\ snd (select f2 rules once) = Done tt
      /\ completes once twice
      /\ (decided once = true -> twice = once)
      /\ select f3 rules twice = (twice, Done tt).
Proof.
  intros Hs.
  destruct (outcome_twice rules catalog Hs) as (Hs1 & Hc & E).
  destruct (outcome_twice rules (outcome rules catalog) Hs1) as (Hs2 & _ & _).
  destruct (select_is_outcome rules catalog Hs) as [n1 H1].
  destruct (select_is_outcome rules _ Hs1) as [n2 H2].
  destruct (select_is_outcome rules _ Hs2) as [n3 H3].
  exists (Nat.max n1 (Nat.max n2 n3)). intros f1 f2 f3 Hf1 Hf2 Hf3. cbv zeta.
  rewrite (H1 f1) by lia. cbn [fst snd]. rewrite (H2 f2) by lia. cbn [fst snd].
  rewrite (H3 f3) by lia. rewrite E.
  repeat split; [exact Hc|]. apply (proj1 completes_decided _ _ Hc).
Qed.

Lemma select_twice_witness :
  exists n,
    forall f1 f2 f3,
      n <= f1 -> n <= f2 -> n <= f3 ->
      snd (select f1 c7_rules c7_catalog) = Done tt
      /\ snd (select f2 c7_rules (fst (select f1 c7_rules c7_catalog))) = Done tt
      /\ completes (fst (select f1 c7_rules c7_catalog))
           (fst (select f2 c7_rules (fst (select f1 c7_rules c7_catalog))))
      /\ (decided (fst (select f1 c7_rules c7_catalog)) = true ->
          fst (select f2 c7_rules (fst (select f1 c7_rules c7_catalog)))
          = fst (select f1 c7_rules c7_catalog))
      /\ select f3 c7_rules
           (fst (select f2 c7_rules (fst (select f1 c7_rules c7_catalog))))
         = (fst (select f2 c7_rules (fst (select f1 c7_rules c7_catalog))), Done tt).
Proof. exact (select_twice c7_rules c7_catalog eq_refl). Defined.
